(* ===== verification/_CoqProject ===== *)
-Q . S2P
Prelude.v
Sort.v
PyStr.v
PyText.v
Bytes.v
Base64.v
PyJson.v
JsonParse.v
Catalog.v
Db.v
EventStore.v
SessionModel.v
Session.v
Frame.v
Commands.v
ReplayModel.v
ReplayRun.v
Replay.v
CommitmentModel.v
Commitment.v
ResultModel.v
Results.v
System.v
MarketModel.v
Market.v
IngestModel.v
Ingest.v
Quality.v
Dates.v
Decimal.v
Calendar.v
Aggregate.v
Csv.v
Events.v
Binance.v
TardisModel.v
Tardis.v
CanonicalFile.v
Adapters.v
Access.v
Contracts.v
ContractWire.v
ContractCommands.v
Routes.v
ContractGen.v
RepoPolicy.v
Fixtures.v
