(* ===== verification/Prelude.v ===== *)
(** * Trading Replay Lab: verification development

    Trading Replay Lab replays historical market data to a trader who must not see the future, and
    publishes results that anyone can check offline.  This library models its Python code: the API
    service ([apps/api/src/trading_replay_api]), the ingest worker that makes the market data
    ([workers/ingest/src/trading_replay_ingest]), the wire contract between the program's parts
    ([packages/contracts]), and the scripts that guard the repository.

    ** The program and its files

    All state of the API that survives a request is in one SQL database; the services are objects
    without state of their own, except the page cache of the market service and the credential vault.
    The worker keeps files: a content-addressed cache, job checkpoints and canonical outputs.  Money,
    prices, quantities and times are integers, hashes are SHA-256 of canonical encodings.

    The API service:

    - [Db] (db/schema.py): the tables as one record [Db]; every insert checks the constraints that the
      schema declares.  [EventStore] (db/store.py): [append_command] and its retry.
    - [Catalog] (catalog/model.py, service.py): manifests, gaps, capabilities, revocations;
      [eligible_setups], [eligible_windows], [eligibility_hash].
    - [SessionModel] and [Session] (sessions/model.py, service.py): setup codec, decimal texts, ruleset
      identity, and [create_session], [commit], [start], [pause], [advance], [complete], [fork].  A
      session is folded from its row and its events ([materialize_from_row]).  [Frame] says what these
      operations leave alone.
    - [Commands] (commands/model.py, service.py, store.py, router.py): order validation, price
      references, idempotent acceptance.
    - [ReplayModel], [ReplayRun], [Replay] (replay/model.py, store.py, service.py): checkpoints, the
      replay loop, recovery and [advance_to].  The simulator and the input source are interfaces
      ([SimulatorPort], [ReplaySource]) with their laws ([DeterministicSimulator], [CanonicalSource]).
    - [CommitmentModel] and [Commitment] (commitments/__init__.py): the episode draw, its commitment and
      offline verification; the sealed store behind them.  The cipher is the interface [AEAD].
    - [ResultModel] and [Results] (results/model.py, service.py, store.py): evidence, the kernel chain,
      the ledger and result commitments, [finalize], [freeze], [get_result].
    - [MarketModel] and [Market] (market/model.py, service.py, router.py): the visibility-gated reads,
      candles, projections and cache over the interface [MarketDataSource].
    - [System]: one step relation over all operations that write.
    - [Access] (auth/__init__.py, secrets/__init__.py): principals and the two authenticators behind the
      interface [Authenticator], the credential vault, the entitlement cache, header redaction.
    - [Routes] (the three router.py files): every HTTP handler, from a parsed request to its response,
      over the services of [Commands], [MarketModel] and [Results].

    The ingest worker:
    - [IngestModel] and [Ingest] (core/): budget, cache, checkpoints, canonical writer and the resumable
      [run] over the interface [Provider]; what resuming after failures gives.
    - [Quality] (quality/__init__.py): the scan of canonical events and its decision.
    - [Calendar] and [Aggregate] (calendars/__init__.py, aggregate/__init__.py): buckets of a trading
      calendar over the interface [TzData], and bars from trades.
    - [Binance] (adapters/binance_public), [TardisModel] and [Tardis] (adapters/tardis), [CanonicalFile]
      (adapters/canonical_file): planning, verified download, and normalization of archives and of a
      user's file.  Network, ZIP, gzip, Parquet and file system are interfaces ([HttpTransport],
      [TardisTransport], [ZipReader], [GzipReader], [ParquetReader], [FileSystem]).
    - [Events] and [Adapters]: what an adapter promises of its events ([typed_event]) and what the writer
      asks of them ([writable]), the class [TypedProvider], and the runner over the two archive adapters.

    The contract and the scripts:
    - [Contracts] (packages/contracts/scripts/contract_runtime.py, check_compat.py, and the integer
      parsers of generated/python/models.py): the validator of documents and the checks of the schemas;
      [ContractWire] on key order and integers; [ContractCommands] relates the validator to the payloads
      that the API prepares.
    - [ContractGen] (generate.py): the generated files as a function of the repository's files.
    - [RepoPolicy] (.github/workflows/scripts/repo_policy.py): the scan for secrets, with a matcher for
      its regular expressions.  [Fixtures] (tools/fixture-generator/generate.py): the micro fixtures;
      their digests are those of the checked-in files ([fixtures_byte_identical]).

    What the code uses of Python:
    - [Sort], [PyStr], [PyText], [Bytes], [Base64], [PyJson], [JsonParse]: sorting by a key, text and
      integer texts, bytes, hexadecimal, SHA-256 and HMAC, Base64, JSON values, and
      [json.dumps]/[json.loads].  [Dates], [Decimal], [Csv]: civil dates, decimal arithmetic in the
      default context, CSV records.  [Prelude] (this file): exceptions, the error and state monads,
      loops, tactics.

    A Python function is a Rocq function of the same name where that name is free.  A fallible function
    returns [result]; one that uses the database is in the monad [ST], a [with engine.begin()] block is
    [transaction], which undoes its writes on an exception, and an [except] clause is [reraise] or
    [catch_res].  A validating dataclass is a record with its [_post_init].

    ** What is proved

    - Event log: a command and its events are appended whole or not at all, the hash chain has no gap,
      a retry never acts twice, and each failure raises its documented error.
    - Catalog: gap subtraction is exact; eligibility is the stated predicate; windows are the union of
      the eligible setups; registration order is irrelevant; history only grows.
    - Sessions: every operation implements an abstract transition; every reachable session is well
      formed, and versions, frontiers and statuses never move back; codecs round-trip; decimal texts are
      canonical.
    - Commands: what passes validation is a well-formed order inside the visible spread, and a command
      takes effect once ([System.accept_exactly_once]).
    - Replay: a run equals the one-by-one reference run for any batches and any checkpoint, ends, and
      after any crash can be continued; checkpoints are read back exactly; event pages are complete.
    - Commitments: one hash verifies one selection (or a collision is exhibited), the draw is uniform
      and ends, secrets stay sealed until completion and can then be revealed, nothing is rewritten.
    - Market: whatever the source, no page of trades, quotes or depth and no current quote depends on an
      event after the session's time, and no page of candles does when the trades come from a canonical
      list; candles and cached pages equal their reference; paging is complete and loops end.
    - Results: the result hash binds the run (or a collision is exhibited); a frozen result agrees with
      everything persisted, and stays what it is under any interleaving of all operations
      ([System.published_result_permanent]).
    - Access and routes: what a principal reads from the vault depends on its own calls alone; a route
      answers only the owner of a session, with rows, pages and results of that session, and changes
      nothing when it fails; a download carries the digest of exactly its bytes and a safe file name.
    - Ingestion: after any history of failed or killed attempts, a run that returns gives what one
      undisturbed run gives, and a run without failures returns and fetches only what is missing.
    - Quality and bars: VALID is earned exactly by the lists of a declarative specification; over
      every calendar bars are the maximal runs of trades in a bucket with their declared flags, and over
      the continuous calendar there is one bar per bucket.
    - Adapters: an archive is returned exactly when the document served beside it publishes its digest; decimal values become integers
      exactly up to 28 digits; an incremental book can be rebuilt from its batch; a plan covers its
      range; an import stays inside its sandbox; the events of both archive adapters are typed field by field
      (with at most 2^60 rows per Tardis file), so that the writer has a file.
    - Contract: a valid document has one canonical text, which is read back and valid; its integers are
      those that the generated parser reads; an order that the API prepares is valid but for two cases
      that the theorem names; generation is reproducible and its check finds every difference.
    - Scripts: the policy scan passes exactly when every file is clean in the sense of the languages that
      the patterns denote; the fixtures are valid documents with the gaps they announce.

    ** Bounds and fuel

    Integers are [Z] with the range checks of the code; 64-bit encodings are [be_bytes 8].  Structural
    recursion is used where the code iterates over a list.  Loops that need fuel: [draw_index] counts a
    64-bit counter, so [iter_until] runs 2^64 steps of a binary counter, the whole range, and the
    exhausted draw is the code's error; the candle loop gets 2^64 + 1 steps, enough because each page
    moves a 64-bit cursor forward ([Market.candles_terminate]); the replay loop takes its fuel as an
    argument, and [fuel_for] with [run_until_reference] shows that one more than the number of inputs is
    enough.  The Tardis theorems on well-typed events take a row ceiling of at most 2^60, far above any
    chunk, so that the tie breaker of a row fits 64 bits.  JSON parsing gets one step per character.
    No theorem holds only because fuel ran out: [OutOfFuel] is no Python exception and the
    termination theorems exclude it.

    ** Limits of the model

    Text is Latin-1: a code point above U+00FF cannot be written, and [json_loads] and UTF-8 decoding
    refuse it.  [date.fromisoformat] is that of CPython 3.12; years of four digits are meant where the
    code formats a year.  The default values of a canonical-file declaration are distinct objects.
    Floats are kept by their [repr] and always rejected, as the code does.  Exception messages, the
    recursion limit and the digit limit of [str] on huge integers are not modelled; the digit limit of
    [int] on text is.  Transactions run one after another.  Column widths are not modelled, and a JSON
    column holds the value written to it.  [base64.b64decode] is modelled with [validate=True] as the
    code calls it.  Entropy, clocks and generated identifiers are arguments.  SHA-256 is computed, and no
    theorem assumes that it has no collisions: a theorem about binding exhibits the two colliding
    inputs.  A manifest whose first input is earlier than the warm-up start of a session makes every
    replay of that session raise [SOURCE_TIME]; the theorems on progress assume a reference run.

    ** Not modelled

    The framework that parses HTTP requests (a handler receives its parameters already parsed), the FastAPI
    application object and the worker's command line, which only print or mount; the catalog's SQL
    table declarations, database migrations and engine setup; [redact_url], a call of the URL parser;
    [load_policy] and [tracked_paths] of the policy script (a TOML file and a git process, whose results
    are inputs); the child processes that check_compat.py and roundtrip.py start; the TypedDict classes
    of the generated models, which are annotations without behaviour; and the parts in other
    languages: the Rust simulator ([crates]), the Go practice server and the web client. *)

From stdpp Require Export base tactics option list sorting gmap strings.
From Stdlib Require Export ZArith Lia.
From Stdlib Require Import Sorting.Permutation.

#[global] Open Scope Z_scope.

Create HintDb py.
Create Rewrite HintDb py.

Declare Scope py_scope.
Delimit Scope py_scope with py.

(** ** Exceptions

    The stable error codes of the services, by their source names.  A Python exception is a value
    of [exn]; the human-readable message is dropped, the class and the code are kept. *)

Inductive SessionErrorCode :=
| SESSION_EXISTS | SESSION_NOT_FOUND | PRINCIPAL_MISMATCH | VERSION_CONFLICT
| INVALID_TRANSITION | SETUP_INELIGIBLE | MANIFEST_INELIGIBLE
| RULESET_FIDELITY_UNSUPPORTED | RULESET_CONFLICT | ADVANCE_OUT_OF_RANGE
| INVALID_FORK_TARGET | INVALID_VALUE.

Inductive CommandErrorCode :=
| C_INVALID_COMMAND | C_SESSION_NOT_FOUND | C_PRINCIPAL_MISMATCH | C_SESSION_NOT_RUNNING
| C_VERSION_CONFLICT | C_IDEMPOTENCY_CONFLICT | C_COMMAND_NOT_FOUND | C_QUOTE_UNAVAILABLE
| C_DATABASE_CONFLICT.

Inductive ReplayErrorCode :=
| R_SESSION_NOT_RUNNING | R_SESSION_NOT_COMMITTED | R_TARGET_OUT_OF_RANGE | R_SOURCE_SEQUENCE
| R_SOURCE_TIME | R_SIMULATOR_VERSION | R_SIMULATOR_HASH | R_SNAPSHOT_CONFLICT
| R_SNAPSHOT_CORRUPT.

Inductive MarketErrorCode :=
| M_SESSION_UNAVAILABLE | M_SESSION_NOT_COMMITTED | M_INVALID_QUERY | M_UNSUPPORTED_INTERVAL
| M_SOURCE_ORDER.

Inductive ResultErrorCode :=
| RS_SESSION_UNAVAILABLE | RS_SESSION_NOT_COMPLETED | RS_INVALID_EVIDENCE | RS_PERSISTED_CONFLICT
| RS_RESULT_CONFLICT | RS_RESULT_NOT_FOUND | RS_DATABASE_CONFLICT.

Inductive exn :=
| ValueError | TypeError | RuntimeError | AssertionError | OverflowError | KeyError
| OSError | FileNotFoundError | AttributeError | IndexError | UnicodeDecodeError
| DecimalOverflow                                          (* decimal.Overflow *)
| CsvError                                                 (* csv.Error *)
| BadZipFile | EOFError | ZlibError
| BinanceRequestError | BinanceIntegrityError | ArchiveRevisionDetected | BinanceSchemaError
| TardisRequestError | TardisSchemaError | TardisIntegrityError
| PathRejected | ResourceLimitExceeded | SchemaRejected
| ContractError
| InvalidTag                                               (* cryptography.exceptions *)
| IntegrityError | NoResultFound | MultipleResultsFound       (* sqlalchemy.exc *)
| ManifestHashConflict | UnknownManifest
| SessionLifecycleError (code : SessionErrorCode)
| CommandServiceError (code : CommandErrorCode)
| ReplayError (code : ReplayErrorCode)
| MarketServiceError (code : MarketErrorCode)
| ResultServiceError (code : ResultErrorCode)
| CommitmentNotFound | CommitmentExists | CommitmentPrincipalMismatch | CommitmentStateError
| CommitmentVerificationError
| CredentialNotFound | AuthenticationError | BudgetExceeded | CacheCorruption
| EventStoreError | SessionNotFound | ConcurrentSessionVersion | IdempotencyConflict
| EventChainConflict
| HTTPException (status_code : Z) (code : string)          (* fastapi *)
| OutOfFuel.                        (* no Python exception: the fuel of a modelled loop ran out *)

#[export] Instance SessionErrorCode_eq_dec : EqDecision SessionErrorCode.
Proof. solve_decision. Defined.
#[export] Instance CommandErrorCode_eq_dec : EqDecision CommandErrorCode.
Proof. solve_decision. Defined.
#[export] Instance ReplayErrorCode_eq_dec : EqDecision ReplayErrorCode.
Proof. solve_decision. Defined.
#[export] Instance MarketErrorCode_eq_dec : EqDecision MarketErrorCode.
Proof. solve_decision. Defined.
#[export] Instance ResultErrorCode_eq_dec : EqDecision ResultErrorCode.
Proof. solve_decision. Defined.
#[export] Instance exn_eq_dec : EqDecision exn.
Proof. solve_decision. Defined.

(** ** Fallible computations *)

Inductive result (A : Type) :=
| Ok (a : A)
| Raise (e : exn).
Arguments Ok {A} a.
Arguments Raise {A} e.

#[export] Instance result_eq_dec {A} `{EqDecision A} : EqDecision (result A).
Proof. solve_decision. Defined.

Definition rbind {A B} (m : result A) (k : A -> result B) : result B :=
  match m with Ok a => k a | Raise e => Raise e end.

Notation "'let!' x := m 'in' k" := (rbind m (fun x => k))
  (at level 10, x name, m at level 200, k at level 200) : py_scope.
#[global] Open Scope py_scope.

(** [if cond: raise e]. *)
Definition raise_if (b : bool) (e : exn) : result unit := if b then Raise e else Ok tt.

Definition is_ok {A} (r : result A) : bool := match r with Ok _ => true | Raise _ => false end.

Fixpoint rmap {A B} (f : A -> result B) (l : list A) : result (list B) :=
  match l with
  | [] => Ok []
  | x :: xs => let! y := f x in let! ys := rmap f xs in Ok (y :: ys)
  end.

Definition of_option {A} (e : exn) (o : option A) : result A :=
  match o with Some a => Ok a | None => Raise e end.

Lemma rbind_Ok {A B} (m : result A) (k : A -> result B) b :
  rbind m k = Ok b <-> exists a, m = Ok a /\ k a = Ok b.
Proof. destruct m; simpl; naive_solver. Qed.

Lemma Ok_inj {A} (a b : A) : Ok a = Ok b -> a = b.
Proof. congruence. Qed.

Lemma raise_if_Ok b e u : raise_if b e = Ok u <-> b = false.
Proof. destruct b, u; simpl; naive_solver. Qed.

Lemma raise_if_Raise b e e' : raise_if b e = Raise e' <-> b = true /\ e' = e.
Proof. destruct b; simpl; naive_solver. Qed.

Lemma rmap_Ok {A B} (f : A -> result B) l l' :
  rmap f l = Ok l' <-> Forall2 (fun x y => f x = Ok y) l l'.
Proof.
  revert l'. induction l as [|x l IH]; intros l'; simpl.
  - split; [intros [= <-]; constructor | inversion 1; done].
  - split.
    + intros (y & Hy & Hr)%rbind_Ok. apply rbind_Ok in Hr as (ys & Hys & [= <-]).
      constructor; [done|]. by apply IH.
    + inversion 1 as [|? y ? ys Hy Hys]; subst. rewrite Hy. simpl.
      apply IH in Hys. by rewrite Hys.
Qed.

Lemma rmap_pure {A B} (f : A -> result B) (g : A -> B) l :
  Forall (fun x => f x = Ok (g x)) l -> rmap f l = Ok (map g l).
Proof. induction 1 as [|x l Hx _ IH]; simpl; [done|]. by rewrite Hx, IH. Qed.

(** ** Stateful computations

    [ST S A] runs over a mutable store [S].  The store survives an exception: it is
    [transaction] that undoes it, as [Engine.begin()] rolls back. *)

Definition ST (S A : Type) : Type := S -> result A * S.

Definition sret {S A} (a : A) : ST S A := fun s => (Ok a, s).
Definition sraise {S A} (e : exn) : ST S A := fun s => (Raise e, s).
Definition lift {S A} (r : result A) : ST S A := fun s => (r, s).
Definition gets {S A} (f : S -> A) : ST S A := fun s => (Ok (f s), s).
Definition sbind {S A B} (m : ST S A) (k : A -> ST S B) : ST S B :=
  fun s => match m s with
           | (Ok a, s') => k a s'
           | (Raise e, s') => (Raise e, s')
           end.

Notation "x <- m ;; k" := (sbind m (fun x => k))
  (at level 100, m at next level, right associativity) : py_scope.
Notation "m ;;; k" := (sbind m (fun _ => k))
  (at level 100, right associativity) : py_scope.

(** [with engine.begin() as connection: m]: commit on a value, roll back on an exception. *)
Definition transaction {S A} (m : ST S A) : ST S A :=
  fun s => match m s with
           | (Ok a, s') => (Ok a, s')
           | (Raise e, _) => (Raise e, s)
           end.

(** [try: m except E as error: raise (h E)]: [h] maps a caught exception to the one raised. *)
Definition reraise {S A} (h : exn -> exn) (m : ST S A) : ST S A :=
  fun s => match m s with
           | (Raise e, s') => (Raise (h e), s')
           | r => r
           end.

Definition catch_res {A} (h : exn -> exn) (m : result A) : result A :=
  match m with Raise e => Raise (h e) | r => r end.

Lemma sbind_Ok {S A B} (m : ST S A) (k : A -> ST S B) s b s' :
  sbind m k s = (Ok b, s') <-> exists a s1, m s = (Ok a, s1) /\ k a s1 = (Ok b, s').
Proof. unfold sbind. destruct (m s) as [[a|e] s1]; naive_solver. Qed.

Lemma sbind_run {S A B} (m : ST S A) (k : A -> ST S B) s a s1 :
  m s = (Ok a, s1) -> sbind m k s = k a s1.
Proof. unfold sbind. by intros ->. Qed.

Lemma sbind_lift {S A B} (a : A) (k : A -> ST S B) s : sbind (lift (Ok a)) k s = k a s.
Proof. done. Qed.

Lemma transaction_run {S A} (m : ST S A) s a s1 : m s = (Ok a, s1) -> transaction m s = (Ok a, s1).
Proof. unfold transaction. by intros ->. Qed.

Lemma transaction_Ok {S A} (m : ST S A) s a s' :
  transaction m s = (Ok a, s') <-> m s = (Ok a, s').
Proof. unfold transaction. destruct (m s) as [[?|?] ?]; naive_solver. Qed.

Lemma transaction_Raise {S A} (m : ST S A) s e s' :
  transaction m s = (Raise e, s') -> s' = s.
Proof. unfold transaction. destruct (m s) as [[?|?] ?]; naive_solver. Qed.

Lemma reraise_Ok {S A} h (m : ST S A) s a s' :
  reraise h m s = (Ok a, s') <-> m s = (Ok a, s').
Proof. unfold reraise. destruct (m s) as [[?|?] ?]; naive_solver. Qed.

Lemma transaction_inv {S A} (m : ST S A) s a s' :
  transaction m s = (Ok a, s') -> m s = (Ok a, s').
Proof. apply transaction_Ok. Qed.

Lemma reraise_inv {S A} h (m : ST S A) s a s' : reraise h m s = (Ok a, s') -> m s = (Ok a, s').
Proof. apply reraise_Ok. Qed.

Lemma reraise_state {S A} h (m : ST S A) s : snd (reraise h m s) = snd (m s).
Proof. unfold reraise. by destruct (m s) as [[?|?] ?]. Qed.

Lemma lift_Ok {S A} (r : result A) (s : S) a s' :
  lift r s = (Ok a, s') <-> r = Ok a /\ s' = s.
Proof. unfold lift. naive_solver. Qed.

Lemma gets_Ok {S A} (f : S -> A) s a s' : gets f s = (Ok a, s') <-> a = f s /\ s' = s.
Proof. unfold gets. naive_solver. Qed.

Lemma catch_res_Ok {A} h (m : result A) a : catch_res h m = Ok a <-> m = Ok a.
Proof. destruct m; simpl; naive_solver. Qed.

(** Peels one layer off a hypothesis saying that a computation returned a value. *)
Ltac step_ok :=
  match goal with
  | H : rbind _ _ = Ok _ |- _ => apply rbind_Ok in H; destruct H as (? & ? & ?)
  | H : raise_if _ _ = Ok _ |- _ => apply raise_if_Ok in H
  | H : catch_res _ _ = Ok _ |- _ => apply (proj1 (catch_res_Ok _ _ _)) in H
  | H : sbind _ _ _ = (Ok _, _) |- _ => apply sbind_Ok in H; destruct H as (? & ? & ? & ?)
  | H : transaction _ _ = (Ok _, _) |- _ => apply (proj1 (transaction_Ok _ _ _ _)) in H
  | H : reraise _ _ _ = (Ok _, _) |- _ => apply (proj1 (reraise_Ok _ _ _ _ _)) in H
  | H : lift _ _ = (Ok _, _) |- _ => apply lift_Ok in H; destruct H as [? ->]
  | H : gets _ _ = (Ok _, _) |- _ => apply gets_Ok in H; destruct H as [-> ->]
  | H : sret _ _ = (Ok _, _) |- _ => unfold sret in H
  | H : sraise _ _ = (Ok _, _) |- _ => discriminate H
  | H : Raise _ = Ok _ |- _ => discriminate H
  | H : Ok _ = Raise _ |- _ => discriminate H
  | H : (Raise _, _) = (Ok _, _) |- _ => discriminate H
  | H : Ok _ = Ok _ |- _ => injection H as H
  | H : (Ok _, _) = (Ok _, _) |- _ => injection H as ? ?
  | u : unit |- _ => destruct u
  end.

(** Case analysis on the innermost branch of a computation that returned a value. *)
Ltac split_ok :=
  match goal with
  | H : (if ?b then _ else _) = Ok _ |- _ => destruct b eqn:?
  | H : (if ?b then _ else _) _ = (Ok _, _) |- _ => destruct b eqn:?
  | H : (match ?x with _ => _ end) = Ok _ |- _ => destruct x eqn:?
  | H : (match ?x with _ => _ end) _ = (Ok _, _) |- _ => destruct x eqn:?
  end.

Ltac invert_ok := repeat (step_ok || (split_ok; try discriminate)); simplify_eq.

(** Turns boolean tests in the context and the goal into propositions. *)
Ltac bools :=
  repeat match goal with
  | H : context [bool_decide _ = true] |- _ => rewrite bool_decide_eq_true in H
  | H : context [bool_decide _ = false] |- _ => rewrite bool_decide_eq_false in H
  | H : (_ && _)%bool = true |- _ => apply andb_true_iff in H as [? ?]
  | H : (_ || _)%bool = false |- _ => apply orb_false_iff in H as [? ?]
  | H : negb _ = true |- _ => apply negb_true_iff in H
  | H : negb _ = false |- _ => apply negb_false_iff in H
  | H : context [Z.ltb _ _ = true] |- _ => rewrite Z.ltb_lt in H
  | H : context [Z.ltb _ _ = false] |- _ => rewrite Z.ltb_ge in H
  | H : context [Z.leb _ _ = true] |- _ => rewrite Z.leb_le in H
  | H : context [Z.leb _ _ = false] |- _ => rewrite Z.leb_gt in H
  | H : context [Z.eqb _ _ = true] |- _ => rewrite Z.eqb_eq in H
  | H : context [Z.eqb _ _ = false] |- _ => rewrite Z.eqb_neq in H
  end.

(** ** Lists *)

Lemma elem_of_filterb {A} (p : A -> bool) l x : x ∈ List.filter p l <-> x ∈ l /\ p x = true.
Proof. by rewrite !list_elem_of_In, filter_In. Qed.

Lemma elem_of_mapl {A B} (f : A -> B) l y : y ∈ map f l <-> exists x, y = f x /\ x ∈ l.
Proof.
  rewrite list_elem_of_In, in_map_iff. setoid_rewrite list_elem_of_In. naive_solver.
Qed.

Lemma elem_of_revl {A} (l : list A) x : x ∈ rev l <-> x ∈ l.
Proof. by rewrite !list_elem_of_In, <- in_rev. Qed.

Lemma elem_of_concatl {A} (ls : list (list A)) x : x ∈ concat ls <-> exists l, x ∈ l /\ l ∈ ls.
Proof.
  rewrite list_elem_of_In, in_concat. setoid_rewrite list_elem_of_In. naive_solver.
Qed.

Lemma find_elem_of {A} (p : A -> bool) l x : List.find p l = Some x -> x ∈ l /\ p x = true.
Proof. intros H. apply find_some in H as [H ?]. by apply list_elem_of_In in H. Qed.

Lemma find_None {A} (p : A -> bool) l : List.find p l = None <-> forall x, x ∈ l -> p x = false.
Proof.
  split.
  - intros H x Hx. apply list_elem_of_In in Hx. by apply (find_none _ _ H).
  - induction l as [|y l IH]; intros H; simpl; [done|].
    rewrite (H y) by left. apply IH. intros x Hx. apply H. by right.
Qed.

Lemma filter_perm {A} (p : A -> bool) l l' : l ≡ₚ l' -> List.filter p l ≡ₚ List.filter p l'.
Proof.
  induction 1; simpl; repeat case_match; eauto using Permutation.
Qed.

Lemma concat_perm {A} (ls ls' : list (list A)) : ls ≡ₚ ls' -> concat ls ≡ₚ concat ls'.
Proof.
  induction 1; simpl; try done.
  - by apply Permutation_app_head.
  - rewrite !app_assoc. apply Permutation_app_tail, Permutation_app_comm.
  - by etransitivity.
Qed.

Lemma NoDup_of_map {A B} (f : A -> B) l : NoDup (map f l) -> NoDup l.
Proof.
  induction l as [|x l IH]; simpl; [constructor|]. rewrite !NoDup_cons, elem_of_mapl.
  intros [Hx Hl]. split; [|by apply IH]. intros H. apply Hx. eauto.
Qed.

Lemma NoDup_map_inj {A B} (g : A -> B) l x y : NoDup (map g l) -> x ∈ l -> y ∈ l -> g x = g y -> x = y.
Proof.
  induction l as [|z l IH]; intros Hn Hx Hy E; [by apply not_elem_of_nil in Hx|].
  cbn in Hn. apply NoDup_cons in Hn as [Hz Hn]. rewrite elem_of_mapl in Hz.
  apply elem_of_cons in Hx as [->|Hx], Hy as [->|Hy]; [done| | |by apply IH]; destruct Hz; eauto.
Qed.

Lemma filter_none {A} (p : A -> bool) l : (forall x, x ∈ l -> p x = false) -> List.filter p l = [].
Proof.
  induction l as [|x l IH]; intros H; simpl; [done|]. rewrite (H x) by left.
  apply IH. intros y Hy. apply H. by right.
Qed.

Lemma filter_all {A} (p : A -> bool) l : (forall x, x ∈ l -> p x = true) -> List.filter p l = l.
Proof.
  induction l as [|x l IH]; intros H; simpl; [done|]. rewrite (H x) by left. f_equal.
  apply IH. intros y Hy. apply H. by right.
Qed.

Lemma sbind_lift_Raise {S A B} (r : result A) (k : A -> ST S B) s e s' :
  (forall s0 s1 e1 x, k x s0 = (Raise e1, s1) -> s1 = s0) ->
  (x <- lift r ;; k x) s = (Raise e, s') -> s' = s.
Proof.
  intros Hk. unfold sbind, lift. destruct r as [x|e1]; [apply Hk|]. by intros [= _ <-].
Qed.

Lemma transaction_Raise' {S A} (m : ST S A) s s' e : transaction m s = (Raise e, s') -> s' = s.
Proof. apply transaction_Raise. Qed.

Lemma reraise_tx_Raise {S A} h (m : ST S A) s s' e : reraise h (transaction m) s = (Raise e, s') -> s' = s.
Proof. unfold reraise, transaction. destruct (m s) as [[?|?] ?]; [done|]. by intros [= _ <-]. Qed.

(** ** What a computation keeps

    [keeps R m]: the computation [m] relates the store before and after by [R], on a value and on an
    exception.  The combinators of [ST] keep any preorder. *)

Section Keeps.
Context {S : Type} (R : S -> S -> Prop) `{!PreOrder R}.

Definition keeps {A} (m : ST S A) : Prop := forall s r s', m s = (r, s') -> R s s'.

Lemma keeps_bind {A B} (m : ST S A) (k : A -> ST S B) :
  keeps m -> (forall a, keeps (k a)) -> keeps (sbind m k).
Proof.
  intros Hm Hk s r s'. unfold sbind. destruct (m s) as [[a|e] s1] eqn:E; [|intros [= <- <-]; by eapply Hm].
  intros H. etransitivity; [by eapply Hm|by eapply Hk].
Qed.

Lemma keeps_ret {A} (a : A) : keeps (sret a).
Proof. by intros s r s' [= <- <-]. Qed.
Lemma keeps_raise {A} e : keeps (sraise (A := A) e).
Proof. by intros s r s' [= <- <-]. Qed.
Lemma keeps_lift {A} (x : result A) : keeps (lift x).
Proof. by intros s r s' [= <- <-]. Qed.
Lemma keeps_read {A} (f : S -> result A) : keeps (fun s => (f s, s)).
Proof. by intros s r s' [= <- <-]. Qed.
Lemma keeps_gets {A} (f : S -> A) : keeps (gets f).
Proof. by intros s r s' [= <- <-]. Qed.

Lemma keeps_transaction {A} (m : ST S A) : keeps m -> keeps (transaction m).
Proof.
  intros Hm s r s'. unfold transaction. destruct (m s) as [[a|e] s1] eqn:E; intros [= <- <-]; [|done].
  by eapply Hm.
Qed.

Lemma keeps_reraise {A} h (m : ST S A) : keeps m -> keeps (reraise h m).
Proof.
  intros Hm s r s'. unfold reraise. destruct (m s) as [[a|e] s1] eqn:E; intros [= <- <-]; by eapply Hm.
Qed.
End Keeps.

Create HintDb frame.
#[export] Hint Resolve keeps_ret keeps_raise keeps_lift keeps_read keeps_gets : frame.
#[export] Hint Extern 1 (PreOrder _) => apply _ : frame.

(** Follows the binds, wrappers and branches of a computation down to its leaves. *)
Ltac frame_step :=
  match goal with
  | |- forall _, _ => intro
  | |- keeps _ (sbind _ _) => apply keeps_bind; [apply _| |]
  | |- keeps _ (transaction _) => apply keeps_transaction; [apply _|]
  | |- keeps _ (reraise _ _) => apply keeps_reraise
  | |- keeps _ (match ?x with _ => _ end) => destruct x
  | |- keeps _ _ => solve [eauto 2 with frame]
  end.
Ltac frame := repeat frame_step.

(** ** Triples

    [triple P m Q E]: from a store in [P], a value is returned with [Q] and an exception leaves [E]. *)

Section Triples.
Context {S : Type}.
Implicit Types P E : S -> Prop.

Definition triple {A} P (m : ST S A) (Q : A -> S -> Prop) E : Prop :=
  forall s r s', P s -> m s = (r, s') -> match r with Ok a => Q a s' | Raise _ => E s' end.

Lemma triple_bind {A B} P (m : ST S A) (Q : A -> S -> Prop) (k : A -> ST S B) R E :
  triple P m Q E -> (forall a, triple (Q a) (k a) R E) -> triple P (sbind m k) R E.
Proof.
  intros Hm Hk s r s' Hs. unfold sbind. destruct (m s) as [[a|e] s1] eqn:Em.
  - intros H. by eapply (Hk a); [by apply (Hm _ _ _ Hs Em)|].
  - intros [= <- <-]. by apply (Hm _ _ _ Hs Em).
Qed.

Lemma triple_ret {A} P (a : A) (Q : A -> S -> Prop) E : (forall s, P s -> Q a s) -> triple P (sret a) Q E.
Proof. intros H s r s' Hs [= <- <-]. by apply H. Qed.

Lemma triple_read {A} P (f : S -> result A) (Q : A -> S -> Prop) E :
  (forall s a, P s -> f s = Ok a -> Q a s) -> (forall s, P s -> E s) -> triple P (fun s => (f s, s)) Q E.
Proof. intros H HE s r s' Hs [= <- <-]. destruct (f s) eqn:Ef; [by apply H|by apply HE]. Qed.

Lemma triple_lift {A} P (x : result A) (Q : A -> S -> Prop) E :
  (forall s a, P s -> x = Ok a -> Q a s) -> (forall s, P s -> E s) -> triple P (lift x) Q E.
Proof. intros H HE. apply (triple_read P (fun _ => x)); [|done]. intros s a Hs Hx. by apply H. Qed.

Lemma triple_pre {A} P P' (m : ST S A) (Q : A -> S -> Prop) E :
  triple P m Q E -> (forall s, P' s -> P s) -> triple P' m Q E.
Proof. intros Hm H s r s' Hs. apply Hm. by apply H. Qed.

Lemma triple_pure {A} (X : Prop) P (m : ST S A) (Q : A -> S -> Prop) E :
  (X -> triple P m Q E) -> triple (fun s => X /\ P s) m Q E.
Proof. intros H s r s' [HX Hs]. by apply H. Qed.
End Triples.

(** ** Loops with an early exit

    [iter_until p step s] runs at most [p] iterations of [step], which continues with [inl] and
    leaves the loop with [inr].  The fuel is binary, so a bound such as [2^64] is usable: only the
    iterations that are made are evaluated. *)

Fixpoint iter_until {S R} (p : positive) (step : S -> S + R) (s : S) : S + R :=
  match p with
  | xH => step s
  | xO q => match iter_until q step s with inl s' => iter_until q step s' | inr r => inr r end
  | xI q =>
      match step s with
      | inl s1 => match iter_until q step s1 with inl s' => iter_until q step s' | inr r => inr r end
      | inr r => inr r
      end
  end.

(** The same loop with unary fuel. *)
Fixpoint iter_nat {S R} (n : nat) (step : S -> S + R) (s : S) : S + R :=
  match n with
  | O => inl s
  | Datatypes.S k => match step s with inl s' => iter_nat k step s' | inr r => inr r end
  end.

Lemma iter_nat_add {S R} (step : S -> S + R) m n s :
  iter_nat (m + n) step s = match iter_nat m step s with inl s' => iter_nat n step s' | inr r => inr r end.
Proof.
  revert s. induction m as [|m IH]; intros s; simpl; [done|]. by destruct (step s).
Qed.

Lemma iter_until_nat {S R} (step : S -> S + R) p s : iter_until p step s = iter_nat (Pos.to_nat p) step s.
Proof.
  revert s. induction p as [p IH|p IH|]; intros s; cbn [iter_until].
  - rewrite Pos2Nat.inj_xI. replace (2 * Pos.to_nat p)%nat with (Pos.to_nat p + Pos.to_nat p)%nat by lia.
    cbn [iter_nat]. destruct (step s) as [s1|]; [|done]. rewrite iter_nat_add, <- IH.
    destruct (iter_until p step s1); [|done]. by rewrite <- IH.
  - rewrite Pos2Nat.inj_xO. replace (2 * Pos.to_nat p)%nat with (Pos.to_nat p + Pos.to_nat p)%nat by lia.
    rewrite iter_nat_add, <- IH. destruct (iter_until p step s) as [s1|]; [|done]. by rewrite <- IH.
  - change (Pos.to_nat 1) with 1%nat. cbn [iter_nat]. by destruct (step s).
Qed.
