(* ===== verification/Sort.v ===== *)
(** * Orders and sorting

    Python compares tuples and [dataclass(order=True)] values field by field, and [sorted] is
    stable.  [Cmp] is the interface of such an order, instances build the lexicographic orders
    the program sorts by, and [py_sorted] is a stable sort by key. *)

From S2P Require Import Prelude.
From Stdlib Require Import Ascii.
From Stdlib Require String.

Class Cmp (K : Type) := cmp : K -> K -> comparison.

Class CmpLaws (K : Type) `{Cmp K} := {
  cmp_eq (x y : K) : cmp x y = Eq <-> x = y;
  cmp_opp (x y : K) : cmp y x = CompOpp (cmp x y);
  cmp_trans (x y z : K) : cmp x y = Lt -> cmp y z = Lt -> cmp x z = Lt;
}.

#[export] Instance Z_cmp : Cmp Z := Z.compare.
#[export] Instance ascii_cmp : Cmp ascii := fun a b => N.compare (N_of_ascii a) (N_of_ascii b).
#[export] Instance prod_cmp {A B} `{Cmp A, Cmp B} : Cmp (A * B) :=
  fun p q => match cmp (fst p) (fst q) with Eq => cmp (snd p) (snd q) | c => c end.

(** Python compares [str] values code point by code point. *)
#[export] Instance string_cmp : Cmp string :=
  fix go s t :=
    match s, t with
    | EmptyString, EmptyString => Eq
    | EmptyString, String _ _ => Lt
    | String _ _, EmptyString => Gt
    | String a s', String b t' => match cmp a b with Eq => go s' t' | c => c end
    end.

#[export] Instance Z_cmp_laws : CmpLaws Z.
Proof.
  split; unfold cmp, Z_cmp; intros.
  - apply Z.compare_eq_iff.
  - apply Z.compare_antisym.
  - rewrite Z.compare_lt_iff in *. lia.
Qed.

Lemma N_of_ascii_inj a b : N_of_ascii a = N_of_ascii b -> a = b.
Proof. intros H. by rewrite <- (ascii_N_embedding a), H, ascii_N_embedding. Qed.

#[export] Instance ascii_cmp_laws : CmpLaws ascii.
Proof.
  split; unfold cmp, ascii_cmp; intros.
  - rewrite N.compare_eq_iff. split; [apply N_of_ascii_inj | by intros ->].
  - apply N.compare_antisym.
  - rewrite N.compare_lt_iff in *. lia.
Qed.

Lemma cmp_pair {A B} `{Cmp A, Cmp B} (x1 y1 : A) (x2 y2 : B) :
  cmp (x1, x2) (y1, y2) = match cmp x1 y1 with Eq => cmp x2 y2 | c => c end.
Proof. done. Qed.

#[export] Instance prod_cmp_laws {A B} `{CmpLaws A, CmpLaws B} : CmpLaws (A * B).
Proof.
  split.
  - intros [x1 x2] [y1 y2]. rewrite cmp_pair. pose proof (cmp_eq x1 y1).
    pose proof (cmp_eq x2 y2). destruct (cmp x1 y1); naive_solver.
  - intros [x1 x2] [y1 y2]. rewrite !cmp_pair, (cmp_opp x1 y1), (cmp_opp x2 y2).
    by destruct (cmp x1 y1).
  - intros [x1 x2] [y1 y2] [z1 z2]. rewrite !cmp_pair. intros H3 H4.
    destruct (cmp x1 y1) eqn:E1, (cmp y1 z1) eqn:E2; try discriminate.
    + apply cmp_eq in E1, E2. subst. rewrite (proj2 (cmp_eq z1 z1) eq_refl).
      by apply cmp_trans with y2.
    + apply cmp_eq in E1. subst. by rewrite E2.
    + apply cmp_eq in E2. subst. by rewrite E1.
    + by rewrite (cmp_trans _ _ _ E1 E2).
Qed.

Lemma cmp_cons a b s t :
  cmp (String a s) (String b t) = match cmp a b with Eq => cmp s t | c => c end.
Proof. done. Qed.

#[export] Instance string_cmp_laws : CmpLaws string.
Proof.
  split.
  - induction x as [|a x IH]; intros [|b y]; [done..|]. rewrite cmp_cons.
    pose proof (cmp_eq a b). specialize (IH y). destruct (cmp a b); naive_solver.
  - induction x as [|a x IH]; intros [|b y]; [done..|]. rewrite !cmp_cons, (cmp_opp a b).
    destruct (cmp a b); simpl; done.
  - induction x as [|a x IH]; intros [|b y] [|c z]; try done. rewrite !cmp_cons.
    intros H1 H2. destruct (cmp a b) eqn:E1, (cmp b c) eqn:E2; try discriminate.
    + apply cmp_eq in E1, E2. subst. rewrite (proj2 (cmp_eq c c) eq_refl). by apply IH with y.
    + apply cmp_eq in E1. subst. by rewrite E2.
    + apply cmp_eq in E2. subst. by rewrite E1.
    + by rewrite (cmp_trans _ _ _ E1 E2).
Qed.

Section Order.
Context {K : Type} `{CmpLaws K}.

Definition kle (x y : K) : Prop := cmp x y <> Gt.
Definition kleb (x y : K) : bool := match cmp x y with Gt => false | _ => true end.
Definition kltb (x y : K) : bool := match cmp x y with Lt => true | _ => false end.

Lemma kleb_spec x y : kleb x y = true <-> kle x y.
Proof. unfold kleb, kle. destruct (cmp x y); naive_solver. Qed.

Lemma kle_refl x : kle x x.
Proof. unfold kle. by rewrite (proj2 (cmp_eq x x) eq_refl). Qed.

Lemma kle_total x y : kle x y \/ kle y x.
Proof. unfold kle. rewrite (cmp_opp x y). destruct (cmp x y); simpl; naive_solver. Qed.

Lemma kle_antisym x y : kle x y -> kle y x -> x = y.
Proof.
  unfold kle. rewrite (cmp_opp x y). pose proof (cmp_eq x y).
  destruct (cmp x y); simpl; naive_solver.
Qed.

Lemma kle_trans x y z : kle x y -> kle y z -> kle x z.
Proof.
  unfold kle. intros H1 H2. destruct (cmp x y) eqn:E1; [| |done].
  - apply cmp_eq in E1. by subst.
  - destruct (cmp y z) eqn:E2; [| |done].
    + apply cmp_eq in E2. subst. by rewrite E1.
    + by rewrite (cmp_trans _ _ _ E1 E2).
Qed.

Lemma kltb_irrefl x : kltb x x = false.
Proof. unfold kltb. by rewrite (proj2 (cmp_eq x x) eq_refl). Qed.

Lemma kltb_kle x y : kltb x y = true -> kle x y.
Proof. unfold kltb, kle. by destruct (cmp x y). Qed.

Lemma not_kleb x y : kleb x y = false -> kle y x.
Proof. unfold kleb, kle. rewrite (cmp_opp x y). by destruct (cmp x y). Qed.
End Order.

(** [sorted(l, key=key)]. *)
Section Sorting.
Context {A K : Type} `{CmpLaws K} (key : A -> K).

Fixpoint insert_by (x : A) (l : list A) : list A :=
  match l with
  | [] => [x]
  | y :: l' => if kleb (key x) (key y) then x :: l else y :: insert_by x l'
  end.

Definition py_sorted (l : list A) : list A := foldr insert_by [] l.

Definition key_le (x y : A) : Prop := kle (key x) (key y).

Lemma insert_by_perm x l : insert_by x l ≡ₚ x :: l.
Proof.
  induction l as [|y l IH]; simpl; [done|]. case_match; [done|].
  rewrite IH. apply Permutation_swap.
Qed.

Lemma py_sorted_perm l : py_sorted l ≡ₚ l.
Proof. induction l as [|x l IH]; simpl; [done|]. by rewrite insert_by_perm, IH. Qed.

Lemma elem_of_py_sorted x l : x ∈ py_sorted l <-> x ∈ l.
Proof. by rewrite py_sorted_perm. Qed.

Lemma insert_by_sorted x l : StronglySorted key_le l -> StronglySorted key_le (insert_by x l).
Proof.
  induction 1 as [|y l Hl IH Hy]; simpl.
  { repeat constructor. }
  destruct (kleb (key x) (key y)) eqn:E.
  - apply kleb_spec in E. constructor; [by constructor|]. constructor; [done|].
    eapply Forall_impl; [done|]. intros z. apply (kle_trans _ _ _ E).
  - apply not_kleb in E. constructor; [done|]. rewrite insert_by_perm. by constructor.
Qed.

Lemma py_sorted_sorted l : StronglySorted key_le (py_sorted l).
Proof. induction l; simpl; [constructor|]. by apply insert_by_sorted. Qed.

Lemma insert_by_head x l : Forall (key_le x) l -> insert_by x l = x :: l.
Proof.
  destruct l as [|y l]; simpl; [done|]. inversion 1 as [|? ? Hy]; subst.
  unfold key_le in Hy. apply kleb_spec in Hy. by rewrite Hy.
Qed.

Lemma py_sorted_id l : StronglySorted key_le l -> py_sorted l = l.
Proof. induction 1 as [|x l Hl IH Hx]; simpl; [done|]. by rewrite IH, insert_by_head. Qed.

(** When the key identifies the elements, the result does not depend on the input's order. *)
Lemma py_sorted_unique l l' :
  (forall x y, x ∈ l -> y ∈ l -> key x = key y -> x = y) ->
  l ≡ₚ l' -> py_sorted l = py_sorted l'.
Proof.
  intros Hinj Hp. apply (StronglySorted_unique_strong key_le).
  - intros x y Hx Hy H1 H2. rewrite elem_of_py_sorted in Hx, Hy. rewrite <- Hp in Hy.
    apply Hinj; [done..|]. by apply kle_antisym.
  - apply py_sorted_sorted.
  - apply py_sorted_sorted.
  - by rewrite !py_sorted_perm.
Qed.

Lemma length_py_sorted l : length (py_sorted l) = length l.
Proof. apply Permutation_length, py_sorted_perm. Qed.
End Sorting.

#[export] Hint Resolve kle_refl kltb_kle : py.

Lemma StronglySorted_impl {A} (R R' : A -> A -> Prop) l :
  (forall x y, R x y -> R' x y) -> StronglySorted R l -> StronglySorted R' l.
Proof.
  intros HR. induction 1; constructor; [done|]. eapply Forall_impl; [done|]. auto.
Qed.

Lemma StronglySorted_filterb {A} (R : A -> A -> Prop) (p : A -> bool) l :
  StronglySorted R l -> StronglySorted R (List.filter p l).
Proof.
  induction 1 as [|x l Hs IH Hx]; simpl; [constructor|]. destruct (p x); [|done].
  constructor; [done|]. rewrite Forall_forall in *. intros y [Hy _]%elem_of_filterb. auto.
Qed.
