(* ===== verification/PyStr.v ===== *)
(** * Python text and integers

    A Python [str] is a Rocq [string] read as a sequence of code points U+0000 to U+00FF, so the
    non-ASCII digits and blanks of that range behave as CPython's [isdigit] and [isspace] say.
    [str_Z] is [str] on integers, [py_int] is [int] on text. *)

From S2P Require Import Prelude.
From Stdlib Require Import Ascii.
From Stdlib Require String.

#[global] Arguments String.append : simpl nomatch.
#[global] Arguments Ascii.eqb : simpl never.
#[global] Arguments String.eqb : simpl nomatch.

(** ** Machine ranges *)

Definition I64_MIN : Z := - 2 ^ 63.
Definition I64_MAX : Z := 2 ^ 63 - 1.
Definition U64_MAX : Z := 2 ^ 64 - 1.

Definition in_i64 (v : Z) : bool := (I64_MIN <=? v) && (v <=? I64_MAX).
Definition in_u64 (v : Z) : bool := (0 <=? v) && (v <=? U64_MAX).

Lemma in_i64_spec v : in_i64 v = true <-> - 2 ^ 63 <= v < 2 ^ 63.
Proof. unfold in_i64, I64_MIN, I64_MAX. lia. Qed.
Lemma in_u64_spec v : in_u64 v = true <-> 0 <= v < 2 ^ 64.
Proof. unfold in_u64, U64_MAX. lia. Qed.

(** ** Characters *)

Definition code (c : ascii) : Z := Z.of_N (N_of_ascii c).

Definition is_ascii_digit (c : ascii) : bool := (48 <=? code c) && (code c <=? 57).

(** [str.isdigit] also holds of the superscripts U+00B2, U+00B3 and U+00B9. *)
Definition isdigit_char (c : ascii) : bool :=
  is_ascii_digit c || (code c =? 178) || (code c =? 179) || (code c =? 185).

(** [str.isspace] on U+0000 to U+00FF. *)
Definition isspace_char (c : ascii) : bool :=
  ((9 <=? code c) && (code c <=? 13)) || ((28 <=? code c) && (code c <=? 32))
  || (code c =? 133) || (code c =? 160).

Fixpoint all_chars (p : ascii -> bool) (s : string) : bool :=
  match s with EmptyString => true | String c s' => p c && all_chars p s' end.

Definition any_char (p : ascii -> bool) (s : string) : bool := negb (all_chars (fun c => negb (p c)) s).

Definition py_len (s : string) : Z := Z.of_nat (String.length s).
Definition is_empty (s : string) : bool := match s with EmptyString => true | _ => false end.
Definition py_isdigit (s : string) : bool := negb (is_empty s) && all_chars isdigit_char s.
Definition py_isascii (s : string) : bool := all_chars (fun c => code c <? 128) s.

(** [s.startswith(c)] for a one-character prefix. *)
Definition starts_with (c : ascii) (s : string) : bool :=
  match s with EmptyString => false | String d _ => Ascii.eqb c d end.

(** [s[1:]]. *)
Definition tail (s : string) : string := match s with EmptyString => EmptyString | String _ s' => s' end.

Definition in_chars (cs : list Z) (c : ascii) : bool := existsb (Z.eqb (code c)) cs.

(** [any(character in value for character in "\x00\r\n")]. *)
Definition has_control (s : string) : bool := any_char (in_chars [0; 13; 10]) s.

Definition is_hex_char (c : ascii) : bool :=
  is_ascii_digit c || ((97 <=? code c) && (code c <=? 102)).

(** The lowercase SHA-256 hex shape every hash column is checked against. *)
Definition is_sha256 (s : string) : bool := (py_len s =? 64) && all_chars is_hex_char s.

(** ** [int] *)

Fixpoint lstrip (s : string) : string :=
  match s with
  | String c s' => if isspace_char c then lstrip s' else s
  | EmptyString => s
  end.

Fixpoint rstrip (s : string) : string :=
  match s with
  | String c s' =>
      match rstrip s' with
      | EmptyString => if isspace_char c then EmptyString else String c EmptyString
      | t => String c t
      end
  | EmptyString => s
  end.

Definition py_strip (s : string) : string := rstrip (lstrip s).

Definition digit_val (c : ascii) : Z := code c - 48.

(** Digits with single underscores between them. *)
Fixpoint int_digits (after_digit : bool) (acc : Z) (s : string) : option Z :=
  match s with
  | EmptyString => if after_digit then Some acc else None
  | String c s' =>
      if is_ascii_digit c then int_digits true (10 * acc + digit_val c) s'
      else if (code c =? 95) && after_digit then int_digits false acc s'
      else None
  end.

(** CPython refuses to convert more than this many digits. *)
Definition MAX_STR_DIGITS : Z := 4300.

Fixpoint count_digits (s : string) : Z :=
  match s with
  | EmptyString => 0
  | String c s' => (if is_ascii_digit c then 1 else 0) + count_digits s'
  end.

Definition py_int (s : string) : result Z :=
  let t := py_strip s in
  let neg := starts_with "-" t in
  let body := if neg || starts_with "+" t then tail t else t in
  match int_digits false 0 body with
  | None => Raise ValueError
  | Some v => if MAX_STR_DIGITS <? count_digits body then Raise ValueError
              else Ok (if neg then - v else v)
  end.

(** ** [str] *)

Definition digit_char (d : Z) : ascii := ascii_of_N (Z.to_N (48 + d)).

Fixpoint dec_digits (fuel : nat) (n : Z) (acc : string) : string :=
  match fuel with
  | O => acc
  | S f =>
      let acc' := String (digit_char (n mod 10)) acc in
      if n <? 10 then acc' else dec_digits f (n / 10) acc'
  end.

(** One step per decimal digit; there are at most as many as binary digits. *)
Definition dec_fuel (n : Z) : nat := S (Z.to_nat (Z.log2 n)).

Definition str_N (n : Z) : string := dec_digits (dec_fuel n) n EmptyString.
Definition str_Z (n : Z) : string := if n <? 0 then String "-" (str_N (- n)) else str_N n.

Example str_examples : map str_Z [0; 7; -30; 18446744073709551615]
  = ["0"; "7"; "-30"; "18446744073709551615"].
Proof. reflexivity. Qed.
Example int_examples : map py_int ["0"; "-042"; " 1_000 "; "1__0"; ""; "-"]
  = [Ok 0; Ok (-42); Ok 1000; Raise ValueError; Raise ValueError; Raise ValueError].
Proof. reflexivity. Qed.

(** ** Lemmas *)

Lemma all_chars_app p s t : all_chars p (s +:+ t) = all_chars p s && all_chars p t.
Proof. induction s as [|c s IH]; simpl; [done|]. by rewrite IH, andb_assoc. Qed.

Lemma all_chars_impl (p q : ascii -> bool) s :
  (forall c, p c = true -> q c = true) -> all_chars p s = true -> all_chars q s = true.
Proof.
  intros Hpq. induction s as [|c s IH]; simpl; [done|].
  rewrite !andb_true_iff. naive_solver.
Qed.

Lemma append_nil_r s : s +:+ EmptyString = s.
Proof. induction s as [|c s IH]; simpl; [done|]. by rewrite IH. Qed.

Lemma append_assoc s t u : (s +:+ t) +:+ u = s +:+ (t +:+ u).
Proof. induction s as [|c s IH]; simpl; [done|]. by rewrite IH. Qed.

Lemma code_digit_char d : 0 <= d <= 9 -> code (digit_char d) = 48 + d.
Proof.
  intros H. unfold code, digit_char. rewrite N_ascii_embedding by lia. lia.
Qed.

Lemma is_digit_char d : 0 <= d <= 9 -> is_ascii_digit (digit_char d) = true.
Proof. intros H. unfold is_ascii_digit. rewrite code_digit_char; lia. Qed.

Lemma code_inj a b : code a = code b -> a = b.
Proof.
  unfold code. intros H%N2Z.inj. by rewrite <- (ascii_N_embedding a), H, ascii_N_embedding.
Qed.

Lemma digit_char_val c : is_ascii_digit c = true -> digit_char (digit_val c) = c.
Proof.
  unfold is_ascii_digit, digit_val. intros H. apply code_inj. rewrite code_digit_char; lia.
Qed.

Lemma dec_fuel_lt n : 0 <= n -> n < 2 ^ Z.of_nat (dec_fuel n).
Proof.
  intros H. unfold dec_fuel. rewrite Nat2Z.inj_succ, Z2Nat.id by apply Z.log2_nonneg.
  destruct (Z.eq_dec n 0) as [->|]; [done|]. apply Z.log2_spec. lia.
Qed.

Lemma fuel_step n f : 10 <= n -> n < 2 ^ Z.of_nat (S f) -> n / 10 < 2 ^ Z.of_nat f.
Proof.
  intros H1 H2. rewrite Nat2Z.inj_succ, Z.pow_succ_r in H2 by lia.
  apply Z.div_lt_upper_bound; lia.
Qed.

Lemma dec_digits_acc f n acc : dec_digits f n acc = dec_digits f n EmptyString +:+ acc.
Proof.
  revert n acc. induction f as [|f IH]; intros n acc; simpl; [done|].
  destruct (n <? 10); [done|].
  rewrite (IH _ (String _ acc)), (IH _ (String _ EmptyString)). by rewrite append_assoc.
Qed.

Lemma dec_digits_fuel f g n acc :
  0 <= n -> n < 2 ^ Z.of_nat f -> n < 2 ^ Z.of_nat g -> (0 < f)%nat -> (0 < g)%nat ->
  dec_digits f n acc = dec_digits g n acc.
Proof.
  revert g n acc. induction f as [|f IH]; intros g n acc H0 Hf Hg F G; [lia|].
  destruct g as [|g]; [lia|]. simpl. destruct (n <? 10) eqn:E; [done|].
  apply Z.ltb_ge in E. pose proof (fuel_step _ _ E Hf) as Hf'.
  pose proof (fuel_step _ _ E Hg) as Hg'.
  assert (0 < n / 10) by (apply Z.div_str_pos; lia).
  apply IH; try lia; destruct f, g; simpl in *; lia.
Qed.

Lemma dec_digits_parse f b n s :
  0 <= n -> n < 2 ^ Z.of_nat f -> (0 < f)%nat ->
  int_digits b 0 (dec_digits f n s) = int_digits true n s.
Proof.
  revert n s. induction f as [|f IH]; intros n s H0 Hf F; [lia|]. simpl.
  pose proof (Z.mod_pos_bound n 10 ltac:(lia)) as Hm.
  destruct (n <? 10) eqn:E.
  - simpl. rewrite is_digit_char by lia. unfold digit_val. rewrite code_digit_char by lia.
    apply Z.ltb_lt in E. rewrite Z.mod_small by lia. f_equal. lia.
  - apply Z.ltb_ge in E. pose proof (fuel_step _ _ E Hf) as Hf'.
    assert (0 < n / 10) by (apply Z.div_str_pos; lia).
    rewrite IH; [|lia|done|destruct f; simpl in *; lia].
    simpl. rewrite is_digit_char by lia. unfold digit_val. rewrite code_digit_char by lia.
    f_equal. pose proof (Z.div_mod n 10). lia.
Qed.

Lemma dec_digits_all f n s :
  all_chars is_ascii_digit (dec_digits f n s) = all_chars is_ascii_digit s.
Proof.
  revert n s. induction f as [|f IH]; intros n s; simpl; [done|].
  assert (is_ascii_digit (digit_char (n mod 10)) = true) as H.
  { apply is_digit_char. pose proof (Z.mod_pos_bound n 10). lia. }
  destruct (n <? 10); [|rewrite IH]; simpl; by rewrite H.
Qed.

Lemma str_N_all n : all_chars is_ascii_digit (str_N n) = true.
Proof. unfold str_N. by rewrite dec_digits_all. Qed.

Lemma str_N_nonempty n : exists c s, str_N n = String c s.
Proof.
  unfold str_N, dec_fuel. simpl. destruct (n <? 10); [eauto|].
  rewrite dec_digits_acc. destruct (dec_digits _ _ _); simpl; eauto.
Qed.

Lemma str_N_digits n : 0 <= n -> int_digits false 0 (str_N n) = Some n.
Proof.
  intros H. unfold str_N. rewrite dec_digits_parse; [done|done|by apply dec_fuel_lt|].
  unfold dec_fuel. lia.
Qed.

Lemma count_digits_le s : count_digits s <= py_len s.
Proof.
  unfold py_len. induction s as [|c s IH]; simpl; [lia|]. destruct (is_ascii_digit c); lia.
Qed.

Lemma length_dec_digits f n s :
  (String.length (dec_digits f n s) <= f + String.length s)%nat.
Proof.
  revert n s. induction f as [|f IH]; intros n s; simpl; [lia|].
  destruct (n <? 10); [simpl; lia|]. etransitivity; [apply IH|]. simpl. lia.
Qed.

(** Digit texts start with a digit, so stripping and sign tests leave them alone. *)
Lemma isspace_digit c : is_ascii_digit c = true -> isspace_char c = false.
Proof. unfold is_ascii_digit, isspace_char. lia. Qed.

Lemma rstrip_id s : all_chars (fun c => negb (isspace_char c)) s = true -> rstrip s = s.
Proof.
  induction s as [|c s IH]; simpl; [done|]. rewrite andb_true_iff, negb_true_iff.
  intros [Hc Hs]. rewrite IH by done. destruct s; [|done]. by rewrite Hc.
Qed.

Lemma py_strip_id s : all_chars (fun c => negb (isspace_char c)) s = true -> py_strip s = s.
Proof.
  intros H. unfold py_strip. assert (lstrip s = s) as ->; [|by apply rstrip_id].
  destruct s as [|c s]; simpl in *; [done|]. apply andb_true_iff in H as [Hc _].
  apply negb_true_iff in Hc. by rewrite Hc.
Qed.

Lemma digits_no_space s :
  all_chars is_ascii_digit s = true -> all_chars (fun c => negb (isspace_char c)) s = true.
Proof. apply all_chars_impl. intros c H. by rewrite isspace_digit. Qed.

Lemma starts_with_digit c s :
  is_ascii_digit c = true -> starts_with "-" (String c s) = false /\
  starts_with "+" (String c s) = false.
Proof.
  simpl. intros H. split; apply Ascii.eqb_neq; intros <-; vm_compute in H; discriminate.
Qed.

Lemma py_int_digits s :
  all_chars is_ascii_digit s = true ->
  py_int s = match int_digits false 0 s with
             | None => Raise ValueError
             | Some v => if MAX_STR_DIGITS <? count_digits s then Raise ValueError else Ok v
             end.
Proof.
  intros H. unfold py_int. rewrite py_strip_id by by apply digits_no_space.
  destruct s as [|c s]; [done|]. pose proof H as H'. simpl in H'.
  apply andb_true_iff in H' as [Hc _]. destruct (starts_with_digit c s Hc) as [-> ->]. done.
Qed.

Lemma py_int_neg_digits s :
  all_chars is_ascii_digit s = true ->
  py_int (String "-" s)
  = match int_digits false 0 s with
    | None => Raise ValueError
    | Some v => if MAX_STR_DIGITS <? count_digits s then Raise ValueError else Ok (- v)
    end.
Proof.
  intros H. unfold py_int. rewrite py_strip_id; [done|].
  simpl. by apply digits_no_space.
Qed.

Lemma str_N_count n : 0 <= n < 2 ^ 64 -> (MAX_STR_DIGITS <? count_digits (str_N n)) = false.
Proof.
  intros H. apply Z.ltb_ge. pose proof (count_digits_le (str_N n)) as Hc.
  pose proof (length_dec_digits (dec_fuel n) n EmptyString) as Hl. fold (str_N n) in Hl.
  assert (Z.log2 n <= 64).
  { destruct (Z.eq_dec n 0) as [->|]; [done|].
    etransitivity; [apply (Z.log2_le_mono n (2 ^ 64)); lia|]. done. }
  unfold py_len, dec_fuel, MAX_STR_DIGITS in *. simpl in Hl. lia.
Qed.

Lemma py_int_str_Z n : - 2 ^ 63 <= n < 2 ^ 64 -> py_int (str_Z n) = Ok n.
Proof.
  intros H. unfold str_Z. destruct (n <? 0) eqn:E; bools.
  - rewrite py_int_neg_digits by apply str_N_all. rewrite str_N_digits by lia.
    rewrite str_N_count by lia. f_equal. lia.
  - rewrite py_int_digits by apply str_N_all. rewrite str_N_digits by lia.
    by rewrite str_N_count by lia.
Qed.

(** ** Canonical decimals *)

(** [value.startswith("0") and value != "0"]. *)
Definition leading_zero (s : string) : bool := starts_with "0" s && negb (String.eqb s "0").

Fixpoint dec_value (acc : Z) (s : string) : Z :=
  match s with EmptyString => acc | String c s' => dec_value (10 * acc + digit_val c) s' end.

Lemma int_digits_value b acc s :
  all_chars is_ascii_digit s = true -> b = true \/ s <> EmptyString ->
  int_digits b acc s = Some (dec_value acc s).
Proof.
  revert b acc. induction s as [|c s IH]; intros b acc H Hb; simpl in *.
  - by destruct Hb as [->|].
  - apply andb_true_iff in H as [-> Hs]. apply IH; [done|by left].
Qed.

Lemma digit_val_bound c : is_ascii_digit c = true -> 0 <= digit_val c <= 9.
Proof. unfold is_ascii_digit, digit_val. lia. Qed.

Lemma str_N_step v d :
  1 <= v -> 0 <= d <= 9 -> str_N (10 * v + d) = str_N v +:+ String (digit_char d) EmptyString.
Proof.
  intros Hv Hd. unfold str_N at 1. unfold dec_fuel. cbn [dec_digits].
  destruct (10 * v + d <? 10) eqn:E; bools; [lia|].
  replace ((10 * v + d) mod 10) with d by (apply (Z.mod_unique_pos _ _ v); lia).
  replace ((10 * v + d) / 10) with v by (apply (Z.div_unique_pos _ _ _ d); lia).
  rewrite dec_digits_acc. f_equal.
  assert (v < 2 ^ Z.log2 (10 * v + d)).
  { pose proof (Z.log2_spec (10 * v + d) ltac:(lia)) as [_ Hl].
    rewrite Z.pow_succ_r in Hl by apply Z.log2_nonneg. lia. }
  assert (0 < Z.log2 (10 * v + d)) by (apply Z.log2_pos; lia).
  unfold str_N. apply dec_digits_fuel; try lia; try (unfold dec_fuel; lia).
  - rewrite Z2Nat.id; lia.
  - by apply dec_fuel_lt; lia.
Qed.

Lemma str_N_dec_value v s :
  1 <= v -> all_chars is_ascii_digit s = true -> str_N (dec_value v s) = str_N v +:+ s.
Proof.
  revert v. induction s as [|c s IH]; intros v Hv H; simpl in *.
  - by rewrite append_nil_r.
  - apply andb_true_iff in H as [Hc Hs]. pose proof (digit_val_bound c Hc).
    rewrite IH by (done || lia). rewrite str_N_step by lia.
    rewrite append_assoc. simpl. by rewrite digit_char_val.
Qed.

Lemma str_N_canonical s :
  all_chars is_ascii_digit s = true -> s <> EmptyString -> leading_zero s = false ->
  str_N (dec_value 0 s) = s.
Proof.
  intros H Hne Hz. destruct s as [|c s]; [done|]. simpl in H.
  apply andb_true_iff in H as [Hc Hs]. pose proof (digit_val_bound c Hc) as Hb.
  simpl. replace (10 * 0 + digit_val c) with (digit_val c) by lia.
  assert (Hd : str_N (digit_val c) = String c EmptyString).
  { unfold str_N. simpl. destruct (digit_val c <? 10) eqn:E; bools; [|lia].
    rewrite Z.mod_small by lia. by rewrite digit_char_val. }
  destruct (Z.eq_dec (digit_val c) 0) as [E|].
  - assert (c = "0"%char) as -> by
      (apply code_inj; unfold digit_val in E; change (code "0") with 48; lia).
    destruct s as [|c' s]; [done|]. vm_compute in Hz. discriminate.
  - rewrite str_N_dec_value by (done || lia). by rewrite Hd.
Qed.

Lemma str_N_no_leading_zero n : 0 <= n -> leading_zero (str_N n) = false.
Proof.
  intros Hn. destruct (Z.eq_dec n 0) as [->|]; [done|].
  assert (forall f m acc, 1 <= m -> m < 2 ^ Z.of_nat f -> (0 < f)%nat ->
            starts_with "0" (dec_digits f m acc) = false) as H.
  { induction f as [|f IH]; intros m acc Hm Hf F; [lia|]. simpl.
    destruct (m <? 10) eqn:E; bools.
    - simpl. apply Ascii.eqb_neq. intros E'. apply (f_equal code) in E'.
      rewrite Z.mod_small, code_digit_char in E' by lia. change (code "0") with 48 in E'. lia.
    - pose proof (fuel_step _ _ E Hf) as Hf'.
      assert (0 < m / 10) by (apply Z.div_str_pos; lia).
      apply IH; [lia|done|destruct f; simpl in *; lia]. }
  unfold leading_zero, str_N. rewrite H; [done|lia|by apply dec_fuel_lt; lia|].
  unfold dec_fuel. lia.
Qed.

Lemma digits_isdigit s :
  all_chars is_ascii_digit s = true -> all_chars isdigit_char s = true.
Proof. apply all_chars_impl. intros c H. unfold isdigit_char. by rewrite H. Qed.

Lemma ascii_digits s :
  py_isascii s = true -> all_chars isdigit_char s = true -> all_chars is_ascii_digit s = true.
Proof.
  unfold py_isascii. induction s as [|c s IH]; simpl; [done|]. rewrite !andb_true_iff.
  intros [H1 H2] [H3 H4]. split; [|by apply IH].
  unfold isdigit_char in H3. unfold is_ascii_digit in *. lia.
Qed.

Lemma digits_ascii s : all_chars is_ascii_digit s = true -> py_isascii s = true.
Proof. apply all_chars_impl. unfold is_ascii_digit. lia. Qed.

Lemma str_Z_inj m n : - 2 ^ 63 <= m < 2 ^ 64 -> - 2 ^ 63 <= n < 2 ^ 64 -> str_Z m = str_Z n -> m = n.
Proof. intros Hm Hn H. assert (py_int (str_Z m) = py_int (str_Z n)) as E by by rewrite H.
  rewrite !py_int_str_Z in E by done. congruence. Qed.

#[export] Hint Rewrite py_int_str_Z using lia : py.

(** ** Canonical decimal text *)

Lemma dec_value_nonneg s : forall acc, 0 <= acc -> all_chars is_ascii_digit s = true -> 0 <= dec_value acc s.
Proof.
  induction s as [|c s IH]; intros acc Ha H; simpl in *; [done|].
  apply andb_true_iff in H as [Hc Hs]. apply IH; [|done]. pose proof (digit_val_bound c Hc). lia.
Qed.

Lemma canonical_digits s n :
  all_chars is_ascii_digit s = true -> leading_zero s = false -> py_int s = Ok n ->
  0 <= n /\ s = str_N n.
Proof.
  intros Ha Hz. rewrite py_int_digits by done. destruct (decide (s = EmptyString)) as [->|Hne]; [done|].
  rewrite int_digits_value by auto. destruct (_ <? _); [done|]. intros [= <-].
  split; [by apply dec_value_nonneg|]. by rewrite str_N_canonical.
Qed.

Lemma canonical_neg_digits s n :
  all_chars is_ascii_digit s = true -> starts_with "0" s = false -> py_int (String "-" s) = Ok n ->
  n < 0 /\ s = str_N (- n).
Proof.
  intros Ha Hz. rewrite py_int_neg_digits by done.
  destruct (decide (s = EmptyString)) as [->|Hne]; [done|].
  rewrite int_digits_value by auto. destruct (_ <? _); [done|]. intros [= <-].
  assert (s = str_N (dec_value 0 s)) as Es.
  { symmetry. apply str_N_canonical; [done|done|]. unfold leading_zero. by rewrite Hz. }
  rewrite Z.opp_involutive. split; [|done].
  assert (0 <= dec_value 0 s) by by apply dec_value_nonneg.
  destruct (Z.eq_dec (dec_value 0 s) 0) as [E|]; [|lia]. rewrite E in Es. by rewrite Es in Hz.
Qed.

Lemma isdigit_ascii s : py_isascii s = true -> py_isdigit s = true -> all_chars is_ascii_digit s = true.
Proof. unfold py_isdigit. intros H [_ Hd]%andb_true_iff. by apply ascii_digits. Qed.

Lemma isascii_tail c s : py_isascii (String c s) = true -> py_isascii s = true.
Proof. unfold py_isascii. cbn. by intros [_ ?]%andb_true_iff. Qed.
