(* ===== verification/PyText.v ===== *)
(** * Text operations of the ingest worker

    [str] methods beyond those of [PyStr]: prefixes and suffixes, case, slices, and splitting. *)

From S2P Require Import Prelude PyStr.
From Stdlib Require Import Ascii.
From Stdlib Require String.

(** [s[n:]] and [s[:n]] for [n >= 0]. *)
Fixpoint drop_chars (n : nat) (s : string) : string :=
  match n, s with
  | O, _ => s
  | S n', String _ s' => drop_chars n' s'
  | S _, EmptyString => EmptyString
  end.
Fixpoint take_chars (n : nat) (s : string) : string :=
  match n, s with
  | S n', String c s' => String c (take_chars n' s')
  | _, _ => EmptyString
  end.

(** [s[-n:]] and [s[:-n]] for [n > 0]. *)
Definition last_chars (n : nat) (s : string) : string := drop_chars (String.length s - n) s.
Definition but_last_chars (n : nat) (s : string) : string := take_chars (String.length s - n) s.

Definition py_startswith (p s : string) : bool := String.prefix p s.
Definition py_endswith (suffix s : string) : bool :=
  (String.length suffix <=? String.length s)%nat && String.eqb (last_chars (String.length suffix) s) suffix.
Definition removeprefix (p s : string) : string :=
  if py_startswith p s then drop_chars (String.length p) s else s.
Definition removesuffix (suffix s : string) : string :=
  if py_endswith suffix s then but_last_chars (String.length suffix) s else s.

Fixpoint map_chars (f : ascii -> ascii) (s : string) : string :=
  match s with EmptyString => EmptyString | String c s' => String (f c) (map_chars f s') end.
Definition shift_char (d : Z) (c : ascii) : ascii := ascii_of_N (Z.to_N (code c + d)).

(** [str.lower]: the capitals of Latin-1 (U+00D7 is the multiplication sign). *)
Definition is_capital (c : ascii) : bool :=
  ((65 <=? code c) && (code c <=? 90)) || ((192 <=? code c) && (code c <=? 222) && negb (code c =? 215)).
Definition py_lower (s : string) : string := map_chars (fun c => if is_capital c then shift_char 32 c else c) s.

(** The letters that [str.upper] changes: a to z, U+00B5, U+00DF to U+00FF but the division sign. *)
Definition is_small (c : ascii) : bool :=
  ((97 <=? code c) && (code c <=? 122)) || (code c =? 181) || ((223 <=? code c) && negb (code c =? 247)).

(** [s == s.upper()]. *)
Definition is_upper_text (s : string) : bool := all_chars (fun c => negb (is_small c)) s.

(** [str.upper]; U+00B5 and U+00FF have capitals outside Latin-1 and stay. *)
Fixpoint py_upper (s : string) : string :=
  match s with
  | EmptyString => EmptyString
  | String c s' =>
      if code c =? 223 then String "S" (String "S" (py_upper s'))
      else if is_small c && negb (code c =? 181) && negb (code c =? 255) then String (shift_char (-32) c) (py_upper s')
      else String c (py_upper s')
  end.

(** [s.replace(a, b)] for single characters, and with an empty second argument. *)
Definition replace_char (a b : ascii) (s : string) : string := map_chars (fun c => if Ascii.eqb c a then b else c) s.
Fixpoint remove_char (a : ascii) (s : string) : string :=
  match s with EmptyString => EmptyString | String c s' => if Ascii.eqb c a then remove_char a s' else String c (remove_char a s') end.
Fixpoint count_char (a : ascii) (s : string) : nat :=
  match s with EmptyString => O | String c s' => ((if Ascii.eqb c a then 1 else 0) + count_char a s')%nat end.

(** [s.split(c)] for one character. *)
Fixpoint split_char (a : ascii) (s : string) : list string :=
  match s with
  | EmptyString => [EmptyString]
  | String c s' =>
      if Ascii.eqb c a then EmptyString :: split_char a s'
      else match split_char a s' with x :: l => String c x :: l | [] => [String c EmptyString] end
  end.

(** The components of a [PurePosixPath] below its root, and its last one. *)
Definition path_parts (s : string) : list string :=
  List.filter (fun p => negb (is_empty p || String.eqb p ".")) (split_char "/" s).
Definition path_name (s : string) : string := List.last (path_parts s) "".

(** [character.isalnum()] on U+0000 to U+00FF, and the word characters of regular expressions. *)
Definition isalnum_char (c : ascii) : bool :=
  let n := code c in
  is_ascii_digit c || ((65 <=? n) && (n <=? 90)) || ((97 <=? n) && (n <=? 122))
  || existsb (Z.eqb n) [170; 178; 179; 181; 185; 186; 188; 189; 190]
  || ((192 <=? n) && negb (n =? 215) && negb (n =? 247)).
Definition word_char (c : ascii) : bool := isalnum_char c || Ascii.eqb c "_".

(** Universal newlines, as [Path.read_text] translates them. *)
Fixpoint universal (s : string) : string :=
  match s with
  | EmptyString => EmptyString
  | String c s' =>
      if Ascii.eqb c "013" then
        match s' with
        | String d s'' => if Ascii.eqb d "010" then String "010" (universal s'') else String "010" (universal s')
        | EmptyString => String "010" EmptyString
        end
      else String c (universal s')
  end.

(** [s.splitlines()] on U+0000 to U+00FF, of a text with universal newlines. *)
Definition is_line_end (c : ascii) : bool := in_chars [10; 11; 12; 13; 28; 29; 30; 133] c.
Fixpoint splitlines (s : string) : list string :=
  match s with
  | EmptyString => []
  | String c s' =>
      if is_line_end c then EmptyString :: splitlines s'
      else match splitlines s' with x :: l => String c x :: l | [] => [String c EmptyString] end
  end.

(** [PurePath.suffix]. *)
Fixpoint last_dot (s : string) : option string :=
  match s with
  | EmptyString => None
  | String c s' => match last_dot s' with Some t => Some t | None => if Ascii.eqb c "." then Some s else None end
  end.
Definition path_suffix (path : string) : string :=
  let name := path_name path in
  match last_dot name with
  | Some t => if (String.length t <? String.length name)%nat && (1 <? String.length t)%nat then t else ""
  | None => ""
  end.

(** [s.split()]: the runs of characters that are not white space. *)
Fixpoint words_of (s : string) : list string * bool :=
  match s with
  | EmptyString => ([], false)
  | String c s' =>
      let '(l, open) := words_of s' in
      if isspace_char c then (l, false)
      else match l, open with
           | x :: l', true => (String c x :: l', true)
           | _, _ => (String c EmptyString :: l, true)
           end
  end.
Definition py_split (s : string) : list string := fst (words_of s).

(** [int(text, 10)] of a text of digits with an optional sign, with its message. *)
Definition digit_limit_message (n : Z) : string :=
  "Exceeds the limit (4300 digits) for integer string conversion: value has " +:+ str_Z n
  +:+ " digits; use sys.set_int_max_str_digits() to increase the limit".

Example text_examples :
  py_endswith "price_atoms" "bid_price_atoms" = true /\ py_endswith "ab" "b" = false
  /\ removesuffix ".zip" "x.zip" = "x" /\ removeprefix "*" "*f" = "f" /\ last_chars 3 "abcdef" = "def"
  /\ py_lower "BuY" = "buy" /\ py_upper "ab:1" = "AB:1" /\ py_split "  ab c " = ["ab"; "c"]
  /\ split_char "/" "a//b" = ["a"; ""; "b"].
Proof. by vm_compute. Qed.

Lemma append_length (s t : string) : String.length (s +:+ t) = (String.length s + String.length t)%nat.
Proof. induction s as [|c s IH]; [done|]. cbn. by rewrite IH. Qed.

Lemma append_inj_l (p s t : string) : p +:+ s = p +:+ t -> s = t.
Proof. induction p as [|c p IH]; [done|]. cbn. intros [= H]. by apply IH. Qed.

Lemma drop_append s t : drop_chars (String.length s) (s +:+ t) = t.
Proof. by induction s. Qed.

Lemma take_append s t : take_chars (String.length s) (s +:+ t) = s.
Proof. induction s as [|c s IH]; cbn; [by destruct t|]. by rewrite IH. Qed.

Lemma last_append s t : last_chars (String.length t) (s +:+ t) = t.
Proof.
  unfold last_chars. rewrite append_length.
  replace (String.length s + String.length t - String.length t)%nat with (String.length s) by lia. apply drop_append.
Qed.

Lemma endswith_append s t : py_endswith t (s +:+ t) = true.
Proof.
  unfold py_endswith. rewrite last_append, String.eqb_refl, append_length, andb_true_r. apply Nat.leb_le. lia.
Qed.

Lemma removesuffix_append s t : removesuffix t (s +:+ t) = s.
Proof.
  unfold removesuffix, but_last_chars. rewrite endswith_append, append_length.
  replace (String.length s + String.length t - String.length t)%nat with (String.length s) by lia. apply take_append.
Qed.

Lemma startswith_append s t : py_startswith s (s +:+ t) = true.
Proof.
  unfold py_startswith. induction s as [|c s IH]; cbn; [by destruct t|]. destruct (ascii_dec c c); [exact IH|done].
Qed.

Lemma startswith_inv p : forall s, py_startswith p s = true -> exists rest, s = p +:+ rest.
Proof.
  unfold py_startswith. induction p as [|c p IH]; intros s H; [by exists s|]. destruct s as [|d s]; [done|]. cbn in H.
  destruct (ascii_dec c d) as [<-|]; [|done]. destruct (IH _ H) as (rest & ->). by exists rest.
Qed.

Lemma removeprefix_append s t : removeprefix s (s +:+ t) = t.
Proof. unfold removeprefix. by rewrite startswith_append, drop_append. Qed.

(** ** Fixed-width digits *)

Lemma dec_digits_length f : forall n w acc,
  0 <= n < 10 ^ Z.of_nat w -> (1 <= w)%nat -> (String.length (dec_digits f n acc) <= w + String.length acc)%nat.
Proof.
  induction f as [|f IH]; intros n w acc Hn Hw; cbn [dec_digits]; [lia|].
  destruct (Z.ltb_spec n 10); [cbn; lia|]. destruct w as [|[|w]]; [lia|cbn in Hn; lia|].
  rewrite (IH (n / 10) (S w)); [cbn; lia| |lia]. rewrite Nat2Z.inj_succ, Z.pow_succ_r in Hn by lia.
  split; [apply Z.div_pos; lia|]. apply Z.div_lt_upper_bound; lia.
Qed.

Lemma str_N_length n w : 0 <= n < 10 ^ Z.of_nat w -> (1 <= w)%nat -> (String.length (str_N n) <= w)%nat.
Proof. intros Hn Hw. unfold str_N. etransitivity; [by apply (dec_digits_length _ _ w)|]. cbn [String.length]. lia. Qed.

Lemma dec_value_str_N n : 0 <= n -> dec_value 0 (str_N n) = n.
Proof.
  intros Hn. pose proof (str_N_digits n Hn) as H. rewrite int_digits_value in H; [congruence|apply str_N_all|].
  right. destruct (str_N_nonempty n) as (c & s & ->). done.
Qed.

(** [f"{n:0{width}d}"] for [n >= 0]. *)
Fixpoint zeros (n : nat) : string := match n with O => EmptyString | S k => String "0" (zeros k) end.
Definition pad (width : nat) (n : Z) : string := let s := str_Z n in zeros (width - String.length s) +:+ s.

Lemma zeros_length n : String.length (zeros n) = n.
Proof. induction n; cbn; lia. Qed.
Lemma zeros_digits n : all_chars is_ascii_digit (zeros n) = true.
Proof. by induction n. Qed.
Lemma dec_value_zeros n s : dec_value 0 (zeros n +:+ s) = dec_value 0 s.
Proof. induction n; [done|]. cbn. exact IHn. Qed.

Lemma pad_spec w n :
  0 <= n < 10 ^ Z.of_nat w -> (1 <= w)%nat ->
  String.length (pad w n) = w /\ all_chars is_ascii_digit (pad w n) = true /\ dec_value 0 (pad w n) = n.
Proof.
  intros Hn Hw. unfold pad, str_Z. rewrite (proj2 (Z.ltb_ge n 0)) by lia. split_and!.
  - rewrite append_length, zeros_length. pose proof (str_N_length n w Hn Hw). lia.
  - rewrite all_chars_app, zeros_digits. apply str_N_all.
  - rewrite dec_value_zeros. apply dec_value_str_N. lia.
Qed.

(** A given number of digits at the front of a text. *)
Fixpoint parse_digits (n : nat) (acc : Z) (s : string) : option (Z * string) :=
  match n with
  | O => Some (acc, s)
  | S k => match s with
           | String c s' => if is_ascii_digit c then parse_digits k (10 * acc + digit_val c) s' else None
           | EmptyString => None
           end
  end.

Lemma parse_digits_app s : forall acc rest,
  all_chars is_ascii_digit s = true -> parse_digits (String.length s) acc (s +:+ rest) = Some (dec_value acc s, rest).
Proof.
  induction s as [|c s IH]; intros acc rest H; [done|]. cbn in *. apply andb_true_iff in H as [-> H]. by apply IH.
Qed.

Lemma parse_pad w n rest :
  0 <= n < 10 ^ Z.of_nat w -> (1 <= w)%nat -> parse_digits w 0 (pad w n +:+ rest) = Some (n, rest).
Proof.
  intros Hn Hw. destruct (pad_spec w n Hn Hw) as (Hl & Hd & Hv). rewrite <- Hl at 1. rewrite parse_digits_app by done. by rewrite Hv.
Qed.

(** A text of digits does not begin with another character. *)
Lemma starts_with_digits c s rest :
  all_chars is_ascii_digit s = true -> s <> EmptyString -> is_ascii_digit c = false -> starts_with c (s +:+ rest) = false.
Proof.
  destruct s as [|d s]; [done|]. cbn. intros [Hd _]%andb_true_iff _ Hc. apply Ascii.eqb_neq. intros ->. congruence.
Qed.

(** ** Paths *)

Lemma split_char_cons a s : exists x l, split_char a s = x :: l.
Proof.
  induction s as [|c s (x & l & IH)]; cbn; [eauto|]. destruct (Ascii.eqb c a); [eauto|]. rewrite IH. eauto.
Qed.

(** What follows the last separator stays at the end of the last component. *)
Lemma split_char_append a s t :
  all_chars (fun c => negb (Ascii.eqb c a)) t = true ->
  exists l x, split_char a s = l ++ [x] /\ split_char a (s +:+ t) = l ++ [x +:+ t].
Proof.
  intros Ht. induction s as [|c s IH]; cbn.
  - exists [], EmptyString. split; [done|]. induction t as [|d t IHt]; [done|]. cbn in Ht |- *.
    apply andb_true_iff in Ht as [Hd Ht]. apply negb_true_iff in Hd. rewrite Hd. by rewrite (IHt Ht).
  - destruct IH as (l & x & E1 & E2). destruct (Ascii.eqb c a).
    + exists (EmptyString :: l), x. by rewrite E1, E2.
    + destruct l as [|y l].
      * exists [], (String c x). rewrite E1, E2. done.
      * exists (String c y :: l), x. rewrite E1, E2. done.
Qed.

Lemma path_name_append s t :
  all_chars (fun c => negb (Ascii.eqb c "/")) t = true -> (2 <= String.length t)%nat ->
  exists x, path_name (s +:+ t) = x +:+ t.
Proof.
  intros Ht Hlen. destruct (split_char_append "/" s t Ht) as (l & x & _ & E). exists x.
  unfold path_name, path_parts. rewrite E, List.filter_app. cbn [List.filter].
  assert (negb (is_empty (x +:+ t) || String.eqb (x +:+ t) ".") = true) as ->.
  { apply negb_true_iff, orb_false_iff. assert (2 <= String.length (x +:+ t))%nat by (rewrite append_length; lia).
    destruct (x +:+ t) as [|c [|d u]]; [cbn in *; lia|cbn in *; lia|]. split; [done|]. apply String.eqb_neq. discriminate. }
  apply last_last.
Qed.

(** [s] ends with [t]. *)
Definition ends (t s : string) : Prop := exists a, s = a +:+ t.
Lemma ends_refl t : ends t t.
Proof. by exists EmptyString. Qed.
Lemma ends_app t a s : ends t s -> ends t (a +:+ s).
Proof. intros (b & ->). exists (a +:+ b). by rewrite append_assoc. Qed.
Lemma ends_cons t c s : ends t s -> ends t (String c s).
Proof. intros (b & ->). by exists (String c b). Qed.
Create HintDb ends.
#[export] Hint Resolve ends_refl ends_app ends_cons : ends.
