(* ===== verification/Bytes.v ===== *)
(** * Bytes, hexadecimal text and SHA-256

    The parts of [bytes], [int.to_bytes], [hashlib] and [hmac] that the hash commitments use.
    SHA-256 is written out, so digests evaluate; no property below depends on what it computes
    beyond the 32-byte length of a digest. *)

From S2P Require Import Prelude PyStr.
From Stdlib Require Import Ascii Strings.Byte.
From Stdlib Require String.

Abbreviation bytes := (list byte).

#[export] Instance byte_eq_dec : EqDecision byte := Byte.byte_eq_dec.

Definition Z_of_byte (b : byte) : Z := Z.of_N (Byte.to_N b).
Definition byte_of_Z (v : Z) : byte := default x00 (Byte.of_N (Z.to_N (v mod 256))).

(** [v.to_bytes(n, "big")]; a signed 64-bit value is encoded by its residue. *)
Fixpoint be_bytes (n : nat) (v : Z) : bytes :=
  match n with
  | O => []
  | S k => be_bytes k (v / 256) ++ [byte_of_Z v]
  end.

(** [int.from_bytes(bs, "big")]. *)
Definition be_value (bs : bytes) : Z := fold_left (fun acc b => 256 * acc + Z_of_byte b) bs 0.

(** [text.encode("utf-8")]. *)
Definition utf8_char (c : ascii) : bytes :=
  if code c <? 128 then [byte_of_Z (code c)]
  else [byte_of_Z (192 + code c / 64); byte_of_Z (128 + code c mod 64)].

Fixpoint utf8 (s : string) : bytes :=
  match s with EmptyString => [] | String c s' => utf8_char c ++ utf8 s' end.

(** [b.hex()]. *)
Definition hex_digit (d : Z) : ascii := ascii_of_N (Z.to_N (if d <? 10 then 48 + d else 87 + d)).
Fixpoint hex (bs : bytes) : string :=
  match bs with
  | [] => EmptyString
  | b :: bs' =>
      String (hex_digit (Z_of_byte b / 16)) (String (hex_digit (Z_of_byte b mod 16)) (hex bs'))
  end.

(** [bytes.fromhex(s)]: ASCII blanks may separate the bytes, either case is read. *)
Definition hex_val (c : ascii) : option Z :=
  let v := code c in
  if (48 <=? v) && (v <=? 57) then Some (v - 48)
  else if (97 <=? v) && (v <=? 102) then Some (v - 87)
  else if (65 <=? v) && (v <=? 70) then Some (v - 55)
  else None.

Definition is_ascii_blank (c : ascii) : bool :=
  ((9 <=? code c) && (code c <=? 13)) || (code c =? 32).

Fixpoint fromhex (s : string) : result bytes :=
  match s with
  | EmptyString => Ok []
  | String c s' =>
      if is_ascii_blank c then fromhex s'
      else match s' with
           | EmptyString => Raise ValueError
           | String d s'' =>
               match hex_val c, hex_val d with
               | Some x, Some y => let! bs := fromhex s'' in Ok (byte_of_Z (16 * x + y) :: bs)
               | _, _ => Raise ValueError
               end
           end
  end.

(** ** SHA-256 *)

Module Sha256.
Definition mask (x : Z) : Z := Z.land x 4294967295.
Definition rotr (n x : Z) : Z := mask (Z.lor (Z.shiftr x n) (Z.shiftl x (32 - n))).
Definition ch (x y z : Z) : Z := Z.lxor (Z.land x y) (Z.land (4294967295 - x) z).
Definition maj (x y z : Z) : Z := Z.lxor (Z.lxor (Z.land x y) (Z.land x z)) (Z.land y z).
Definition bsig0 (x : Z) : Z := Z.lxor (Z.lxor (rotr 2 x) (rotr 13 x)) (rotr 22 x).
Definition bsig1 (x : Z) : Z := Z.lxor (Z.lxor (rotr 6 x) (rotr 11 x)) (rotr 25 x).
Definition ssig0 (x : Z) : Z := Z.lxor (Z.lxor (rotr 7 x) (rotr 18 x)) (Z.shiftr x 3).
Definition ssig1 (x : Z) : Z := Z.lxor (Z.lxor (rotr 17 x) (rotr 19 x)) (Z.shiftr x 10).

Definition K : list Z :=
  [1116352408; 1899447441; 3049323471; 3921009573; 961987163; 1508970993; 2453635748; 2870763221;
   3624381080; 310598401; 607225278; 1426881987; 1925078388; 2162078206; 2614888103; 3248222580;
   3835390401; 4022224774; 264347078; 604807628; 770255983; 1249150122; 1555081692; 1996064986;
   2554220882; 2821834349; 2952996808; 3210313671; 3336571891; 3584528711; 113926993; 338241895;
   666307205; 773529912; 1294757372; 1396182291; 1695183700; 1986661051; 2177026350; 2456956037;
   2730485921; 2820302411; 3259730800; 3345764771; 3516065817; 3600352804; 4094571909; 275423344;
   430227734; 506948616; 659060556; 883997877; 958139571; 1322822218; 1537002063; 1747873779;
   1955562222; 2024104815; 2227730452; 2361852424; 2428436474; 2756734187; 3204031479; 3329325298].

Record state := St { sa : Z; sb : Z; sc : Z; sd : Z; se : Z; sf : Z; sg : Z; sh : Z }.

Definition init : state :=
  St 1779033703 3144134277 1013904242 2773480762 1359893119 2600822924 528734635 1541459225.

Definition round (s : state) (kw : Z * Z) : state :=
  let t1 := sh s + bsig1 (se s) + ch (se s) (sf s) (sg s) + fst kw + snd kw in
  let t2 := bsig0 (sa s) + maj (sa s) (sb s) (sc s) in
  St (mask (t1 + t2)) (sa s) (sb s) (sc s) (mask (sd s + t1)) (se s) (sf s) (sg s).

(** The message schedule, newest word first. *)
Fixpoint expand (n : nat) (ws : list Z) : list Z :=
  match n with
  | O => ws
  | S k =>
      let w := mask (ssig1 (nth 1 ws 0) + nth 6 ws 0 + ssig0 (nth 14 ws 0) + nth 15 ws 0) in
      expand k (w :: ws)
  end.

Fixpoint words (n : nat) (bs : bytes) : list Z :=
  match n with
  | O => []
  | S k => be_value (take 4 bs) :: words k (drop 4 bs)
  end.

Definition add_state (s t : state) : state :=
  St (mask (sa s + sa t)) (mask (sb s + sb t)) (mask (sc s + sc t)) (mask (sd s + sd t))
     (mask (se s + se t)) (mask (sf s + sf t)) (mask (sg s + sg t)) (mask (sh s + sh t)).

Definition block (s : state) (bs : bytes) : state :=
  let ws := rev (expand 48 (rev (words 16 bs))) in
  add_state s (fold_left round (combine K ws) s).

Definition pad (m : bytes) : bytes :=
  let n := Z.of_nat (length m) in
  m ++ [x80] ++ repeat x00 (Z.to_nat ((55 - n) mod 64)) ++ be_bytes 8 (8 * n).

(** [n] blocks of 64 bytes. *)
Fixpoint blocks (n : nat) (s : state) (bs : bytes) : state :=
  match n with
  | O => s
  | S k => blocks k (block s (take 64 bs)) (drop 64 bs)
  end.

Definition output (s : state) : bytes :=
  be_bytes 4 (sa s) ++ be_bytes 4 (sb s) ++ be_bytes 4 (sc s) ++ be_bytes 4 (sd s)
  ++ be_bytes 4 (se s) ++ be_bytes 4 (sf s) ++ be_bytes 4 (sg s) ++ be_bytes 4 (sh s).

Definition digest (m : bytes) : bytes :=
  let p := pad m in output (blocks (Nat.div (length p) 64) init p).
End Sha256.

Definition sha256 (m : bytes) : bytes := Sha256.digest m.

(** [hashlib.sha256(m).hexdigest()]. *)
Definition sha256_hex (m : bytes) : string := hex (sha256 m).

(** [hmac.new(key, m, hashlib.sha256).digest()]. *)
Definition hmac_sha256 (key m : bytes) : bytes :=
  let k := if (64 <? length key)%nat then sha256 key else key in
  let block := k ++ repeat x00 (64 - length k) in
  let xor_with v := map (fun b => byte_of_Z (Z.lxor (Z_of_byte b) v)) block in
  sha256 (xor_with 92 ++ sha256 (xor_with 54 ++ m)).

Example sha256_abc : sha256_hex (utf8 "abc")
  = "ba7816bf8f01cfea414140de5dae2223b00361a396177a9cb410ff61f20015ad".
Proof. vm_compute. reflexivity. Qed.
Example sha256_two_blocks :
  sha256_hex (utf8 "abcdbcdecdefdefgefghfghighijhijkijkljklmklmnlmnomnopnopq")
  = "248d6a61d20638b8e5c026930c3e6039a33ce45964ff2167f6ecedd419db06c1".
Proof. vm_compute. reflexivity. Qed.
Example hmac_jefe : hex (hmac_sha256 (utf8 "Jefe") (utf8 "what do ya want for nothing?"))
  = "5bdcc146bf60754e6a042426089575c75a003f089d2739839dec58b964ec3843".
Proof. vm_compute. reflexivity. Qed.
Example fromhex_examples : map fromhex ["00fF"; "0a 0b"; "0"; "0 a"; "zz"]
  = [Ok [x00; xff]; Ok [x0a; x0b]; Raise ValueError; Raise ValueError; Raise ValueError].
Proof. reflexivity. Qed.

(** ** Lemmas *)

Lemma Z_of_byte_bound b : 0 <= Z_of_byte b < 256.
Proof. unfold Z_of_byte. pose proof (Byte.to_N_bounded b). lia. Qed.

Lemma Z_of_byte_of_Z v : Z_of_byte (byte_of_Z v) = v mod 256.
Proof.
  unfold Z_of_byte, byte_of_Z. pose proof (Z.mod_pos_bound v 256 ltac:(lia)).
  destruct (Byte.of_N (Z.to_N (v mod 256))) as [b|] eqn:E; simpl.
  - apply Byte.to_of_N in E. rewrite E. lia.
  - apply Byte.of_N_None_iff in E. lia.
Qed.

Lemma byte_of_Z_of_byte b : byte_of_Z (Z_of_byte b) = b.
Proof.
  unfold byte_of_Z, Z_of_byte. pose proof (Byte.to_N_bounded b).
  rewrite Z.mod_small by lia. by rewrite N2Z.id, Byte.of_to_N.
Qed.

Lemma Z_of_byte_inj b c : Z_of_byte b = Z_of_byte c -> b = c.
Proof. intros H. by rewrite <- (byte_of_Z_of_byte b), H, byte_of_Z_of_byte. Qed.

Lemma length_be_bytes n v : length (be_bytes n v) = n.
Proof. revert v. induction n as [|n IH]; intros v; simpl; [done|]. rewrite length_app, IH. simpl. lia. Qed.

Lemma be_value_app bs b : be_value (bs ++ [b]) = 256 * be_value bs + Z_of_byte b.
Proof. unfold be_value. by rewrite fold_left_app. Qed.

Lemma be_value_be_bytes n v : be_value (be_bytes n v) = v mod 256 ^ Z.of_nat n.
Proof.
  revert v. induction n as [|n IH]; intros v; simpl be_bytes.
  { by rewrite Z.mod_1_r. }
  rewrite be_value_app, IH, Z_of_byte_of_Z, Nat2Z.inj_succ, Z.pow_succ_r by lia.
  rewrite Z.rem_mul_r by lia. lia.
Qed.

Lemma be_bytes_inj n v w : 0 <= v < 256 ^ Z.of_nat n -> 0 <= w < 256 ^ Z.of_nat n ->
  be_bytes n v = be_bytes n w -> v = w.
Proof.
  intros Hv Hw H. apply (f_equal be_value) in H. rewrite !be_value_be_bytes in H.
  by rewrite !Z.mod_small in H.
Qed.

Lemma be_bytes8_i64_inj v w : - 2 ^ 63 <= v < 2 ^ 63 -> - 2 ^ 63 <= w < 2 ^ 63 ->
  be_bytes 8 v = be_bytes 8 w -> v = w.
Proof.
  intros Hv Hw H. apply (f_equal be_value) in H. rewrite !be_value_be_bytes in H.
  change (256 ^ Z.of_nat 8) with (2 ^ 64) in H.
  pose proof (Z.div_mod v (2 ^ 64) ltac:(lia)). pose proof (Z.div_mod w (2 ^ 64) ltac:(lia)).
  rewrite H in *.
  assert (v / 2 ^ 64 = w / 2 ^ 64) as E; [|lia].
  assert (- 1 <= v / 2 ^ 64 < 1) by (split; [apply Z.div_le_lower_bound|apply Z.div_lt_upper_bound]; lia).
  assert (- 1 <= w / 2 ^ 64 < 1) by (split; [apply Z.div_le_lower_bound|apply Z.div_lt_upper_bound]; lia).
  pose proof (Z.mod_pos_bound w (2 ^ 64)). lia.
Qed.

Lemma length_sha256 m : length (sha256 m) = 32%nat.
Proof.
  unfold sha256, Sha256.digest, Sha256.output. by rewrite !length_app, !length_be_bytes.
Qed.

#[global] Opaque sha256.

Lemma code_hex_digit d : 0 <= d < 16 -> code (hex_digit d) = if d <? 10 then 48 + d else 87 + d.
Proof.
  intros H. unfold code, hex_digit. rewrite N_ascii_embedding by (destruct (d <? 10) eqn:E; lia).
  destruct (d <? 10) eqn:E; bools; lia.
Qed.

Lemma hex_val_digit d : 0 <= d < 16 -> hex_val (hex_digit d) = Some d.
Proof.
  intros H. unfold hex_val. rewrite code_hex_digit by done.
  destruct (d <? 10) eqn:E; bools.
  - replace ((48 <=? 48 + d) && (48 + d <=? 57)) with true by lia. f_equal. lia.
  - replace ((48 <=? 87 + d) && (87 + d <=? 57)) with false by lia.
    replace ((97 <=? 87 + d) && (87 + d <=? 102)) with true by lia. f_equal. lia.
Qed.

Lemma hex_digit_not_blank d : 0 <= d < 16 -> is_ascii_blank (hex_digit d) = false.
Proof.
  intros H. unfold is_ascii_blank. rewrite code_hex_digit by done. destruct (d <? 10) eqn:E; lia.
Qed.

Lemma hex_digit_is_hex d : 0 <= d < 16 -> is_hex_char (hex_digit d) = true.
Proof.
  intros H. unfold is_hex_char, is_ascii_digit. rewrite code_hex_digit by done.
  destruct (d <? 10) eqn:E; lia.
Qed.

Lemma nibbles b : 0 <= Z_of_byte b / 16 < 16 /\ 0 <= Z_of_byte b mod 16 < 16.
Proof.
  pose proof (Z_of_byte_bound b). split; [|apply Z.mod_pos_bound; lia].
  split; [apply Z.div_pos; lia|]. apply Z.div_lt_upper_bound; lia.
Qed.

Lemma fromhex_hex bs : fromhex (hex bs) = Ok bs.
Proof.
  induction bs as [|b bs IH]; simpl; [done|]. destruct (nibbles b).
  rewrite hex_digit_not_blank, !hex_val_digit by done. rewrite IH. simpl.
  rewrite <- Z.div_mod by lia. by rewrite byte_of_Z_of_byte.
Qed.

Lemma hex_inj bs cs : hex bs = hex cs -> bs = cs.
Proof.
  intros H. pose proof (fromhex_hex bs) as E. rewrite H, fromhex_hex in E. congruence.
Qed.

Lemma hex_is_hex bs : all_chars is_hex_char (hex bs) = true.
Proof.
  induction bs as [|b bs IH]; simpl; [done|]. destruct (nibbles b).
  by rewrite !hex_digit_is_hex, IH by done.
Qed.

Lemma length_hex bs : String.length (hex bs) = (2 * length bs)%nat.
Proof. induction bs as [|b bs IH]; simpl; [done|]. rewrite IH. lia. Qed.

Lemma is_sha256_hex m : is_sha256 (sha256_hex m) = true.
Proof.
  unfold is_sha256, sha256_hex, py_len. by rewrite hex_is_hex, length_hex, length_sha256.
Qed.

#[export] Hint Resolve is_sha256_hex : py.

(** ** UTF-8 *)

Lemma utf8_char_head c :
  exists b bs, utf8_char c = b :: bs /\
    Z_of_byte b = (if code c <? 128 then code c else 192 + code c / 64) /\
    bs = (if code c <? 128 then [] else [byte_of_Z (128 + code c mod 64)]).
Proof.
  assert (0 <= code c < 256) as Hc by (unfold code; pose proof (N_ascii_bounded c); lia).
  unfold utf8_char. destruct (code c <? 128) eqn:E; eexists _, _; (split; [reflexivity|]);
    rewrite Z_of_byte_of_Z; (split; [|done]); rewrite Z.mod_small; try done; bools; try lia.
  assert (code c / 64 < 4) by (apply Z.div_lt_upper_bound; lia).
  assert (0 <= code c / 64) by (apply Z.div_pos; lia). lia.
Qed.

Lemma utf8_inj s t : utf8 s = utf8 t -> s = t.
Proof.
  revert t. induction s as [|c s IH]; intros [|d t] H; cbn in H; [done| | |].
  - destruct (utf8_char_head d) as (b & bs & E & _). rewrite E in H. discriminate H.
  - destruct (utf8_char_head c) as (b & bs & E & _). rewrite E in H. discriminate H.
  - destruct (utf8_char_head c) as (b & bs & Ec & Hb & Hbs), (utf8_char_head d) as (b' & bs' & Ed & Hb' & Hbs').
    rewrite Ec, Ed in H. cbn in H. injection H as <- H. rewrite Hb in Hb'.
    assert (0 <= code c < 256) as Hc by (unfold code; pose proof (N_ascii_bounded c); lia).
    assert (0 <= code d < 256) as Hd by (unfold code; pose proof (N_ascii_bounded d); lia).
    assert (0 <= code c / 64) by (apply Z.div_pos; lia).
    assert (0 <= code d / 64) by (apply Z.div_pos; lia).
    destruct (code c <? 128) eqn:E1, (code d <? 128) eqn:E2; bools; subst bs bs'; try lia.
    + rewrite (code_inj _ _ Hb'). f_equal. by apply IH.
    + injection H as Hx H. f_equal; [|by apply IH]. apply code_inj.
      apply (f_equal Z_of_byte) in Hx. rewrite !Z_of_byte_of_Z in Hx.
      pose proof (Z.mod_pos_bound (code c) 64 ltac:(lia)). pose proof (Z.mod_pos_bound (code d) 64 ltac:(lia)).
      rewrite !(Z.mod_small _ 256) in Hx by lia.
      rewrite (Z.div_mod (code c) 64), (Z.div_mod (code d) 64) by lia. lia.
Qed.

(** Two texts collide when they differ and have the same digest. *)
Definition collides (s t : string) : Prop := s <> t /\ sha256_hex (utf8 s) = sha256_hex (utf8 t).

Lemma sha256_hex_binds s t :
  ~ collides s t -> sha256_hex (utf8 s) = sha256_hex (utf8 t) -> s = t.
Proof. intros Hn H. destruct (decide (s = t)); [done|]. by destruct Hn. Qed.
