(* ===== verification/Base64.v ===== *)
(** * Base64 ([base64.urlsafe_b64encode] and the strict [base64.b64decode])

    The url-safe alphabet.  Decoding is the one the code asks for: [altchars=b"-_"] and
    [validate=True], so the standard characters [+] and [/] still stand for 62 and 63, any other
    character is an error and padding may only complete the last group. *)

From S2P Require Import Prelude PyStr Bytes.
From Stdlib Require Import Ascii.
From Stdlib Require String.

Definition sextet_char (v : Z) : ascii :=
  ascii_of_N (Z.to_N (if v <? 26 then 65 + v else if v <? 52 then 71 + v else if v <? 62 then v - 4
                      else if v =? 62 then 45 else 95)).

Definition char_sextet (c : ascii) : option Z :=
  let v := code c in
  if (65 <=? v) && (v <=? 90) then Some (v - 65)
  else if (97 <=? v) && (v <=? 122) then Some (v - 71)
  else if (48 <=? v) && (v <=? 57) then Some (v + 4)
  else if (v =? 45) || (v =? 43) then Some 62
  else if (v =? 95) || (v =? 47) then Some 63
  else None.

Definition pad_char : ascii := ascii_of_N 61.

(** [base64.urlsafe_b64encode(bs).decode("ascii")]. *)
Fixpoint b64_encode (bs : bytes) : string :=
  match bs with
  | [] => EmptyString
  | [a] =>
      let v := 65536 * Z_of_byte a in
      String (sextet_char (v / 262144)) (String (sextet_char (v / 4096 mod 64))
        (String pad_char (String pad_char EmptyString)))
  | [a; b] =>
      let v := 65536 * Z_of_byte a + 256 * Z_of_byte b in
      String (sextet_char (v / 262144)) (String (sextet_char (v / 4096 mod 64))
        (String (sextet_char (v / 64 mod 64)) (String pad_char EmptyString)))
  | a :: b :: c :: bs' =>
      let v := 65536 * Z_of_byte a + 256 * Z_of_byte b + Z_of_byte c in
      String (sextet_char (v / 262144)) (String (sextet_char (v / 4096 mod 64))
        (String (sextet_char (v / 64 mod 64)) (String (sextet_char (v mod 64)) (b64_encode bs'))))
  end.

(** [base64.b64decode(s, altchars=b"-_", validate=True)]. *)
Fixpoint b64_decode (s : string) : result bytes :=
  match s with
  | EmptyString => Ok []
  | String c1 (String c2 (String c3 (String c4 s'))) =>
      match char_sextet c1, char_sextet c2 with
      | Some x1, Some x2 =>
          let v12 := 262144 * x1 + 4096 * x2 in
          match char_sextet c3, char_sextet c4 with
          | Some x3, Some x4 =>
              let v := v12 + 64 * x3 + x4 in
              let! bs := b64_decode s' in
              Ok (byte_of_Z (v / 65536) :: byte_of_Z (v / 256) :: byte_of_Z v :: bs)
          | Some x3, None =>
              let v := v12 + 64 * x3 in
              if Ascii.eqb c4 pad_char && is_empty s'
              then Ok [byte_of_Z (v / 65536); byte_of_Z (v / 256)] else Raise ValueError
          | None, _ =>
              if Ascii.eqb c3 pad_char && Ascii.eqb c4 pad_char && is_empty s'
              then Ok [byte_of_Z (v12 / 65536)] else Raise ValueError
          end
      | _, _ => Raise ValueError
      end
  | _ => Raise ValueError
  end.

Example b64_example : map (fun s => b64_encode (utf8 s)) ["M"; "Ma"; "Man"; "Many"]
  = ["TQ=="; "TWE="; "TWFu"; "TWFueQ=="].
Proof. reflexivity. Qed.
Example b64_bad : map (fun s => is_ok (b64_decode s)) ["TQ="; "T==="; "TQ==TQ=="; "TW Fu"; "-_+/"]
  = [false; false; false; false; true].
Proof. reflexivity. Qed.

Lemma char_sextet_char v : 0 <= v < 64 -> char_sextet (sextet_char v) = Some v.
Proof.
  intros Hv. assert (In v (map Z.of_nat (seq 0 64))) as Hin.
  { apply in_map_iff. exists (Z.to_nat v). split; [lia|]. apply in_seq. lia. }
  repeat (destruct Hin as [<-|Hin]; [reflexivity|]). destruct Hin.
Qed.

Lemma char_sextet_pad : char_sextet pad_char = None.
Proof. reflexivity. Qed.

(** The four sextets of a 24-bit group give the group back. *)
Lemma sextets v : 0 <= v < 16777216 ->
  0 <= v / 262144 < 64 /\ 0 <= v / 4096 mod 64 < 64 /\ 0 <= v / 64 mod 64 < 64 /\ 0 <= v mod 64 < 64 /\
  262144 * (v / 262144) + 4096 * (v / 4096 mod 64) + 64 * (v / 64 mod 64) + v mod 64 = v.
Proof. intros Hv. Z.to_euclidean_division_equations. lia. Qed.

Lemma byte_of_Z_mod b v : v mod 256 = Z_of_byte b -> byte_of_Z v = b.
Proof. intros H. apply Z_of_byte_inj. by rewrite Z_of_byte_of_Z. Qed.

Lemma b64_full v rest :
  0 <= v < 16777216 ->
  b64_decode (String (sextet_char (v / 262144)) (String (sextet_char (v / 4096 mod 64))
    (String (sextet_char (v / 64 mod 64)) (String (sextet_char (v mod 64)) rest)))) =
  let! bs := b64_decode rest in Ok (byte_of_Z (v / 65536) :: byte_of_Z (v / 256) :: byte_of_Z v :: bs).
Proof.
  intros Hv. destruct (sextets v Hv) as (H1 & H2 & H3 & H4 & E). cbn [b64_decode].
  rewrite !char_sextet_char by done. by rewrite E.
Qed.

(** Decoding gives the encoded bytes back. *)
Lemma b64_roundtrip bs : b64_decode (b64_encode bs) = Ok bs.
Proof.
  assert (forall n bs, (length bs <= n)%nat -> b64_decode (b64_encode bs) = Ok bs) as H; [|by eapply H].
  clear bs. induction n as [|n IH]; intros [|a [|b [|c bs]]] Hn; cbn in Hn; try lia; try done; cbn [b64_encode];
    pose proof (Z_of_byte_bound a) as Ha.
  - set (v := 65536 * Z_of_byte a). destruct (sextets v ltac:(lia)) as (H1 & H2 & H3 & H4 & E).
    cbn [b64_decode]. rewrite !char_sextet_char, char_sextet_pad by done. rewrite !Ascii.eqb_refl. cbn [is_empty andb].
    do 2 f_equal. apply byte_of_Z_mod. unfold v in *. Z.to_euclidean_division_equations. lia.
  - pose proof (Z_of_byte_bound b) as Hb. set (v := 65536 * Z_of_byte a + 256 * Z_of_byte b).
    destruct (sextets v ltac:(lia)) as (H1 & H2 & H3 & H4 & E).
    cbn [b64_decode]. rewrite !char_sextet_char, char_sextet_pad by done. rewrite !Ascii.eqb_refl. cbn [is_empty andb].
    f_equal. f_equal; [|f_equal]; apply byte_of_Z_mod; unfold v in *; Z.to_euclidean_division_equations; lia.
  - pose proof (Z_of_byte_bound b) as Hb. pose proof (Z_of_byte_bound c) as Hc.
    set (v := 65536 * Z_of_byte a + 256 * Z_of_byte b + Z_of_byte c). rewrite b64_full by lia.
    rewrite IH by lia. cbn [rbind]. f_equal.
    f_equal; [|f_equal; [|f_equal]]; apply byte_of_Z_mod; unfold v; Z.to_euclidean_division_equations; lia.
Qed.
