(* ===== verification/PyJson.v ===== *)
(** * Python values and JSON

    [pyval] is the part of Python's [object] that reaches the services as payloads: JSON values,
    floats (kept by their [repr], always rejected), dictionary keys that are not strings, and
    anything else ([VOther]).  A [dict] is its list of items in insertion order.  [json_dumps]
    is [json.dumps(..., sort_keys=True, separators=(",", ":"))], [json_loads] is [json.loads]. *)

From S2P Require Import Prelude Sort PyStr Bytes.
From Stdlib Require Import Ascii.
From Stdlib Require String.

Inductive pykey := KStr (s : string) | KOther (z : Z).

Inductive pyval :=
| VNone
| VBool (b : bool)
| VInt (z : Z)
| VFloat (repr : string)
| VStr (s : string)
| VList (l : list pyval)
| VDict (d : list (pykey * pyval))
| VOther.

#[export] Instance pykey_eq_dec : EqDecision pykey.
Proof. solve_decision. Defined.

Abbreviation pydict := (list (pykey * pyval)).

(** ** Dictionaries *)

Definition key_eqb (k k' : pykey) : bool := bool_decide (k = k').

(** [d.get(k)]. *)
Fixpoint dict_get_key (k : pykey) (d : pydict) : option pyval :=
  match d with
  | [] => None
  | (k', v) :: d' => if key_eqb k k' then Some v else dict_get_key k d'
  end.

Definition dict_get (k : string) (d : pydict) : option pyval := dict_get_key (KStr k) d.

(** [d[k] = v]: an existing key keeps its place. *)
Fixpoint dict_set (k : pykey) (v : pyval) (d : pydict) : pydict :=
  match d with
  | [] => [(k, v)]
  | (k', v') :: d' => if key_eqb k k' then (k, v) :: d' else (k', v') :: dict_set k v d'
  end.

(** [{"a": v, ...}] and [d.update({"a": v, ...})]. *)
Definition obj (items : list (string * pyval)) : pydict := map (fun '(k, v) => (KStr k, v)) items.
Definition dict_update (d : pydict) (items : list (string * pyval)) : pydict :=
  fold_left (fun acc '(k, v) => dict_set (KStr k) v acc) items d.

Definition str_keys (d : pydict) : bool :=
  forallb (fun '(k, _) => match k with KStr _ => true | KOther _ => false end) d.

(** ** Equality

    [a == b] of Python: booleans compare as 0 and 1, dictionaries compare without order. *)
Fixpoint py_eq (a b : pyval) {struct a} : bool :=
  match a, b with
  | VNone, VNone => true
  | VBool x, VBool y => Bool.eqb x y
  | VBool x, VInt y => Z.b2z x =? y
  | VInt x, VBool y => x =? Z.b2z y
  | VInt x, VInt y => x =? y
  | VFloat x, VFloat y => String.eqb x y
  | VStr x, VStr y => String.eqb x y
  | VList l, VList m =>
      (fix go (l m : list pyval) {struct l} : bool :=
         match l, m with
         | [], [] => true
         | x :: l', y :: m' => py_eq x y && go l' m'
         | _, _ => false
         end) l m
  | VDict d, VDict e =>
      (length d =? length e)%nat &&
      (fix go (d : pydict) : bool :=
         match d with
         | [] => true
         | (k, x) :: d' =>
             match dict_get_key k e with Some y => py_eq x y | None => false end && go d'
         end) d
  | _, _ => false
  end.

(** ** [json.dumps] *)

Definition escape_u (c : ascii) : string :=
  String "\" (String "u" (String "0" (String "0"
    (String (hex_digit (code c / 16)) (String (hex_digit (code c mod 16)) EmptyString))))).

Definition escape_char (ensure_ascii : bool) (c : ascii) : string :=
  let v := code c in
  if v =? 34 then String "\" (String c EmptyString)
  else if v =? 92 then String "\" (String c EmptyString)
  else if v =? 10 then String "\" (String "n" EmptyString)
  else if v =? 13 then String "\" (String "r" EmptyString)
  else if v =? 9 then String "\" (String "t" EmptyString)
  else if v =? 12 then String "\" (String "f" EmptyString)
  else if v =? 8 then String "\" (String "b" EmptyString)
  else if v <? 32 then escape_u c
  else if ensure_ascii && (126 <? v) then escape_u c
  else String c EmptyString.

Fixpoint escape (ensure_ascii : bool) (s : string) : string :=
  match s with
  | EmptyString => EmptyString
  | String c s' => escape_char ensure_ascii c +:+ escape ensure_ascii s'
  end.

Definition dq : ascii := ascii_of_N 34.
Definition quote (ensure_ascii : bool) (s : string) : string :=
  String dq (escape ensure_ascii s +:+ String dq EmptyString).

Fixpoint join (sep : string) (l : list string) : string :=
  match l with
  | [] => EmptyString
  | [x] => x
  | x :: l' => x +:+ sep +:+ join sep l'
  end.

(** [sort_keys]: keys must compare with each other. *)
Definition sort_items (d : list (pykey * string)) : result (list (string * string)) :=
  if forallb (fun '(k, _) => match k with KStr _ => true | _ => false end) d then
    Ok (py_sorted fst (map (fun '(k, t) => (match k with KStr s => s | KOther z => str_Z z end, t)) d))
  else if forallb (fun '(k, _) => match k with KOther _ => true | _ => false end) d then
    Ok (map (fun '(z, t) => (str_Z z, t))
         (py_sorted fst (map (fun '(k, t) => (match k with KOther z => z | KStr _ => 0 end, t)) d)))
  else Raise TypeError.

Fixpoint json_dumps (ea : bool) (v : pyval) : result string :=
  match v with
  | VNone => Ok "null"
  | VBool b => Ok (if b then "true" else "false")
  | VInt z => Ok (str_Z z)
  | VFloat r => Ok r
  | VStr s => Ok (quote ea s)
  | VList l =>
      let! ts := (fix go (l : list pyval) : result (list string) :=
                    match l with
                    | [] => Ok []
                    | x :: l' => let! t := json_dumps ea x in let! ts := go l' in Ok (t :: ts)
                    end) l in
      Ok (String "[" (join "," ts +:+ "]"))
  | VDict d =>
      let! ts := (fix go (d : pydict) : result (list (pykey * string)) :=
                    match d with
                    | [] => Ok []
                    | (k, x) :: d' =>
                        let! t := json_dumps ea x in let! ts := go d' in Ok ((k, t) :: ts)
                    end) d in
      let! items := sort_items ts in
      Ok (String "{" (join "," (map (fun '(k, t) => quote ea k +:+ String ":" t) items) +:+ "}"))
  | VOther => Raise TypeError
  end.

(** [_reject_float]: no float and no key that is not a string, at any depth. *)
Fixpoint reject_float (v : pyval) : bool :=
  match v with
  | VFloat _ => false
  | VList l => forallb reject_float l
  | VDict d =>
      forallb (fun '(k, x) => match k with KStr _ => reject_float x | KOther _ => false end) d
  | _ => true
  end.

Example dumps_example :
  json_dumps true (VDict (obj [("b", VList [VInt (-1); VBool true; VNone]); ("a", VStr "x/y")]))
  = Ok (String "{" (quote true "a" +:+ ":" +:+ quote true "x/y" +:+ "," +:+ quote true "b"
        +:+ ":[-1,true,null]}")).
Proof. reflexivity. Qed.

(** ** Induction on values *)

Section PyvalInd.
Variable P : pyval -> Prop.
Hypothesis Hnone : P VNone.
Hypothesis Hbool : forall b, P (VBool b).
Hypothesis Hint : forall z, P (VInt z).
Hypothesis Hfloat : forall r, P (VFloat r).
Hypothesis Hstr : forall s, P (VStr s).
Hypothesis Hlist : forall l, Forall P l -> P (VList l).
Hypothesis Hdict : forall d, Forall (fun p => P (snd p)) d -> P (VDict d).
Hypothesis Hother : P VOther.

Fixpoint pyval_ind' (v : pyval) : P v :=
  match v with
  | VNone => Hnone
  | VBool b => Hbool b
  | VInt z => Hint z
  | VFloat r => Hfloat r
  | VStr s => Hstr s
  | VList l => Hlist l ((fix go l : Forall P l :=
      match l with [] => Forall_nil_2 _ | x :: l' => Forall_cons_2 _ x l' (pyval_ind' x) (go l') end) l)
  | VDict d => Hdict d ((fix go d : Forall (fun p => P (snd p)) d :=
      match d with
      | [] => Forall_nil_2 _
      | (k, x) :: d' => Forall_cons_2 (fun p => P (snd p)) (k, x) d' (pyval_ind' x) (go d')
      end) d)
  | VOther => Hother
  end.
End PyvalInd.

Lemma dict_get_set k k' v d :
  dict_get_key k (dict_set k' v d) = if key_eqb k k' then Some v else dict_get_key k d.
Proof.
  induction d as [|[k2 v2] d IH]; simpl; [done|]. unfold key_eqb in *.
  destruct (bool_decide_reflect (k' = k2)) as [->|]; simpl; unfold key_eqb in *.
  - by case_bool_decide.
  - rewrite IH. repeat case_bool_decide; naive_solver.
Qed.

(** Reading a literal dictionary. *)
Fixpoint assoc (k : string) (items : list (string * pyval)) : option pyval :=
  match items with [] => None | (k', v) :: l => if String.eqb k k' then Some v else assoc k l end.

Lemma dict_get_obj k items : dict_get k (obj items) = assoc k items.
Proof.
  unfold dict_get. induction items as [|[k' v] l IH]; [done|]. cbn [obj map dict_get_key assoc].
  unfold key_eqb. destruct (String.eqb_spec k k') as [->|Hne].
  - by rewrite bool_decide_eq_true_2.
  - rewrite bool_decide_eq_false_2 by congruence. exact IH.
Qed.

Lemma list_dumps ea l :
  (fix go (l : list pyval) : result (list string) :=
     match l with
     | [] => Ok []
     | x :: l' => let! t := json_dumps ea x in let! ts := go l' in Ok (t :: ts)
     end) l = rmap (json_dumps ea) l.
Proof. induction l as [|x l IH]; simpl; [done|]. by rewrite IH. Qed.

Definition dumps_item (ea : bool) (p : pykey * pyval) : result (pykey * string) :=
  let! t := json_dumps ea (snd p) in Ok (fst p, t).

Lemma dict_dumps ea d :
  (fix go (d : pydict) : result (list (pykey * string)) :=
     match d with
     | [] => Ok []
     | (k, x) :: d' => let! t := json_dumps ea x in let! ts := go d' in Ok ((k, t) :: ts)
     end) d = rmap (dumps_item ea) d.
Proof.
  induction d as [|[k x] d IH]; simpl; [done|]. rewrite IH. unfold dumps_item. simpl.
  by destruct (json_dumps ea x).
Qed.
