(* ===== verification/JsonParse.v ===== *)
(** * [json.loads] and the canonical JSON round trip

    The parser of Python's [json] over the model's characters: an escape above U+00FF is outside
    them and is refused.  A number with a fraction or an exponent becomes [VFloat] of its text.
    Fuel bounds the number of nested calls; the length of the text always suffices. *)

From S2P Require Import Prelude Sort PyStr Bytes PyJson.
From Stdlib Require Import Ascii.
From Stdlib Require String.

Definition is_ws (c : ascii) : bool := in_chars [32; 9; 10; 13] c.

Fixpoint skip_ws (s : string) : string :=
  match s with
  | String c s' => if is_ws c then skip_ws s' else s
  | EmptyString => EmptyString
  end.

(** [text.startswith(p)] and the text after the prefix. *)
Fixpoint strip_prefix (p s : string) : option string :=
  match p, s with
  | EmptyString, _ => Some s
  | String a p', String b s' => if Ascii.eqb a b then strip_prefix p' s' else None
  | _, EmptyString => None
  end.

(** The characters a predicate accepts, and the rest. *)
Fixpoint span (p : ascii -> bool) (s : string) : string * string :=
  match s with
  | String c s' => if p c then let '(a, b) := span p s' in (String c a, b) else (EmptyString, s)
  | EmptyString => (EmptyString, EmptyString)
  end.

Definition hex4 (a b c d : ascii) : option Z :=
  match hex_val a, hex_val b, hex_val c, hex_val d with
  | Some a, Some b, Some c, Some d => Some (4096 * a + 256 * b + 16 * c + d)
  | _, _, _, _ => None
  end.

Definition simple_escape (c : ascii) : option ascii :=
  let v := code c in
  if (v =? 34) || (v =? 92) || (v =? 47) then Some c
  else if v =? 98 then Some (ascii_of_N 8)
  else if v =? 102 then Some (ascii_of_N 12)
  else if v =? 110 then Some (ascii_of_N 10)
  else if v =? 114 then Some (ascii_of_N 13)
  else if v =? 116 then Some (ascii_of_N 9)
  else None.

(** The text after an opening quote. *)
Fixpoint parse_string (s : string) : result (string * string) :=
  match s with
  | EmptyString => Raise ValueError
  | String c s' =>
      let v := code c in
      if v =? 34 then Ok (EmptyString, s')
      else if v =? 92 then
        match s' with
        | EmptyString => Raise ValueError
        | String e s2 =>
            match simple_escape e with
            | Some x => let! r := parse_string s2 in Ok (String x (fst r), snd r)
            | None =>
                if code e =? 117 then
                  match s2 with
                  | String h1 (String h2 (String h3 (String h4 s3))) =>
                      match hex4 h1 h2 h3 h4 with
                      | Some u =>
                          if u <? 256 then
                            let! r := parse_string s3 in
                            Ok (String (ascii_of_N (Z.to_N u)) (fst r), snd r)
                          else Raise ValueError
                      | None => Raise ValueError
                      end
                  | _ => Raise ValueError
                  end
                else Raise ValueError
            end
        end
      else if v <? 32 then Raise ValueError
      else let! r := parse_string s' in Ok (String c (fst r), snd r)
  end.

(** The integer part: [-?(0|[1-9][0-9]* )]. *)
Definition parse_int_part (s : string) : option (string * string) :=
  let '(sign, body) :=
    match s with
    | String c s' => if code c =? 45 then (String c EmptyString, s') else (EmptyString, s)
    | EmptyString => (EmptyString, s)
    end in
  match body with
  | String c s' =>
      if code c =? 48 then Some (sign +:+ String c EmptyString, s')
      else match span is_ascii_digit body with
           | (EmptyString, _) => None
           | (ds, rest) => Some (sign +:+ ds, rest)
           end
  | EmptyString => None
  end.

Definition parse_frac (s : string) : string * string :=
  match s with
  | String c s' =>
      if code c =? 46 then
        match span is_ascii_digit s' with
        | (EmptyString, _) => (EmptyString, s)
        | (ds, rest) => (String c ds, rest)
        end
      else (EmptyString, s)
  | EmptyString => (EmptyString, s)
  end.

Definition parse_exp (s : string) : string * string :=
  match s with
  | String c s' =>
      if in_chars [101; 69] c then
        let '(sign, body) :=
          match s' with
          | String d s2 => if in_chars [43; 45] d then (String d EmptyString, s2) else (EmptyString, s')
          | EmptyString => (EmptyString, s')
          end in
        match span is_ascii_digit body with
        | (EmptyString, _) => (EmptyString, s)
        | (ds, rest) => (String c (sign +:+ ds), rest)
        end
      else (EmptyString, s)
  | EmptyString => (EmptyString, s)
  end.

Definition parse_number (s : string) : result (pyval * string) :=
  match parse_int_part s with
  | None => Raise ValueError
  | Some (int_text, s1) =>
      let '(frac, s2) := parse_frac s1 in
      let '(exp, s3) := parse_exp s2 in
      match frac, exp with
      | EmptyString, EmptyString => let! n := py_int int_text in Ok (VInt n, s3)
      | _, _ => Ok (VFloat (int_text +:+ frac +:+ exp), s3)
      end
  end.

Definition literals : list (string * pyval) :=
  [("null", VNone); ("true", VBool true); ("false", VBool false); ("NaN", VFloat "nan");
   ("Infinity", VFloat "inf"); ("-Infinity", VFloat "-inf")].

Fixpoint parse_literal (ls : list (string * pyval)) (s : string) : option (pyval * string) :=
  match ls with
  | [] => None
  | (t, v) :: ls' =>
      match strip_prefix t s with Some rest => Some (v, rest) | None => parse_literal ls' s end
  end.

Definition first_is (v : Z) (s : string) : option string :=
  match s with String c s' => if code c =? v then Some s' else None | EmptyString => None end.

(** [parse_elems]: elements of an array, with [acc] reversed; [parse_members]: of an object. *)
Fixpoint parse_value (fuel : nat) (s : string) : result (pyval * string) :=
  match fuel with
  | O => Raise ValueError
  | S f =>
      match s with
      | EmptyString => Raise ValueError
      | String c s' =>
          if code c =? 34 then let! r := parse_string s' in Ok (VStr (fst r), snd r)
          else if code c =? 91 then
            let s2 := skip_ws s' in
            match first_is 93 s2 with
            | Some rest => Ok (VList [], rest)
            | None => parse_elems f [] s2
            end
          else if code c =? 123 then
            let s2 := skip_ws s' in
            match first_is 125 s2 with
            | Some rest => Ok (VDict [], rest)
            | None => parse_members f [] s2
            end
          else match parse_literal literals s with
               | Some r => Ok r
               | None => parse_number s
               end
      end
  end
with parse_elems (fuel : nat) (acc : list pyval) (s : string) : result (pyval * string) :=
  match fuel with
  | O => Raise ValueError
  | S f =>
      let! r := parse_value f s in
      let s2 := skip_ws (snd r) in
      match first_is 93 s2 with
      | Some rest => Ok (VList (rev (fst r :: acc)), rest)
      | None =>
          match first_is 44 s2 with
          | Some rest => parse_elems f (fst r :: acc) (skip_ws rest)
          | None => Raise ValueError
          end
      end
  end
with parse_members (fuel : nat) (acc : pydict) (s : string) : result (pyval * string) :=
  match fuel with
  | O => Raise ValueError
  | S f =>
      match first_is 34 s with
      | None => Raise ValueError
      | Some s1 =>
          let! k := parse_string s1 in
          match first_is 58 (skip_ws (snd k)) with
          | None => Raise ValueError
          | Some s2 =>
              let! r := parse_value f (skip_ws s2) in
              let acc' := dict_set (KStr (fst k)) (fst r) acc in
              let s3 := skip_ws (snd r) in
              match first_is 125 s3 with
              | Some rest => Ok (VDict acc', rest)
              | None =>
                  match first_is 44 s3 with
                  | Some rest => parse_members f acc' (skip_ws rest)
                  | None => Raise ValueError
                  end
              end
          end
      end
  end.

Definition json_fuel (s : string) : nat := S (String.length s).

(** [json.loads(s)]. *)
Definition json_loads (s : string) : result pyval :=
  let s1 := skip_ws s in
  let! r := parse_value (json_fuel s1) s1 in
  if is_empty (skip_ws (snd r)) then Ok (fst r) else Raise ValueError.

Definition demo_json : string :=
  " { " +:+ quote true "b" +:+ " : [1, -20,3.5e2 , [] ,{}], " +:+ quote true "a" +:+ ":"
  +:+ quote true (String (ascii_of_N 233) (String (ascii_of_N 10) EmptyString)) +:+ "}".

Example loads_example :
  json_loads demo_json
  = Ok (VDict (obj [("b", VList [VInt 1; VInt (-20); VFloat "3.5e2"; VList []; VDict []]);
                    ("a", VStr (String (ascii_of_N 233) (String (ascii_of_N 10) EmptyString)))])).
Proof. reflexivity. Qed.

Example loads_errors :
  map json_loads ["01"; "[1,]"; "{}x"; "tru"; ""] = repeat (Raise ValueError) 5.
Proof. reflexivity. Qed.

(** ** Canonical values

    [canon] sorts the items of every dictionary; [json_ok] holds of the values the services call
    canonical JSON: no float, no key that is not a string, no key twice, integers of 64 bits. *)

Definition key_name (k : pykey) : string := match k with KStr s => s | KOther z => str_Z z end.
Definition is_str_key (k : pykey) : bool := match k with KStr _ => true | KOther _ => false end.

Fixpoint canon (v : pyval) : pyval :=
  match v with
  | VList l => VList (map canon l)
  | VDict d => VDict (py_sorted (fun p => key_name (fst p)) (map (fun '(k, x) => (k, canon x)) d))
  | _ => v
  end.

Fixpoint json_ok (v : pyval) : bool :=
  match v with
  | VNone | VBool _ | VStr _ => true
  | VInt n => (- 2 ^ 63 <=? n) && (n <? 2 ^ 64)
  | VFloat _ | VOther => false
  | VList l => forallb json_ok l
  | VDict d =>
      forallb (fun '(k, x) => is_str_key k && json_ok x) d && bool_decide (NoDup (map fst d))
  end.

Definition delim (s : string) : bool :=
  match s with EmptyString => true | String c _ => in_chars [44; 93; 125] c end.

(** The first character of a value's text. *)
Definition value_first (s : string) : bool :=
  match s with EmptyString => false | String c _ => negb (in_chars [32; 9; 10; 13; 44; 58; 93; 125] c) end.

Lemma parse_escape ea c t :
  parse_string (escape_char ea c +:+ t) =
  let! r := parse_string t in Ok (String c (fst r), snd r).
Proof.
  destruct ea; destruct c as [[] [] [] [] [] [] [] []]; reflexivity.
Qed.

Lemma parse_quoted ea s rest :
  parse_string (escape ea s +:+ String dq EmptyString +:+ rest) = Ok (s, rest).
Proof.
  induction s as [|c s IH]; [reflexivity|]. cbn [escape]. rewrite append_assoc, parse_escape, IH.
  reflexivity.
Qed.

Lemma value_first_app s t : value_first s = true -> value_first (s +:+ t) = true.
Proof. by destruct s. Qed.

Lemma skip_ws_value s : value_first s = true -> skip_ws s = s.
Proof.
  destruct s as [|c s]; [done|]. cbn. unfold is_ws, in_chars. cbn. destruct (_ =? 32); [done|].
  destruct (_ =? 9); [done|]. destruct (_ =? 10); [done|]. by destruct (_ =? 13).
Qed.

Lemma skip_ws_delim s : delim s = true -> skip_ws s = s.
Proof.
  destruct s as [|c s]; [done|]. cbn. unfold is_ws, in_chars. cbn.
  intros H. replace (_ || _)%bool with false; [done|]. symmetry. lia.
Qed.

Lemma first_is_value v s : value_first s = true -> v ∈ [93; 125] -> first_is v s = None.
Proof.
  destruct s as [|c s]; [done|]. cbn. unfold in_chars. cbn. rewrite !elem_of_cons.
  intros H Hv. replace (code c =? v) with false; [done|]. symmetry. apply Z.eqb_neq.
  intros E. destruct Hv as [->|[->|Hv%not_elem_of_nil]]; [lia..|done].
Qed.

Lemma span_app p s rest :
  all_chars p s = true -> match rest with EmptyString => True | String c _ => p c = false end ->
  span p (s +:+ rest) = (s, rest).
Proof.
  intros Hs Hr. induction s as [|c s IH]; simpl in *.
  - destruct rest as [|c rest]; simpl; [done|]. by rewrite Hr.
  - apply andb_true_iff in Hs as [-> Hs]. by rewrite IH.
Qed.

Lemma delim_cases s :
  delim s = true ->
  match s with EmptyString => True | String c _ => is_ascii_digit c = false end /\
  parse_frac s = (EmptyString, s) /\ parse_exp s = (EmptyString, s).
Proof.
  destruct s as [|c s]; [done|]. cbn. unfold in_chars, is_ascii_digit. cbn. intros H.
  replace (code c =? 46) with false by lia.
  replace ((code c =? 101) || ((code c =? 69) || false)) with false by lia.
  split_and!; [lia|done|done].
Qed.

Lemma str_N_cons n : 0 <= n -> exists c s, str_N n = String c s /\ is_ascii_digit c = true /\
  all_chars is_ascii_digit s = true /\ (code c = 48 -> s = EmptyString).
Proof.
  intros Hn. destruct (str_N_nonempty n) as (c & s & E). exists c, s.
  pose proof (str_N_all n) as Ha. rewrite E in Ha. cbn in Ha. apply andb_true_iff in Ha as [Hc Hs].
  split_and!; [done..|]. intros H0. pose proof (str_N_no_leading_zero n Hn) as Hz. rewrite E in Hz.
  unfold leading_zero in Hz. replace c with "0"%char in * by (apply code_inj; by rewrite H0).
  destruct s as [|d s]; [done|]. discriminate Hz.
Qed.

Lemma parse_int_part_N n rest (sign : string) :
  0 <= n -> delim rest = true ->
  match str_N n +:+ rest with
  | String c s' =>
      if code c =? 48 then Some (sign +:+ String c EmptyString, s')
      else match span is_ascii_digit (str_N n +:+ rest) with
           | (EmptyString, _) => None
           | (ds, rest) => Some (sign +:+ ds, rest)
           end
  | EmptyString => None
  end = Some (sign +:+ str_N n, rest).
Proof.
  intros Hn Hr. destruct (delim_cases _ Hr) as (Hd & _).
  rewrite (span_app _ _ _ (str_N_all n) Hd). destruct (str_N_cons n Hn) as (c & s & -> & Hc & Hs & Hz).
  cbn. destruct (code c =? 48) eqn:E; [|done]. apply Z.eqb_eq in E. by rewrite (Hz E).
Qed.

Lemma parse_int_part_str n rest : delim rest = true -> parse_int_part (str_Z n +:+ rest) = Some (str_Z n, rest).
Proof.
  intros Hr. unfold str_Z. destruct (n <? 0) eqn:E; bools.
  - unfold parse_int_part. cbn -[span str_N].
    apply (parse_int_part_N (- n) rest (String "-" EmptyString)); [lia|done].
  - pose proof (parse_int_part_N n rest EmptyString E Hr) as H. unfold parse_int_part.
    destruct (str_N_cons n E) as (c & s & Hn & Hc & _). rewrite Hn in *. cbn -[span] in *.
    replace (code c =? 45) with false; [exact H|]. symmetry. unfold is_ascii_digit in Hc. lia.
Qed.

Lemma parse_number_str n rest :
  - 2 ^ 63 <= n < 2 ^ 64 -> delim rest = true -> parse_number (str_Z n +:+ rest) = Ok (VInt n, rest).
Proof.
  intros Hn Hr. destruct (delim_cases _ Hr) as (_ & Hf & He). unfold parse_number.
  by rewrite parse_int_part_str, Hf, He, py_int_str_Z.
Qed.

(** An integer's text is no literal, no string, array or object. *)
Lemma parse_literal_digit c t : is_ascii_digit c = true -> parse_literal literals (String c t) = None.
Proof.
  destruct c as [[] [] [] [] [] [] [] []]; intros H; try discriminate H; reflexivity.
Qed.

Lemma parse_literal_neg c t : is_ascii_digit c = true -> parse_literal literals (String "-" (String c t)) = None.
Proof.
  destruct c as [[] [] [] [] [] [] [] []]; intros H; try discriminate H; reflexivity.
Qed.

Lemma parse_value_number f c t :
  code c <> 34 -> code c <> 91 -> code c <> 123 -> parse_literal literals (String c t) = None ->
  parse_value (S f) (String c t) = parse_number (String c t).
Proof.
  intros H1%Z.eqb_neq H2%Z.eqb_neq H3%Z.eqb_neq H4. cbn -[parse_number parse_literal].
  by rewrite H1, H2, H3, H4.
Qed.

Lemma parse_value_int f n rest :
  - 2 ^ 63 <= n < 2 ^ 64 -> delim rest = true ->
  parse_value (S f) (str_Z n +:+ rest) = Ok (VInt n, rest).
Proof.
  intros Hn Hr. rewrite <- parse_number_str by done. unfold str_Z. destruct (n <? 0) eqn:E; bools.
  - destruct (str_N_cons (- n) ltac:(lia)) as (c & s & -> & Hc & _).
    apply (parse_value_number f "-"); [done..|]. by apply parse_literal_neg.
  - destruct (str_N_cons n E) as (c & s & -> & Hc & _). pose proof Hc as Hc'.
    unfold is_ascii_digit in Hc. apply (parse_value_number f c); [lia..|].
    by apply parse_literal_digit.
Qed.

(** ** The round trip *)

Lemma key_of_str d :
  forallb (fun '(k, x) => is_str_key k && json_ok x) d = true ->
  Forall (fun p => exists s, fst p = KStr s /\ json_ok (snd p) = true) d.
Proof.
  induction d as [|[k x] d IH]; [constructor|]. cbn. intros H. bools. constructor; [|by apply IH].
  destruct k as [s|]; [|discriminate]. eauto.
Qed.

Lemma insert_by_map {A B K} `{Cmp K} (key : B -> K) (f : A -> B) x l :
  insert_by key (f x) (map f l) = map f (insert_by (fun y => key (f y)) x l).
Proof. induction l as [|y l IH]; cbn; [done|]. case_match; cbn; [done|]. by rewrite IH. Qed.

Lemma py_sorted_map {A B K} `{Cmp K} (key : B -> K) (f : A -> B) l :
  py_sorted key (map f l) = map f (py_sorted (fun y => key (f y)) l).
Proof.
  unfold py_sorted. induction l as [|x l IH]; cbn; [done|]. by rewrite IH, insert_by_map.
Qed.

Lemma value_first_str_Z n : value_first (str_Z n) = true.
Proof.
  unfold str_Z. destruct (n <? 0) eqn:E; [done|]. bools.
  destruct (str_N_cons n E) as (c & s & -> & Hc & _). cbn. unfold is_ascii_digit, in_chars in *. cbn. lia.
Qed.

Lemma dumps_first ea v t : json_ok v = true -> json_dumps ea v = Ok t -> value_first t = true.
Proof.
  intros Hv H. destruct v as [|[]|z|r|s|l|d|]; cbn in *; invert_ok; try done; try discriminate.
  apply value_first_str_Z.
Qed.

Definition item_text (ea : bool) (p : string * string) : string :=
  quote ea (fst p) +:+ String ":" (snd p).

Lemma join_cons x l : l <> [] -> join "," (x :: l) = x +:+ "," +:+ join "," l.
Proof. by destruct l. Qed.

Lemma length_append (s t : string) : String.length (s +:+ t) = (String.length s + String.length t)%nat.
Proof. induction s as [|c s IH]; cbn; [done|]. by rewrite IH. Qed.

Lemma first_is_comma s : first_is 93 (String "," s) = None /\ first_is 125 (String "," s) = None /\
  first_is 44 (String "," s) = Some s.
Proof. done. Qed.

Lemma rmap_reads {A B C} (f : A -> result B) (g : A -> C) (R : B -> C -> Prop) l :
  Forall (fun x => exists t, f x = Ok t /\ R t (g x)) l ->
  exists ts, rmap f l = Ok ts /\ Forall2 R ts (map g l).
Proof.
  induction 1 as [|x l (t & Ht & Hr) _ (ts & Hts & Hrs)]; cbn; [eauto using Forall2|].
  exists (t :: ts). rewrite Ht. cbn. rewrite Hts. eauto using Forall2.
Qed.

Section RoundTrip.
Variable ea : bool.

(** [t] is the text of [v], and reading it back gives [w]. *)
Definition reads (t : string) (w : pyval) : Prop :=
  value_first t = true /\
  forall f rest, delim rest = true -> (String.length t < f)%nat ->
    parse_value f (t +:+ rest) = Ok (w, rest).

Lemma parse_elems_reads ts : forall ws acc f rest,
  Forall2 reads ts ws -> ts <> [] -> (String.length (join "," ts) + 1 < f)%nat ->
  parse_elems f acc (join "," ts +:+ String "]" rest) = Ok (VList (rev acc ++ ws), rest).
Proof.
  induction ts as [|t ts IH]; intros ws acc f rest Hts Hne Hf; [done|].
  inversion Hts as [|? w ? ws' [Hv Ht] Hts']; subst. destruct f as [|f]; [lia|].
  destruct (decide (ts = [])) as [->|Hne'].
  - inversion Hts'; subst. cbn [join parse_elems] in *.
    rewrite Ht by (done || lia). reflexivity.
  - rewrite join_cons in * by done. rewrite !length_append in Hf.
    change (String.length ",") with 1%nat in Hf. cbn [parse_elems].
    rewrite !append_assoc, Ht by (done || lia). cbn [rbind fst snd].
    rewrite skip_ws_delim by done. cbn [String.append].
    destruct (first_is_comma (join "," ts +:+ String "]" rest)) as (-> & _ & ->).
    assert (value_first (join "," ts) = true) as Hvf.
    { inversion Hts' as [|t' ? ts' ? [Hv' _]]; subst; [done|]. cbn. destruct ts'; [done|].
      by apply value_first_app. }
    rewrite skip_ws_value by by apply value_first_app.
    rewrite (IH ws') by (done || lia). cbn [rev]. by rewrite <- app_assoc.
Qed.

Lemma parse_value_list f body rest :
  value_first body = true ->
  parse_value (S f) (String "[" (body +:+ "]") +:+ rest) = parse_elems f [] (body +:+ String "]" rest).
Proof.
  intros H. cbn [String.append]. rewrite append_assoc. cbn [String.append].
  change (parse_value (S f) (String "[" (body +:+ String "]" rest))) with
    (match first_is 93 (skip_ws (body +:+ String "]" rest)) with
     | Some rest => Ok (VList [], rest)
     | None => parse_elems f [] (skip_ws (body +:+ String "]" rest))
     end).
  rewrite skip_ws_value by by apply value_first_app.
  rewrite first_is_value; [done|by apply value_first_app|left].
Qed.

Lemma parse_value_dict f body rest :
  value_first body = true ->
  parse_value (S f) (String "{" (body +:+ "}") +:+ rest) = parse_members f [] (body +:+ String "}" rest).
Proof.
  intros H. cbn [String.append]. rewrite append_assoc. cbn [String.append].
  change (parse_value (S f) (String "{" (body +:+ String "}" rest))) with
    (match first_is 125 (skip_ws (body +:+ String "}" rest)) with
     | Some rest => Ok (VDict [], rest)
     | None => parse_members f [] (skip_ws (body +:+ String "}" rest))
     end).
  rewrite skip_ws_value by by apply value_first_app.
  rewrite first_is_value; [done|by apply value_first_app|right; left].
Qed.

Definition reads_item (p : string * string) (q : pykey * pyval) : Prop :=
  fst q = KStr (fst p) /\ reads (snd p) (snd q).

Lemma dict_set_new k v d : k ∉ map fst d -> dict_set k v d = d ++ [(k, v)].
Proof.
  induction d as [|[k' v'] d IH]; cbn; [done|]. rewrite not_elem_of_cons. intros [Hk Hd].
  unfold key_eqb. rewrite bool_decide_eq_false_2 by done. by rewrite IH.
Qed.

Lemma parse_members_reads ps : forall qs acc f rest,
  Forall2 reads_item ps qs -> ps <> [] -> NoDup (map fst acc ++ map fst qs) ->
  (String.length (join "," (map (item_text ea) ps)) + 1 < f)%nat ->
  parse_members f acc (join "," (map (item_text ea) ps) +:+ String "}" rest)
  = Ok (VDict (acc ++ qs), rest).
Proof.
  induction ps as [|[k t] ps IH]; intros qs acc f rest Hps Hne Hnd Hf; [done|].
  inversion Hps as [|? [k' w] ? qs' [Hk [Hv Ht]] Hps']; subst. cbn in Hk, Hv, Ht. subst k'.
  destruct f as [|f]; [lia|].
  assert (dict_set (KStr k) w acc = acc ++ [(KStr k, w)]) as Hset.
  { apply dict_set_new. cbn in Hnd. apply NoDup_app in Hnd as (_ & H & _). intros Hin.
    apply (H _ Hin). left. }
  assert (NoDup (map fst (acc ++ [(KStr k, w)]) ++ map fst qs')) as Hnd'
    by by rewrite map_app, <- app_assoc.
  assert (forall tail, delim tail = true -> (String.length t < f)%nat ->
    parse_members (S f) acc (item_text ea (k, t) +:+ tail) =
    match first_is 125 tail with
    | Some rest => Ok (VDict (acc ++ [(KStr k, w)]), rest)
    | None => match first_is 44 tail with
              | Some rest => parse_members f (acc ++ [(KStr k, w)]) (skip_ws rest)
              | None => Raise ValueError
              end
    end) as Hstep.
  { intros tail Htail Hlt. unfold item_text. cbn [fst snd]. unfold quote. cbn [parse_members].
    change (first_is 34 ((String dq (escape ea k +:+ String dq EmptyString) +:+ String ":" t) +:+ tail))
      with (Some ((escape ea k +:+ String dq EmptyString) +:+ String ":" t) ≫= fun s => Some (s +:+ tail)).
    cbn [mbind option_bind]. rewrite !append_assoc. rewrite parse_quoted. cbn [rbind fst snd].
    change (skip_ws (String ":" t +:+ tail)) with (String ":" (t +:+ tail)).
    change (first_is 58 (String ":" (t +:+ tail))) with (Some (t +:+ tail)). cbn iota.
    rewrite skip_ws_value by by apply value_first_app. rewrite Ht by done. cbn [rbind fst snd].
    rewrite skip_ws_delim by done. by rewrite Hset. }
  cbn [map] in *. destruct (decide (ps = [])) as [->|Hne'].
  - inversion Hps'; subst. cbn [join map] in *. rewrite Hstep; [done|done|].
    unfold item_text in Hf. cbn [fst snd] in Hf. rewrite length_append in Hf. cbn in Hf. lia.
  - assert (map (item_text ea) ps <> []) as Hm by by destruct ps.
    rewrite join_cons in * by done. rewrite !append_assoc, Hstep; [|done|].
    2: { rewrite !length_append in Hf. unfold item_text in Hf at 1. cbn [fst snd] in Hf.
         rewrite length_append in Hf. cbn in Hf. lia. }
    cbn [String.append].
    destruct (first_is_comma (join "," (map (item_text ea) ps) +:+ String "}" rest)) as (_ & -> & ->).
    assert (value_first (join "," (map (item_text ea) ps)) = true) as Hvf.
    { destruct ps as [|[k2 t2] [|p ps]]; [done|done|]. done. }
    rewrite skip_ws_value by by apply value_first_app.
    rewrite (IH qs'); [by rewrite <- app_assoc|done|done|done|].
    rewrite !length_append in Hf. cbn in Hf. lia.
Qed.

Definition reads_entry (p : pykey * string) (q : pykey * pyval) : Prop :=
  fst p = fst q /\ reads (snd p) (snd q).

Lemma insert_by_Forall2 {A B K} `{Cmp K} (key : A -> K) (key' : B -> K) (R : A -> B -> Prop) x y l l' :
  (forall a b, R a b -> key a = key' b) -> R x y -> Forall2 R l l' ->
  Forall2 R (insert_by key x l) (insert_by key' y l').
Proof.
  intros HR Hxy. induction 1 as [|a b l l' Hab Hl IH]; cbn; [by repeat constructor|].
  rewrite (HR _ _ Hxy), (HR _ _ Hab). case_match; repeat (constructor || done).
Qed.

Lemma py_sorted_Forall2 {A B K} `{Cmp K} (key : A -> K) (key' : B -> K) (R : A -> B -> Prop) l l' :
  (forall a b, R a b -> key a = key' b) -> Forall2 R l l' ->
  Forall2 R (py_sorted key l) (py_sorted key' l').
Proof.
  intros HR. induction 1 as [|a b l l' Hab Hl IH]; cbn; [constructor|]. by apply insert_by_Forall2.
Qed.

Lemma sort_items_reads d ts :
  Forall (fun p => exists s, fst p = KStr s /\ json_ok (snd p) = true) d ->
  Forall2 reads_entry ts (map (fun '(k, x) => (k, canon x)) d) ->
  exists ps, sort_items ts = Ok ps /\
    Forall2 reads_item ps (py_sorted (fun p => key_name (fst p)) (map (fun '(k, x) => (k, canon x)) d)).
Proof.
  intros Hd Hr. set (qs := map _ d) in *.
  assert (Forall (fun p => exists s, fst p = KStr s) qs) as Hq.
  { unfold qs. apply Forall_map. eapply Forall_impl; [exact Hd|]. intros [k x] (s & E & _). eauto. }
  assert (Forall2 (fun p q => exists s, fst p = KStr s /\ reads_item (s, snd p) q) ts qs) as H2.
  { clear -Hr Hq. induction Hr as [|p q ts qs [E Hrd] _ IH]; [constructor|].
    inversion Hq as [|? ? [s Hs] Hq']; subst. constructor; [|by apply IH].
    exists s. split; [congruence|]. by split. }
  eexists. split.
  - unfold sort_items. replace (forallb _ ts) with true; [reflexivity|]. symmetry.
    apply forallb_forall. intros p Hp. apply list_elem_of_In in Hp.
    clear -H2 Hp. induction H2 as [|p' q ts qs (s & E & _) _ IH]; [by apply not_elem_of_nil in Hp|].
    apply elem_of_cons in Hp as [->|Hp]; [|by apply IH]. destruct p'. cbn in E. by subst.
  - apply py_sorted_Forall2; [by intros [] [] [-> _]|].
    clear -H2. induction H2 as [|[k t] q ts qs (s & E & Hrd) _ IH]; cbn; [constructor|].
    cbn in E. subst k. by constructor.
Qed.

(** A dictionary ends with its own bracket, so anything may follow its text. *)
Lemma dict_reads d :
  Forall (fun p => json_ok (snd p) = true -> exists t, json_dumps ea (snd p) = Ok t /\ reads t (canon (snd p))) d ->
  json_ok (VDict d) = true ->
  exists t, json_dumps ea (VDict d) = Ok t /\ value_first t = true /\
    forall f rest, (String.length t < f)%nat -> parse_value f (t +:+ rest) = Ok (canon (VDict d), rest).
Proof.
  intros IH Hv. cbn in Hv. apply andb_true_iff in Hv as [Hd Hnd]. apply bool_decide_eq_true in Hnd.
  apply key_of_str in Hd.
  destruct (rmap_reads (dumps_item ea) (fun '(k, x) => (k, canon x)) reads_entry d) as (ts & Hts & Hr).
  { rewrite Forall_forall in *. intros [k x] Hx. destruct (Hd _ Hx) as (s & _ & Hok).
    destruct (IH _ Hx Hok) as (t & Ht & Hrd). exists (k, t). unfold dumps_item. cbn in *.
    by rewrite Ht. }
  destruct (sort_items_reads d ts Hd Hr) as (ps & Hps & Hrs).
  exists (String "{" (join "," (map (item_text ea) ps) +:+ "}")). split.
  { cbn [json_dumps]. rewrite dict_dumps, Hts. cbn [rbind]. rewrite Hps. cbn [rbind].
    rewrite (map_ext _ (item_text ea)) by by intros []. done. }
  split; [done|]. intros [|f] rest Hf; [lia|]. cbn in Hf. rewrite length_append in Hf. cbn in Hf.
  cbn [canon]. set (qs := py_sorted _ _) in *. destruct ps as [|p ps].
  - inversion Hrs. by destruct d.
  - rewrite parse_value_dict; [|by destruct p, ps].
    apply (parse_members_reads (p :: ps) qs []); [done|done| |cbn in *; lia].
    cbn. unfold qs. rewrite py_sorted_perm, map_map.
    rewrite (map_ext _ fst) by by intros []. done.
Qed.

Lemma dumps_reads v : json_ok v = true -> exists t, json_dumps ea v = Ok t /\ reads t (canon v).
Proof.
  induction v as [| | |r|s|l IH|d IH|] using pyval_ind'; intros Hv; try discriminate Hv.
  - exists "null". split; [done|]. split; [done|]. by intros [|f] rest Hr Hf; [cbn in Hf; lia|].
  - exists (if b then "true" else "false"). split; [done|]. split; [by destruct b|].
    intros [|f] rest Hr Hf; [lia|]. by destruct b.
  - cbn in Hv. exists (str_Z z). split; [done|]. split; [apply value_first_str_Z|].
    intros [|f] rest Hr Hf; [lia|]. apply parse_value_int; [lia|done].
  - exists (quote ea s). split; [done|]. split; [done|]. intros [|f] rest Hr Hf; [lia|].
    unfold quote. cbn [String.append parse_value]. cbn -[escape parse_string].
    by rewrite append_assoc, parse_quoted.
  - cbn in Hv. destruct (rmap_reads (json_dumps ea) canon reads l) as (ts & Hts & Hr).
    { rewrite Forall_forall in *. intros x Hx. apply IH; [done|].
      rewrite forallb_forall in Hv. by apply Hv, list_elem_of_In. }
    exists (String "[" (join "," ts +:+ "]")). split; [cbn; by rewrite list_dumps, Hts|].
    split; [done|]. intros [|f] rest Hrest Hf; [lia|]. cbn in Hf. rewrite length_append in Hf. cbn in Hf.
    destruct ts as [|t ts].
    + destruct l; [done|by inversion Hr].
    + rewrite parse_value_list.
      2: { inversion Hr as [|? ? ? ? [Hv' _]]; subst. cbn. destruct ts; [done|by apply value_first_app]. }
      rewrite (parse_elems_reads (t :: ts) (map canon l)); [done|done|done|lia].
  - destruct (dict_reads d IH Hv) as (t & Ht & Hvf & Hr). exists t. split; [done|]. split; [done|]. eauto.
Qed.
End RoundTrip.

Lemma loads_dumps ea v t : json_ok v = true -> json_dumps ea v = Ok t -> json_loads t = Ok (canon v).
Proof.
  intros Hv Ht. destruct (dumps_reads ea v Hv) as (t' & Ht' & Hvf & Hr).
  assert (t' = t) as -> by congruence. unfold json_loads. rewrite skip_ws_value by done.
  specialize (Hr (json_fuel t) EmptyString eq_refl). rewrite append_nil_r in Hr.
  rewrite Hr; [done|]. unfold json_fuel. lia.
Qed.

Lemma skip_ws_nl : skip_ws (String "010" EmptyString) = EmptyString.
Proof. done. Qed.

(** A saved file ends with a line feed. *)
Lemma loads_dumps_nl ea d t :
  json_ok (VDict d) = true -> json_dumps ea (VDict d) = Ok t ->
  json_loads (t +:+ String "010" EmptyString) = Ok (canon (VDict d)).
Proof.
  intros Hv Ht. destruct (dict_reads ea d) as (t' & Ht' & Hvf & Hr); [|done|].
  { apply Forall_forall. intros p _. apply dumps_reads. }
  assert (t' = t) as -> by congruence. unfold json_loads. rewrite skip_ws_value by by apply value_first_app.
  rewrite Hr; [cbn [rbind fst snd]; by rewrite skip_ws_nl|]. unfold json_fuel. rewrite length_append. lia.
Qed.

Lemma dumps_total ea v : json_ok v = true -> exists t, json_dumps ea v = Ok t.
Proof. intros Hv. destruct (dumps_reads ea v Hv) as (t & Ht & _). eauto. Qed.

Lemma dumps_inj ea v w t :
  json_ok v = true -> json_ok w = true -> json_dumps ea v = Ok t -> json_dumps ea w = Ok t ->
  canon v = canon w.
Proof.
  intros Hv Hw H1 H2. apply loads_dumps in H1, H2; [|done..]. congruence.
Qed.

Lemma py_sorted_ext {A K} `{Cmp K} (key key' : A -> K) l :
  (forall x, key x = key' x) -> py_sorted key l = py_sorted key' l.
Proof.
  intros E. unfold py_sorted. induction l as [|x l IH]; cbn; [done|]. rewrite IH.
  clear IH. generalize (foldr (insert_by key') [] l) as m. induction m as [|y m IHm]; cbn; [done|].
  by rewrite !E, IHm.
Qed.

Definition canon_item (p : pykey * pyval) : pykey * pyval := (fst p, canon (snd p)).
Definition item_name (p : pykey * pyval) : string := key_name (fst p).

Lemma canon_dict d : canon (VDict d) = VDict (py_sorted item_name (map canon_item d)).
Proof. cbn. do 2 f_equal. apply map_ext. by intros []. Qed.

Lemma map_canon_sorted d :
  py_sorted item_name (map canon_item d) = map canon_item (py_sorted item_name d).
Proof. by rewrite py_sorted_map. Qed.

Lemma canon_idemp v : canon (canon v) = canon v.
Proof.
  induction v as [| | | | |l IH|d IH|] using pyval_ind'; try done.
  - cbn. rewrite map_map. f_equal. by apply map_ext_Forall.
  - rewrite canon_dict, canon_dict. f_equal. rewrite map_canon_sorted.
    rewrite (py_sorted_id _ (py_sorted _ _)) by apply py_sorted_sorted.
    rewrite <- map_canon_sorted, map_map. f_equal. apply map_ext_Forall.
    eapply Forall_impl; [exact IH|]. intros [k x] E. unfold canon_item. cbn in *. by rewrite E.
Qed.

Lemma json_ok_dict d :
  json_ok (VDict d) = true <->
  Forall (fun p => is_str_key (fst p) = true /\ json_ok (snd p) = true) d /\ NoDup (map fst d).
Proof.
  cbn. rewrite andb_true_iff, bool_decide_eq_true, forallb_forall, Forall_forall.
  split; intros [H ?]; (split; [|done]).
  - intros [k x] Hx. apply list_elem_of_In in Hx. apply andb_true_iff. exact (H _ Hx).
  - intros [k x] Hx. apply list_elem_of_In in Hx. apply andb_true_iff. exact (H _ Hx).
Qed.

Lemma canon_json_ok v : json_ok v = true -> json_ok (canon v) = true.
Proof.
  induction v as [| | | | |l IH|d IH|] using pyval_ind'; try done.
  - cbn. rewrite !forallb_forall. intros H x Hx. apply in_map_iff in Hx as (y & <- & Hy).
    rewrite Forall_forall in IH. apply IH; [by apply list_elem_of_In|by apply H].
  - rewrite canon_dict, !json_ok_dict. intros [Hd Hn]. split.
    + rewrite py_sorted_perm. rewrite Forall_map. rewrite !Forall_forall in *.
      intros p Hp. destruct (Hd _ Hp). split; [done|]. cbn. by apply IH.
    + rewrite py_sorted_perm, map_map. exact Hn.
Qed.

(** ** Printing a canonical value *)

Definition text_of (ea : bool) (v : pyval) : string := match json_dumps ea v with Ok t => t | Raise _ => "" end.

Lemma dumps_items ea d :
  Forall (fun p => is_str_key (fst p) = true /\ json_ok (snd p) = true) d ->
  rmap (dumps_item ea) d = Ok (map (fun p => (fst p, text_of ea (snd p))) d).
Proof.
  intros H. apply rmap_pure. eapply Forall_impl; [exact H|]. intros [k x] [_ Hx]. cbn in *.
  destruct (dumps_total ea x Hx) as (t & Ht). unfold dumps_item, text_of. cbn. by rewrite Ht.
Qed.

Lemma sort_items_str ea d :
  Forall (fun p => is_str_key (fst p) = true /\ json_ok (snd p) = true) d ->
  sort_items (map (fun p => (fst p, text_of ea (snd p))) d) =
  Ok (map (fun p => (key_name (fst p), text_of ea (snd p))) (py_sorted item_name d)).
Proof.
  intros H. unfold sort_items.
  replace (forallb _ _) with true.
  - f_equal. rewrite map_map, py_sorted_map. cbn.
    rewrite (py_sorted_ext _ item_name) by by intros [[] ?].
    apply map_ext. by intros [[] ?].
  - symmetry. apply forallb_forall. intros [k t] Hk. apply list_elem_of_In, elem_of_mapl in Hk as ([k' x] & [= -> ->] & Hk).
    rewrite Forall_forall in H. by destruct (H _ Hk), k'.
Qed.

Lemma dumps_list ea l :
  json_dumps ea (VList l) = let! ts := rmap (json_dumps ea) l in Ok (String "[" (join "," ts +:+ "]")).
Proof. cbn. by rewrite list_dumps. Qed.

(** Canonical order does not change the text. *)
Lemma dumps_canon ea v : json_ok v = true -> json_dumps ea (canon v) = json_dumps ea v.
Proof.
  induction v as [| | | | |l IH|d IH|] using pyval_ind'; try done.
  - intros Hl. change (canon (VList l)) with (VList (map canon l)). rewrite !dumps_list. f_equal.
    change (forallb json_ok l = true) in Hl. induction IH as [|x l Hx _ IHl]; [done|].
    cbn [map rmap forallb] in *. apply andb_true_iff in Hl as [Hxo Hl]. rewrite Hx by done. by rewrite IHl.
  - intros Hd. pose proof (canon_json_ok _ Hd) as Hc. rewrite canon_dict in *.
    apply json_ok_dict in Hd as [Hd _], Hc as [Hc _]. cbn. rewrite !dict_dumps, !dumps_items by done. cbn.
    rewrite !sort_items_str by done. cbn. do 4 f_equal.
    rewrite (py_sorted_id _ (py_sorted _ _)) by apply py_sorted_sorted.
    rewrite map_canon_sorted, !map_map. apply map_ext_in. intros p Hp.
    apply list_elem_of_In, elem_of_py_sorted in Hp. rewrite Forall_forall in IH, Hd.
    destruct (Hd _ Hp) as [_ Hx]. specialize (IH _ Hp Hx). cbn in *. unfold text_of. by rewrite IH.
Qed.
