(* ===== verification/Catalog.v ===== *)
(** * Coverage catalog ([apps/api/.../catalog/model.py], [catalog/service.py])

    Immutable manifests, append-only revocations, gap-free coverage segments and the deterministic
    set of eligible setups.  The catalog's [_manifests] dictionary is kept as its values in
    insertion order (the key of a record is its [manifest_hash]); [_revocations] is a [gmap]. *)

From S2P Require Import Prelude Sort PyStr Bytes PyJson.
From Stdlib Require String.

(** ** Enumerations *)

Inductive ManifestStatus := PENDING | VALID | DEGRADED | QUARANTINED.
Inductive RedistributionClass := REDISTRIBUTABLE | USER_LICENSED | RESTRICTED | UNKNOWN.
Inductive ExecutionTier := F0 | F0T | F1 | F2 | F3.
Inductive DataCapability :=
| BARS | TRADES | BBO | L2_SNAPSHOTS | L2_DELTAS | L3 | MARK_PRICE | INDEX_PRICE | FUNDING
| OPEN_INTEREST | LIQUIDATIONS.

#[export] Instance ManifestStatus_eq_dec : EqDecision ManifestStatus.
Proof. solve_decision. Defined.
#[export] Instance RedistributionClass_eq_dec : EqDecision RedistributionClass.
Proof. solve_decision. Defined.
#[export] Instance ExecutionTier_eq_dec : EqDecision ExecutionTier.
Proof. solve_decision. Defined.
#[export] Instance DataCapability_eq_dec : EqDecision DataCapability.
Proof. solve_decision. Defined.

Definition rank (t : ExecutionTier) : Z :=
  match t with F0 => 0 | F0T => 1 | F1 => 2 | F2 => 3 | F3 => 4 end.

(** [member.value]. *)
Definition tier_value (t : ExecutionTier) : string :=
  match t with F0 => "F0" | F0T => "F0T" | F1 => "F1" | F2 => "F2" | F3 => "F3" end.
Definition redistribution_value (r : RedistributionClass) : string :=
  match r with
  | REDISTRIBUTABLE => "REDISTRIBUTABLE" | USER_LICENSED => "USER_LICENSED"
  | RESTRICTED => "RESTRICTED" | UNKNOWN => "UNKNOWN"
  end.
Definition capability_value (c : DataCapability) : string :=
  match c with
  | BARS => "BARS" | TRADES => "TRADES" | BBO => "BBO" | L2_SNAPSHOTS => "L2_SNAPSHOTS"
  | L2_DELTAS => "L2_DELTAS" | L3 => "L3" | MARK_PRICE => "MARK_PRICE"
  | INDEX_PRICE => "INDEX_PRICE" | FUNDING => "FUNDING" | OPEN_INTEREST => "OPEN_INTEREST"
  | LIQUIDATIONS => "LIQUIDATIONS"
  end.

Definition all_tiers := [F0; F0T; F1; F2; F3].
Definition all_redistributions := [REDISTRIBUTABLE; USER_LICENSED; RESTRICTED; UNKNOWN].
Definition all_capabilities :=
  [BARS; TRADES; BBO; L2_SNAPSHOTS; L2_DELTAS; L3; MARK_PRICE; INDEX_PRICE; FUNDING;
   OPEN_INTEREST; LIQUIDATIONS].

(** [Enum(value)]: the member with that value, or [ValueError]. *)
Definition enum_of {A} (value : A -> string) (members : list A) (s : string) : result A :=
  of_option ValueError (List.find (fun m => String.eqb (value m) s) members).

Definition tier_of := enum_of tier_value all_tiers.
Definition redistribution_of := enum_of redistribution_value all_redistributions.
Definition capability_of := enum_of capability_value all_capabilities.

Lemma tier_of_value t : tier_of (tier_value t) = Ok t.
Proof. by destruct t. Qed.
Lemma redistribution_of_value r : redistribution_of (redistribution_value r) = Ok r.
Proof. by destruct r. Qed.
Lemma capability_of_value c : capability_of (capability_value c) = Ok c.
Proof. by destruct c. Qed.

Definition of_ok {A} (r : result A) : option A := match r with Ok a => Some a | Raise _ => None end.

#[export] Program Instance RedistributionClass_countable : Countable RedistributionClass :=
  inj_countable redistribution_value (fun s => of_ok (redistribution_of s)) _.
Next Obligation. intros []; done. Qed.
#[export] Program Instance DataCapability_countable : Countable DataCapability :=
  inj_countable capability_value (fun s => of_ok (capability_of s)) _.
Next Obligation. intros []; done. Qed.
#[export] Program Instance ExecutionTier_countable : Countable ExecutionTier :=
  inj_countable tier_value (fun s => of_ok (tier_of s)) _.
Next Obligation. intros []; done. Qed.

(** ** Records and their [__post_init__] checks *)

Record Gap := mk_gap { gap_start_ns : Z; gap_end_ns : Z; gap_reason : string }.
#[export] Instance Gap_eq_dec : EqDecision Gap.
Proof. solve_decision. Defined.

Definition validate_i64 (v : Z) : result unit := raise_if (negb (in_i64 v)) ValueError.
Definition validate_sha256 (s : string) : result unit := raise_if (negb (is_sha256 s)) ValueError.

Definition Gap_post_init (g : Gap) : result unit :=
  let! _ := validate_i64 (gap_start_ns g) in
  let! _ := validate_i64 (gap_end_ns g) in
  let! _ := raise_if (gap_end_ns g <=? gap_start_ns g) ValueError in
  raise_if (is_empty (gap_reason g)) ValueError.

Record ManifestRecord := mk_manifest {
  manifest_hash : string;
  manifest_id : string;
  provider : string;
  dataset : string;
  venue_id : string;
  instrument_id : string;
  adapter_version : string;
  canonical_content_hash : string;
  actual_start_ns : Z;
  actual_end_ns : Z;
  m_status : ManifestStatus;
  m_redistribution_class : RedistributionClass;
  m_execution_tier : ExecutionTier;
  m_capabilities : gset DataCapability;
  known_gaps : list Gap;
  quality_decisions : list string;
  provenance : string;
  ingested_at_ns : Z;
}.
#[export] Instance ManifestRecord_eq_dec : EqDecision ManifestRecord.
Proof. solve_decision. Defined.

Definition ManifestRecord_post_init (m : ManifestRecord) : result unit :=
  let! _ := validate_sha256 (manifest_hash m) in
  let! _ := validate_sha256 (canonical_content_hash m) in
  let! _ := validate_i64 (actual_start_ns m) in
  let! _ := validate_i64 (actual_end_ns m) in
  let! _ := validate_i64 (ingested_at_ns m) in
  let! _ := raise_if (actual_end_ns m <=? actual_start_ns m) ValueError in
  raise_if
    (existsb is_empty [manifest_id m; provider m; dataset m; venue_id m; instrument_id m;
                       adapter_version m])
    ValueError.

Record CoverageSegment := mk_segment {
  seg_instrument_id : string;
  seg_start_ns : Z;
  seg_end_ns : Z;
  seg_manifest_hash : string;
  seg_provider : string;
  seg_dataset : string;
  seg_venue_id : string;
  seg_execution_tier : ExecutionTier;
  seg_capabilities : gset DataCapability;
  seg_redistribution_class : RedistributionClass;
  seg_status : ManifestStatus;
}.

(** The fields [dataclass(order=True)] compares, in order. *)
Definition segment_key (s : CoverageSegment) :=
  (seg_instrument_id s, (seg_start_ns s, (seg_end_ns s,
   (seg_manifest_hash s, (seg_provider s, (seg_dataset s, seg_venue_id s)))))).

Record SetupRequirement := mk_requirement {
  req_instrument_id : string;
  req_play_start_ns : Z;
  req_warmup_ns : Z;
  req_duration_ns : Z;
  req_minimum_tier : ExecutionTier;
  req_required_capabilities : gset DataCapability;
  req_allowed_redistribution : gset RedistributionClass;
  req_allow_degraded : bool;
}.

Definition required_start_ns (r : SetupRequirement) : Z := req_play_start_ns r - req_warmup_ns r.
Definition required_end_ns (r : SetupRequirement) : Z := req_play_start_ns r + req_duration_ns r.

Definition SetupRequirement_post_init (r : SetupRequirement) : result unit :=
  let! _ := raise_if (is_empty (req_instrument_id r)) ValueError in
  let! _ := validate_i64 (req_play_start_ns r) in
  let! _ := raise_if (req_warmup_ns r <? 0) ValueError in
  let! _ := raise_if (req_duration_ns r <=? 0) ValueError in
  let! _ := validate_i64 (required_start_ns r) in
  let! _ := validate_i64 (required_end_ns r) in
  raise_if (bool_decide (req_allowed_redistribution r = ∅)) ValueError.

Record EligibleSetup := mk_eligible {
  es_manifest_hash : string;
  es_coverage_start_ns : Z;
  es_coverage_end_ns : Z;
  es_play_start_ns : Z;
  es_play_end_ns : Z;
}.
Definition eligible_key (e : EligibleSetup) :=
  (es_manifest_hash e, (es_coverage_start_ns e, (es_coverage_end_ns e,
   (es_play_start_ns e, es_play_end_ns e)))).

Record EligibleWindow := mk_window {
  ew_manifest_hash : string;
  ew_coverage_start_ns : Z;
  ew_coverage_end_ns : Z;
  ew_earliest_play_start_ns : Z;
  ew_latest_play_start_ns : Z;
}.
Definition window_key (w : EligibleWindow) :=
  (ew_manifest_hash w, (ew_coverage_start_ns w, (ew_coverage_end_ns w,
   (ew_earliest_play_start_ns w, ew_latest_play_start_ns w)))).

(** ** The catalog and its operations *)

Record CoverageCatalog := mk_catalog {
  manifests : list ManifestRecord;
  revocations : gmap string (Z * string);
}.

Definition empty_catalog : CoverageCatalog := mk_catalog [] ∅.

Definition get_manifest (h : string) (ms : list ManifestRecord) : option ManifestRecord :=
  List.find (fun m => String.eqb (manifest_hash m) h) ms.

Definition register (c : CoverageCatalog) (m : ManifestRecord) : result (bool * CoverageCatalog) :=
  match get_manifest (manifest_hash m) (manifests c) with
  | None => Ok (true, mk_catalog (manifests c ++ [m]) (revocations c))
  | Some existing =>
      if bool_decide (existing <> m) then Raise ManifestHashConflict else Ok (false, c)
  end.

(** [CoverageCatalog(manifests)]. *)
Fixpoint register_all (c : CoverageCatalog) (ms : list ManifestRecord) : result CoverageCatalog :=
  match ms with
  | [] => Ok c
  | m :: ms' => let! r := register c m in register_all (snd r) ms'
  end.

Definition revoke (c : CoverageCatalog) (h : string) (revoked_at_ns : Z) (reason : string)
    : result (bool * CoverageCatalog) :=
  match get_manifest h (manifests c) with
  | None => Raise UnknownManifest
  | Some _ =>
      let! _ := raise_if (is_empty reason) ValueError in
      let! _ := validate_i64 revoked_at_ns in
      match revocations c !! h with
      | None => Ok (true, mk_catalog (manifests c) (<[h := (revoked_at_ns, reason)]> (revocations c)))
      | Some existing =>
          if bool_decide (existing <> (revoked_at_ns, reason)) then Raise ValueError
          else Ok (false, c)
      end
  end.

Definition is_revoked (c : CoverageCatalog) (h : string) : bool :=
  match revocations c !! h with Some _ => true | None => false end.

Definition manifest_versions (c : CoverageCatalog) (mid : string) : list ManifestRecord :=
  py_sorted (fun m => (ingested_at_ns m, manifest_hash m))
    (List.filter (fun m => String.eqb (manifest_id m) mid) (manifests c)).

(** [_subtract_gaps].  [merged] is kept last element first. *)
Definition clip_gaps (start_ns end_ns : Z) (gaps : list Gap) : list (Z * Z) :=
  py_sorted (fun p => p)
    (map (fun g => (Z.max start_ns (gap_start_ns g), Z.min end_ns (gap_end_ns g)))
       (List.filter (fun g => (start_ns <? gap_end_ns g) && (gap_start_ns g <? end_ns)) gaps)).

Definition merge_step (merged : list (Z * Z)) (gap : Z * Z) : list (Z * Z) :=
  let '(gap_start, gap_end) := gap in
  if gap_end <=? gap_start then merged
  else match merged with
       | (a, b) :: before =>
           if gap_start <=? b then (a, Z.max b gap_end) :: before else gap :: merged
       | [] => [gap]
       end.

Definition merge_gaps (clipped : list (Z * Z)) : list (Z * Z) := rev (fold_left merge_step clipped []).

(** The second loop; the result list is kept last element first. *)
Definition cut_step (acc : Z * list (Z * Z)) (gap : Z * Z) : Z * list (Z * Z) :=
  let '(cursor, res) := acc in
  (Z.max cursor (snd gap), if cursor <? fst gap then (cursor, fst gap) :: res else res).

Definition subtract_gaps (start_ns end_ns : Z) (gaps : list Gap) : list (Z * Z) :=
  let '(cursor, res) :=
    fold_left cut_step (merge_gaps (clip_gaps start_ns end_ns gaps)) (start_ns, []) in
  rev (if cursor <? end_ns then (cursor, end_ns) :: res else res).

Definition manifest_visible (c : CoverageCatalog) (instrument : option string) (m : ManifestRecord)
    : bool :=
  match instrument with Some i => String.eqb (instrument_id m) i | None => true end
  && bool_decide (m_status m = VALID \/ m_status m = DEGRADED)
  && negb (is_revoked c (manifest_hash m)).

Definition manifest_segments (m : ManifestRecord) : list CoverageSegment :=
  map (fun '(s, e) =>
         mk_segment (instrument_id m) s e (manifest_hash m) (provider m) (dataset m) (venue_id m)
           (m_execution_tier m) (m_capabilities m) (m_redistribution_class m) (m_status m))
      (subtract_gaps (actual_start_ns m) (actual_end_ns m) (known_gaps m)).

Definition segments (c : CoverageCatalog) (instrument : option string) : list CoverageSegment :=
  py_sorted segment_key
    (concat (map manifest_segments (List.filter (manifest_visible c instrument) (manifests c)))).

Definition segment_meets_policy (s : CoverageSegment) (r : SetupRequirement) : bool :=
  if rank (seg_execution_tier s) <? rank (req_minimum_tier r) then false
  else if negb (bool_decide (req_required_capabilities r ⊆ seg_capabilities s)) then false
  else if negb (bool_decide (seg_redistribution_class s ∈ req_allowed_redistribution r)) then false
  else negb (bool_decide (seg_status s = DEGRADED)) || req_allow_degraded r.

Definition eligible_setups (c : CoverageCatalog) (r : SetupRequirement) : list EligibleSetup :=
  py_sorted eligible_key
    (map (fun s => mk_eligible (seg_manifest_hash s) (seg_start_ns s) (seg_end_ns s)
                     (req_play_start_ns r) (required_end_ns r))
       (List.filter (fun s => segment_meets_policy s r
                              && ((seg_start_ns s <=? required_start_ns r)
                                  && (required_end_ns r <=? seg_end_ns s)))
          (segments c (Some (req_instrument_id r))))).

Definition eligible_windows (c : CoverageCatalog) (r : SetupRequirement) : list EligibleWindow :=
  py_sorted window_key
    (map (fun s => mk_window (seg_manifest_hash s) (seg_start_ns s) (seg_end_ns s)
                     (seg_start_ns s + req_warmup_ns r) (seg_end_ns s - req_duration_ns r))
       (List.filter (fun s => segment_meets_policy s r
                              && (seg_start_ns s + req_warmup_ns r
                                  <=? seg_end_ns s - req_duration_ns r))
          (segments c (Some (req_instrument_id r))))).

Definition eligible_json (e : EligibleSetup) : pyval :=
  VDict (obj [("manifest_hash", VStr (es_manifest_hash e));
              ("coverage_start_ns", VStr (str_Z (es_coverage_start_ns e)));
              ("coverage_end_ns", VStr (str_Z (es_coverage_end_ns e)));
              ("play_start_ns", VStr (str_Z (es_play_start_ns e)));
              ("play_end_ns", VStr (str_Z (es_play_end_ns e)))]).

Definition eligibility_hash (c : CoverageCatalog) (r : SetupRequirement) : result string :=
  let! text := json_dumps true (VList (map eligible_json (eligible_setups c r))) in
  Ok (sha256_hex (utf8 text)).

(** ** Gap subtraction *)

Section Intervals.
Definition inside (t : Z) (iv : Z * Z) : Prop := fst iv <= t < snd iv.
Definition covered (t : Z) (l : list (Z * Z)) : Prop := exists iv, iv ∈ l /\ inside t iv.
(** Non-empty intervals, each starting strictly after the previous one ends. *)
Definition before (x y : Z * Z) : Prop := snd x < fst y.
Definition separated (l : list (Z * Z)) : Prop :=
  StronglySorted before l /\ Forall (fun iv => fst iv < snd iv) l.

Lemma covered_nil t : ~ covered t [].
Proof. intros (iv & H & _). inversion H. Qed.

Lemma covered_cons t iv l : covered t (iv :: l) <-> inside t iv \/ covered t l.
Proof. unfold covered. setoid_rewrite elem_of_cons. naive_solver. Qed.

Lemma covered_perm t l l' : l ≡ₚ l' -> covered t l <-> covered t l'.
Proof. intros H. unfold covered. by setoid_rewrite H. Qed.

Lemma separated_rev l :
  StronglySorted (flip before) l -> Forall (fun iv => fst iv < snd iv) l -> separated (rev l).
Proof.
  intros Hs Hf. split; [|by apply Forall_rev].
  induction Hs as [|x l Hs IH Hx]; simpl; [constructor|]. inversion Hf; subst.
  apply StronglySorted_app. split; [|split; [by apply IH|repeat constructor]].
  intros y z Hy Hz. rewrite elem_of_revl in Hy. apply list_elem_of_singleton in Hz as ->.
  rewrite Forall_forall in Hx. by apply Hx.
Qed.

Definition clip_ok (l : list (Z * Z)) : Prop := StronglySorted (fun x y => fst x <= fst y) l.

(** The merge loop: [acc] is the reversed list of finished intervals. *)
Lemma merge_fold l : forall acc,
  clip_ok l ->
  Forall (fun iv => fst iv < snd iv) acc -> StronglySorted (flip before) acc ->
  (forall a x, head acc = Some a -> x ∈ l -> fst a <= fst x) ->
  let r := fold_left merge_step l acc in
  Forall (fun iv => fst iv < snd iv) r /\ StronglySorted (flip before) r /\
  (forall t, covered t r <-> covered t acc \/ covered t l) /\
  (forall lo, Forall (fun iv => lo <= fst iv) acc -> Forall (fun iv => lo <= fst iv) l ->
              Forall (fun iv => lo <= fst iv) r).
Proof.
  induction l as [|[gs ge] l IH]; intros acc Hl Hne Hs Hhd; simpl.
  { split_and!; [done..| |done]. intros t. pose proof (covered_nil t). tauto. }
  apply StronglySorted_cons in Hl as [Hgs Hl]. rewrite Forall_forall in Hgs. simpl in Hgs.
  destruct (ge <=? gs) eqn:E.
  { bools. destruct (IH acc) as (H1 & H2 & H3 & H4); try done.
    { intros a x Ha Hx. apply Hhd; [done|]. by right. }
    split_and!; try done.
    - intros t. rewrite H3, covered_cons. unfold inside; simpl. intuition lia.
    - intros lo Ha Hb. inversion Hb; subst. by apply H4. }
  bools. destruct acc as [|[a b] acc].
  { destruct (IH [(gs, ge)]) as (H1 & H2 & H3 & H4); [done|repeat constructor; done..| |].
    { intros ? x [= <-] Hx. by apply Hgs. }
    split_and!; try done.
    - intros t. rewrite H3, !covered_cons. pose proof (covered_nil t). tauto.
    - intros lo _ Hb. inversion Hb; subst. apply H4; [by repeat constructor|done]. }
  assert (a <= gs) as Hag by (apply (Hhd (a, b) (gs, ge)); [done|by left]).
  inversion Hne as [|? ? Hab Hne']; inversion Hs as [|? ? Hs' Hba]; simplify_eq/=.
  destruct (gs <=? b) eqn:E'; bools.
  - destruct (IH ((a, Z.max b ge) :: acc)) as (H1 & H2 & H3 & H4); try done.
    { constructor; simpl; [lia|done]. }
    { by constructor. }
    { intros ? x [= <-] Hx. simpl. specialize (Hgs x Hx). lia. }
    split_and!; try done.
    + intros t. rewrite H3, !covered_cons. unfold inside; simpl.
      assert (a <= t < Z.max b ge <-> a <= t < b \/ gs <= t < ge) as -> by lia. tauto.
    + intros lo Ha Hb. inversion Ha; inversion Hb; subst. apply H4; [|done]. by constructor.
  - destruct (IH ((gs, ge) :: (a, b) :: acc)) as (H1 & H2 & H3 & H4); try done.
    { by constructor. }
    { constructor; [done|]. constructor; [done|]. eapply Forall_impl; [done|].
      unfold flip, before. simpl. intros [x y]; simpl. lia. }
    { intros ? x [= <-] Hx. by apply Hgs. }
    split_and!; try done.
    + intros t. rewrite H3, !covered_cons. tauto.
    + intros lo Ha Hb. inversion Hb; subst. apply H4; [|done]. by constructor.
Qed.

(** The cutting loop over separated gaps. *)
Lemma cut_fold l : forall s cursor res,
  separated l -> Forall (fun iv => cursor <= fst iv) l ->
  Forall (fun iv => fst iv < snd iv) res -> StronglySorted (flip before) res ->
  Forall (fun iv => snd iv < cursor) res -> s <= cursor ->
  let r := fold_left cut_step l (cursor, res) in
  Forall (fun iv => fst iv < snd iv) (snd r) /\ StronglySorted (flip before) (snd r) /\
  Forall (fun iv => snd iv < fst r) (snd r) /\ cursor <= fst r /\
  (forall t, covered t (snd r) <-> covered t res \/ (cursor <= t < fst r /\ ~ covered t l)) /\
  (forall t, covered t l -> cursor <= t < fst r).
Proof.
  induction l as [|[gs ge] l IH]; intros s cursor res Hsep Hc Hne Hs Hlt Hsc; simpl.
  { split_and!; [done..|lia| |].
    - intros t. intuition lia.
    - intros t H. by apply covered_nil in H. }
  destruct Hsep as [Hsep Hnel]. apply StronglySorted_cons in Hsep as [Hgs Hsep].
  inversion Hnel as [|? ? Hg Hnel']; inversion Hc as [|? ? Hcg Hc']; simplify_eq/=.
  replace (Z.max cursor ge) with ge by lia.
  assert (Forall (fun iv => ge <= fst iv) l) as Hge.
  { eapply Forall_impl; [exact Hgs|]. unfold before; simpl. lia. }
  set (res' := if cursor <? gs then (cursor, gs) :: res else res).
  assert (Hres' : forall t, covered t res' <-> covered t res \/ cursor <= t < gs).
  { intros t. unfold res'. destruct (cursor <? gs) eqn:E; bools.
    - rewrite covered_cons. unfold inside. simpl. tauto.
    - intuition lia. }
  destruct (IH s ge res') as (H1 & H2 & H3 & H4 & H5 & H6); try done; try lia.
  - unfold res'. destruct (cursor <? gs) eqn:E; bools; [by constructor|done].
  - unfold res'. destruct (cursor <? gs) eqn:E; bools; [|done]. by constructor.
  - unfold res'. destruct (cursor <? gs) eqn:E; bools; [constructor; [simpl; lia|]|].
    all: eapply Forall_impl; [exact Hlt|]; simpl; lia.
  - assert (Hafter : forall t, covered t l -> ge < t).
    { intros t ([a b] & Hi & Hin). rewrite Forall_forall in Hgs. specialize (Hgs _ Hi).
      unfold before, inside in *. simpl in *. lia. }
    split_and!; try done; try lia.
    + intros t. rewrite H5, Hres', covered_cons. unfold inside; simpl.
      destruct (decide (t < ge)) as [Ht|Ht].
      * assert (~ covered t l) by (intros ?%Hafter; lia). clear - Ht H4 Hg Hcg H. naive_solver lia.
      * clear - Ht H4 Hg Hcg H6. naive_solver lia.
    + intros t. rewrite covered_cons. unfold inside; simpl. specialize (H6 t). intuition lia.
Qed.
End Intervals.

Definition in_gap (t : Z) (g : Gap) : Prop := gap_start_ns g <= t < gap_end_ns g.

Lemma clip_gaps_spec s e gaps :
  clip_ok (clip_gaps s e gaps) /\ Forall (fun iv => s <= fst iv) (clip_gaps s e gaps) /\
  forall t, covered t (clip_gaps s e gaps) <-> s <= t < e /\ exists g, g ∈ gaps /\ in_gap t g.
Proof.
  unfold clip_gaps. set (l := map _ _). split_and!.
  - unfold clip_ok. eapply (StronglySorted_impl (key_le (fun p => p))); [|apply py_sorted_sorted].
    intros [x1 x2] [y1 y2]. unfold key_le, kle. rewrite cmp_pair. simpl.
    unfold cmp, Z_cmp. destruct (Z.compare_spec x1 y1); [lia..|done].
  - rewrite Forall_forall. intros iv. rewrite elem_of_py_sorted. unfold l.
    rewrite elem_of_mapl. intros (g & -> & _). simpl. lia.
  - intros t. rewrite (covered_perm t _ l) by apply py_sorted_perm.
    unfold covered, l, inside, in_gap. setoid_rewrite elem_of_mapl.
    setoid_rewrite elem_of_filterb. setoid_rewrite andb_true_iff.
    setoid_rewrite Z.ltb_lt. split.
    + intros (iv & (g & -> & Hg & _) & Ht). simpl in Ht. split; [lia|]. exists g. split; [done|lia].
    + intros (Ht & g & Hg & Hi). exists (Z.max s (gap_start_ns g), Z.min e (gap_end_ns g)).
      simpl. split; [|lia]. exists g. split; [done|]. split; [done|lia].
Qed.

Lemma merge_gaps_spec s e gaps (ms := merge_gaps (clip_gaps s e gaps)) :
  separated ms /\ Forall (fun iv => s <= fst iv) ms /\
  forall t, covered t ms <-> s <= t < e /\ exists g, g ∈ gaps /\ in_gap t g.
Proof.
  destruct (clip_gaps_spec s e gaps) as (Hc & Hs & Hcov).
  destruct (merge_fold (clip_gaps s e gaps) []) as (H1 & H2 & H3 & H4);
    [done|constructor|constructor|done|].
  unfold ms, merge_gaps. split_and!.
  - by apply separated_rev.
  - apply Forall_rev. by apply H4.
  - intros t. rewrite (covered_perm t _ _ (Permutation_sym (Permutation_rev _))), H3, Hcov.
    pose proof (covered_nil t). tauto.
Qed.

Lemma cut_cursor_le hi l : forall c res,
  Forall (fun iv => snd iv <= hi) l -> fst (fold_left cut_step l (c, res)) <= Z.max c hi.
Proof.
  induction l as [|iv l IH]; intros c res H; simpl; [lia|]. inversion H; subst.
  etransitivity; [by apply IH|]. lia.
Qed.

Lemma subtract_gaps_covers s e gaps t :
  covered t (subtract_gaps s e gaps) <-> s <= t < e /\ ~ exists g, g ∈ gaps /\ in_gap t g.
Proof.
  destruct (merge_gaps_spec s e gaps) as (Hsep & Hs & Hcov). unfold subtract_gaps.
  set (ms := merge_gaps _) in *.
  destruct (cut_fold ms s s []) as (_ & _ & _ & H4 & H5 & H6);
    [done|done|constructor|constructor|constructor|lia|].
  assert (fst (fold_left cut_step ms (s, [])) <= Z.max s e) as Hle.
  { apply cut_cursor_le. rewrite Forall_forall. intros [a b] Hi. simpl.
    destruct Hsep as [_ Hne]. rewrite Forall_forall in Hne. specialize (Hne _ Hi). simpl in Hne.
    assert (covered (b - 1) ms) as [? _]%Hcov by (exists (a, b); split; [done|unfold inside; simpl; lia]).
    lia. }
  destruct (fold_left cut_step ms (s, [])) as [cursor res]. simpl in *.
  rewrite (covered_perm t _ _ (Permutation_sym (Permutation_rev _))).
  specialize (H5 t). specialize (H6 t). specialize (Hcov t). pose proof (covered_nil t).
  revert H5 H6 Hcov. generalize (exists g, g ∈ gaps /\ in_gap t g) as G. intros G H5 H6 Hcov.
  destruct (cursor <? e) eqn:E; bools; rewrite ?covered_cons; unfold inside; simpl; rewrite H5.
  - clear - H Hcov H6 H4 E Hle. destruct (decide (t < cursor)); naive_solver lia.
  - clear - H Hcov H6 H4 E Hle. naive_solver lia.
Qed.

Lemma subtract_gaps_separated s e gaps : separated (subtract_gaps s e gaps).
Proof.
  destruct (merge_gaps_spec s e gaps) as (Hsep & Hs & Hcov). unfold subtract_gaps.
  set (ms := merge_gaps _) in *.
  destruct (cut_fold ms s s []) as (H1 & H2 & H3 & _);
    [done|done|constructor|constructor|constructor|lia|].
  destruct (fold_left cut_step ms (s, [])) as [cursor res]. simpl in *.
  apply separated_rev; destruct (cursor <? e) eqn:E; bools; try done; by constructor.
Qed.

(** A whole interval is covered exactly when one element of a separated list contains it. *)
Lemma separated_single l rs re :
  separated l -> rs < re ->
  (forall t, rs <= t < re -> covered t l) <-> exists iv, iv ∈ l /\ fst iv <= rs /\ re <= snd iv.
Proof.
  intros [Hs _] Hlt. split.
  - intros H. destruct (H rs) as ([a b] & Hin & Hrs); [lia|]. exists (a, b). unfold inside in Hrs.
    simpl in *. split_and!; [done|lia|]. destruct (decide (re <= b)); [done|]. exfalso.
    destruct (H b) as ([a' b'] & Hin' & Hb); [lia|]. unfold inside in Hb. simpl in Hb.
    apply list_elem_of_split in Hin as (l1 & l2 & ->).
    apply StronglySorted_app in Hs as (H12 & _ & [Hf _]%StronglySorted_cons).
    apply elem_of_app in Hin' as [Hin'|Hin'].
    + specialize (H12 _ (a, b) Hin' ltac:(left)). unfold before in H12. simpl in H12. lia.
    + apply elem_of_cons in Hin' as [[= -> ->]|Hin']; [lia|].
      rewrite Forall_forall in Hf. specialize (Hf _ Hin'). unfold before in Hf. simpl in Hf. lia.
  - intros ([a b] & Hin & Ha & Hb) t Ht. exists (a, b). unfold inside. simpl in *. split; [done|lia].
Qed.

(** ** Eligibility *)

(** What a setup requirement asks of one manifest: it is registered for the instrument, of an
    acceptable quality, not revoked, good enough, and known at every instant from warm-up start
    to play end. *)
Definition manifest_satisfies (c : CoverageCatalog) (m : ManifestRecord) (r : SetupRequirement)
    : Prop :=
  m ∈ manifests c /\ instrument_id m = req_instrument_id r /\
  revocations c !! manifest_hash m = None /\
  (m_status m = VALID \/ (m_status m = DEGRADED /\ req_allow_degraded r = true)) /\
  rank (req_minimum_tier r) <= rank (m_execution_tier m) /\
  req_required_capabilities r ⊆ m_capabilities m /\
  m_redistribution_class m ∈ req_allowed_redistribution r /\
  forall t, required_start_ns r <= t < required_end_ns r ->
    actual_start_ns m <= t < actual_end_ns m /\ ~ exists g, g ∈ known_gaps m /\ in_gap t g.

Lemma elem_of_segments c i s :
  s ∈ segments c i <->
  exists m, m ∈ manifests c /\ manifest_visible c i m = true /\ s ∈ manifest_segments m.
Proof.
  unfold segments. rewrite elem_of_py_sorted, elem_of_concatl. split.
  - intros (l & Hs & (m & -> & [Hm Hv]%elem_of_filterb)%elem_of_mapl). eauto.
  - intros (m & Hm & Hv & Hs). exists (manifest_segments m). split; [done|].
    apply elem_of_mapl. exists m. split; [done|]. by apply elem_of_filterb.
Qed.

Lemma elem_of_manifest_segments m s :
  s ∈ manifest_segments m <->
  exists iv, iv ∈ subtract_gaps (actual_start_ns m) (actual_end_ns m) (known_gaps m) /\
    s = mk_segment (instrument_id m) (fst iv) (snd iv) (manifest_hash m) (provider m) (dataset m)
          (venue_id m) (m_execution_tier m) (m_capabilities m) (m_redistribution_class m)
          (m_status m).
Proof.
  unfold manifest_segments. rewrite elem_of_mapl. split.
  - intros ([a b] & -> & H). by exists (a, b).
  - intros ([a b] & H & ->). by exists (a, b).
Qed.

Lemma segment_meets_policy_spec s r :
  segment_meets_policy s r = true <->
  rank (req_minimum_tier r) <= rank (seg_execution_tier s) /\
  req_required_capabilities r ⊆ seg_capabilities s /\
  seg_redistribution_class s ∈ req_allowed_redistribution r /\
  (seg_status s <> DEGRADED \/ req_allow_degraded r = true).
Proof.
  unfold segment_meets_policy. rewrite <- Z.ltb_ge.
  destruct (rank _ <? rank _); [naive_solver|].
  repeat case_bool_decide; simpl; rewrite ?orb_true_iff; naive_solver.
Qed.

Lemma manifest_visible_spec c i m :
  manifest_visible c (Some i) m = true <->
  instrument_id m = i /\ (m_status m = VALID \/ m_status m = DEGRADED) /\
  revocations c !! manifest_hash m = None.
Proof.
  unfold manifest_visible, is_revoked. rewrite !andb_true_iff, bool_decide_eq_true, String.eqb_eq.
  destruct (revocations c !! manifest_hash m); naive_solver.
Qed.

Lemma elem_of_eligible_setups c r e :
  e ∈ eligible_setups c r <->
  exists s, s ∈ segments c (Some (req_instrument_id r)) /\ segment_meets_policy s r = true /\
    seg_start_ns s <= required_start_ns r /\ required_end_ns r <= seg_end_ns s /\
    e = mk_eligible (seg_manifest_hash s) (seg_start_ns s) (seg_end_ns s)
          (req_play_start_ns r) (required_end_ns r).
Proof.
  unfold eligible_setups. rewrite elem_of_py_sorted, elem_of_mapl.
  setoid_rewrite elem_of_filterb. setoid_rewrite andb_true_iff. setoid_rewrite andb_true_iff.
  setoid_rewrite Z.leb_le. naive_solver.
Qed.

Lemma elem_of_eligible_windows c r w :
  w ∈ eligible_windows c r <->
  exists s, s ∈ segments c (Some (req_instrument_id r)) /\ segment_meets_policy s r = true /\
    seg_start_ns s + req_warmup_ns r <= seg_end_ns s - req_duration_ns r /\
    w = mk_window (seg_manifest_hash s) (seg_start_ns s) (seg_end_ns s)
          (seg_start_ns s + req_warmup_ns r) (seg_end_ns s - req_duration_ns r).
Proof.
  unfold eligible_windows. rewrite elem_of_py_sorted, elem_of_mapl.
  setoid_rewrite elem_of_filterb. setoid_rewrite andb_true_iff.
  setoid_rewrite Z.leb_le. naive_solver.
Qed.

Lemma eligible_hash_iff c r h :
  required_start_ns r < required_end_ns r ->
  h ∈ map es_manifest_hash (eligible_setups c r) <->
  exists m, manifest_hash m = h /\ manifest_satisfies c m r.
Proof.
  intros Hlt. rewrite elem_of_mapl. setoid_rewrite elem_of_eligible_setups. split.
  - intros (e & -> & s & Hs & Hp & Ha & Hb & ->).
    apply elem_of_segments in Hs as (m & Hm & Hv & Hs).
    apply elem_of_manifest_segments in Hs as (iv & Hiv & ->). simpl in *.
    apply segment_meets_policy_spec in Hp as (Ht & Hc & Hr & Hd). simpl in *.
    apply manifest_visible_spec in Hv as (Hi & Hst & Hrev).
    exists m. split; [done|]. unfold manifest_satisfies. split_and!; try done; [tauto|].
    intros t Hin. apply subtract_gaps_covers. exists iv. unfold inside. split; [done|lia].
  - intros (m & <- & Hm & Hi & Hrev & Hst & Ht & Hc & Hr & Hcov).
    destruct (proj1 (separated_single (subtract_gaps (actual_start_ns m) (actual_end_ns m)
      (known_gaps m)) _ _ (subtract_gaps_separated _ _ _) Hlt)) as (iv & Hiv & Ha & Hb).
    { intros t Ht'. apply subtract_gaps_covers. by apply Hcov. }
    eexists. split; [|eexists; split_and!; [apply elem_of_segments; exists m; split_and!;
      [done| |apply elem_of_manifest_segments; eauto]| |..|reflexivity]]; simpl; try done.
    + apply manifest_visible_spec. split_and!; [done|tauto|done].
    + apply segment_meets_policy_spec. simpl. split_and!; try done.
      destruct Hst as [->|[_ ?]]; [by left|by right].
Qed.

(** ** Registration *)

Definition unique_hashes (ms : list ManifestRecord) : Prop := NoDup (map manifest_hash ms).

Lemma get_manifest_Some h ms m :
  get_manifest h ms = Some m -> m ∈ ms /\ manifest_hash m = h.
Proof. intros [? ?]%find_elem_of. by rewrite <- String.eqb_eq. Qed.

Lemma get_manifest_None h ms : get_manifest h ms = None <-> h ∉ map manifest_hash ms.
Proof.
  unfold get_manifest. rewrite find_None, elem_of_mapl. split.
  - intros H (m & -> & Hm). specialize (H m Hm). by rewrite String.eqb_refl in H.
  - intros H m Hm. apply String.eqb_neq. intros <-. apply H. eauto.
Qed.

Lemma unique_hashes_inj ms m m' :
  unique_hashes ms -> m ∈ ms -> m' ∈ ms -> manifest_hash m = manifest_hash m' -> m = m'.
Proof.
  unfold unique_hashes. induction ms as [|x ms IH]; simpl; intros Hn Hm Hm' He.
  { inversion Hm. }
  apply NoDup_cons in Hn as [Hx Hn]. rewrite elem_of_mapl in Hx.
  apply elem_of_cons in Hm as [->|Hm]; apply elem_of_cons in Hm' as [->|Hm']; try done.
  - exfalso. eauto.
  - exfalso. apply Hx. eauto.
  - by apply IH.
Qed.

Lemma get_manifest_elem ms m :
  unique_hashes ms -> m ∈ ms -> get_manifest (manifest_hash m) ms = Some m.
Proof.
  intros Hu Hm. destruct (get_manifest (manifest_hash m) ms) as [m'|] eqn:E.
  - apply get_manifest_Some in E as [H1 H2]. f_equal. by apply (unique_hashes_inj ms).
  - apply get_manifest_None in E. exfalso. apply E, elem_of_mapl. eauto.
Qed.

Lemma register_spec c m b c' :
  unique_hashes (manifests c) -> register c m = Ok (b, c') ->
  unique_hashes (manifests c') /\ revocations c' = revocations c /\
  (forall x, x ∈ manifests c' <-> x ∈ manifests c \/ x = m).
Proof.
  intros Hu H. unfold register in H.
  destruct (get_manifest (manifest_hash m) (manifests c)) as [e|] eqn:E.
  - case_bool_decide; simplify_eq. apply get_manifest_Some in E as [He _].
    split_and!; [done..|]. intros x. split; [by left|]. by intros [?| ->].
  - simplify_eq/=. apply get_manifest_None in E. unfold unique_hashes. rewrite map_app. simpl.
    split_and!; [|done|].
    + apply NoDup_app. split_and!; [done| |apply NoDup_singleton].
      intros x Hx Hx'. apply list_elem_of_singleton in Hx'. by subst.
    + intros x. rewrite elem_of_app, list_elem_of_singleton. done.
Qed.

Definition consistent (ms : list ManifestRecord) : Prop :=
  forall x y, x ∈ ms -> y ∈ ms -> manifest_hash x = manifest_hash y -> x = y.

Lemma register_all_spec ms : forall c,
  unique_hashes (manifests c) -> consistent (manifests c ++ ms) ->
  exists c', register_all c ms = Ok c' /\ unique_hashes (manifests c') /\
    revocations c' = revocations c /\ forall x, x ∈ manifests c' <-> x ∈ manifests c \/ x ∈ ms.
Proof.
  induction ms as [|m ms IH]; intros c Hu Hc; simpl.
  { exists c. split_and!; [done..|]. intros x. split; [by left|].
    intros [?|H]; [done|]. by apply not_elem_of_nil in H. }
  assert (exists b c1, register c m = Ok (b, c1)) as (b & c1 & Hr).
  { unfold register. destruct (get_manifest _ _) as [e|] eqn:E; [|eauto].
    apply get_manifest_Some in E as [He Hh]. rewrite bool_decide_eq_false_2; [eauto|].
    intros Hne. apply Hne. apply Hc; [apply elem_of_app; by left| |done].
    apply elem_of_app. right. left. }
  destruct (register_spec _ _ _ _ Hu Hr) as (Hu1 & Hrev & Hel).
  destruct (IH c1) as (c' & H1 & H2 & H3 & H4); [done| |].
  { intros x y Hx Hy. apply Hc; rewrite elem_of_app in *; rewrite ?Hel in *; rewrite elem_of_cons; naive_solver. }
  exists c'. rewrite Hr. simpl. split_and!; [done..|congruence|].
  intros x. rewrite H4, Hel, elem_of_cons. tauto.
Qed.

Lemma register_all_consistent ms : forall c c',
  unique_hashes (manifests c) -> register_all c ms = Ok c' -> consistent (manifests c ++ ms).
Proof.
  induction ms as [|m ms IH]; intros c c' Hu H; simpl in *.
  { rewrite app_nil_r. intros x y. by apply unique_hashes_inj. }
  apply rbind_Ok in H as ([b c1] & Hr & H). destruct (register_spec _ _ _ _ Hu Hr) as (Hu1 & _ & Hel).
  specialize (IH _ _ Hu1 H). simpl in IH.
  intros x y Hx Hy. apply IH; rewrite !elem_of_app, ?elem_of_cons in *; rewrite Hel; tauto.
Qed.

Lemma segments_unique c i x y :
  unique_hashes (manifests c) -> x ∈ segments c i -> y ∈ segments c i ->
  segment_key x = segment_key y -> x = y.
Proof.
  intros Hu Hx Hy Hk. apply elem_of_segments in Hx as (m1 & Hm1 & _ & Hx), Hy as (m2 & Hm2 & _ & Hy).
  apply elem_of_manifest_segments in Hx as ([a1 b1] & _ & ->), Hy as ([a2 b2] & _ & ->).
  unfold segment_key in Hk. simpl in *. injection Hk as Hi Ha Hb Hh _ _ _.
  by rewrite (unique_hashes_inj _ m1 m2 Hu), Ha, Hb.
Qed.

Lemma segments_perm c1 c2 i :
  unique_hashes (manifests c1) -> manifests c1 ≡ₚ manifests c2 ->
  revocations c1 = revocations c2 -> segments c1 i = segments c2 i.
Proof.
  intros Hu Hp Hr. unfold segments. apply py_sorted_unique.
  - intros x y Hx Hy. apply (segments_unique c1 i); [done|..];
      unfold segments; by rewrite elem_of_py_sorted.
  - apply concat_perm, Permutation_map.
    rewrite (filter_perm _ _ _ Hp). erewrite filter_ext; [done|].
    intros m. unfold manifest_visible, is_revoked. by rewrite Hr.
Qed.

(** ** Histories

    One step of the catalog: an accepted registration or revocation. *)
Inductive catalog_step (c : CoverageCatalog) : CoverageCatalog -> Prop :=
| step_register m b c' : register c m = Ok (b, c') -> catalog_step c c'
| step_revoke h t reason b c' : revoke c h t reason = Ok (b, c') -> catalog_step c c'.

Definition catalog_history := rtc catalog_step.

Lemma catalog_step_spec c c' :
  unique_hashes (manifests c) -> catalog_step c c' ->
  unique_hashes (manifests c') /\ (forall m, m ∈ manifests c -> m ∈ manifests c') /\
  (forall h f, revocations c !! h = Some f -> revocations c' !! h = Some f).
Proof.
  intros Hu [m b c1 Hr|h t reason b c1 Hr].
  - destruct (register_spec _ _ _ _ Hu Hr) as (Hu' & -> & Hel). split_and!; [done| |done].
    intros x Hx. apply Hel. by left.
  - unfold revoke in Hr. invert_ok; simpl.
    + done.
    + split_and!; [done..|]. intros h' f Hf. apply lookup_insert_Some. right.
      split; [|done]. by intros ->; simplify_eq.
Qed.

Lemma catalog_history_spec c c' :
  catalog_history c c' -> unique_hashes (manifests c) ->
  unique_hashes (manifests c') /\ (forall m, m ∈ manifests c -> m ∈ manifests c') /\
  (forall h f, revocations c !! h = Some f -> revocations c' !! h = Some f).
Proof.
  induction 1 as [|c c1 c' Hs _ IH]; intros Hu; [done|].
  destruct (catalog_step_spec _ _ Hu Hs) as (Hu1 & Hm & Hr).
  destruct (IH Hu1) as (Hu' & Hm' & Hr'). split_and!; auto.
Qed.

(** ** Properties *)

(** C4. [_subtract_gaps] is exact: an instant lies in one of the returned segments exactly when it
    lies in the manifest's actual interval and in no known gap; and the segments are non-empty,
    in order, and never adjacent, so no known gap is bridged. *)
Theorem subtract_gaps_exact s e gaps :
  (forall t, covered t (subtract_gaps s e gaps) <->
             s <= t < e /\ ~ exists g, g ∈ gaps /\ in_gap t g) /\
  separated (subtract_gaps s e gaps).
Proof. split; [intros t; apply subtract_gaps_covers | apply subtract_gaps_separated]. Qed.

(** C5. [eligible_setups] refines the eligibility contract: for a requirement the constructor
    accepts, a manifest hash is in the eligible set exactly when it names a registered, unrevoked
    manifest of the instrument with acceptable quality, tier, capabilities and licence, and every
    instant from warm-up start to play end is inside its actual interval and outside every known
    gap; coverage is never stitched across manifests or gaps. *)
Theorem eligible_setups_spec c r h :
  SetupRequirement_post_init r = Ok tt ->
  h ∈ map es_manifest_hash (eligible_setups c r) <->
  exists m, manifest_hash m = h /\ manifest_satisfies c m r.
Proof.
  intros H. apply eligible_hash_iff. unfold SetupRequirement_post_init in H. invert_ok. bools.
  unfold required_start_ns, required_end_ns. lia.
Qed.

Definition with_play_start (r : SetupRequirement) (p : Z) : SetupRequirement :=
  mk_requirement (req_instrument_id r) p (req_warmup_ns r) (req_duration_ns r)
    (req_minimum_tier r) (req_required_capabilities r) (req_allowed_redistribution r)
    (req_allow_degraded r).

(** [eligible_windows] agrees with [eligible_setups]: a play start lies in a returned window of
    a manifest exactly when the same requirement with that play start is eligible on that manifest,
    and the window's coverage is the eligible setup's coverage. *)
Theorem eligible_windows_spec c r p h cs ce :
  (exists w, w ∈ eligible_windows c r /\ ew_manifest_hash w = h /\ ew_coverage_start_ns w = cs /\
     ew_coverage_end_ns w = ce /\ ew_earliest_play_start_ns w <= p <= ew_latest_play_start_ns w) <->
  (exists e, e ∈ eligible_setups c (with_play_start r p) /\ es_manifest_hash e = h /\
     es_coverage_start_ns e = cs /\ es_coverage_end_ns e = ce).
Proof.
  setoid_rewrite elem_of_eligible_windows. setoid_rewrite elem_of_eligible_setups.
  unfold required_start_ns, required_end_ns. simpl. split.
  - intros (w & (s & Hs & Hp & Hle & ->) & <- & <- & <- & Hw). simpl in Hw.
    exists (mk_eligible (seg_manifest_hash s) (seg_start_ns s) (seg_end_ns s) p
              (p + req_duration_ns r)).
    split; [|by repeat split]. exists s. split_and!; done || lia.
  - intros (e & (s & Hs & Hp & Ha & Hb & ->) & <- & <- & <-). simpl.
    eexists. split_and!; [exists s; split_and!; [done|done| |reflexivity]; lia|simpl; done || lia..].
Qed.

(** The eligible set, its windows and its commitment hash do not depend on the order in which
    the manifests were registered: if registering a list succeeds, registering any reordering of it
    succeeds and gives the same answers. *)
Theorem registration_order_irrelevant ms ms' c :
  ms ≡ₚ ms' -> register_all empty_catalog ms = Ok c ->
  exists c', register_all empty_catalog ms' = Ok c' /\
    forall r, eligible_setups c' r = eligible_setups c r /\
              eligible_windows c' r = eligible_windows c r /\
              eligibility_hash c' r = eligibility_hash c r.
Proof.
  intros Hp Hr. assert (unique_hashes (manifests empty_catalog)) as Hu0 by constructor.
  pose proof (register_all_consistent _ _ _ Hu0 Hr) as Hc. simpl in Hc.
  destruct (register_all_spec ms empty_catalog Hu0 Hc) as (c1 & H1 & Hu1 & Hrev1 & Hel1).
  destruct (register_all_spec ms' empty_catalog Hu0) as (c' & H' & Hu' & Hrev' & Hel').
  { intros x y. simpl. rewrite <- Hp. apply Hc. }
  assert (c1 = c) as -> by congruence. exists c'. split; [done|]. intros r.
  assert (manifests c' ≡ₚ manifests c) as Hpm.
  { apply NoDup_Permutation; [apply (NoDup_of_map _ _ Hu')|apply (NoDup_of_map _ _ Hu1)|].
    intros x. by rewrite Hel', Hel1, Hp. }
  assert (eligible_setups c' r = eligible_setups c r) as He.
  { unfold eligible_setups. rewrite (segments_perm c' c); [done|done|done|congruence]. }
  split_and!; [done| |].
  - unfold eligible_windows. rewrite (segments_perm c' c); [done|done|done|congruence].
  - unfold eligibility_hash. by rewrite He.
Qed.

(** Along any history of registrations and revocations, a registered manifest keeps exactly the
    facts it was registered with, a revocation is permanent, and a manifest whose hash was ever
    revoked never appears in an eligible set again. *)
Theorem catalog_append_only c c' :
  catalog_history empty_catalog c -> catalog_history c c' ->
  (forall m, m ∈ manifests c -> get_manifest (manifest_hash m) (manifests c') = Some m) /\
  (forall h, is_revoked c h = true -> is_revoked c' h = true /\
     forall r e, e ∈ eligible_setups c' r -> es_manifest_hash e <> h).
Proof.
  intros H0 H. destruct (catalog_history_spec _ _ H0) as (Hu & _ & _); [constructor|].
  destruct (catalog_history_spec _ _ H Hu) as (Hu' & Hm & Hr). split.
  - intros m Hin. apply get_manifest_elem; [done|]. by apply Hm.
  - intros h Hh. unfold is_revoked in *. destruct (revocations c !! h) as [f|] eqn:E; [|done].
    specialize (Hr _ _ E). rewrite Hr. split; [done|]. intros r e He <-.
    apply elem_of_eligible_setups in He as (s & Hs & _ & _ & _ & ->). simpl in Hr.
    apply elem_of_segments in Hs as (m & _ & Hv & Hs).
    apply manifest_visible_spec in Hv as (_ & _ & Hv).
    apply elem_of_manifest_segments in Hs as (iv & _ & ->). simpl in Hr. congruence.
Qed.

(** ** A concrete catalog *)

Definition demo_hash : string :=
  "aaaaaaaaaaaaaaaaaaaaaaaaaaaaaaaaaaaaaaaaaaaaaaaaaaaaaaaaaaaaaaaa".
Definition demo_hash2 : string :=
  "bbbbbbbbbbbbbbbbbbbbbbbbbbbbbbbbbbbbbbbbbbbbbbbbbbbbbbbbbbbbbbbb".
Definition demo_manifest (h : string) (gaps : list Gap) : ManifestRecord :=
  mk_manifest h "dataset-v1" "recorded-provider" "market-data" "TEST" "SYNTH" "1" demo_hash
    0 1000 VALID REDISTRIBUTABLE F2 {[TRADES; BBO; L2_SNAPSHOTS; L2_DELTAS]} gaps
    ["validated"] "fixture" 1.
Definition demo_gaps : list Gap := [mk_gap 600 650 "outage"; mk_gap 640 700 "outage"].
Definition demo_catalog : CoverageCatalog :=
  mk_catalog [demo_manifest demo_hash demo_gaps; demo_manifest demo_hash2 []] ∅.
Definition demo_requirement : SetupRequirement :=
  mk_requirement "SYNTH" 200 100 300 F1 {[TRADES]} {[REDISTRIBUTABLE]} false.

Example demo_segments : subtract_gaps 0 1000 demo_gaps = [(0, 600); (700, 1000)].
Proof. reflexivity. Qed.

Lemma eligible_setups_spec_witness :
  SetupRequirement_post_init demo_requirement = Ok tt /\
  exists m, manifest_hash m = demo_hash /\ manifest_satisfies demo_catalog m demo_requirement.
Proof.
  split; [vm_compute; reflexivity|].
  apply (eligible_setups_spec demo_catalog demo_requirement demo_hash); [vm_compute; reflexivity|].
  replace (map es_manifest_hash (eligible_setups demo_catalog demo_requirement))
    with [demo_hash; demo_hash2] by (vm_compute; reflexivity). left.
Defined.

Lemma registration_order_irrelevant_witness :
  exists c', register_all empty_catalog [demo_manifest demo_hash2 []; demo_manifest demo_hash demo_gaps]
             = Ok c' /\
    forall r, eligible_setups c' r = eligible_setups demo_catalog r /\
              eligible_windows c' r = eligible_windows demo_catalog r /\
              eligibility_hash c' r = eligibility_hash demo_catalog r.
Proof.
  apply (registration_order_irrelevant
           [demo_manifest demo_hash demo_gaps; demo_manifest demo_hash2 []]).
  - apply Permutation_swap.
  - vm_compute. reflexivity.
Defined.

Definition demo_revoked : CoverageCatalog :=
  mk_catalog (manifests demo_catalog) {[demo_hash := (5, "licence withdrawn")]}.

Lemma catalog_append_only_witness :
  is_revoked demo_revoked demo_hash = true /\
  forall r e, e ∈ eligible_setups demo_revoked r -> es_manifest_hash e <> demo_hash.
Proof.
  apply (catalog_append_only demo_revoked demo_revoked).
  - apply (rtc_l _ _ (mk_catalog [demo_manifest demo_hash demo_gaps] ∅)).
    { apply (step_register _ (demo_manifest demo_hash demo_gaps) true). vm_compute. reflexivity. }
    apply (rtc_l _ _ demo_catalog).
    { apply (step_register _ (demo_manifest demo_hash2 []) true). vm_compute. reflexivity. }
    apply rtc_once. apply (step_revoke _ demo_hash 5 "licence withdrawn" true).
    vm_compute. reflexivity.
  - constructor.
  - vm_compute. reflexivity.
Defined.
