(* ===== verification/Db.v ===== *)
(** * Database tables ([apps/api/.../db/schema.py])

    The tables of the reference schema as a store.  A table keyed by one text column is a [gmap],
    the others are lists of rows in insertion order.  [insert_*] checks the PRIMARY KEY, UNIQUE,
    FOREIGN KEY and CHECK constraints the schema declares and raises [IntegrityError]; column
    lengths and numeric column widths are not modelled.  A JSON column holds the value itself. *)

From S2P Require Import Prelude Sort PyStr PyJson.
From Stdlib Require String.

Record ruleset_row := mk_ruleset_row {
  rs_version : string;
  rs_hash : string;
  rs_body : pyval;
}.

Record session_row := mk_session_row {
  s_principal_id : string;
  s_status : string;
  s_version : Z;
  s_ruleset_id : option string;
  s_commitment_hash : option string;
  s_created_at_ns : Z;
}.

Record command_row := mk_command_row {
  c_command_id : string;
  c_session_id : string;
  c_idempotency_key : string;
  c_payload_hash : string;
  c_expected_session_version : Z;
  c_accepted_at_ns : Z;
  c_payload : pyval;
}.

Record event_row := mk_event_row {
  e_session_id : string;
  e_event_seq : Z;
  e_logical_ts_ns : Z;
  e_event_type : string;
  e_causation_id : string;
  e_correlation_id : string;
  e_payload : pyval;
  e_prior_event_hash : string;
  e_current_event_hash : string;
}.

Record snapshot_row := mk_snapshot_row {
  sn_session_id : string;
  sn_event_seq : Z;
  sn_state_version : Z;
  sn_state_hash : string;
  sn_state : pyval;
}.

Record commitment_row := mk_commitment_row {
  cm_session_id : string;
  cm_kind : string;
  cm_algorithm_version : string;
  cm_commitment_hash : string;
  cm_setup_hash : string;
  cm_eligible_set_hash : string;
  cm_metadata : pyval;
  cm_sealed_secret : string;
  cm_revealed_secret : option string;
}.

Record result_row := mk_result_row {
  rb_result_hash : string;
  rb_bundle_hash : string;
  rb_proof_hash : string;
  rb_export_hash : string;
  rb_created_at_ns : Z;
  rb_bundle : pyval;
  rb_proof : pyval;
  rb_export : pyval;
}.

Record Db := mk_db {
  rulesets : gmap string ruleset_row;
  sessions : gmap string session_row;
  commands : list command_row;
  domain_events : list event_row;
  snapshots : list snapshot_row;
  commitments : gmap string commitment_row;
  result_bundles : gmap string result_row;
}.

(** [metadata.create_all]: empty tables. *)
Definition empty_db : Db := mk_db ∅ ∅ [] [] [] ∅ ∅.

Definition set_rulesets (t : gmap string ruleset_row) (db : Db) : Db :=
  mk_db t (sessions db) (commands db) (domain_events db) (snapshots db) (commitments db) (result_bundles db).
Definition set_sessions (t : gmap string session_row) (db : Db) : Db :=
  mk_db (rulesets db) t (commands db) (domain_events db) (snapshots db) (commitments db) (result_bundles db).
Definition set_commands (t : list command_row) (db : Db) : Db :=
  mk_db (rulesets db) (sessions db) t (domain_events db) (snapshots db) (commitments db) (result_bundles db).
Definition set_domain_events (t : list event_row) (db : Db) : Db :=
  mk_db (rulesets db) (sessions db) (commands db) t (snapshots db) (commitments db) (result_bundles db).
Definition set_snapshots (t : list snapshot_row) (db : Db) : Db :=
  mk_db (rulesets db) (sessions db) (commands db) (domain_events db) t (commitments db) (result_bundles db).
Definition set_commitments (t : gmap string commitment_row) (db : Db) : Db :=
  mk_db (rulesets db) (sessions db) (commands db) (domain_events db) (snapshots db) t (result_bundles db).
Definition set_result_bundles (t : gmap string result_row) (db : Db) : Db :=
  mk_db (rulesets db) (sessions db) (commands db) (domain_events db) (snapshots db) (commitments db) t.

(** ** Selects *)

(** [.one_or_none()] and [.scalar_one()]. *)
Definition one_or_none {A} (rows : list A) : result (option A) :=
  match rows with
  | [] => Ok None
  | [r] => Ok (Some r)
  | _ => Raise MultipleResultsFound
  end.

Definition commands_of (sid key : string) (db : Db) : list command_row :=
  List.filter (fun r => String.eqb (c_session_id r) sid && String.eqb (c_idempotency_key r) key)
    (commands db).

Definition command_by_id (sid cid : string) (db : Db) : list command_row :=
  List.filter (fun r => String.eqb (c_session_id r) sid && String.eqb (c_command_id r) cid)
    (commands db).

Definition event_rows (sid : string) (db : Db) : list event_row :=
  List.filter (fun r => String.eqb (e_session_id r) sid) (domain_events db).

(** [... ORDER BY event_seq]. *)
Definition session_events (sid : string) (db : Db) : list event_row :=
  py_sorted e_event_seq (event_rows sid db).

(** [... ORDER BY event_seq DESC LIMIT 1]. *)
Definition last_event (sid : string) (db : Db) : option event_row := last (session_events sid db).

Definition session_snapshots (sid : string) (db : Db) : list snapshot_row :=
  py_sorted sn_event_seq (List.filter (fun r => String.eqb (sn_session_id r) sid) (snapshots db)).

Definition snapshots_at (sid : string) (seq : Z) (db : Db) : list snapshot_row :=
  List.filter (fun r => String.eqb (sn_session_id r) sid && (sn_event_seq r =? seq)) (snapshots db).

Definition ruleset_by_hash (h : string) (db : Db) : list string :=
  map fst (List.filter (fun p => String.eqb (rs_hash (snd p)) h) (map_to_list (rulesets db))).

(** ** Inserts and updates *)

Definition has_session (sid : string) (db : Db) : bool :=
  match sessions db !! sid with Some _ => true | None => false end.

Definition insert_ruleset (rid : string) (r : ruleset_row) : ST Db unit := fun db =>
  if match rulesets db !! rid with Some _ => true | None => false end
     || negb (match ruleset_by_hash (rs_hash r) db with [] => true | _ => false end)
  then (Raise IntegrityError, db)
  else (Ok tt, set_rulesets (<[rid := r]> (rulesets db)) db).

Definition insert_session (sid : string) (r : session_row) : ST Db unit := fun db =>
  if has_session sid db || (s_version r <? 0)
     || match s_ruleset_id r with
        | Some rid => match rulesets db !! rid with Some _ => false | None => true end
        | None => false
        end
  then (Raise IntegrityError, db)
  else (Ok tt, set_sessions (<[sid := r]> (sessions db)) db).

(** [UPDATE sessions ... WHERE session_id = sid AND cond]: the row count. *)
Definition update_session (sid : string) (cond : session_row -> bool)
    (f : session_row -> session_row) : ST Db Z := fun db =>
  match sessions db !! sid with
  | Some r => if cond r then (Ok 1, set_sessions (<[sid := f r]> (sessions db)) db) else (Ok 0, db)
  | None => (Ok 0, db)
  end.

Definition insert_command (r : command_row) : ST Db unit := fun db =>
  if existsb (fun x => String.eqb (c_command_id x) (c_command_id r)) (commands db)
     || negb (match commands_of (c_session_id r) (c_idempotency_key r) db with [] => true | _ => false end)
     || (c_expected_session_version r <? 0) || negb (has_session (c_session_id r) db)
  then (Raise IntegrityError, db)
  else (Ok tt, set_commands (commands db ++ [r]) db).

Definition insert_event (r : event_row) : ST Db unit := fun db =>
  if existsb (fun x => (e_event_seq x =? e_event_seq r)
                       || String.eqb (e_current_event_hash x) (e_current_event_hash r))
       (event_rows (e_session_id r) db)
     || (e_event_seq r <? 0) || negb (has_session (e_session_id r) db)
  then (Raise IntegrityError, db)
  else (Ok tt, set_domain_events (domain_events db ++ [r]) db).

Fixpoint insert_events (rs : list event_row) : ST Db unit :=
  match rs with
  | [] => sret tt
  | r :: rs' => insert_event r ;;; insert_events rs'
  end.

Definition insert_snapshot (r : snapshot_row) : ST Db unit := fun db =>
  if negb (match snapshots_at (sn_session_id r) (sn_event_seq r) db with [] => true | _ => false end)
     || (sn_event_seq r <? 0) || (sn_state_version r <=? 0) || negb (has_session (sn_session_id r) db)
  then (Raise IntegrityError, db)
  else (Ok tt, set_snapshots (snapshots db ++ [r]) db).

(** The rows of [commitments] of a session and kind, with their primary keys. *)
Definition commitment_of (sid kind : string) (db : Db) : list (string * commitment_row) :=
  List.filter (fun p => String.eqb (cm_session_id (snd p)) sid && String.eqb (cm_kind (snd p)) kind)
    (map_to_list (commitments db)).

Definition insert_commitment (cid : string) (r : commitment_row) : ST Db unit := fun db =>
  if match commitments db !! cid with Some _ => true | None => false end
     || negb (match commitment_of (cm_session_id r) (cm_kind r) db with [] => true | _ => false end)
     || negb (has_session (cm_session_id r) db)
  then (Raise IntegrityError, db)
  else (Ok tt, set_commitments (<[cid := r]> (commitments db)) db).

Definition set_revealed (secret : string) (r : commitment_row) : commitment_row :=
  mk_commitment_row (cm_session_id r) (cm_kind r) (cm_algorithm_version r) (cm_commitment_hash r)
    (cm_setup_hash r) (cm_eligible_set_hash r) (cm_metadata r) (cm_sealed_secret r) (Some secret).

(** [UPDATE commitments SET revealed_secret = secret WHERE commitment_id = cid]. *)
Definition update_revealed (cid secret : string) : ST Db unit := fun db =>
  (Ok tt, set_commitments (alter (set_revealed secret) cid (commitments db)) db).

Definition insert_result (sid : string) (r : result_row) : ST Db unit := fun db =>
  if match result_bundles db !! sid with Some _ => true | None => false end || negb (has_session sid db)
  then (Raise IntegrityError, db)
  else (Ok tt, set_result_bundles (<[sid := r]> (result_bundles db)) db).

(** ** The hash chain of a session's events

    [chain_from n h evs]: the events are numbered from [n] on and each one's prior hash is the
    previous one's current hash, starting with [h]. *)

Definition ZERO_HASH : string :=
  "0000000000000000000000000000000000000000000000000000000000000000".

Fixpoint chain_from (n : Z) (h : string) (evs : list event_row) : Prop :=
  match evs with
  | [] => True
  | e :: evs' =>
      e_event_seq e = n /\ e_prior_event_hash e = h /\
      chain_from (n + 1) (e_current_event_hash e) evs'
  end.

Definition next_seq (evs : list event_row) : Z :=
  match last evs with Some e => e_event_seq e + 1 | None => 0 end.
Definition last_hash (evs : list event_row) : string :=
  match last evs with Some e => e_current_event_hash e | None => ZERO_HASH end.

(** Every session's events form one gap-free chain from sequence 0 and the zero hash, in the order
    they were inserted. *)
Definition chains_ok (db : Db) : Prop := forall sid, chain_from 0 ZERO_HASH (event_rows sid db).

Definition same_events (db db' : Db) : Prop := domain_events db = domain_events db'.

Lemma last_app_eq {A} (l : list A) x : last (l ++ [x]) = Some x.
Proof. by rewrite last_snoc. Qed.

Lemma chain_from_app n h l1 l2 :
  chain_from n h (l1 ++ l2) <->
  chain_from n h l1 /\
  chain_from (n + Z.of_nat (length l1)) (match last l1 with Some e => e_current_event_hash e | None => h end) l2.
Proof.
  revert n h. induction l1 as [|e l1 IH]; intros n h.
  { cbn [app length last chain_from]. rewrite Nat2Z.inj_0, Z.add_0_r. tauto. }
  cbn [app length chain_from]. rewrite IH, Nat2Z.inj_succ.
  replace (n + 1 + Z.of_nat (length l1)) with (n + Z.succ (Z.of_nat (length l1))) by lia.
  replace (match last l1 with Some e0 => e_current_event_hash e0 | None => e_current_event_hash e end)
    with (match last (e :: l1) with Some e0 => e_current_event_hash e0 | None => h end);
    [tauto|by destruct l1 as [|? ? _] using rev_ind; rewrite ?app_comm_cons, ?last_snoc].
Qed.

Lemma chain_next_seq n h l :
  chain_from n h l -> match last l with Some e => e_event_seq e + 1 = n + Z.of_nat (length l) | None => l = [] end.
Proof.
  intros H. destruct (last l) as [e|] eqn:E; [|by apply last_None in E].
  apply last_Some in E as [l' ->]. apply chain_from_app in H as (_ & Hs & _).
  rewrite Hs, length_app. simpl. lia.
Qed.

Lemma chain_next_seq0 l : chain_from 0 ZERO_HASH l -> next_seq l = Z.of_nat (length l).
Proof.
  intros H%chain_next_seq. unfold next_seq. destruct (last l); [lia|by subst].
Qed.

Lemma chain_bounds n h l e :
  chain_from n h l -> e ∈ l -> n <= e_event_seq e < n + Z.of_nat (length l).
Proof.
  revert n h. induction l as [|x l IH]; intros n h H He; [by apply not_elem_of_nil in He|].
  simpl in H. destruct H as (Hs & _ & H). apply elem_of_cons in He as [->|He]; simpl; [lia|].
  specialize (IH _ _ H He). lia.
Qed.

Lemma chain_sorted n h l : chain_from n h l -> StronglySorted (key_le e_event_seq) l.
Proof.
  revert n h. induction l as [|x l IH]; intros n h H; [constructor|].
  simpl in H. destruct H as (Hs & _ & H). constructor; [by eapply IH|].
  rewrite Forall_forall. intros e He. pose proof (chain_bounds _ _ _ _ H He).
  unfold key_le, kle, cmp, Z_cmp. rewrite Z.compare_gt_iff. lia.
Qed.

Lemma session_events_chain sid db : chains_ok db -> session_events sid db = event_rows sid db.
Proof. intros H. apply py_sorted_id. by eapply chain_sorted. Qed.

Lemma event_rows_app sid rows db db' :
  domain_events db' = domain_events db ++ rows ->
  event_rows sid db' = event_rows sid db ++ List.filter (fun r => String.eqb (e_session_id r) sid) rows.
Proof. unfold event_rows. intros ->. by rewrite List.filter_app. Qed.

Lemma insert_event_Ok r db u db' :
  insert_event r db = (Ok u, db') <->
  (forall x, x ∈ event_rows (e_session_id r) db ->
     e_event_seq x <> e_event_seq r /\ e_current_event_hash x <> e_current_event_hash r) /\
  0 <= e_event_seq r /\ has_session (e_session_id r) db = true /\
  db' = set_domain_events (domain_events db ++ [r]) db.
Proof.
  unfold insert_event. set (b := existsb _ _).
  assert (b = false <-> forall x, x ∈ event_rows (e_session_id r) db ->
     e_event_seq x <> e_event_seq r /\ e_current_event_hash x <> e_current_event_hash r) as Hb.
  { unfold b. rewrite <- not_true_iff_false, existsb_exists. split.
    - intros H x Hx. apply list_elem_of_In in Hx. split; intros E; apply H; exists x;
        (split; [done|]); apply orb_true_iff; [left; by apply Z.eqb_eq|right; by apply String.eqb_eq].
    - intros H (x & Hx & E). apply list_elem_of_In in Hx. destruct (H x Hx).
      apply orb_true_iff in E as [E|E]; [by apply Z.eqb_eq in E|by apply String.eqb_eq in E]. }
  rewrite <- Hb. destruct u, b, (e_event_seq r <? 0) eqn:E, (has_session _ db); simpl; bools;
    naive_solver lia.
Qed.

(** Inserting the next link of a session's chain keeps every chain. *)
Lemma insert_event_chain r db u db' :
  chains_ok db -> insert_event r db = (Ok u, db') ->
  e_event_seq r = next_seq (event_rows (e_session_id r) db) ->
  e_prior_event_hash r = last_hash (event_rows (e_session_id r) db) ->
  chains_ok db' /\ event_rows (e_session_id r) db' = event_rows (e_session_id r) db ++ [r].
Proof.
  intros Hc (_ & _ & _ & ->)%insert_event_Ok Hs Hp. split.
  - intros sid. rewrite (event_rows_app _ [r] db) by done. simpl.
    destruct (String.eqb_spec (e_session_id r) sid) as [<-|]; [|rewrite app_nil_r; apply Hc].
    apply chain_from_app. specialize (Hc (e_session_id r)). split; [done|]. simpl.
    rewrite Hs, Hp. rewrite chain_next_seq0 by done. split_and!; [lia|done|done].
  - rewrite (event_rows_app _ [r] db) by done. simpl.
    by rewrite String.eqb_refl.
Qed.

Lemma event_rows_same sid db db' : same_events db db' -> event_rows sid db = event_rows sid db'.
Proof. unfold same_events, event_rows. by intros ->. Qed.

Lemma chains_same db db' : same_events db db' -> chains_ok db -> chains_ok db'.
Proof. intros H Hc sid. rewrite <- (event_rows_same sid _ _ H). apply Hc. Qed.

(** ** Commands *)

Definition command_key (r : command_row) : string * string := (c_session_id r, c_idempotency_key r).

Lemma elem_of_commands_of r sid key db :
  r ∈ commands_of sid key db <-> r ∈ commands db /\ command_key r = (sid, key).
Proof.
  unfold commands_of, command_key. rewrite elem_of_filterb, andb_true_iff, !String.eqb_eq.
  split; [intros (? & <- & <-)|intros (? & [= <- <-])]; done.
Qed.

Lemma commands_of_unique r db :
  NoDup (map command_key (commands db)) -> r ∈ commands db ->
  commands_of (c_session_id r) (c_idempotency_key r) db = [r].
Proof.
  unfold commands_of. induction (commands db) as [|x l IH]; [by intros _ ?%not_elem_of_nil|].
  simpl. intros [Hx Hl]%NoDup_cons Hr. rewrite elem_of_mapl in Hx.
  destruct (String.eqb_spec (c_session_id x) (c_session_id r)) as [E1|]; simpl;
    [destruct (String.eqb_spec (c_idempotency_key x) (c_idempotency_key r)) as [E2|]; simpl|].
  - assert (r = x) as ->.
    { apply elem_of_cons in Hr as [|Hr]; [done|]. exfalso. apply Hx. exists r.
      unfold command_key. by rewrite E1, E2. }
    f_equal. destruct (List.filter _ l) as [|y l'] eqn:E; [done|]. exfalso.
    assert (y ∈ y :: l') as Hy by left. rewrite <- E in Hy.
    apply elem_of_filterb in Hy as [Hy Hk]. apply andb_true_iff in Hk as [K1 K2].
    apply String.eqb_eq in K1, K2. apply Hx. exists y. unfold command_key. by rewrite K1, K2.
  - apply elem_of_cons in Hr as [->|Hr]; [done|by apply IH].
  - apply elem_of_cons in Hr as [->|Hr]; [done|by apply IH].
Qed.

Lemma insert_command_Ok r db u db' :
  insert_command r db = (Ok u, db') ->
  commands_of (c_session_id r) (c_idempotency_key r) db = [] /\
  (forall x, x ∈ commands db -> c_command_id x <> c_command_id r) /\
  has_session (c_session_id r) db = true /\
  db' = set_commands (commands db ++ [r]) db.
Proof.
  unfold insert_command. intros H. destruct (existsb _ _) eqn:E; [discriminate|].
  destruct (commands_of _ _ db) eqn:Ek; [|discriminate]. simpl in H.
  destruct (c_expected_session_version r <? 0); [discriminate|].
  destruct (has_session _ db) eqn:Es; [|discriminate]. simpl in H. simplify_eq.
  split_and!; [done| |done|done]. intros x Hx Heq.
  assert (existsb (fun x => String.eqb (c_command_id x) (c_command_id r)) (commands db) = true).
  { apply existsb_exists. exists x. split; [by apply list_elem_of_In|by apply String.eqb_eq]. }
  congruence.
Qed.

Lemma has_session_insert sid k r db :
  has_session sid db = true -> has_session sid (set_sessions (<[k := r]> (sessions db)) db) = true.
Proof.
  unfold has_session. simpl. destruct (decide (k = sid)) as [->|].
  - by rewrite lookup_insert_eq.
  - by rewrite lookup_insert_ne.
Qed.

Lemma update_session_Ok sid cond f db n db' :
  update_session sid cond f db = (Ok n, db') -> n = 1 ->
  exists r, sessions db !! sid = Some r /\ cond r = true /\
    db' = set_sessions (<[sid := f r]> (sessions db)) db.
Proof.
  unfold update_session. destruct (sessions db !! sid) as [r|] eqn:E; [|naive_solver lia].
  destruct (cond r) eqn:Ec; naive_solver lia.
Qed.

(** ** Commitments *)

(** [uq_commitments_session_kind]. *)
Definition commitments_unique (db : Db) : Prop := forall c1 c2 r1 r2,
  commitments db !! c1 = Some r1 -> commitments db !! c2 = Some r2 ->
  cm_session_id r1 = cm_session_id r2 -> cm_kind r1 = cm_kind r2 -> c1 = c2.

Lemma elem_of_commitment_of sid kind db c r :
  (c, r) ∈ commitment_of sid kind db <->
  commitments db !! c = Some r /\ cm_session_id r = sid /\ cm_kind r = kind.
Proof.
  unfold commitment_of. rewrite elem_of_filterb, elem_of_map_to_list, andb_true_iff, !String.eqb_eq. done.
Qed.

Lemma NoDup_filterb {A} (p : A -> bool) l : NoDup l -> NoDup (List.filter p l).
Proof.
  induction 1 as [|x l Hx Hl IH]; simpl; [constructor|]. destruct (p x); [|done].
  constructor; [|done]. by intros [? _]%elem_of_filterb.
Qed.

Lemma commitment_of_eq db c r :
  commitments_unique db -> commitments db !! c = Some r ->
  commitment_of (cm_session_id r) (cm_kind r) db = [(c, r)].
Proof.
  intros Hu Hc. assert (Hin : (c, r) ∈ commitment_of (cm_session_id r) (cm_kind r) db)
    by by apply elem_of_commitment_of.
  assert (Hall : forall p, p ∈ commitment_of (cm_session_id r) (cm_kind r) db -> p = (c, r)).
  { intros [c' r'] (Hc' & Hs & Hk)%elem_of_commitment_of.
    assert (c' = c) as -> by by eapply Hu. by simplify_eq. }
  assert (Hnd : NoDup (commitment_of (cm_session_id r) (cm_kind r) db))
    by apply NoDup_filterb, NoDup_map_to_list.
  destruct (commitment_of _ _ db) as [|p [|q l]]; [by apply not_elem_of_nil in Hin| |].
  - by rewrite (Hall p) by left.
  - exfalso. apply NoDup_cons in Hnd as [Hp _]. apply Hp.
    rewrite (Hall p), (Hall q) by (repeat constructor). left.
Qed.

Lemma commitment_of_nil sid kind db :
  commitment_of sid kind db = [] <->
  forall c r, commitments db !! c = Some r -> ~ (cm_session_id r = sid /\ cm_kind r = kind).
Proof.
  split.
  - intros E c r Hc [Hs Hk]. assert ((c, r) ∈ commitment_of sid kind db) as H by by apply elem_of_commitment_of.
    rewrite E in H. by apply not_elem_of_nil in H.
  - intros H. destruct (commitment_of sid kind db) as [|[c r] l] eqn:E; [done|]. exfalso.
    assert ((c, r) ∈ commitment_of sid kind db) as (Hc & Hs)%elem_of_commitment_of by (rewrite E; left).
    by apply (H c r).
Qed.

Lemma insert_commitment_Ok cid r db u db' :
  insert_commitment cid r db = (Ok u, db') <->
  commitments db !! cid = None /\ commitment_of (cm_session_id r) (cm_kind r) db = [] /\
  has_session (cm_session_id r) db = true /\
  db' = set_commitments (<[cid := r]> (commitments db)) db.
Proof.
  unfold insert_commitment.
  destruct u, (commitments db !! cid), (commitment_of _ _ db), (has_session _ db); simpl; naive_solver.
Qed.

Lemma insert_commitment_unique cid r db u db' :
  commitments_unique db -> insert_commitment cid r db = (Ok u, db') -> commitments_unique db'.
Proof.
  intros Hu (Hn & Hf & _ & ->)%insert_commitment_Ok c1 c2 r1 r2. simpl.
  rewrite commitment_of_nil in Hf. rewrite !lookup_insert_Some.
  intros [[<- <-]|[_ H1]] [[<- <-]|[_ H2]] Hs Hk; [done| | |by eapply Hu].
  - destruct (Hf _ _ H2). by split.
  - destruct (Hf _ _ H1). by split.
Qed.

Lemma update_revealed_unique cid secret db : 
  commitments_unique db -> commitments_unique (snd (update_revealed cid secret db)).
Proof.
  intros Hu c1 c2 r1 r2. simpl. rewrite !lookup_alter_Some.
  intros [(<- & x1 & H1 & ->)|[_ H1]] [(<- & x2 & H2 & ->)|[_ H2]]; simpl; intros; by eapply Hu.
Qed.

Lemma insert_result_Ok sid r db u db' :
  insert_result sid r db = (Ok u, db') <->
  result_bundles db !! sid = None /\ has_session sid db = true /\
  db' = set_result_bundles (<[sid := r]> (result_bundles db)) db.
Proof.
  unfold insert_result. destruct u, (result_bundles db !! sid), (has_session _ db); simpl; naive_solver.
Qed.
