(* ===== verification/EventStore.v ===== *)
(** * Event store ([apps/api/.../db/store.py])

    [EventStore.append_command]: one command and its events in one transaction, with idempotent
    retries, optimistic session versions and a hash chain per session. *)

From S2P Require Import Prelude Sort PyStr PyJson Db.
From Stdlib Require String.

Record EventRecord := mk_EventRecord {
  ev_event_seq : Z;
  ev_logical_ts_ns : Z;
  ev_event_type : string;
  ev_causation_id : string;
  ev_correlation_id : string;
  ev_payload : pyval;
  ev_prior_event_hash : string;
  ev_current_event_hash : string;
}.

Record CommandRecord := mk_CommandRecord {
  cmd_command_id : string;
  cmd_session_id : string;
  cmd_idempotency_key : string;
  cmd_payload_hash : string;
  cmd_expected_session_version : Z;
  cmd_accepted_at_ns : Z;
  cmd_payload : pyval;
}.

Record AppendResult := mk_AppendResult {
  ar_command_id : string;
  ar_session_version : Z;
  ar_event_seqs : list Z;
  ar_replayed : bool;
}.

(** ** Operations *)

Definition create_session (sid principal : string) (created_at_ns : Z) (status : string) : ST Db unit :=
  transaction (insert_session sid (mk_session_row principal status 0 None None created_at_ns)).

Definition idempotent_retry (c : CommandRecord) : ST Db (option AppendResult) := fun db =>
  match one_or_none (commands_of (cmd_session_id c) (cmd_idempotency_key c) db) with
  | Raise e => (Raise e, db)
  | Ok None => (Ok None, db)
  | Ok (Some row) =>
      if negb (String.eqb (c_payload_hash row) (cmd_payload_hash c))
      then (Raise IdempotencyConflict, db)
      else match sessions db !! cmd_session_id c with
           | None => (Raise NoResultFound, db)
           | Some s =>
               let seqs := map e_event_seq
                 (py_sorted e_event_seq
                    (List.filter (fun e => String.eqb (e_causation_id e) (c_command_id row))
                       (event_rows (cmd_session_id c) db))) in
               (Ok (Some (mk_AppendResult (c_command_id row) (s_version s) seqs true)), db)
           end
  end.

(** The loop over the received events. *)
Fixpoint check_chain (expected_seq : Z) (expected_prior_hash : string) (events : list EventRecord)
    : result unit :=
  match events with
  | [] => Ok tt
  | e :: events' =>
      let! _ := raise_if (negb (ev_event_seq e =? expected_seq)
                          || negb (String.eqb (ev_prior_event_hash e) expected_prior_hash))
                  EventChainConflict in
      check_chain (expected_seq + 1) (ev_current_event_hash e) events'
  end.

Definition event_to_row (sid : string) (e : EventRecord) : event_row :=
  mk_event_row sid (ev_event_seq e) (ev_logical_ts_ns e) (ev_event_type e) (ev_causation_id e)
    (ev_correlation_id e) (ev_payload e) (ev_prior_event_hash e) (ev_current_event_hash e).

Definition command_to_row (c : CommandRecord) : command_row :=
  mk_command_row (cmd_command_id c) (cmd_session_id c) (cmd_idempotency_key c)
    (cmd_payload_hash c) (cmd_expected_session_version c) (cmd_accepted_at_ns c) (cmd_payload c).

Definition set_version (v : Z) (r : session_row) : session_row :=
  mk_session_row (s_principal_id r) (s_status r) v (s_ruleset_id r) (s_commitment_hash r)
    (s_created_at_ns r).

Definition expected_seq (sid : string) (db : Db) : Z :=
  match last_event sid db with None => 0 | Some e => e_event_seq e + 1 end.
Definition expected_prior_hash (sid : string) (db : Db) : string :=
  match last_event sid db with None => ZERO_HASH | Some e => e_current_event_hash e end.

Definition append_fresh (c : CommandRecord) (events : list EventRecord) : ST Db AppendResult :=
  let sid := cmd_session_id c in
  let expected := cmd_expected_session_version c in
  current <- gets (fun db => sessions db !! sid) ;;
  lift (of_option SessionNotFound current) ;;;
  seq <- gets (expected_seq sid) ;;
  prior <- gets (expected_prior_hash sid) ;;
  lift (check_chain seq prior events) ;;;
  rowcount <- update_session sid (fun r => s_version r =? expected) (set_version (expected + 1)) ;;
  lift (raise_if (negb (rowcount =? 1)) ConcurrentSessionVersion) ;;;
  insert_command (command_to_row c) ;;;
  insert_events (map (event_to_row sid) events) ;;;
  sret (mk_AppendResult (cmd_command_id c) (expected + 1) (map ev_event_seq events) false).

Definition store_error (e : exn) : exn :=
  match e with IntegrityError => EventStoreError | e => e end.

Definition append_command (c : CommandRecord) (events : list EventRecord) : ST Db AppendResult :=
  reraise store_error (transaction (
    replay <- idempotent_retry c ;;
    match replay with
    | Some r => sret r
    | None => append_fresh c events
    end)).

Definition event_count (sid : string) (db : Db) : Z := Z.of_nat (length (event_rows sid db)).

(** ** Lemmas *)

Lemma reraise_transaction_Raise {S A} h (m : ST S A) s e s' :
  reraise h (transaction m) s = (Raise e, s') -> s' = s.
Proof. unfold reraise, transaction. destruct (m s) as [[?|?] ?]; naive_solver. Qed.

Lemma idempotent_retry_state c db o db' : idempotent_retry c db = (Ok o, db') -> db' = db.
Proof. unfold idempotent_retry. intros H. repeat case_match; naive_solver. Qed.

Lemma idempotent_retry_replayed c db r db' :
  idempotent_retry c db = (Ok (Some r), db') -> ar_replayed r = true.
Proof.
  unfold idempotent_retry. destruct (one_or_none _) as [[row|]|]; [|discriminate..].
  destruct (negb _); [discriminate|]. destruct (sessions db !! _); [|discriminate].
  intros [= <- _]. done.
Qed.

Lemma create_session_Ok sid p t st db u db' :
  create_session sid p t st db = (Ok u, db') ->
  has_session sid db = false /\
  db' = set_sessions (<[sid := mk_session_row p st 0 None None t]> (sessions db)) db.
Proof.
  unfold create_session. intros H. apply (proj1 (transaction_Ok _ _ _ _)) in H. unfold insert_session in H.
  cbn in H. destruct (has_session sid db); [discriminate|]. injection H as <- <-. done.
Qed.


Lemma check_chain_error events : forall n h e,
  check_chain n h events = Raise e -> e = EventChainConflict.
Proof.
  induction events as [|x events IH]; intros n h e H; simpl in H; [discriminate|].
  destruct (negb _ || negb _)%bool; simpl in H; [congruence|by eapply IH].
Qed.

(** The rows of a session, and every chain, after inserting a run of chained events. *)
Lemma insert_events_chain sid events : forall db u db',
  chains_ok db -> insert_events (map (event_to_row sid) events) db = (Ok u, db') ->
  check_chain (next_seq (event_rows sid db)) (last_hash (event_rows sid db)) events = Ok tt ->
  chains_ok db' /\
  db' = set_domain_events (domain_events db ++ map (event_to_row sid) events) db.
Proof.
  induction events as [|e events IH]; intros db u db' Hc H Hk; simpl in *.
  { unfold sret in H. simplify_eq. rewrite app_nil_r. by destruct db'. }
  apply sbind_Ok in H as (u1 & db1 & H1 & H). invert_ok.
  match goal with Hb : (_ || _)%bool = false |- _ => apply orb_false_iff in Hb as [Hb1 Hb2] end.
  apply negb_false_iff in Hb1, Hb2. apply Z.eqb_eq in Hb1. apply String.eqb_eq in Hb2.
  destruct (insert_event_chain _ _ _ _ Hc H1) as [Hc1 Hr1]; [by simpl..|].
  apply insert_event_Ok in H1 as (_ & _ & _ & Hdb1). simpl in Hr1.
  destruct (IH db1 tt db') as (? & ->); [done|done| |].
  { rewrite Hr1. unfold next_seq, last_hash. rewrite last_snoc. simpl. rewrite Hb1.
    by rewrite <- Hb1 in *. }
  subst db1. split; [done|]. unfold set_domain_events. simpl. by rewrite <- app_assoc.
Qed.

Lemma expected_seq_chain sid db : chains_ok db -> expected_seq sid db = next_seq (event_rows sid db).
Proof. intros H. unfold expected_seq, last_event, next_seq. by rewrite session_events_chain. Qed.

Lemma expected_prior_chain sid db :
  chains_ok db -> expected_prior_hash sid db = last_hash (event_rows sid db).
Proof. intros H. unfold expected_prior_hash, last_event, last_hash. by rewrite session_events_chain. Qed.


(** What a fresh append does to the store. *)
Definition appended (c : CommandRecord) (events : list EventRecord) (db db' : Db) : Prop :=
  exists s, sessions db !! cmd_session_id c = Some s /\
    s_version s = cmd_expected_session_version c /\
    commands_of (cmd_session_id c) (cmd_idempotency_key c) db = [] /\
    (forall x, x ∈ commands db -> c_command_id x <> cmd_command_id c) /\
    db' = set_domain_events (domain_events db ++ map (event_to_row (cmd_session_id c)) events)
            (set_commands (commands db ++ [command_to_row c])
               (set_sessions
                  (<[cmd_session_id c := set_version (cmd_expected_session_version c + 1) s]>
                     (sessions db)) db)).

Lemma append_fresh_Ok c events db r db' :
  chains_ok db -> append_fresh c events db = (Ok r, db') ->
  appended c events db db' /\ chains_ok db' /\
  r = mk_AppendResult (cmd_command_id c) (cmd_expected_session_version c + 1)
        (map ev_event_seq events) false.
Proof.
  intros Hc H. unfold append_fresh in H.
  repeat step_ok. subst.
  match goal with Hu : update_session _ _ _ _ = _, Hn : negb _ = false |- _ =>
    apply negb_false_iff, Z.eqb_eq in Hn; destruct (update_session_Ok _ _ _ _ _ _ Hu Hn)
      as (s & Hs & Hv & ->) end.
  match goal with Hi : insert_command _ _ = _ |- _ =>
    apply insert_command_Ok in Hi as (Hk & Hid & _ & ->) end.
  match goal with Hi : insert_events _ _ = _ |- _ =>
    apply insert_events_chain in Hi as (Hc' & ->) end.
  - apply Z.eqb_eq in Hv. split_and!; [|done|done]. exists s. simpl in *.
    split_and!; done.
  - intros sid. apply (Hc sid).
  - match goal with |- check_chain (next_seq (event_rows ?a ?d)) _ _ = _ =>
      change (event_rows a d) with (event_rows a db) end.
    rewrite <- expected_seq_chain, <- expected_prior_chain by done. done.
Qed.

Lemma append_command_Ok c events db r db' :
  chains_ok db -> append_command c events db = (Ok r, db') ->
  (ar_replayed r = true /\ db' = db /\ idempotent_retry c db = (Ok (Some r), db)) \/
  (ar_replayed r = false /\ appended c events db db' /\ chains_ok db' /\
   r = mk_AppendResult (cmd_command_id c) (cmd_expected_session_version c + 1)
         (map ev_event_seq events) false).
Proof.
  intros Hc H. unfold append_command in H.
  apply reraise_Ok, transaction_Ok, sbind_Ok in H as (o & db1 & Hi & H).
  pose proof (idempotent_retry_state _ _ _ _ Hi) as ->. destruct o as [r'|].
  - left. injection H as <- <-. split_and!; [by eapply idempotent_retry_replayed|done|done].
  - right. by apply append_fresh_Ok in H as (? & ? & ->).
Qed.

Lemma append_command_chains c events db res db' :
  chains_ok db -> append_command c events db = (res, db') -> chains_ok db'.
Proof.
  intros Hc H. destruct res as [r|e].
  - destruct (append_command_Ok _ _ _ _ _ Hc H) as [(_ & -> & _)|(_ & _ & ? & _)]; done.
  - apply reraise_transaction_Raise in H. by subst.
Qed.

(** ** Histories of the store

    One step of a caller that names its command as the cause of the events it appends. *)
Inductive store_step (db : Db) : Db -> Prop :=
| step_create sid principal t status db' :
    create_session sid principal t status db = (Ok tt, db') -> store_step db db'
| step_append c events r db' :
    Forall (fun e => ev_causation_id e = cmd_command_id c) events ->
    append_command c events db = (Ok r, db') -> store_step db db'.

Definition store_history := rtc store_step.

Record store_ok (db : Db) : Prop := mk_store_ok {
  so_chains : chains_ok db;
  so_ids : NoDup (map c_command_id (commands db));
  so_keys : NoDup (map command_key (commands db));
  so_sessions : forall r, r ∈ commands db -> has_session (c_session_id r) db = true;
  so_causes : forall e, e ∈ domain_events db -> e_causation_id e ∈ map c_command_id (commands db);
}.


Lemma appended_ok c events db db' :
  store_ok db -> Forall (fun e => ev_causation_id e = cmd_command_id c) events ->
  chains_ok db' -> appended c events db db' -> store_ok db'.
Proof.
  intros [H1 H2 H3 H4 H5] Hev Hc (s & Hs & _ & Hk & Hid & ->). split; simpl.
  - done.
  - rewrite map_app. apply NoDup_app. split_and!; [done| |apply NoDup_singleton].
    intros x Hx Hx'. apply list_elem_of_singleton in Hx'. simpl in Hx'. subst.
    apply elem_of_mapl in Hx as (r & Hr & Hin). by apply (Hid r).
  - rewrite map_app. apply NoDup_app. split_and!; [done| |apply NoDup_singleton].
    intros x Hx Hx'. apply list_elem_of_singleton in Hx'. simpl in Hx'. subst.
    apply elem_of_mapl in Hx as (r & Hr & Hin). symmetry in Hr.
    assert (r ∈ commands_of (cmd_session_id c) (cmd_idempotency_key c) db) as Hn
      by by apply elem_of_commands_of. rewrite Hk in Hn. by apply not_elem_of_nil in Hn.
  - intros r [Hr|Hr]%elem_of_app; apply has_session_insert; [by apply H4|].
    apply list_elem_of_singleton in Hr. subst. unfold has_session. simpl. by rewrite Hs.
  - intros e He. rewrite map_app. apply elem_of_app. apply elem_of_app in He as [He|He].
    + left. by apply H5.
    + right. apply elem_of_mapl in He as (ev & -> & Hin). rewrite Forall_forall in Hev.
      simpl. rewrite (Hev _ Hin). left.
Qed.

Lemma store_step_ok db db' : store_ok db -> store_step db db' -> store_ok db'.
Proof.
  intros Hok [sid p t st db1 H|c events r db1 Hev H].
  - apply create_session_Ok in H as [Hn ->].
    destruct Hok as [H1 H2 H3 H4 H5]. split; try done. intros r Hr.
    apply (has_session_insert _ _ _ db). by apply H4.
  - destruct (append_command_Ok _ _ _ _ _ (so_chains _ Hok) H)
      as [(_ & -> & _)|(_ & Ha & Hc & _)]; [done|]. by eapply appended_ok.
Qed.

Lemma store_history_ok db : store_history empty_db db -> store_ok db.
Proof.
  assert (store_ok empty_db) as H0.
  { split; simpl; [by intros sid|constructor|constructor|..]; intros ? H; by apply not_elem_of_nil in H. }
  intros H. revert H0. induction H; [done|]. intros ?. apply IHrtc. by eapply store_step_ok.
Qed.

(** The events a command caused. *)
Definition caused (sid cid : string) (db : Db) : list event_row :=
  List.filter (fun e => String.eqb (e_causation_id e) cid) (event_rows sid db).

Definition session_version (sid : string) (db : Db) : Z :=
  match sessions db !! sid with Some s => s_version s | None => 0 end.

Lemma caused_app sid cid rows db db' :
  domain_events db' = domain_events db ++ rows ->
  caused sid cid db' =
  caused sid cid db ++ List.filter (fun e => String.eqb (e_causation_id e) cid)
                         (List.filter (fun r => String.eqb (e_session_id r) sid) rows).
Proof.
  intros H. unfold caused. rewrite (event_rows_app _ _ _ _ H). by rewrite List.filter_app.
Qed.


(** A later step keeps a stored command, what it caused, and never lowers its session's version. *)
Lemma store_step_keeps db db' r :
  store_ok db -> store_step db db' -> r ∈ commands db ->
  r ∈ commands db' /\
  caused (c_session_id r) (c_command_id r) db' = caused (c_session_id r) (c_command_id r) db /\
  session_version (c_session_id r) db <= session_version (c_session_id r) db'.
Proof.
  intros Hok Hst Hr. destruct Hst as [sid p t st db1 H|c events x db1 Hev H].
  - apply create_session_Ok in H as [Hn ->]. split_and!; [exact Hr|reflexivity|].
    unfold session_version. simpl. pose proof (so_sessions _ Hok _ Hr) as Hh.
    rewrite lookup_insert_ne; [lia|]. intros ->. congruence.
  - destruct (append_command_Ok _ _ _ _ _ (so_chains _ Hok) H)
      as [(_ & -> & _)|(_ & (s & Hs & Hv & _ & Hid & ->) & _ & _)]; [split_and!; [exact Hr|reflexivity|lia]|].
    split_and!; simpl.
    + apply elem_of_app. by left.
    + rewrite (caused_app _ _ (map (event_to_row (cmd_session_id c)) events) db) by done.
      rewrite (filter_none _ (List.filter _ _)), app_nil_r; [done|].
      intros e He. apply elem_of_filterb in He as [He _].
      apply elem_of_mapl in He as (ev & -> & Hin). rewrite Forall_forall in Hev. simpl.
      rewrite (Hev _ Hin). apply String.eqb_neq. intros Heq. by apply (Hid r).
    + unfold session_version. simpl. destruct (decide (cmd_session_id c = c_session_id r)) as [E|E].
      * rewrite E, lookup_insert_eq. rewrite <- E, Hs. simpl. lia.
      * rewrite lookup_insert_ne by done. lia.
Qed.

Lemma store_history_keeps db db' r :
  store_history db db' -> store_ok db -> r ∈ commands db ->
  store_ok db' /\ r ∈ commands db' /\
  caused (c_session_id r) (c_command_id r) db' = caused (c_session_id r) (c_command_id r) db /\
  session_version (c_session_id r) db <= session_version (c_session_id r) db'.
Proof.
  induction 1 as [db|db db1 db' Hs _ IH]; intros Hok Hr; [split_and!; [done|done|done|lia]|].
  destruct (store_step_keeps _ _ _ Hok Hs Hr) as (Hr1 & Hc1 & Hv1).
  destruct (IH (store_step_ok _ _ Hok Hs) Hr1) as (? & ? & ? & ?).
  split_and!; [done|done|congruence|lia].
Qed.

(** What a retry of a stored command returns. *)
Lemma idempotent_retry_stored c db r :
  store_ok db -> r ∈ commands db -> command_key r = (cmd_session_id c, cmd_idempotency_key c) ->
  c_payload_hash r = cmd_payload_hash c ->
  idempotent_retry c db =
    (Ok (Some (mk_AppendResult (c_command_id r) (session_version (c_session_id r) db)
                 (map e_event_seq (caused (c_session_id r) (c_command_id r) db)) true)), db).
Proof.
  intros Hok Hr Hk Hp. injection Hk as E1 E2. unfold idempotent_retry. rewrite <- E1, <- E2.
  rewrite (commands_of_unique r) by (done || apply so_keys, Hok). simpl.
  rewrite Hp, String.eqb_refl. simpl. pose proof (so_sessions _ Hok _ Hr) as Hh.
  unfold has_session, session_version in *. destruct (sessions db !! _); [|discriminate].
  fold (caused (c_session_id r) (c_command_id r) db). rewrite py_sorted_id; [done|].
  unfold caused. apply StronglySorted_filterb. by eapply chain_sorted, so_chains.
Qed.

(** ** Properties *)

(** C1. [append_command] is all or nothing: an exception (never a raw [IntegrityError]) leaves the
    store as it was; a fresh append adds exactly the command and its events and moves the session
    from the expected version to the next one; a retry changes nothing.  In every case each
    session's events stay one gap-free hash chain from sequence 0. *)
Theorem append_command_atomic c events db :
  chains_ok db ->
  match append_command c events db with
  | (Raise e, db') => db' = db /\ e <> IntegrityError
  | (Ok r, db') =>
      chains_ok db' /\
      if ar_replayed r then db' = db
      else appended c events db db' /\ ar_session_version r = cmd_expected_session_version c + 1 /\
           ar_event_seqs r = map ev_event_seq events
  end.
Proof.
  intros Hc. destruct (append_command c events db) as [[r|e] db'] eqn:H.
  - split; [by eapply append_command_chains|].
    destruct (append_command_Ok _ _ _ _ _ Hc H) as [(-> & -> & _)|(-> & Ha & _ & ->)]; done.
  - split; [by eapply reraise_transaction_Raise|].
    unfold append_command, reraise in H. destruct (transaction _ db) as [[x|[]] ?]; simplify_eq/=; done.
Qed.

(** C2. A command is executed exactly once: in every later state of the store, whatever was appended
    since, an exact retry changes nothing and returns the original command identifier and event
    sequence numbers, with a session version not older than the original one. *)
Theorem retry_exactly_once c events events' db r db1 db2 :
  store_history empty_db db ->
  Forall (fun e => ev_causation_id e = cmd_command_id c) events ->
  append_command c events db = (Ok r, db1) -> ar_replayed r = false ->
  store_history db1 db2 ->
  exists v, append_command c events' db2
            = (Ok (mk_AppendResult (ar_command_id r) v (ar_event_seqs r) true), db2) /\
    ar_session_version r <= v.
Proof.
  intros H0 Hev Ha Hr H12. pose proof (store_history_ok _ H0) as Hok.
  destruct (append_command_Ok _ _ _ _ _ (so_chains _ Hok) Ha) as [(Hr' & _)|(_ & Happ & Hc1 & ->)];
    [congruence|]. pose proof (appended_ok _ _ _ _ Hok Hev Hc1 Happ) as Hok1.
  destruct Happ as (s & Hs & Hv & _ & Hid & Hdb1). set (row := command_to_row c).
  assert (row ∈ commands db1) as Hrow.
  { subst db1. apply elem_of_app. right. left. }
  assert (caused (c_session_id row) (c_command_id row) db1 = map (event_to_row (cmd_session_id c)) events)
    as Hca.
  { subst db1. rewrite (caused_app _ _ (map (event_to_row (cmd_session_id c)) events) db) by done.
    rewrite !filter_all.
    - unfold caused. rewrite filter_none; [done|]. intros e He. apply String.eqb_neq. intros E.
      apply elem_of_filterb in He as [He _]. apply (so_causes _ Hok) in He.
      apply elem_of_mapl in He as (x & Hx & Hin). apply (Hid x Hin). by rewrite <- Hx.
    - intros e (ev & -> & Hin)%elem_of_mapl. apply String.eqb_refl.
    - intros e He. rewrite filter_all in He.
      + apply elem_of_mapl in He as (ev & -> & Hin). rewrite Forall_forall in Hev.
        apply String.eqb_eq. by apply Hev.
      + intros e' (ev & -> & Hin)%elem_of_mapl. apply String.eqb_refl. }
  destruct (store_history_keeps _ _ _ H12 Hok1 Hrow) as (Hok2 & Hrow2 & Hca2 & Hv2).
  exists (session_version (c_session_id row) db2). split.
  - unfold append_command, reraise, transaction, sbind.
    rewrite (idempotent_retry_stored c db2 row) by done. cbn [sret ar_command_id ar_event_seqs].
    rewrite Hca2, Hca, map_map. done.
  - cbn. etransitivity; [|exact Hv2]. subst db1. unfold session_version. simpl.
    rewrite lookup_insert_eq. simpl. lia.
Qed.

(** C3. Which error a fresh command gets: a missing session, then a broken event chain, then a stale
    version; and a used idempotency key with another payload is a conflict whatever else holds. *)
Theorem append_command_errors c events db :
  store_ok db ->
  ((exists x, x ∈ commands db /\ command_key x = (cmd_session_id c, cmd_idempotency_key c) /\
      c_payload_hash x <> cmd_payload_hash c) ->
   fst (append_command c events db) = Raise IdempotencyConflict) /\
  (commands_of (cmd_session_id c) (cmd_idempotency_key c) db = [] ->
   match sessions db !! cmd_session_id c with
   | None => fst (append_command c events db) = Raise SessionNotFound
   | Some s =>
       let rows := event_rows (cmd_session_id c) db in
       (check_chain (Z.of_nat (length rows)) (last_hash rows) events <> Ok tt ->
        fst (append_command c events db) = Raise EventChainConflict) /\
       (check_chain (Z.of_nat (length rows)) (last_hash rows) events = Ok tt ->
        s_version s <> cmd_expected_session_version c ->
        fst (append_command c events db) = Raise ConcurrentSessionVersion)
   end).
Proof.
  intros Hok. pose proof (so_chains _ Hok) as Hc. split.
  - intros (x & Hx & Hk & Hp). unfold append_command, reraise, transaction, sbind, idempotent_retry.
    injection Hk as E1 E2. rewrite <- E1, <- E2, (commands_of_unique x) by (done || apply so_keys, Hok).
    simpl. by destruct (String.eqb_spec (c_payload_hash x) (cmd_payload_hash c)).
  - intros Hk. unfold append_command, reraise, transaction, sbind, idempotent_retry. rewrite Hk. simpl.
    unfold append_fresh, sbind, gets, lift. simpl. destruct (sessions db !! _) as [s|] eqn:Es; [|done].
    simpl. rewrite expected_seq_chain, expected_prior_chain, chain_next_seq0 by done. split.
    + intros Hn. destruct (check_chain _ _ events) as [[]|e] eqn:E; [done|].
      assert (e = EventChainConflict) as -> by by eapply check_chain_error. done.
    + intros -> Hv. simpl. unfold update_session. rewrite Es.
      rewrite (proj2 (Z.eqb_neq _ _) Hv). done.
Qed.

(** ** A concrete store *)

Definition demo_event (seq : Z) (cause prior hash : string) : EventRecord :=
  mk_EventRecord seq 10 "ORDER_ACCEPTED" cause "root" (VDict []) prior hash.
Definition demo_command (cid key : string) (version : Z) : CommandRecord :=
  mk_CommandRecord cid "s1" key "payload-hash" version 1 (VDict []).
Definition demo_db : Db := snd (create_session "s1" "alice" 1 "SETUP" empty_db).
Definition demo_db1 : Db :=
  snd (append_command (demo_command "c1" "k1" 0) [demo_event 0 "c1" ZERO_HASH "h0"] demo_db).
Definition demo_db2 : Db :=
  snd (append_command (demo_command "c2" "k2" 1) [demo_event 1 "c2" "h0" "h1"] demo_db1).

Lemma demo_db_history : store_history empty_db demo_db.
Proof. apply rtc_once. by apply (step_create _ "s1" "alice" 1 "SETUP"). Qed.

Lemma demo_db_chains : chains_ok demo_db.
Proof. by intros sid. Qed.

Lemma append_command_atomic_witness :
  chains_ok demo_db /\
  match append_command (demo_command "c1" "k1" 0) [demo_event 0 "c1" ZERO_HASH "h0"] demo_db with
  | (Raise e, db') => db' = demo_db /\ e <> IntegrityError
  | (Ok r, db') =>
      chains_ok db' /\
      if ar_replayed r then db' = demo_db
      else appended (demo_command "c1" "k1" 0) [demo_event 0 "c1" ZERO_HASH "h0"] demo_db db' /\
           ar_session_version r = cmd_expected_session_version (demo_command "c1" "k1" 0) + 1 /\
           ar_event_seqs r = map ev_event_seq [demo_event 0 "c1" ZERO_HASH "h0"]
  end.
Proof. split; [apply demo_db_chains|]. apply append_command_atomic, demo_db_chains. Defined.

Lemma retry_exactly_once_witness :
  exists v, append_command (demo_command "c1" "k1" 0) [] demo_db2
            = (Ok (mk_AppendResult "c1" v [0] true), demo_db2) /\ 1 <= v.
Proof.
  apply (retry_exactly_once (demo_command "c1" "k1" 0) [demo_event 0 "c1" ZERO_HASH "h0"] []
           demo_db (mk_AppendResult "c1" 1 [0] false) demo_db1 demo_db2).
  - apply demo_db_history.
  - repeat constructor.
  - reflexivity.
  - reflexivity.
  - apply rtc_once. apply (step_append _ (demo_command "c2" "k2" 1) [demo_event 1 "c2" "h0" "h1"]
      (mk_AppendResult "c2" 2 [1] false)); [repeat constructor|reflexivity].
Defined.

Lemma append_command_errors_witness :
  fst (append_command (demo_command "c9" "k9" 7) [] demo_db2) = Raise ConcurrentSessionVersion.
Proof.
  apply (append_command_errors (demo_command "c9" "k9" 7) [] demo_db2).
  - apply store_history_ok. eapply rtc_r; [eapply rtc_r; [apply demo_db_history|]|].
    + apply (step_append _ (demo_command "c1" "k1" 0) [demo_event 0 "c1" ZERO_HASH "h0"]
        (mk_AppendResult "c1" 1 [0] false)); [repeat constructor|reflexivity].
    + apply (step_append _ (demo_command "c2" "k2" 1) [demo_event 1 "c2" "h0" "h1"]
        (mk_AppendResult "c2" 2 [1] false)); [repeat constructor|reflexivity].
  - reflexivity.
  - reflexivity.
  - vm_compute. discriminate.
Defined.

(** The session version of a retry is the current one, not the one of the original result. *)
Theorem retry_reports_current_version :
  fst (append_command (demo_command "c1" "k1" 0) [demo_event 0 "c1" ZERO_HASH "h0"] demo_db)
  = Ok (mk_AppendResult "c1" 1 [0] false) /\
  fst (append_command (demo_command "c1" "k1" 0) [demo_event 0 "c1" ZERO_HASH "h0"] demo_db2)
  = Ok (mk_AppendResult "c1" 2 [0] true).
Proof. split; reflexivity. Qed.
