(* ===== verification/SessionModel.v ===== *)
(** * Session data ([apps/api/.../sessions/model.py])

    Statuses, rulesets, setup requests and the committed setup with its event-payload encoding.
    A [frozenset] of an enumeration is a [gset].  Ruleset definitions keep their canonical body as
    text, as the code does. *)

From S2P Require Import Prelude Sort PyStr Bytes PyJson JsonParse Catalog.
From Stdlib Require Import Ascii.
From Stdlib Require String.

Inductive SessionStatus := SETUP | COMMITTED | RUNNING | PAUSED | COMPLETED.
Inductive VisibilityMode := ABSOLUTE | RELATIVE | HIDDEN_CALENDAR.

#[export] Instance SessionStatus_eq_dec : EqDecision SessionStatus.
Proof. solve_decision. Defined.
#[export] Instance VisibilityMode_eq_dec : EqDecision VisibilityMode.
Proof. solve_decision. Defined.

Definition status_value (s : SessionStatus) : string :=
  match s with
  | SETUP => "SETUP" | COMMITTED => "COMMITTED" | RUNNING => "RUNNING" | PAUSED => "PAUSED"
  | COMPLETED => "COMPLETED"
  end.
Definition visibility_value (v : VisibilityMode) : string :=
  match v with
  | ABSOLUTE => "ABSOLUTE" | RELATIVE => "RELATIVE" | HIDDEN_CALENDAR => "HIDDEN_CALENDAR"
  end.

Definition status_of := enum_of status_value [SETUP; COMMITTED; RUNNING; PAUSED; COMPLETED].
Definition visibility_of := enum_of visibility_value [ABSOLUTE; RELATIVE; HIDDEN_CALENDAR].

Lemma status_of_value s : status_of (status_value s) = Ok s.
Proof. by destruct s. Qed.
Lemma visibility_of_value v : visibility_of (visibility_value v) = Ok v.
Proof. by destruct v. Qed.

(** ** Validators *)

Definition validate_version (v : Z) : result unit := raise_if ((v <? 0) || (U64_MAX <? v)) ValueError.

(** [_canonical_json]. *)
Definition canonical_json (v : pyval) : result string :=
  if reject_float v
  then catch_res (fun e => match e with TypeError | ValueError => ValueError | e => e end)
         (json_dumps true v)
  else Raise ValueError.

Definition string_field (payload : pydict) (key : string) : result string :=
  match dict_get key payload with
  | Some (VStr s) => if is_empty s then Raise ValueError else Ok s
  | _ => Raise ValueError
  end.

Definition sha_field (payload : pydict) (key : string) : result string :=
  let! v := string_field payload key in
  let! _ := validate_sha256 v in
  Ok v.

(** The canonical decimal text of a signed 64-bit integer. *)
Definition decimal_text (raw : string) : result Z :=
  let! _ := raise_if (String.eqb raw "-0" || starts_with "+" raw || leading_zero raw) ValueError in
  let negative := starts_with "-" raw in
  let digits := if negative then tail raw else raw in
  let! _ := raise_if (negb (py_isdigit digits) || (negative && starts_with "0" digits)) ValueError in
  let! value := py_int raw in
  let! _ := validate_i64 value in
  Ok value.

Definition decimal_i64_field (payload : pydict) (key : string) : result Z :=
  let! raw := string_field payload key in decimal_text raw.

Definition nonnegative_decimal_field (payload : pydict) (key : string) : result Z :=
  let! v := decimal_i64_field payload key in
  let! _ := raise_if (v <? 0) ValueError in Ok v.

Definition positive_decimal_field (payload : pydict) (key : string) : result Z :=
  let! v := decimal_i64_field payload key in
  let! _ := raise_if (v <=? 0) ValueError in Ok v.

Definition as_str (v : pyval) : result string :=
  match v with VStr s => Ok s | _ => Raise ValueError end.

Definition string_list_field (payload : pydict) (key : string) : result (list string) :=
  match dict_get key payload with Some (VList l) => rmap as_str l | _ => Raise ValueError end.

Definition bool_field (payload : pydict) (key : string) : result bool :=
  match dict_get key payload with Some (VBool b) => Ok b | _ => Raise ValueError end.

(** ** Rulesets *)

Record RulesetDefinition := mk_ruleset {
  ruleset_id : string;
  rd_version : string;
  allowed_execution_tiers : gset ExecutionTier;
  canonical_body_json : string;
  ruleset_hash : string;
}.

(** [sorted(item.value for item in s)]. *)
Definition sorted_values {A} `{Countable A} (value : A -> string) (s : gset A) : list string :=
  py_sorted (fun x => x) (map value (elements s)).

Definition ruleset_identity (tiers : gset ExecutionTier) (body : pyval) (rid version : string) : pyval :=
  VDict (obj [("allowed_execution_tiers", VList (map VStr (sorted_values tier_value tiers)));
              ("body", body); ("ruleset_id", VStr rid); ("ruleset_version", VStr version)]).

Definition from_body (rid version : string) (tiers : gset ExecutionTier) (body : pydict)
    : result RulesetDefinition :=
  let! _ := raise_if (is_empty rid) ValueError in
  let! _ := raise_if (is_empty version) ValueError in
  let! _ := raise_if (bool_decide (tiers = ∅)) ValueError in
  let! text := canonical_json (VDict body) in
  let! decoded := json_loads text in
  let! identity := canonical_json (ruleset_identity tiers decoded rid version) in
  Ok (mk_ruleset rid version tiers text (sha256_hex (utf8 identity))).

(** [RulesetDefinition.body]. *)
Definition ruleset_body (r : RulesetDefinition) : result pydict :=
  let! decoded := json_loads (canonical_body_json r) in
  match decoded with VDict d => Ok d | _ => Raise RuntimeError end.

(** ** Setups *)

Record SetupRequest := mk_setup_request {
  sr_instrument_id : string;
  sr_manifest_hash : string;
  sr_play_start_ns : Z;
  sr_warmup_ns : Z;
  sr_duration_ns : Z;
  sr_execution_tier : ExecutionTier;
  sr_ruleset : RulesetDefinition;
  sr_visibility_mode : VisibilityMode;
  sr_required_capabilities : gset DataCapability;
  sr_allowed_redistribution : gset RedistributionClass;
  sr_allow_degraded : bool;
}.

Definition SetupRequest_post_init (r : SetupRequest) : result unit :=
  let! _ := raise_if (is_empty (sr_instrument_id r)) ValueError in
  let! _ := validate_sha256 (sr_manifest_hash r) in
  let! _ := validate_i64 (sr_play_start_ns r) in
  let! _ := validate_i64 (sr_warmup_ns r) in
  let! _ := validate_i64 (sr_duration_ns r) in
  let! _ := raise_if (sr_warmup_ns r <? 0) ValueError in
  let! _ := raise_if (sr_duration_ns r <=? 0) ValueError in
  let! _ := validate_i64 (sr_play_start_ns r - sr_warmup_ns r) in
  let! _ := validate_i64 (sr_play_start_ns r + sr_duration_ns r) in
  raise_if (bool_decide (sr_allowed_redistribution r = ∅)) ValueError.

Record CommittedSetup := mk_committed {
  cs_instrument_id : string;
  cs_manifest_hash : string;
  cs_eligibility_hash : string;
  cs_play_start_ns : Z;
  cs_warmup_ns : Z;
  cs_duration_ns : Z;
  cs_execution_tier : ExecutionTier;
  cs_required_capabilities : gset DataCapability;
  cs_allowed_redistribution : gset RedistributionClass;
  cs_allow_degraded : bool;
  cs_visibility_mode : VisibilityMode;
  cs_ruleset_id : string;
  cs_ruleset_version : string;
  cs_ruleset_hash : string;
}.
#[export] Instance CommittedSetup_eq_dec : EqDecision CommittedSetup.
Proof. solve_decision. Defined.

Definition play_end_ns (s : CommittedSetup) : Z := cs_play_start_ns s + cs_duration_ns s.

Definition to_payload (s : CommittedSetup) : pydict := obj [
  ("allow_degraded", VBool (cs_allow_degraded s));
  ("allowed_redistribution",
     VList (map VStr (sorted_values redistribution_value (cs_allowed_redistribution s))));
  ("duration_ns", VStr (str_Z (cs_duration_ns s)));
  ("eligibility_hash", VStr (cs_eligibility_hash s));
  ("execution_tier", VStr (tier_value (cs_execution_tier s)));
  ("instrument_id", VStr (cs_instrument_id s));
  ("manifest_hash", VStr (cs_manifest_hash s));
  ("play_start_ns", VStr (str_Z (cs_play_start_ns s)));
  ("required_capabilities",
     VList (map VStr (sorted_values capability_value (cs_required_capabilities s))));
  ("ruleset_hash", VStr (cs_ruleset_hash s));
  ("ruleset_id", VStr (cs_ruleset_id s));
  ("ruleset_version", VStr (cs_ruleset_version s));
  ("visibility_mode", VStr (visibility_value (cs_visibility_mode s)));
  ("warmup_ns", VStr (str_Z (cs_warmup_ns s)))].

Definition from_payload (p : pydict) : result CommittedSetup :=
  let! instrument := string_field p "instrument_id" in
  let! manifest := sha_field p "manifest_hash" in
  let! eligibility := sha_field p "eligibility_hash" in
  let! play_start := decimal_i64_field p "play_start_ns" in
  let! warmup := nonnegative_decimal_field p "warmup_ns" in
  let! duration := positive_decimal_field p "duration_ns" in
  let! tier_text := string_field p "execution_tier" in
  let! tier := tier_of tier_text in
  let! caps_text := string_list_field p "required_capabilities" in
  let! caps := rmap capability_of caps_text in
  let! allowed_text := string_list_field p "allowed_redistribution" in
  let! allowed := rmap redistribution_of allowed_text in
  let! degraded := bool_field p "allow_degraded" in
  let! mode_text := string_field p "visibility_mode" in
  let! mode := visibility_of mode_text in
  let! rid := string_field p "ruleset_id" in
  let! rversion := string_field p "ruleset_version" in
  let! rhash := sha_field p "ruleset_hash" in
  Ok (mk_committed instrument manifest eligibility play_start warmup duration tier
        (list_to_set caps) (list_to_set allowed) degraded mode rid rversion rhash).

Record SessionRecord := mk_session {
  ss_session_id : string;
  ss_principal_id : string;
  ss_status : SessionStatus;
  ss_version : Z;
  ss_created_at_ns : Z;
  ss_setup : option CommittedSetup;
  ss_logical_time_ns : option Z;
  ss_parent_session_id : option string;
}.

Definition capabilities_for_tier (t : ExecutionTier) : gset DataCapability :=
  match t with
  | F0 => {[BARS]}
  | F0T => {[TRADES]}
  | F1 => {[TRADES; BBO]}
  | F2 => {[TRADES; L2_SNAPSHOTS; L2_DELTAS]}
  | F3 => {[L3]}
  end.

(** ** Canonical decimals *)

Lemma isdigit_digits c s :
  is_ascii_digit c = true -> all_chars is_ascii_digit s = true -> py_isdigit (String c s) = true.
Proof.
  intros Hc Hs. unfold py_isdigit. cbn [is_empty negb andb all_chars].
  rewrite (digits_isdigit _ Hs). unfold isdigit_char. by rewrite Hc.
Qed.

Lemma str_N_no_zero n : 0 < n -> starts_with "0" (str_N n) = false.
Proof.
  intros Hn. pose proof (str_N_no_leading_zero n ltac:(lia)) as Hz. unfold leading_zero in Hz.
  destruct (starts_with "0" (str_N n)); [|done]. cbn [andb] in Hz. apply negb_false_iff, String.eqb_eq in Hz.
  pose proof (str_N_digits n ltac:(lia)) as E. rewrite Hz in E.
  assert (Some 0 = Some n) as [= <-] by (rewrite <- E; reflexivity). lia.
Qed.

Lemma decimal_text_neg n :
  0 < n -> decimal_text (String "-" (str_N n)) =
  (let! value := py_int (String "-" (str_N n)) in let! _ := validate_i64 value in Ok value).
Proof.
  intros Hn. pose proof (str_N_no_zero n Hn) as H0.
  destruct (str_N_cons n ltac:(lia)) as (c & s & Hs & Hc & Hall & _). rewrite Hs in *.
  unfold decimal_text. replace (String.eqb _ "-0") with false; [|symmetry].
  2: { apply String.eqb_neq. by intros [= -> ->]. }
  change (starts_with "-" (String "-" (String c s))) with true. cbn [tail].
  by rewrite (isdigit_digits c s), H0 by done.
Qed.

Lemma decimal_text_N n :
  0 <= n -> decimal_text (str_N n) =
  (let! value := py_int (str_N n) in let! _ := validate_i64 value in Ok value).
Proof.
  intros Hn. pose proof (str_N_no_leading_zero n Hn) as Hz.
  destruct (str_N_cons n Hn) as (c & s & Hs & Hc & Hall & _). rewrite Hs in *.
  destruct (starts_with_digit c s Hc) as [H1 H2]. unfold decimal_text.
  replace (String.eqb _ "-0") with false; [|symmetry].
  2: { apply String.eqb_neq. intros [= -> ->]. discriminate Hc. }
  by rewrite H1, H2, Hz, (isdigit_digits c s) by done.
Qed.

Lemma decimal_text_str n : - 2 ^ 63 <= n < 2 ^ 63 -> decimal_text (str_Z n) = Ok n.
Proof.
  intros Hn. assert (py_int (str_Z n) = Ok n) as Hi by (apply py_int_str_Z; lia).
  unfold str_Z in *. destruct (n <? 0) eqn:E; bools;
    [rewrite decimal_text_neg by lia|rewrite decimal_text_N by lia];
    rewrite Hi; cbn [rbind]; unfold validate_i64; by rewrite (proj2 (in_i64_spec n) Hn).
Qed.

Lemma str_Z_nonempty n : is_empty (str_Z n) = false.
Proof. unfold str_Z. destruct (n <? 0); [done|]. by destruct (str_N_nonempty n) as (c & s & ->). Qed.

(** ** The payload round trip *)

Lemma string_field_get p key s :
  dict_get key p = Some (VStr s) -> is_empty s = false -> string_field p key = Ok s.
Proof. unfold string_field. by intros -> ->. Qed.

Lemma decimal_field_get p key n :
  dict_get key p = Some (VStr (str_Z n)) -> - 2 ^ 63 <= n < 2 ^ 63 -> decimal_i64_field p key = Ok n.
Proof.
  intros H Hn. unfold decimal_i64_field.
  rewrite (string_field_get _ _ _ H (str_Z_nonempty n)). by apply decimal_text_str.
Qed.

Lemma sha_field_get p key s :
  dict_get key p = Some (VStr s) -> is_sha256 s = true -> sha_field p key = Ok s.
Proof.
  intros H Hs. unfold sha_field. rewrite (string_field_get _ _ _ H); [|by destruct s].
  cbn. unfold validate_sha256. by rewrite Hs.
Qed.

Lemma string_list_get p key l :
  dict_get key p = Some (VList (map VStr l)) -> string_list_field p key = Ok l.
Proof.
  unfold string_list_field. intros ->. induction l as [|s l IH]; cbn; [done|]. by rewrite IH.
Qed.

Lemma rmap_map {A B C} (f : B -> result C) (g : A -> B) l : rmap f (map g l) = rmap (fun x => f (g x)) l.
Proof. induction l as [|x l IH]; cbn; [done|]. by rewrite IH. Qed.

(** Decoding the sorted values of a set gives the set. *)
Lemma decode_sorted {A} `{Countable A} (value : A -> string) (decode : string -> result A) (s : gset A) :
  (forall x, decode (value x) = Ok x) ->
  exists l, rmap decode (sorted_values value s) = Ok l /\ list_to_set (C := gset A) l = s.
Proof.
  intros Hd. unfold sorted_values. rewrite py_sorted_map, rmap_map.
  rewrite (rmap_pure _ (fun x => x)) by (rewrite Forall_forall; intros; apply Hd).
  eexists. split; [done|]. rewrite map_id. apply set_eq. intros x.
  rewrite elem_of_list_to_set, elem_of_py_sorted. set_solver.
Qed.

(** The facts [SetupRequest], [from_body] and the catalog establish of a committed setup. *)
Record setup_ok (s : CommittedSetup) : Prop := mk_setup_ok {
  so_instrument : is_empty (cs_instrument_id s) = false;
  so_manifest : is_sha256 (cs_manifest_hash s) = true;
  so_eligibility : is_sha256 (cs_eligibility_hash s) = true;
  so_play_start : - 2 ^ 63 <= cs_play_start_ns s < 2 ^ 63;
  so_warmup : 0 <= cs_warmup_ns s < 2 ^ 63;
  so_duration : 0 < cs_duration_ns s < 2 ^ 63;
  so_play_end : play_end_ns s < 2 ^ 63;
  so_ruleset_id : is_empty (cs_ruleset_id s) = false;
  so_ruleset_version : is_empty (cs_ruleset_version s) = false;
  so_ruleset_hash : is_sha256 (cs_ruleset_hash s) = true;
}.

(** [extra] gives none of the fields of a setup. *)
Definition setup_keys : list string := map (fun p => key_name (fst p)) (to_payload (mk_committed
  "" "" "" 0 0 0 F0 ∅ ∅ false ABSOLUTE "" "" "")).

Lemma dict_update_get k d items :
  k ∉ map fst items -> dict_get k (dict_update d items) = dict_get k d.
Proof.
  unfold dict_update. revert d. induction items as [|[k' v] items IH]; intros d Hk; cbn [fold_left map fst] in *; [done|].
  rewrite not_elem_of_cons in Hk. destruct Hk as [Hne Hk]. rewrite IH by done.
  unfold dict_get. rewrite dict_get_set. unfold key_eqb. rewrite bool_decide_eq_false_2; [done|].
  by intros [= ->].
Qed.

Lemma from_payload_to_payload s extra :
  setup_ok s -> Forall (fun k => k ∉ map fst extra) setup_keys ->
  from_payload (dict_update (to_payload s) extra) = Ok s.
Proof.
  intros Hs Hk. set (p := dict_update _ _).
  assert (forall k v, existsb (String.eqb k) setup_keys = true -> dict_get k (to_payload s) = Some v ->
    dict_get k p = Some v) as Hget.
  { intros k v (k' & Hin & ->%String.eqb_eq)%existsb_exists <-. apply dict_update_get.
    rewrite Forall_forall in Hk. by apply Hk, list_elem_of_In. }
  destruct (decode_sorted capability_value capability_of (cs_required_capabilities s)) as (l1 & H1 & E1);
    [apply capability_of_value|].
  destruct (decode_sorted redistribution_value redistribution_of (cs_allowed_redistribution s))
    as (l2 & H2 & E2); [apply redistribution_of_value|].
  clearbody p. destruct Hs. unfold play_end_ns in *.
  unfold from_payload, nonnegative_decimal_field, positive_decimal_field, bool_field.
  rewrite (Hget "allow_degraded" _ eq_refl eq_refl).
  repeat match goal with
  | _ => progress cbn [rbind raise_if]
  | |- context [string_field p ?k] =>
      rewrite (string_field_get p k _ (Hget k _ eq_refl eq_refl))
        by (done || by destruct s as [? ? ? ? ? ? [] ? ? ? [] ? ? ?])
  | |- context [sha_field p ?k] => rewrite (sha_field_get p k _ (Hget k _ eq_refl eq_refl)) by done
  | |- context [decimal_i64_field p ?k] =>
      rewrite (decimal_field_get p k _ (Hget k _ eq_refl eq_refl)) by lia
  | |- context [string_list_field p ?k] =>
      rewrite (string_list_get p k _ (Hget k _ eq_refl eq_refl))
  | _ => progress rewrite ?tier_of_value, ?visibility_of_value, ?H1, ?H2, ?E1, ?E2
  | |- context [raise_if ?b _] => replace b with false by lia
  end.
  by destruct s.
Qed.

Lemma from_to_payload s : setup_ok s -> from_payload (to_payload s) = Ok s.
Proof.
  intros Hs. apply (from_payload_to_payload s []); [done|].
  apply Forall_forall. by intros ? _ ?%not_elem_of_nil.
Qed.

(** ** Rulesets *)

Lemma reject_float_ok v : json_ok v = true -> reject_float v = true.
Proof.
  induction v as [| | | | |l IH|d IH|] using pyval_ind'; try done; cbn.
  - rewrite !forallb_forall. intros H x Hx. rewrite Forall_forall in IH.
    apply IH; [by apply list_elem_of_In|by apply H].
  - intros [H _]%andb_true_iff. rewrite forallb_forall in *. intros [k x] Hx. specialize (H _ Hx).
    cbn in H. apply andb_true_iff in H as [Hk Hok]. destruct k; [|done].
    rewrite Forall_forall in IH. apply list_elem_of_In in Hx. by apply (IH _ Hx).
Qed.

Lemma canonical_json_ok v :
  json_ok v = true -> exists t, canonical_json v = Ok t /\ json_dumps true v = Ok t.
Proof.
  intros H. destruct (dumps_total true v H) as (t & Ht). exists t. split; [|done].
  unfold canonical_json. by rewrite (reject_float_ok _ H), Ht.
Qed.

Lemma canonical_json_loads v t : json_ok v = true -> canonical_json v = Ok t -> json_loads t = Ok (canon v).
Proof.
  intros Hv H. destruct (canonical_json_ok v Hv) as (t' & E & Ht).
  assert (t' = t) as -> by congruence. by apply (loads_dumps true).
Qed.

Lemma identity_ok tiers body rid version :
  json_ok body = true -> json_ok (ruleset_identity tiers body rid version) = true.
Proof.
  intros H. cbn -[bool_decide]. rewrite H, bool_decide_eq_true_2, !andb_true_r.
  2: { repeat constructor; set_solver. }
  apply forallb_forall.
  intros x (s & <- & _)%in_map_iff. done.
Qed.

Lemma sorted_values_inj {A} `{Countable A} (value : A -> string) (decode : string -> result A) (s s' : gset A) :
  (forall x, decode (value x) = Ok x) -> sorted_values value s = sorted_values value s' -> s = s'.
Proof.
  intros Hd E. destruct (decode_sorted value decode s Hd) as (l & H1 & <-).
  destruct (decode_sorted value decode s' Hd) as (l' & H2 & <-). congruence.
Qed.

Lemma map_VStr_inj l l' : map VStr l = map VStr l' -> l = l'.
Proof. revert l'. induction l as [|x l IH]; intros [|y l'] E; try done. injection E as -> E. f_equal. by apply IH. Qed.

Lemma canon_strs l : canon (VList (map VStr l)) = VList (map VStr l).
Proof. cbn. f_equal. rewrite map_map. by apply map_ext. Qed.

Lemma identity_inj t1 b1 r1 v1 t2 b2 r2 v2 :
  canon (ruleset_identity t1 b1 r1 v1) = canon (ruleset_identity t2 b2 r2 v2) ->
  t1 = t2 /\ canon b1 = canon b2 /\ r1 = r2 /\ v1 = v2.
Proof.
  unfold ruleset_identity. intros H.
  change (VDict (obj [("allowed_execution_tiers", canon (VList (map VStr (sorted_values tier_value t1))));
    ("body", canon b1); ("ruleset_id", VStr r1); ("ruleset_version", VStr v1)]) =
    VDict (obj [("allowed_execution_tiers", canon (VList (map VStr (sorted_values tier_value t2))));
    ("body", canon b2); ("ruleset_id", VStr r2); ("ruleset_version", VStr v2)])) in H.
  rewrite !canon_strs in H. injection H as Ht Hb Hr Hv. split_and!; try done.
  apply (sorted_values_inj tier_value tier_of); [apply tier_of_value|]. by apply map_VStr_inj.
Qed.

(** ** Properties *)

(** The event payload of a committed setup decodes to that setup, also with the three fields a
    fork adds: nothing pinned by the commit is lost or altered in the event store. *)
Theorem setup_payload_roundtrip s t parent v :
  setup_ok s ->
  from_payload (to_payload s) = Ok s /\
  from_payload (dict_update (to_payload s)
    [("fork_logical_time_ns", VStr (str_Z t)); ("parent_session_id", VStr parent);
     ("parent_version", VStr (str_Z v))]) = Ok s.
Proof.
  intros Hs. split.
  - by apply from_to_payload.
  - apply from_payload_to_payload; [done|].
    rewrite Forall_forall. intros k Hk. cbn in *. set_solver.
Qed.

(** A decimal field is accepted exactly when its ASCII text is the canonical decimal text of a
    signed 64-bit integer, and it decodes to that integer: no leading zero, plus sign, negative
    zero or out-of-range value passes. *)
Theorem decimal_text_exact raw n :
  py_isascii raw = true ->
  decimal_text raw = Ok n <-> raw = str_Z n /\ - 2 ^ 63 <= n < 2 ^ 63.
Proof.
  intros Ha. split; [|intros [-> Hn]; by apply decimal_text_str].
  unfold decimal_text, validate_i64. intros H. repeat step_ok. subst. bools.
  match goal with Hv : in_i64 _ = true |- _ => apply in_i64_spec in Hv end. split; [|done].
  unfold str_Z. destruct (starts_with "-" raw) eqn:Eneg.
  - destruct raw as [|c ds]; [done|]. cbn in Eneg. apply Ascii.eqb_eq in Eneg as <-.
    destruct (canonical_neg_digits ds n) as [Hn ->]; [|done|done|].
    { apply isdigit_ascii; [by eapply isascii_tail|done]. }
    by rewrite (proj2 (Z.ltb_lt _ _) Hn).
  - destruct (canonical_digits raw n) as [Hn ->]; [by apply isdigit_ascii|done|done|].
    by rewrite (proj2 (Z.ltb_ge _ _) Hn).
Qed.

Lemma from_body_Ok rid version tiers body r :
  json_ok (VDict body) = true -> from_body rid version tiers body = Ok r ->
  exists text identity, canonical_json (VDict body) = Ok text /\ json_loads text = Ok (canon (VDict body)) /\
    canonical_json (ruleset_identity tiers (canon (VDict body)) rid version) = Ok identity /\
    r = mk_ruleset rid version tiers text (sha256_hex (utf8 identity)).
Proof.
  intros Hb H. unfold from_body in H. repeat step_ok. subst.
  match goal with Ht : canonical_json (VDict body) = Ok ?t |- _ =>
    pose proof (canonical_json_loads _ _ Hb Ht) as Hl end.
  match goal with Hd : json_loads _ = Ok ?d |- _ =>
    assert (d = canon (VDict body)) as -> by congruence end.
  eauto 10.
Qed.

(** A ruleset definition gives back its body with sorted keys, and its hash binds its whole
    content: two definitions with the same hash, whose identity texts are not a SHA-256 collision,
    have the same id, version, tiers and body. *)
Theorem ruleset_hash_binds rid1 v1 tiers1 body1 r1 t1 rid2 v2 tiers2 body2 r2 t2 :
  json_ok (VDict body1) = true -> json_ok (VDict body2) = true ->
  from_body rid1 v1 tiers1 body1 = Ok r1 -> from_body rid2 v2 tiers2 body2 = Ok r2 ->
  canonical_json (ruleset_identity tiers1 (canon (VDict body1)) rid1 v1) = Ok t1 ->
  canonical_json (ruleset_identity tiers2 (canon (VDict body2)) rid2 v2) = Ok t2 ->
  ~ collides t1 t2 ->
  ruleset_body r1 = Ok (py_sorted item_name (map canon_item body1)) /\
  (ruleset_hash r1 = ruleset_hash r2 ->
   rid1 = rid2 /\ v1 = v2 /\ tiers1 = tiers2 /\ ruleset_body r1 = ruleset_body r2).
Proof.
  intros Hb1 Hb2 H1 H2 Ht1 Ht2 Hc.
  destruct (from_body_Ok _ _ _ _ _ Hb1 H1) as (x1 & i1 & _ & Hl1 & Hi1 & ->).
  destruct (from_body_Ok _ _ _ _ _ Hb2 H2) as (x2 & i2 & _ & Hl2 & Hi2 & ->).
  assert (i1 = t1) as -> by congruence. assert (i2 = t2) as -> by congruence.
  unfold ruleset_body. cbn [canonical_body_json ruleset_hash]. rewrite Hl1, Hl2, !canon_dict.
  split; [done|]. intros E%sha256_hex_binds; [|done]. subst t2.
  assert (canon (ruleset_identity tiers1 (canon (VDict body1)) rid1 v1) =
          canon (ruleset_identity tiers2 (canon (VDict body2)) rid2 v2)) as E.
  { pose proof (canonical_json_loads _ _ (identity_ok tiers1 _ rid1 v1 (canon_json_ok _ Hb1)) Ht1).
    pose proof (canonical_json_loads _ _ (identity_ok tiers2 _ rid2 v2 (canon_json_ok _ Hb2)) Ht2).
    congruence. }
  apply identity_inj in E as (-> & E & -> & ->). rewrite !canon_idemp, !canon_dict in E.
  injection E as ->. done.
Qed.

(** ** Concrete values *)

Definition demo_body : pydict := obj [("tick", VStr "0.01"); ("fees", VList [VInt 1; VInt 2])].
Definition demo_ruleset : RulesetDefinition :=
  match from_body "rules" "1" {[F1; F2]} demo_body with
  | Ok r => r
  | Raise _ => mk_ruleset "" "" ∅ "" ""
  end.
Definition demo_setup : CommittedSetup :=
  mk_committed "SYNTH" demo_hash demo_hash2 200 100 300 F1 {[TRADES; BBO]} {[REDISTRIBUTABLE]} false
    RELATIVE "rules" "1" (ruleset_hash demo_ruleset).
Definition demo_identity : string :=
  match canonical_json (ruleset_identity {[F1; F2]} (canon (VDict demo_body)) "rules" "1") with
  | Ok t => t | Raise _ => "" end.

Lemma demo_setup_ok : setup_ok demo_setup.
Proof. split; cbn; done || lia || (vm_compute; reflexivity). Qed.

Lemma setup_payload_roundtrip_witness :
  setup_ok demo_setup /\ from_payload (to_payload demo_setup) = Ok demo_setup /\
  from_payload (dict_update (to_payload demo_setup)
    [("fork_logical_time_ns", VStr (str_Z 250)); ("parent_session_id", VStr "s1");
     ("parent_version", VStr (str_Z 3))]) = Ok demo_setup.
Proof. split; [apply demo_setup_ok|]. apply setup_payload_roundtrip, demo_setup_ok. Defined.

Lemma decimal_text_exact_witness : decimal_text "-42" = Ok (-42) /\ decimal_text "-042" <> Ok (-42).
Proof.
  split.
  - apply (decimal_text_exact "-42" (-42)); [done|]. split; [done|lia].
  - intros H. apply (decimal_text_exact "-042" (-42)) in H as [H _]; [|done]. discriminate H.
Defined.

Lemma ruleset_hash_binds_witness :
  ruleset_body demo_ruleset = Ok (py_sorted item_name (map canon_item demo_body)).
Proof.
  apply (ruleset_hash_binds "rules" "1" {[F1; F2]} demo_body demo_ruleset demo_identity
           "rules" "1" {[F1; F2]} (rev demo_body) demo_ruleset demo_identity).
  all: try (vm_compute; reflexivity). intros [H _]. by apply H.
Defined.
