(* ===== verification/Session.v ===== *)
(** * Session lifecycle ([apps/api/.../sessions/service.py])

    One definition per operation of [SessionService], over the tables of [Db].  The catalog the
    service holds is an argument.  [call] and [run_call] name the operations uniformly, so that the
    refinement theorems are stated once for all of them. *)

From S2P Require Import Prelude Sort PyStr Bytes PyJson JsonParse Catalog Db SessionModel.
From Stdlib Require Import Ascii.
From Stdlib Require String.

Abbreviation lifecycle_error := SessionLifecycleError.

(** ** Guards *)

Definition validate_lifecycle_version (v : Z) : result unit :=
  catch_res (fun e => match e with ValueError => lifecycle_error INVALID_VALUE | e => e end)
    (validate_version v).

Definition validate_lifecycle_i64 (v : Z) : result unit :=
  catch_res (fun e => match e with ValueError => lifecycle_error INVALID_VALUE | e => e end)
    (validate_i64 v).

Definition next_version (expected : Z) : result Z :=
  let! _ := validate_lifecycle_version expected in
  if expected =? 2 ^ 64 - 1 then Raise (lifecycle_error VERSION_CONFLICT) else Ok (expected + 1).

Definition bad_value (e : exn) : exn :=
  match e with TypeError | ValueError => lifecycle_error INVALID_VALUE | e => e end.

Definition require_version (stored expected : Z) : result unit :=
  let! _ := catch_res bad_value (let! _ := validate_version expected in validate_version stored) in
  raise_if (negb (stored =? expected)) (lifecycle_error VERSION_CONFLICT).

Definition require_status (s : SessionStatus) (allowed : list SessionStatus) : result unit :=
  raise_if (negb (bool_decide (s ∈ allowed))) (lifecycle_error INVALID_TRANSITION).

Definition validate_identity (value : string) : result unit :=
  raise_if (is_empty value || (160 <? py_len value) || any_char isspace_char value)
    (lifecycle_error INVALID_VALUE).

(** [_mapping]. *)
Definition mapping (v : pyval) : result pydict :=
  match v with VDict d => if str_keys d then Ok d else Raise ValueError | _ => Raise ValueError end.

Definition required_string (payload : pydict) (key : string) : result string := string_field payload key.

Definition decimal_i64 (payload : pydict) (key : string) : result Z :=
  let! raw := required_string payload key in decimal_text raw.

(** ** Materialisation *)

Record View := mk_view {
  v_setup : option CommittedSetup;
  v_logical_time_ns : option Z;
  v_parent : option string;
}.

Definition empty_view : View := mk_view None None None.

(** One iteration of the loop over the session's events. *)
Definition view_event (v : View) (event_type : string) (payload_json : pyval) : result View :=
  let! payload := mapping payload_json in
  if String.eqb event_type "SESSION_COMMITTED" || String.eqb event_type "SESSION_FORKED" then
    match v_setup v with
    | Some _ => Raise ValueError
    | None =>
        let! setup := from_payload payload in
        if String.eqb event_type "SESSION_FORKED" then
          let! parent := required_string payload "parent_session_id" in
          let! t := decimal_i64 payload "fork_logical_time_ns" in
          Ok (mk_view (Some setup) (Some t) (Some parent))
        else Ok (mk_view (Some setup) (Some (cs_play_start_ns setup)) (v_parent v))
    end
  else if String.eqb event_type "SESSION_ADVANCED" then
    match v_setup v with
    | None => Raise ValueError
    | Some _ =>
        let! t := decimal_i64 payload "logical_time_ns" in
        Ok (mk_view (v_setup v) (Some t) (v_parent v))
    end
  else Ok v.

Fixpoint view_events (v : View) (events : list event_row) : result View :=
  match events with
  | [] => Ok v
  | e :: events' => let! v' := view_event v (e_event_type e) (e_payload e) in view_events v' events'
  end.

Definition materialize_from_row (db : Db) (sid : string) (row : session_row) (principal : string)
    : result SessionRecord :=
  let! _ := raise_if (negb (String.eqb (s_principal_id row) principal))
              (lifecycle_error PRINCIPAL_MISMATCH) in
  let! v := catch_res bad_value (view_events empty_view (session_events sid db)) in
  let! status := catch_res bad_value (
    let! _ := validate_version (s_version row) in
    let! _ := validate_i64 (s_created_at_ns row) in
    status_of (s_status row)) in
  let! _ := raise_if (negb (bool_decide (status = SETUP)) && negb (bool_decide (is_Some (v_setup v))))
              (lifecycle_error INVALID_VALUE) in
  let! _ := raise_if
              match v_setup v, s_ruleset_id row with
              | Some s, Some rid => negb (String.eqb rid (cs_ruleset_id s))
              | _, _ => false
              end (lifecycle_error INVALID_VALUE) in
  Ok (mk_session sid principal status (s_version row) (s_created_at_ns row) (v_setup v)
        (v_logical_time_ns v) (v_parent v)).

Definition materialize (sid principal : string) : ST Db SessionRecord := fun db =>
  (match sessions db !! sid with
   | None => Raise (lifecycle_error SESSION_NOT_FOUND)
   | Some row => materialize_from_row db sid row principal
   end, db).

Definition locked_row (sid principal : string) : ST Db session_row := fun db =>
  (match sessions db !! sid with
   | None => Raise (lifecycle_error SESSION_NOT_FOUND)
   | Some row =>
       if negb (String.eqb (s_principal_id row) principal)
       then Raise (lifecycle_error PRINCIPAL_MISMATCH) else Ok row
   end, db).

(** ** Events *)

Definition event_preimage (sid : string) (seq t : Z) (event_type causation : string) (payload : pydict)
    (prior : string) : pyval :=
  VDict (obj [("causation_id", VStr causation); ("event_seq", VStr (str_Z seq));
              ("event_type", VStr event_type); ("logical_ts_ns", VStr (str_Z t));
              ("payload", VDict payload); ("prior_event_hash", VStr prior); ("session_id", VStr sid)]).

Definition event_hash (sid : string) (seq t : Z) (event_type causation : string) (payload : pydict)
    (prior : string) : result string :=
  let! text := json_dumps true (event_preimage sid seq t event_type causation payload prior) in
  Ok (sha256_hex (utf8 text)).

Definition causation (sid : string) (state_version : Z) : string :=
  "session-lifecycle:" +:+ sid +:+ ":v" +:+ str_Z state_version.

Definition append_event (sid event_type : string) (t : Z) (payload : pydict) (state_version : Z)
    : ST Db unit :=
  lift (validate_i64 t) ;;;
  lift (validate_version state_version) ;;;
  last <- gets (last_event sid) ;;
  let seq := match last with None => 0 | Some e => e_event_seq e + 1 end in
  lift (validate_version seq) ;;;
  let prior := match last with None => ZERO_HASH | Some e => e_current_event_hash e end in
  let cause := causation sid state_version in
  hash <- lift (event_hash sid seq t event_type cause payload prior) ;;
  insert_event (mk_event_row sid seq t event_type cause sid (VDict payload) prior hash).

Definition set_status (status : SessionStatus) (version : Z) (r : session_row) : session_row :=
  mk_session_row (s_principal_id r) (status_value status) version (s_ruleset_id r)
    (s_commitment_hash r) (s_created_at_ns r).

Definition advance_version (sid : string) (expected next : Z) (target : SessionStatus) : ST Db unit :=
  n <- update_session sid (fun r => s_version r =? expected) (set_status target next) ;;
  lift (raise_if (negb (n =? 1)) (lifecycle_error VERSION_CONFLICT)).

(** ** Operations *)

Definition exists_error (e : exn) : exn :=
  match e with IntegrityError => lifecycle_error SESSION_EXISTS | e => e end.

Definition create_session (sid principal : string) (created_at_ns : Z) : ST Db SessionRecord :=
  lift (validate_identity sid) ;;;
  lift (validate_identity principal) ;;;
  lift (validate_lifecycle_i64 created_at_ns) ;;;
  reraise exists_error (transaction (
    insert_session sid (mk_session_row principal (status_value SETUP) 0 None None created_at_ns) ;;;
    materialize sid principal)).

Definition get_session (sid principal : string) : ST Db SessionRecord := materialize sid principal.

Definition persist_ruleset (setup : SetupRequest) : ST Db unit := fun db =>
  let d := sr_ruleset setup in
  match ruleset_body d with
  | Raise e => (Raise e, db)
  | Ok body =>
      match rulesets db !! ruleset_id d with
      | None =>
          match one_or_none (ruleset_by_hash (SessionModel.ruleset_hash d) db) with
          | Raise e => (Raise e, db)
          | Ok (Some _) => (Raise (lifecycle_error RULESET_CONFLICT), db)
          | Ok None =>
              insert_ruleset (ruleset_id d)
                (mk_ruleset_row (rd_version d) (SessionModel.ruleset_hash d) (VDict body)) db
          end
      | Some existing =>
          if negb (String.eqb (rs_version existing) (rd_version d))
             || negb (String.eqb (rs_hash existing) (SessionModel.ruleset_hash d))
          then (Raise (lifecycle_error RULESET_CONFLICT), db)
          else match mapping (rs_body existing) with
               | Raise e => (Raise e, db)
               | Ok stored =>
                   if negb (py_eq (VDict stored) (VDict body))
                   then (Raise (lifecycle_error RULESET_CONFLICT), db) else (Ok tt, db)
               end
      end
  end.

(** The requirement [commit] asks the catalog, and the setup it pins. *)
Definition required_caps (setup : SetupRequest) : gset DataCapability :=
  capabilities_for_tier (sr_execution_tier setup) ∪ sr_required_capabilities setup.

Definition setup_requirement (setup : SetupRequest) : SetupRequirement :=
  mk_requirement (sr_instrument_id setup) (sr_play_start_ns setup) (sr_warmup_ns setup)
    (sr_duration_ns setup) (sr_execution_tier setup) (required_caps setup)
    (sr_allowed_redistribution setup) (sr_allow_degraded setup).

Definition pinned_setup (setup : SetupRequest) (eligibility_hash : string) : CommittedSetup :=
  mk_committed (sr_instrument_id setup) (sr_manifest_hash setup) eligibility_hash
    (sr_play_start_ns setup) (sr_warmup_ns setup) (sr_duration_ns setup) (sr_execution_tier setup)
    (required_caps setup) (sr_allowed_redistribution setup) (sr_allow_degraded setup)
    (sr_visibility_mode setup) (ruleset_id (sr_ruleset setup)) (rd_version (sr_ruleset setup))
    (SessionModel.ruleset_hash (sr_ruleset setup)).

(** The checks of [commit] before its transaction. *)
Definition commit_setup (catalog : CoverageCatalog) (setup : SetupRequest) : result CommittedSetup :=
  let! _ := raise_if (negb (bool_decide (sr_execution_tier setup ∈
                                         allowed_execution_tiers (sr_ruleset setup))))
              (lifecycle_error RULESET_FIDELITY_UNSUPPORTED) in
  let requirement := setup_requirement setup in
  let! _ := SetupRequirement_post_init requirement in
  let eligible := eligible_setups catalog requirement in
  let! _ := raise_if match eligible with [] => true | _ => false end
              (lifecycle_error SETUP_INELIGIBLE) in
  let! _ := raise_if (negb (bool_decide (sr_manifest_hash setup ∈ map es_manifest_hash eligible)))
              (lifecycle_error MANIFEST_INELIGIBLE) in
  let! h := eligibility_hash catalog requirement in
  Ok (pinned_setup setup h).

Definition set_committed (rid : string) (version : Z) (r : session_row) : session_row :=
  mk_session_row (s_principal_id r) (status_value COMMITTED) version (Some rid)
    (s_commitment_hash r) (s_created_at_ns r).

Definition commit (catalog : CoverageCatalog) (sid principal : string) (expected : Z)
    (setup : SetupRequest) : ST Db SessionRecord :=
  next <- lift (next_version expected) ;;
  committed <- lift (commit_setup catalog setup) ;;
  transaction (
    row <- locked_row sid principal ;;
    lift (require_version (s_version row) expected) ;;;
    status <- lift (status_of (s_status row)) ;;
    lift (require_status status [SETUP]) ;;;
    persist_ruleset setup ;;;
    append_event sid "SESSION_COMMITTED" (sr_play_start_ns setup) (to_payload committed) next ;;;
    n <- update_session sid
           (fun r => (s_version r =? expected) && String.eqb (s_status r) (status_value SETUP))
           (set_committed (ruleset_id (sr_ruleset setup)) next) ;;
    lift (raise_if (negb (n =? 1)) (lifecycle_error VERSION_CONFLICT)) ;;;
    materialize sid principal).

Definition status_transition (sid principal : string) (expected : Z) (allowed : list SessionStatus)
    (target : SessionStatus) (event_type : string) : ST Db SessionRecord :=
  next <- lift (next_version expected) ;;
  transaction (
    row <- locked_row sid principal ;;
    lift (require_version (s_version row) expected) ;;;
    current <- (fun db => (materialize_from_row db sid row principal, db)) ;;
    lift (require_status (ss_status current) allowed) ;;;
    t <- lift (of_option (lifecycle_error INVALID_TRANSITION) (ss_logical_time_ns current)) ;;
    append_event sid event_type t [] next ;;;
    advance_version sid expected next target ;;;
    materialize sid principal).

Definition start (sid principal : string) (expected : Z) : ST Db SessionRecord :=
  status_transition sid principal expected [COMMITTED; PAUSED] RUNNING "SESSION_STARTED".

Definition pause (sid principal : string) (expected : Z) : ST Db SessionRecord :=
  status_transition sid principal expected [RUNNING] PAUSED "SESSION_PAUSED".

(** The committed setup and frontier of a record, or [INVALID_TRANSITION]. *)
Definition committed_frontier (r : SessionRecord) : result (CommittedSetup * Z) :=
  match ss_setup r, ss_logical_time_ns r with
  | Some s, Some t => Ok (s, t)
  | _, _ => Raise (lifecycle_error INVALID_TRANSITION)
  end.

Definition advance (sid principal : string) (expected logical_time_ns : Z) : ST Db SessionRecord :=
  lift (validate_lifecycle_i64 logical_time_ns) ;;;
  next <- lift (next_version expected) ;;
  transaction (
    row <- locked_row sid principal ;;
    lift (require_version (s_version row) expected) ;;;
    current <- (fun db => (materialize_from_row db sid row principal, db)) ;;
    lift (require_status (ss_status current) [RUNNING]) ;;;
    frontier <- lift (committed_frontier current) ;;
    lift (raise_if ((logical_time_ns <=? snd frontier) || (play_end_ns (fst frontier) <? logical_time_ns))
            (lifecycle_error ADVANCE_OUT_OF_RANGE)) ;;;
    append_event sid "SESSION_ADVANCED" logical_time_ns
      (obj [("logical_time_ns", VStr (str_Z logical_time_ns))]) next ;;;
    advance_version sid expected next RUNNING ;;;
    materialize sid principal).

Definition complete (sid principal : string) (expected : Z) : ST Db SessionRecord :=
  next <- lift (next_version expected) ;;
  transaction (
    row <- locked_row sid principal ;;
    lift (require_version (s_version row) expected) ;;;
    current <- (fun db => (materialize_from_row db sid row principal, db)) ;;
    lift (require_status (ss_status current) [RUNNING; PAUSED]) ;;;
    frontier <- lift (committed_frontier current) ;;
    lift (raise_if (negb (snd frontier =? play_end_ns (fst frontier))) (lifecycle_error INVALID_TRANSITION)) ;;;
    append_event sid "SESSION_COMPLETED" (snd frontier) [] next ;;;
    advance_version sid expected next COMPLETED ;;;
    materialize sid principal).

(** What a fork adds to the setup payload. *)
Definition fork_fields (t : Z) (parent : string) (v : Z) : list (string * pyval) :=
  [("fork_logical_time_ns", VStr (str_Z t)); ("parent_session_id", VStr parent);
   ("parent_version", VStr (str_Z v))].

Definition fork (sid principal : string) (expected : Z) (child : string) (created_at_ns : Z)
    : ST Db SessionRecord :=
  lift (validate_identity child) ;;;
  lift (validate_lifecycle_i64 created_at_ns) ;;;
  lift (validate_lifecycle_version expected) ;;;
  lift (raise_if (String.eqb child sid) (lifecycle_error INVALID_FORK_TARGET)) ;;;
  reraise exists_error (transaction (
    row <- locked_row sid principal ;;
    lift (require_version (s_version row) expected) ;;;
    current <- (fun db => (materialize_from_row db sid row principal, db)) ;;
    lift (require_status (ss_status current) [COMMITTED; RUNNING; PAUSED]) ;;;
    frontier <- lift (committed_frontier current) ;;
    let '(setup, t) := frontier in
    let child_status := if t =? cs_play_start_ns setup then COMMITTED else PAUSED in
    insert_session child (mk_session_row principal (status_value child_status) 1
                            (Some (cs_ruleset_id setup)) None created_at_ns) ;;;
    let payload := dict_update (to_payload setup) (fork_fields t sid expected) in
    append_event child "SESSION_FORKED" t payload 1 ;;;
    materialize child principal)).

(** ** The operations as one interface *)

Inductive call :=
| CreateSession (sid principal : string) (created_at_ns : Z)
| Commit (catalog : CoverageCatalog) (sid principal : string) (expected : Z) (setup : SetupRequest)
| Start (sid principal : string) (expected : Z)
| Pause (sid principal : string) (expected : Z)
| Advance (sid principal : string) (expected logical_time_ns : Z)
| Complete (sid principal : string) (expected : Z)
| Fork (sid principal : string) (expected : Z) (child : string) (created_at_ns : Z).

Definition run_call (c : call) : ST Db SessionRecord :=
  match c with
  | CreateSession sid p t => create_session sid p t
  | Commit cat sid p v setup => commit cat sid p v setup
  | Start sid p v => start sid p v
  | Pause sid p v => pause sid p v
  | Advance sid p v t => advance sid p v t
  | Complete sid p v => complete sid p v
  | Fork sid p v child t => fork sid p v child t
  end.

(** ** The abstract lifecycle

    [state db sid] is the session a reader sees.  [transition] is the contract of each operation on
    these records; the theorems below show that the operations implement it. *)

Definition state (db : Db) (sid : string) : option SessionRecord :=
  match sessions db !! sid with
  | Some row =>
      match materialize_from_row db sid row (s_principal_id row) with Ok r => Some r | Raise _ => None end
  | None => None
  end.

Definition target (c : call) : string :=
  match c with
  | CreateSession sid _ _ | Commit _ sid _ _ _ | Start sid _ _ | Pause sid _ _ | Advance sid _ _ _
  | Complete sid _ _ => sid
  | Fork _ _ _ child _ => child
  end.

Definition with_status (b : SessionRecord) (status : SessionStatus) (t : option Z) : SessionRecord :=
  mk_session (ss_session_id b) (ss_principal_id b) status (ss_version b + 1) (ss_created_at_ns b)
    (ss_setup b) t (ss_parent_session_id b).

(** The session exists, is the principal's, and has the expected version. *)
Definition owned (s : string -> option SessionRecord) (sid principal : string) (expected : Z)
    (b : SessionRecord) : Prop :=
  s sid = Some b /\ ss_principal_id b = principal /\ ss_version b = expected /\ expected < U64_MAX.

Definition transition (c : call) (s : string -> option SessionRecord) (r : SessionRecord) : Prop :=
  match c with
  | CreateSession sid p t => s sid = None /\ r = mk_session sid p SETUP 0 t None None None
  | Commit catalog sid p v setup =>
      exists b cs, owned s sid p v b /\ ss_status b = SETUP /\ commit_setup catalog setup = Ok cs /\
        r = mk_session sid p COMMITTED (v + 1) (ss_created_at_ns b) (Some cs)
              (Some (cs_play_start_ns cs)) None
  | Start sid p v =>
      exists b, owned s sid p v b /\ ss_status b ∈ [COMMITTED; PAUSED] /\
        r = with_status b RUNNING (ss_logical_time_ns b)
  | Pause sid p v =>
      exists b, owned s sid p v b /\ ss_status b = RUNNING /\
        r = with_status b PAUSED (ss_logical_time_ns b)
  | Advance sid p v t =>
      exists b cs t0, owned s sid p v b /\ ss_status b = RUNNING /\ ss_setup b = Some cs /\
        ss_logical_time_ns b = Some t0 /\ t0 < t <= play_end_ns cs /\
        r = with_status b RUNNING (Some t)
  | Complete sid p v =>
      exists b cs, owned s sid p v b /\ ss_status b ∈ [RUNNING; PAUSED] /\ ss_setup b = Some cs /\
        ss_logical_time_ns b = Some (play_end_ns cs) /\
        r = with_status b COMPLETED (Some (play_end_ns cs))
  | Fork sid p v child t =>
      exists b cs t0, s sid = Some b /\ ss_principal_id b = p /\ ss_version b = v /\
        s child = None /\ ss_status b ∈ [COMMITTED; RUNNING; PAUSED] /\ ss_setup b = Some cs /\
        ss_logical_time_ns b = Some t0 /\
        r = mk_session child p (if t0 =? cs_play_start_ns cs then COMMITTED else PAUSED) 1 t
              (Some cs) (Some t0) (Some sid)
  end.

(** What the constructors of [SetupRequest] and [RulesetDefinition] establish of an argument. *)
Definition ruleset_made (r : RulesetDefinition) : Prop :=
  exists body, from_body (ruleset_id r) (rd_version r) (allowed_execution_tiers r) body = Ok r.

Definition call_made (c : call) : Prop :=
  match c with
  | Commit _ _ _ _ setup => SetupRequest_post_init setup = Ok tt /\ ruleset_made (sr_ruleset setup)
  | _ => True
  end.

Record record_ok (r : SessionRecord) : Prop := mk_record_ok {
  ro_version : 0 <= ss_version r < 2 ^ 64;
  ro_created : - 2 ^ 63 <= ss_created_at_ns r < 2 ^ 63;
  ro_setup :
    match ss_setup r, ss_logical_time_ns r with
    | None, None => ss_status r = SETUP /\ ss_parent_session_id r = None
    | Some s, Some t =>
        ss_status r <> SETUP /\ setup_ok s /\ cs_play_start_ns s <= t <= play_end_ns s /\
        (ss_status r = COMMITTED -> t = cs_play_start_ns s) /\
        (ss_status r = COMPLETED -> t = play_end_ns s)
    | _, _ => False
    end;
}.

Record db_ok (db : Db) : Prop := mk_db_ok {
  do_chains : chains_ok db;
  do_ids : sessions db !! EmptyString = None;
  do_events : forall sid, has_session sid db = false -> event_rows sid db = [];
  do_records : forall sid row, sessions db !! sid = Some row ->
    exists r, materialize_from_row db sid row (s_principal_id row) = Ok r /\ record_ok r;
}.

(** ** Lemmas on materialisation *)

Lemma view_events_app v l1 l2 :
  view_events v (l1 ++ l2) = let! v' := view_events v l1 in view_events v' l2.
Proof.
  revert v. induction l1 as [|e l1 IH]; intros v; cbn; [done|].
  destruct (view_event v _ _); cbn; [apply IH|done].
Qed.

(** The record of a row whose events have the view [v]. *)
Definition row_record (sid : string) (row : session_row) (status : SessionStatus) (v : View) : SessionRecord :=
  mk_session sid (s_principal_id row) status (s_version row) (s_created_at_ns row) (v_setup v)
    (v_logical_time_ns v) (v_parent v).

Definition ruleset_agrees (row : session_row) (v : View) : bool :=
  match v_setup v, s_ruleset_id row with
  | Some s, Some rid => String.eqb rid (cs_ruleset_id s)
  | _, _ => true
  end.

Lemma materialize_Ok db sid row principal r :
  chains_ok db ->
  materialize_from_row db sid row principal = Ok r <->
  exists v status, s_principal_id row = principal /\
    view_events empty_view (event_rows sid db) = Ok v /\ status_of (s_status row) = Ok status /\
    in_u64 (s_version row) = true /\ in_i64 (s_created_at_ns row) = true /\
    (status = SETUP \/ is_Some (v_setup v)) /\ ruleset_agrees row v = true /\
    r = row_record sid row status v.
Proof.
  intros Hc. unfold materialize_from_row, validate_version, validate_i64. rewrite session_events_chain by done.
  split.
  - intros H. repeat step_ok. subst. bools. apply String.eqb_eq in H. subst principal.
    eexists _, _. split_and!; try done.
    + unfold in_u64. lia.
    + match goal with Hs : (negb _ && negb _)%bool = false |- _ =>
        apply andb_false_iff in Hs as [Hs|Hs]; apply negb_false_iff, bool_decide_eq_true in Hs; eauto end.
    + unfold ruleset_agrees. repeat case_match; try done. by bools.
  - intros (v & status & <- & Hv & Hst & Hver & Hcr & Hset & Hrs & ->).
    rewrite String.eqb_refl, Hv. cbn [negb raise_if rbind catch_res].
    replace (_ || _)%bool with false by (unfold in_u64 in Hver; lia). rewrite Hcr, Hst. cbn.
    replace (negb _ && negb _)%bool with false.
    2: { symmetry. apply andb_false_iff. rewrite !negb_false_iff, !bool_decide_eq_true. done. }
    cbn. replace (match v_setup v with Some _ => _ | None => false end) with false; [done|].
    unfold ruleset_agrees in Hrs. repeat case_match; try done. by rewrite Hrs.
Qed.

Lemma materialize_st sid principal db r db' :
  materialize sid principal db = (Ok r, db') <->
  db' = db /\ exists row, sessions db !! sid = Some row /\ materialize_from_row db sid row principal = Ok r.
Proof.
  unfold materialize. destruct (sessions db !! sid) as [row|]; split.
  - intros H. injection H as H <-. eauto.
  - intros (-> & row' & E & H). injection E as <-. by rewrite H.
  - intros H. discriminate H.
  - by intros (_ & row' & E & _).
Qed.

Lemma locked_row_Ok sid principal db row db' :
  locked_row sid principal db = (Ok row, db') <->
  db' = db /\ sessions db !! sid = Some row /\ s_principal_id row = principal.
Proof.
  unfold locked_row. destruct (sessions db !! sid) as [r|]; [|naive_solver].
  destruct (String.eqb_spec (s_principal_id r) principal); naive_solver.
Qed.

Lemma materialize_principal db sid row principal r :
  materialize_from_row db sid row principal = Ok r -> s_principal_id row = principal.
Proof. unfold materialize_from_row. intros H. repeat step_ok. by bools; apply String.eqb_eq. Qed.

Lemma state_Some db sid row r :
  sessions db !! sid = Some row -> materialize_from_row db sid row (s_principal_id row) = Ok r ->
  state db sid = Some r.
Proof. unfold state. by intros -> ->. Qed.

Lemma state_inv db sid r :
  state db sid = Some r -> exists row, sessions db !! sid = Some row /\
    materialize_from_row db sid row (s_principal_id row) = Ok r.
Proof.
  unfold state. destruct (sessions db !! sid) as [row|]; [|done]. intros H. exists row. split; [done|].
  destruct (materialize_from_row _ _ _ _); congruence.
Qed.

Lemma state_None db sid : db_ok db -> state db sid = None <-> sessions db !! sid = None.
Proof.
  intros Hok. unfold state. destruct (sessions db !! sid) as [row|] eqn:E; [|done].
  destruct (do_records _ Hok _ _ E) as (r & -> & _). done.
Qed.

Lemma materialize_same db db' sid row p :
  chains_ok db -> chains_ok db' -> event_rows sid db' = event_rows sid db ->
  materialize_from_row db' sid row p = materialize_from_row db sid row p.
Proof.
  intros H H' E. unfold materialize_from_row. by rewrite !session_events_chain, E by done.
Qed.

(** ** Lemmas on writing *)

Lemma append_event_Ok sid ty t payload sv db u db' :
  chains_ok db -> append_event sid ty t payload sv db = (Ok u, db') ->
  in_i64 t = true /\ exists e,
    e_session_id e = sid /\ e_event_type e = ty /\ e_payload e = VDict payload /\
    db' = set_domain_events (domain_events db ++ [e]) db /\ chains_ok db' /\
    event_rows sid db' = event_rows sid db ++ [e].
Proof.
  intros Hc H. unfold append_event, validate_i64 in H. repeat step_ok. subst. split.
  { by apply negb_false_iff. }
  match goal with Hi : insert_event ?r _ = _ |- _ => exists r; rename Hi into Hins end.
  destruct (insert_event_chain _ _ _ _ Hc Hins) as [Hc' Hr].
  - cbn. unfold next_seq, last_event. by rewrite session_events_chain.
  - cbn. unfold last_hash, last_event. by rewrite session_events_chain.
  - split_and!; try done. by apply insert_event_Ok in Hins as (_ & _ & _ & ->).
Qed.

Lemma event_rows_other sid es : forall sid', sid' <> sid ->
  Forall (fun e => e_session_id e = sid) es ->
  List.filter (fun r => String.eqb (e_session_id r) sid') es = [].
Proof.
  intros sid' Hne H. induction H as [|e es He _ IH]; cbn; [done|].
  rewrite He. by destruct (String.eqb_spec sid sid').
Qed.

Lemma event_rows_own sid es :
  Forall (fun e => e_session_id e = sid) es ->
  List.filter (fun r => String.eqb (e_session_id r) sid) es = es.
Proof.
  induction 1 as [|e es He _ IH]; cbn; [done|]. by rewrite He, String.eqb_refl, IH.
Qed.

(** One session gets a row and some events; the others are untouched. *)
Lemma write_session db db2 sid row es v status :
  db_ok db -> sid <> EmptyString -> chains_ok db2 -> sessions db2 = <[sid := row]> (sessions db) ->
  domain_events db2 = domain_events db ++ es -> Forall (fun e => e_session_id e = sid) es ->
  view_events empty_view (event_rows sid db ++ es) = Ok v -> status_of (s_status row) = Ok status ->
  ruleset_agrees row v = true -> record_ok (row_record sid row status v) ->
  db_ok db2 /\ state db2 sid = Some (row_record sid row status v) /\
  (forall o, o <> sid -> state db2 o = state db o).
Proof.
  intros Hok Hne Hc Hs He Hes Hv Hst Hrs Hr.
  assert (event_rows sid db2 = event_rows sid db ++ es) as Hown.
  { by rewrite (event_rows_app sid es db db2 He), event_rows_own. }
  assert (forall o, o <> sid -> event_rows o db2 = event_rows o db) as Hother.
  { intros o Ho. by rewrite (event_rows_app o es db db2 He), (event_rows_other sid), app_nil_r. }
  assert (materialize_from_row db2 sid row (s_principal_id row) = Ok (row_record sid row status v)) as Hm.
  { apply materialize_Ok; [done|]. exists v, status. rewrite Hown. destruct Hr as [H1 H2 H3].
    unfold row_record in *. cbn in *. split_and!; try done.
    - by apply in_u64_spec.
    - by apply in_i64_spec.
    - destruct (v_setup v); [eauto|]. destruct (v_logical_time_ns v); [done|]. by left; destruct H3. }
  split_and!.
  - split; [done| | |].
    + rewrite Hs, lookup_insert_ne by done. apply do_ids, Hok.
    + intros o Ho. unfold has_session in Ho. rewrite Hs in Ho. destruct (decide (o = sid)) as [->|Hno].
      { by rewrite lookup_insert_eq in Ho. }
      rewrite Hother by done. apply (do_events _ Hok). unfold has_session.
      by rewrite lookup_insert_ne in Ho.
    + intros o row' Ho. rewrite Hs in Ho. destruct (decide (o = sid)) as [->|Hno].
      { rewrite lookup_insert_eq in Ho. injection Ho as <-. eauto. }
      rewrite lookup_insert_ne in Ho by done. destruct (do_records _ Hok _ _ Ho) as (r & Hr' & Hok').
      exists r. split; [|done]. rewrite <- Hr'. apply materialize_same; [apply Hok|done|by apply Hother].
  - eapply state_Some; [|exact Hm]. by rewrite Hs, lookup_insert_eq.
  - intros o Ho. unfold state. rewrite Hs, lookup_insert_ne by done. destruct (sessions db !! o); [|done].
    rewrite (materialize_same db db2); [done|apply Hok|done|by apply Hother].
Qed.

Lemma session_id_ne db sid row : db_ok db -> sessions db !! sid = Some row -> sid <> EmptyString.
Proof. intros Hok H ->. rewrite (do_ids _ Hok) in H. discriminate H. Qed.

Lemma row_view db sid row :
  db_ok db -> sessions db !! sid = Some row ->
  exists v status, view_events empty_view (event_rows sid db) = Ok v /\
    status_of (s_status row) = Ok status /\ ruleset_agrees row v = true /\
    record_ok (row_record sid row status v) /\
    (forall p r, materialize_from_row db sid row p = Ok r ->
       s_principal_id row = p /\ r = row_record sid row status v) /\
    state db sid = Some (row_record sid row status v).
Proof.
  intros Hok Hs. destruct (do_records _ Hok _ _ Hs) as (r & Hr & Hrok). pose proof Hr as Hr'.
  apply materialize_Ok in Hr as (v & status & _ & Hv & Hst & _ & _ & _ & Hrs & ->); [|apply Hok].
  exists v, status. split_and!; try done.
  - intros p r H. apply materialize_Ok in H as (v' & st' & Hp & Hv' & Hst' & _ & _ & _ & _ & ->); [|apply Hok].
    split; [done|]. rewrite Hv in Hv'. rewrite Hst in Hst'. by injection Hv' as ->; injection Hst' as ->.
  - by eapply state_Some.
Qed.

Lemma require_version_Ok a b u : require_version a b = Ok u -> a = b /\ 0 <= a < 2 ^ 64.
Proof.
  unfold require_version, validate_version, U64_MAX. intros H. repeat step_ok. bools. lia.
Qed.

Lemma next_version_Ok v n : next_version v = Ok n -> n = v + 1 /\ 0 <= v < U64_MAX.
Proof.
  unfold next_version, validate_lifecycle_version, validate_version, U64_MAX. intros H. repeat step_ok.
  split_ok; [discriminate|]. bools. injection H0 as <-. lia.
Qed.

Lemma require_status_Ok s l u : require_status s l = Ok u -> s ∈ l.
Proof. unfold require_status. intros H%raise_if_Ok. by bools. Qed.

Lemma advance_version_Ok sid v n target db u db' :
  advance_version sid v n target db = (Ok u, db') ->
  exists row, sessions db !! sid = Some row /\ s_version row = v /\
    db' = set_sessions (<[sid := set_status target n row]> (sessions db)) db.
Proof.
  unfold advance_version, update_session, sbind, lift.
  destruct (sessions db !! sid) as [row|]; [|done]. destruct (s_version row =? v) eqn:E; [|done].
  cbn. intros H. injection H as <-. bools. eauto.
Qed.

(** The common tail of a transition of an existing session. *)
Definition finish (sid principal ty : string) (t : Z) (payload : pydict) (expected next : Z)
    (target : SessionStatus) : ST Db SessionRecord :=
  append_event sid ty t payload next ;;;
  advance_version sid expected next target ;;;
  materialize sid principal.

Lemma finish_Ok db db' sid row v v' status principal ty t payload target r :
  db_ok db -> sessions db !! sid = Some row ->
  view_events empty_view (event_rows sid db) = Ok v -> ruleset_agrees row v = true ->
  record_ok (row_record sid row status v) ->
  finish sid principal ty t payload (s_version row) (s_version row + 1) target db = (Ok r, db') ->
  view_event v ty (VDict payload) = Ok v' -> v_setup v' = v_setup v ->
  record_ok (row_record sid (set_status target (s_version row + 1) row) target v') ->
  db_ok db' /\ r = row_record sid (set_status target (s_version row + 1) row) target v' /\
  state db' sid = Some r /\ (forall o, o <> sid -> state db' o = state db o).
Proof.
  intros Hok Hs Hv Hrs Hr H Hve Hsetup Hr'. unfold finish in H.
  apply sbind_Ok in H as (u & db1 & Ha & H). apply sbind_Ok in H as (u2 & db2 & Hadv & H).
  apply materialize_st in H as (-> & row2 & Hrow2 & Hm).
  destruct (append_event_Ok _ _ _ _ _ _ _ _ (do_chains _ Hok) Ha) as (_ & e & He1 & He2 & He3 & Hdb1 & Hc1 & Hrows).
  apply advance_version_Ok in Hadv as (row1 & Hrow1 & _ & Hdb2).
  assert (row1 = row) as -> by (subst db1; cbn in Hrow1; congruence).
  set (row' := set_status target (s_version row + 1) row) in *.
  assert (chains_ok db2) as Hc2 by (apply (chains_same db1); [by subst db2|done]).
  destruct (write_session db db2 sid row' [e] v' target) as (Hok2 & Hst2 & Hoth); try done.
  - by eapply session_id_ne.
  - by subst db2 db1.
  - by subst db2 db1.
  - by repeat constructor.
  - rewrite view_events_app, Hv. cbn. by rewrite He2, He3, Hve.
  - unfold row'. cbn. apply status_of_value.
  - unfold row', ruleset_agrees in *. cbn. by rewrite Hsetup.
  - assert (row2 = row') as ->.
    { subst db2. cbn in Hrow2. rewrite lookup_insert_eq in Hrow2. congruence. }
    destruct (row_view _ _ _ Hok2 Hrow2) as (v2 & st2 & _ & _ & _ & _ & Hmat & Hst3).
    destruct (Hmat _ _ Hm) as [_ ->].
    assert (row_record sid row' st2 v2 = row_record sid row' target v') as -> by congruence.
    split_and!; done.
Qed.

Lemma owned_row db sid row status w :
  state db sid = Some (row_record sid row status w) -> s_version row < U64_MAX ->
  owned (state db) sid (s_principal_id row) (s_version row) (row_record sid row status w).
Proof. by repeat split. Qed.

Lemma transition_start db db' sid p v (allowed : list SessionStatus) tgt ty r :
  db_ok db -> status_transition sid p v allowed tgt ty db = (Ok r, db') ->
  ty ∈ ["SESSION_STARTED"; "SESSION_PAUSED"] -> (tgt = RUNNING \/ tgt = PAUSED) ->
  SETUP ∉ allowed ->
  exists b, owned (state db) sid p v b /\ ss_status b ∈ allowed /\
    r = with_status b tgt (ss_logical_time_ns b) /\
    db_ok db' /\ state db' sid = Some r /\ (forall o, o <> sid -> state db' o = state db o).
Proof.
  intros Hok H Hty Htgt Hall. unfold status_transition in H.
  apply sbind_Ok in H as (next & db0 & Hn & H). apply lift_Ok in Hn as [Hn ->].
  apply transaction_inv in H. apply sbind_Ok in H as (row & db0 & Hl & H).
  apply locked_row_Ok in Hl as (-> & Hs & <-).
  apply sbind_Ok in H as ([] & db0 & Hrv & H). apply lift_Ok in Hrv as [Hrv ->].
  apply sbind_Ok in H as (cur & db0 & Hcur & H). injection Hcur as Hcur <-.
  apply sbind_Ok in H as ([] & db0 & Hrs & H). apply lift_Ok in Hrs as [Hrs ->].
  apply sbind_Ok in H as (t & db0 & Ht & H). apply lift_Ok in Ht as [Ht ->].
  destruct (row_view _ _ _ Hok Hs) as (w & status & Hv & Hst & Hag & Hrok & Hmat & Hstate).
  destruct (Hmat _ _ Hcur) as [_ ->]. apply require_status_Ok in Hrs. cbn in Hrs, Ht.
  apply require_version_Ok in Hrv as [<- _]. apply next_version_Ok in Hn as [-> Hv2].
  destruct (v_logical_time_ns w) as [t'|] eqn:Ew; [|done]. injection Ht as ->.
  destruct (finish_Ok db db' sid row w w status (s_principal_id row) ty t [] tgt r) as (F1 & F2 & F3 & F4); try done.
  - unfold view_event. cbn. apply elem_of_cons in Hty as [->|Hty]; [done|].
    by apply list_elem_of_singleton in Hty as ->.
  - destruct Hrok as [Q1 Q2 Q3]. split; cbn in *; [unfold U64_MAX in Hv2; lia|done|].
    rewrite Ew in *. destruct (v_setup w); [|done]. destruct Q3 as (_ & Q & Qt & _).
    destruct Htgt as [-> | ->]; (split_and!; [discriminate|exact Q|apply Qt|apply Qt|discriminate..]).
  - exists (row_record sid row status w). split; [apply owned_row; [done|lia]|].
    split_and!; [done| |done..]. rewrite F2. unfold with_status, row_record. cbn. by rewrite ?Ew.
Qed.

(** Reading a session under the lock, with the expected version. *)
Definition read_current (sid principal : string) (expected : Z) : ST Db (session_row * SessionRecord) :=
  row <- locked_row sid principal ;;
  lift (require_version (s_version row) expected) ;;;
  current <- (fun db => (materialize_from_row db sid row principal, db)) ;;
  sret (row, current).

Lemma read_current_bind {A} sid principal expected (k : SessionRecord -> ST Db A) db :
  (row <- locked_row sid principal ;;
   lift (require_version (s_version row) expected) ;;;
   current <- (fun db => (materialize_from_row db sid row principal, db)) ;;
   k current) db
  = (rc <- read_current sid principal expected ;; k (snd rc)) db.
Proof.
  unfold read_current, sbind, sret, lift. destruct (locked_row sid principal db) as [[row|e] db0]; [|done].
  destruct (require_version _ _) as [[]|e]; [|done]. by destruct (materialize_from_row _ _ _ _).
Qed.

Lemma read_current_Ok sid p v db x db' :
  db_ok db -> read_current sid p v db = (Ok x, db') ->
  exists row w status, x = (row, row_record sid row status w) /\ db' = db /\
    sessions db !! sid = Some row /\ s_principal_id row = p /\ s_version row = v /\
    view_events empty_view (event_rows sid db) = Ok w /\ ruleset_agrees row w = true /\
    record_ok (row_record sid row status w) /\ state db sid = Some (row_record sid row status w).
Proof.
  intros Hok H. unfold read_current in H.
  apply sbind_Ok in H as (row & db0 & Hl & H). apply locked_row_Ok in Hl as (-> & Hs & Hp).
  apply sbind_Ok in H as ([] & db0 & Hrv & H). apply lift_Ok in Hrv as [Hrv ->].
  apply sbind_Ok in H as (cur & db0 & Hcur & H). injection Hcur as Hcur <-. injection H as <- <-.
  destruct (row_view _ _ _ Hok Hs) as (w & status & Hv & Hst & Hag & Hrok & Hmat & Hstate).
  destruct (Hmat _ _ Hcur) as [_ ->]. apply require_version_Ok in Hrv as [<- _].
  exists row, w, status. split_and!; done.
Qed.

Lemma committed_frontier_Ok r s t :
  committed_frontier r = Ok (s, t) -> ss_setup r = Some s /\ ss_logical_time_ns r = Some t.
Proof. unfold committed_frontier. by destruct (ss_setup r), (ss_logical_time_ns r); intros [= -> ->]. Qed.

Lemma committed_frontier_eq r s t :
  ss_setup r = Some s -> ss_logical_time_ns r = Some t -> committed_frontier r = Ok (s, t).
Proof. unfold committed_frontier. by intros -> ->. Qed.

Lemma i64_field n key : - 2 ^ 63 <= n < 2 ^ 63 -> decimal_i64 (obj [(key, VStr (str_Z n))]) key = Ok n.
Proof.
  intros Hn. apply (decimal_field_get _ key n); [|done].
  unfold dict_get. cbn. unfold key_eqb. by rewrite bool_decide_eq_true_2.
Qed.

Lemma mapping_obj items : mapping (VDict (obj items)) = Ok (obj items).
Proof.
  unfold mapping. replace (str_keys (obj items)) with true; [done|]. symmetry.
  apply forallb_forall. by intros [k v] ([k' v'] & [= <- <-] & _)%in_map_iff.
Qed.

Lemma transition_advance db db' sid p v t r :
  db_ok db -> advance sid p v t db = (Ok r, db') ->
  transition (Advance sid p v t) (state db) r /\
  db_ok db' /\ state db' sid = Some r /\ (forall o, o <> sid -> state db' o = state db o).
Proof.
  intros Hok H. unfold advance in H.
  apply sbind_Ok in H as ([] & db0 & Ht & H). apply lift_Ok in Ht as [Ht ->].
  unfold validate_lifecycle_i64, validate_i64 in Ht. apply catch_res_Ok, raise_if_Ok, negb_false_iff, in_i64_spec in Ht.
  apply sbind_Ok in H as (next & db0 & Hn & H). apply lift_Ok in Hn as [Hn ->].
  apply transaction_inv in H. rewrite (read_current_bind sid p v) in H.
  apply sbind_Ok in H as (x & db0 & Hrc & H).
  destruct (read_current_Ok _ _ _ _ _ _ Hok Hrc) as (row & w & status & -> & -> & Hs & <- & Hver & Hv & Hag & Hrok & Hstate).
  cbn [snd] in H. apply sbind_Ok in H as ([] & db0 & Hrs & H). apply lift_Ok in Hrs as [Hrs ->].
  apply require_status_Ok, list_elem_of_singleton in Hrs. cbn in Hrs. subst status.
  apply sbind_Ok in H as ([cs t0] & db0 & Hf & H). apply lift_Ok in Hf as [Hf ->].
  apply committed_frontier_Ok in Hf as [Hset Hlt]. cbn in Hset, Hlt.
  apply sbind_Ok in H as ([] & db0 & Hr & H). apply lift_Ok in Hr as [Hr ->].
  apply raise_if_Ok in Hr. bools. cbn [fst snd] in *. subst v.
  apply next_version_Ok in Hn as [-> Hv2].
  destruct (finish_Ok db db' sid row w (mk_view (v_setup w) (Some t) (v_parent w)) RUNNING (s_principal_id row)
              "SESSION_ADVANCED" t (obj [("logical_time_ns", VStr (str_Z t))]) RUNNING r)
    as (F1 & F2 & F3 & F4); try done.
  - unfold view_event. rewrite mapping_obj. cbn -[decimal_i64 obj]. rewrite Hset. by rewrite (i64_field t).
  - destruct Hrok as [Q1 Q2 Q3]. split; cbn in *; [unfold U64_MAX in Hv2; lia|done|].
    rewrite Hset, Hlt in *. destruct Q3 as (_ & Q & Qt & _).
    split_and!; [discriminate|exact Q|lia|lia|discriminate..].
  - split_and!; [|done..]. exists (row_record sid row RUNNING w), cs, t0.
    split; [apply owned_row; [done|lia]|]. split_and!; done || lia.
Qed.

Lemma transition_complete db db' sid p v r :
  db_ok db -> complete sid p v db = (Ok r, db') ->
  transition (Complete sid p v) (state db) r /\
  db_ok db' /\ state db' sid = Some r /\ (forall o, o <> sid -> state db' o = state db o).
Proof.
  intros Hok H. unfold complete in H.
  apply sbind_Ok in H as (next & db0 & Hn & H). apply lift_Ok in Hn as [Hn ->].
  apply transaction_inv in H. rewrite (read_current_bind sid p v) in H.
  apply sbind_Ok in H as (x & db0 & Hrc & H).
  destruct (read_current_Ok _ _ _ _ _ _ Hok Hrc) as (row & w & status & -> & -> & Hs & <- & Hver & Hv & Hag & Hrok & Hstate).
  cbn [snd] in H. apply sbind_Ok in H as ([] & db0 & Hrs & H). apply lift_Ok in Hrs as [Hrs ->].
  apply require_status_Ok in Hrs. cbn in Hrs.
  apply sbind_Ok in H as ([cs t0] & db0 & Hf & H). apply lift_Ok in Hf as [Hf ->].
  apply committed_frontier_Ok in Hf as [Hset Hlt]. cbn in Hset, Hlt.
  apply sbind_Ok in H as ([] & db0 & Hr & H). apply lift_Ok in Hr as [Hr ->].
  apply raise_if_Ok in Hr. bools. cbn [fst snd] in *. subst v t0.
  apply next_version_Ok in Hn as [-> Hv2].
  destruct (finish_Ok db db' sid row w w status (s_principal_id row) "SESSION_COMPLETED" (play_end_ns cs) [] COMPLETED r)
    as (F1 & F2 & F3 & F4); try done.
  - destruct Hrok as [Q1 Q2 Q3]. split; cbn in *; [unfold U64_MAX in Hv2; lia|done|].
    rewrite Hset, Hlt in *. destruct Q3 as (_ & Q & Qt & _).
    split_and!; [discriminate|exact Q|lia|lia|discriminate|done].
  - split_and!; [|done..]. exists (row_record sid row status w), cs.
    split; [apply owned_row; [done|lia]|]. split_and!; done || (rewrite F2; unfold with_status, row_record; cbn; by rewrite ?Hlt).
Qed.

Lemma insert_session_Ok sid row db u db' :
  insert_session sid row db = (Ok u, db') ->
  sessions db !! sid = None /\ db' = set_sessions (<[sid := row]> (sessions db)) db.
Proof.
  unfold insert_session, has_session. destruct (sessions db !! sid); [done|].
  intros H. destruct (_ || _)%bool in H; [done|]. by injection H as <- <-.
Qed.

Lemma no_session db sid : sessions db !! sid = None -> has_session sid db = false.
Proof. unfold has_session. by intros ->. Qed.

Lemma validate_lifecycle_i64_Ok t u : validate_lifecycle_i64 t = Ok u -> - 2 ^ 63 <= t < 2 ^ 63.
Proof.
  unfold validate_lifecycle_i64, validate_i64.
  by intros H%catch_res_Ok%raise_if_Ok%negb_false_iff%in_i64_spec.
Qed.

Lemma validate_identity_Ok s u : validate_identity s = Ok u -> s <> EmptyString.
Proof. unfold validate_identity. intros H%raise_if_Ok ->. by bools. Qed.

(** A write that ends by reading the session back. *)
Lemma write_and_read db db2 sid row es v status p r :
  db_ok db -> sid <> EmptyString -> chains_ok db2 -> sessions db2 = <[sid := row]> (sessions db) ->
  domain_events db2 = domain_events db ++ es -> Forall (fun e => e_session_id e = sid) es ->
  view_events empty_view (event_rows sid db ++ es) = Ok v -> status_of (s_status row) = Ok status ->
  ruleset_agrees row v = true -> record_ok (row_record sid row status v) ->
  (exists row', sessions db2 !! sid = Some row' /\ materialize_from_row db2 sid row' p = Ok r) ->
  r = row_record sid row status v /\
  db_ok db2 /\ state db2 sid = Some r /\ (forall o, o <> sid -> state db2 o = state db o).
Proof.
  intros Hok Hne Hc Hs He Hes Hv Hst Hrs Hr (row' & Hrow' & Hm).
  destruct (write_session db db2 sid row es v status Hok Hne Hc Hs He Hes Hv Hst Hrs Hr) as (Hok2 & Hst2 & Ho).
  destruct (row_view _ _ _ Hok2 Hrow') as (v2 & st2 & _ & _ & _ & _ & Hmat & Hst3).
  destruct (Hmat _ _ Hm) as [_ ->].
  assert (row_record sid row' st2 v2 = row_record sid row status v) as E by congruence.
  split_and!; [done|done|congruence|done].
Qed.

Lemma transition_create db db' sid p t r :
  db_ok db -> create_session sid p t db = (Ok r, db') ->
  transition (CreateSession sid p t) (state db) r /\
  db_ok db' /\ state db' sid = Some r /\ (forall o, o <> sid -> state db' o = state db o).
Proof.
  intros Hok H. unfold create_session in H.
  apply sbind_Ok in H as (? & ? & Hl & H). apply lift_Ok in Hl as [Hid%validate_identity_Ok ->].
  apply sbind_Ok in H as (? & ? & Hl & H). apply lift_Ok in Hl as [_ ->].
  apply sbind_Ok in H as (? & ? & Hl & H). apply lift_Ok in Hl as [Ht%validate_lifecycle_i64_Ok ->].
  apply reraise_inv, transaction_inv, sbind_Ok in H as (? & db1 & Hi & H).
  apply insert_session_Ok in Hi as [Hs Hdb1]. apply materialize_st in H as (-> & Hm).
  assert (event_rows sid db = []) as He by by apply (do_events _ Hok), no_session.
  destruct (write_and_read db db1 sid (mk_session_row p (status_value SETUP) 0 None None t) [] empty_view
              SETUP p r) as (-> & Q); subst db1; try done.
  - by apply (chains_same db), Hok.
  - cbn. by rewrite app_nil_r.
  - by rewrite He.
  - split; [|exact Q]. split; [|done]. by apply state_None.
Qed.

Lemma ruleset_made_ok r :
  ruleset_made r -> is_empty (ruleset_id r) = false /\ is_empty (rd_version r) = false /\
  is_sha256 (SessionModel.ruleset_hash r) = true.
Proof.
  intros (body & H). unfold from_body in H. repeat step_ok. split_and!; [done..|].
  match goal with E : mk_ruleset _ _ _ _ _ = r |- _ => rewrite <- E end. apply is_sha256_hex.
Qed.

Lemma eligibility_hash_sha catalog req h : eligibility_hash catalog req = Ok h -> is_sha256 h = true.
Proof. unfold eligibility_hash. intros H. repeat step_ok. subst. apply is_sha256_hex. Qed.

Lemma commit_setup_ok catalog setup cs :
  SetupRequest_post_init setup = Ok tt -> ruleset_made (sr_ruleset setup) ->
  commit_setup catalog setup = Ok cs -> setup_ok cs /\ cs_play_start_ns cs = sr_play_start_ns setup /\
    cs_ruleset_id cs = ruleset_id (sr_ruleset setup).
Proof.
  intros Hp (Hr1 & Hr2 & Hr3)%ruleset_made_ok H.
  unfold SetupRequest_post_init, validate_i64, validate_sha256 in Hp. repeat step_ok. bools.
  unfold commit_setup in H. repeat step_ok. subst.
  repeat match goal with Hx : in_i64 _ = true |- _ => apply in_i64_spec in Hx end.
  match goal with He : eligibility_hash _ _ = Ok _ |- _ => apply eligibility_hash_sha in He end.
  split; [|done]. split; unfold play_end_ns; cbn; done || lia.
Qed.

Lemma persist_ruleset_same setup db u db' :
  persist_ruleset setup db = (Ok u, db') ->
  sessions db' = sessions db /\ domain_events db' = domain_events db.
Proof.
  unfold persist_ruleset, insert_ruleset. destruct (ruleset_body _) as [body|]; [|done].
  destruct (rulesets db !! _).
  - destruct (_ || _)%bool; [done|]. destruct (mapping _); [|done]. destruct (negb _); [done|].
    by intros [= _ <-].
  - destruct (one_or_none _) as [[|]|]; [done| |done]. destruct (_ || _)%bool; [done|].
    by intros [= _ <-].
Qed.

Lemma view_setup_record row sid status w :
  record_ok (row_record sid row status w) -> status = SETUP ->
  w = mk_view None None None.
Proof.
  intros [_ _ H] ->. destruct w as [[s|] [t|] pa]; cbn in *; [by destruct H|done|done|].
  by destruct H as [_ ->].
Qed.

Lemma mapping_to_payload cs : mapping (VDict (to_payload cs)) = Ok (to_payload cs).
Proof. apply mapping_obj. Qed.

Lemma mapping_update d items :
  mapping (VDict d) = Ok d -> mapping (VDict (dict_update d items)) = Ok (dict_update d items).
Proof.
  unfold dict_update. revert d. induction items as [|[k v] items IH]; intros d Hd; cbn [fold_left]; [done|].
  apply IH. unfold mapping in *. destruct (str_keys d) eqn:E; [|done].
  assert (str_keys (dict_set (KStr k) v d) = true) as ->; [|done]. clear IH Hd.
  induction d as [|[k' v'] d IHd]; cbn in *; [done|]. destruct (key_eqb _ k'); cbn.
  - by apply andb_true_iff in E as [_ E].
  - apply andb_true_iff in E as [-> E]. by apply IHd.
Qed.

Lemma fork_view cs t parent v :
  setup_ok cs -> - 2 ^ 63 <= t < 2 ^ 63 -> is_empty parent = false ->
  view_event empty_view "SESSION_FORKED" (VDict (dict_update (to_payload cs) (fork_fields t parent v)))
  = Ok (mk_view (Some cs) (Some t) (Some parent)).
Proof.
  intros Hcs Ht Hp. set (p := dict_update _ _).
  assert (mapping (VDict p) = Ok p) as Hm by apply mapping_update, mapping_to_payload.
  assert (from_payload p = Ok cs) as Hf.
  { apply from_payload_to_payload; [done|]. apply Forall_forall. intros k Hk. cbn in *. set_solver. }
  assert (dict_get "parent_session_id" p = Some (VStr parent)) as H1 by done.
  assert (dict_get "fork_logical_time_ns" p = Some (VStr (str_Z t))) as H2 by done.
  clearbody p. unfold view_event. rewrite Hm. cbn -[from_payload]. rewrite Hf. cbn [rbind].
  unfold required_string, decimal_i64, required_string.
  rewrite (string_field_get p _ _ H1) by done. cbn [rbind].
  rewrite (string_field_get p _ _ H2) by apply str_Z_nonempty.
  cbn [rbind]. by rewrite decimal_text_str.
Qed.

Lemma transition_commit db db' catalog sid p v setup r :
  db_ok db -> call_made (Commit catalog sid p v setup) -> commit catalog sid p v setup db = (Ok r, db') ->
  transition (Commit catalog sid p v setup) (state db) r /\
  db_ok db' /\ state db' sid = Some r /\ (forall o, o <> sid -> state db' o = state db o).
Proof.
  intros Hok [Hinit Hmade] H. unfold commit in H.
  apply sbind_Ok in H as (next & ? & Hl & H). apply lift_Ok in Hl as [Hn ->].
  apply sbind_Ok in H as (cs & ? & Hl & H). apply lift_Ok in Hl as [Hcs ->].
  apply transaction_inv in H. apply sbind_Ok in H as (row & ? & Hl & H).
  apply locked_row_Ok in Hl as (-> & Hs & <-).
  apply sbind_Ok in H as ([] & ? & Hl & H). apply lift_Ok in Hl as [Hrv ->].
  apply sbind_Ok in H as (status & ? & Hl & H). apply lift_Ok in Hl as [Hst ->].
  apply sbind_Ok in H as ([] & ? & Hl & H). apply lift_Ok in Hl as [Hrs ->].
  apply sbind_Ok in H as ([] & db1 & Hpr & H). apply persist_ruleset_same in Hpr as [Hs1 He1].
  apply sbind_Ok in H as ([] & db2 & Ha & H).
  apply sbind_Ok in H as (n & db3 & Hup & H).
  apply sbind_Ok in H as ([] & ? & Hl & H). apply lift_Ok in Hl as [Hn1 ->].
  apply raise_if_Ok, negb_false_iff, Z.eqb_eq in Hn1. apply materialize_st in H as (-> & Hm).
  apply require_version_Ok in Hrv as [<- _]. apply next_version_Ok in Hn as [-> Hv].
  apply require_status_Ok, list_elem_of_singleton in Hrs. subst status.
  assert (chains_ok db1) as Hc1 by (apply (chains_same db); [done|apply Hok]).
  destruct (append_event_Ok _ _ _ _ _ _ _ _ Hc1 Ha) as (_ & e & E1 & E2 & E3 & Hdb2 & Hc2 & _).
  unfold update_session in Hup. assert (sessions db2 !! sid = Some row) as Hrow2
    by (rewrite Hdb2; cbn; congruence). rewrite Hrow2 in Hup.
  destruct (_ && _)%bool in Hup; [|by injection Hup as <- _]. injection Hup as _ <-.
  destruct (row_view _ _ _ Hok Hs) as (w & st & Hw & Hst' & Hag & Hrok & _ & Hstate).
  assert (st = SETUP) as -> by congruence.
  pose proof (view_setup_record _ _ _ _ Hrok eq_refl) as ->.
  destruct (commit_setup_ok _ _ _ Hinit Hmade Hcs) as (Hcok & Hps & Hrid).
  set (row' := set_committed _ _ row) in *.
  destruct (write_and_read db (set_sessions (<[sid:=row']> (sessions db2)) db2) sid row' [e]
              (mk_view (Some cs) (Some (cs_play_start_ns cs)) None) COMMITTED (s_principal_id row) r)
    as (-> & Q); try done.
  - by eapply session_id_ne.
  - cbn. by rewrite Hdb2, <- Hs1.
  - cbn. by rewrite Hdb2, <- He1.
  - by repeat constructor.
  - rewrite view_events_app, Hw. cbn [rbind view_events]. rewrite E2, E3. unfold view_event.
    rewrite mapping_to_payload. cbn -[from_payload to_payload].
    by rewrite (from_to_payload cs Hcok).
  - unfold row', ruleset_agrees. cbn. rewrite Hrid. apply String.eqb_refl.
  - destruct Hrok as [Q1 Q2 _]. split; cbn in *; [unfold U64_MAX in Hv; lia|done|].
    pose proof (so_duration _ Hcok). unfold play_end_ns. split_and!; done || lia.
  - split; [|exact Q]. exists (row_record sid row SETUP (mk_view None None None)), cs.
    split; [apply owned_row; [done|lia]|]. split_and!; done.
Qed.

Lemma transition_fork db db' sid p v child t r :
  db_ok db -> fork sid p v child t db = (Ok r, db') ->
  transition (Fork sid p v child t) (state db) r /\
  db_ok db' /\ state db' child = Some r /\ (forall o, o <> child -> state db' o = state db o).
Proof.
  intros Hok H. unfold fork in H.
  apply sbind_Ok in H as (? & ? & Hl & H). apply lift_Ok in Hl as [Hid%validate_identity_Ok ->].
  apply sbind_Ok in H as (? & ? & Hl & H). apply lift_Ok in Hl as [Ht%validate_lifecycle_i64_Ok ->].
  apply sbind_Ok in H as (? & ? & Hl & H). apply lift_Ok in Hl as [_ ->].
  apply sbind_Ok in H as (? & ? & Hl & H). apply lift_Ok in Hl as [Hne ->].
  apply reraise_inv, transaction_inv in H. rewrite (read_current_bind sid p v) in H.
  apply sbind_Ok in H as (rc & db0 & Hrc & H).
  destruct (read_current_Ok _ _ _ _ _ _ Hok Hrc) as (row & w & status & -> & -> & Hs & Hp & Hver & Hv & Hag & Hrok & Hstate).
  cbn [snd] in H. apply sbind_Ok in H as ([] & db0 & Hrs & H). apply lift_Ok in Hrs as [Hrs ->].
  apply require_status_Ok in Hrs. cbn in Hrs.
  apply sbind_Ok in H as ([cs t0] & db0 & Hf & H). apply lift_Ok in Hf as [Hf ->].
  apply committed_frontier_Ok in Hf as [Hset Hlt]. cbn in Hset, Hlt.
  apply sbind_Ok in H as (? & db1 & Hi & H). apply insert_session_Ok in Hi as [Hnone Hdb1].
  apply sbind_Ok in H as (? & db2 & Ha & H). apply materialize_st in H as (-> & Hm).
  assert (chains_ok db1) as Hc1 by (apply (chains_same db); [by subst db1|apply Hok]).
  destruct (append_event_Ok _ _ _ _ _ _ _ _ Hc1 Ha) as (Ht0 & e & E1 & E2 & E3 & Hdb2 & Hc2 & _).
  apply in_i64_spec in Ht0. destruct Hrok as [Q1 Q2 Q3]. cbn in Q3. rewrite Hset, Hlt in Q3.
  destruct Q3 as (_ & Hcs & Hrange & _ & _).
  set (status' := if t0 =? cs_play_start_ns cs then COMMITTED else PAUSED) in *.
  set (row' := mk_session_row p (status_value status') 1 (Some (cs_ruleset_id cs)) None t) in *.
  destruct (write_and_read db db2 child row' [e] (mk_view (Some cs) (Some t0) (Some sid)) status' p r)
    as (-> & Q); try done.
  - by subst db2 db1.
  - by subst db2 db1.
  - by repeat constructor.
  - rewrite (do_events _ Hok) by by apply no_session. cbn [app view_events]. rewrite E2, E3.
    rewrite fork_view; [done|done|done|]. apply (session_id_ne _ _ _ Hok) in Hs. by destruct sid.
  - apply status_of_value.
  - unfold row', ruleset_agrees. cbn. apply String.eqb_refl.
  - split; cbn; [lia|done|]. unfold status'.
    destruct (Z.eqb_spec t0 (cs_play_start_ns cs)); (split_and!; try done; lia).
  - split; [|exact Q]. exists (row_record sid row status w), cs, t0. split_and!; try done.
    by apply state_None.
Qed.

(** ** Failures and progress *)


(** An exception rolls everything back. *)
Lemma run_call_Raise c db e db' : run_call c db = (Raise e, db') -> db' = db.
Proof.
  destruct c; cbn [run_call];
    unfold create_session, commit, start, pause, status_transition, advance, complete, fork;
    repeat (apply sbind_lift_Raise; intros ? ? ? ?);
    (apply transaction_Raise' || apply reraise_tx_Raise).
Qed.

(** The hash of the next event of a session differs from the stored ones. *)
Definition fresh_hash (db : Db) (sid event_type : string) (t : Z) (payload : pydict) (sv : Z) : Prop :=
  forall h e, event_hash sid (next_seq (event_rows sid db)) t event_type (causation sid sv) payload
                (last_hash (event_rows sid db)) = Ok h ->
    e ∈ event_rows sid db -> e_current_event_hash e <> h.

Definition fresh_hash_b (db : Db) (sid event_type : string) (t : Z) (payload : pydict) (sv : Z) : bool :=
  match event_hash sid (next_seq (event_rows sid db)) t event_type (causation sid sv) payload
          (last_hash (event_rows sid db)) with
  | Ok h => forallb (fun e => negb (String.eqb (e_current_event_hash e) h)) (event_rows sid db)
  | Raise _ => true
  end.

Lemma fresh_hash_check db sid ty t payload sv :
  fresh_hash_b db sid ty t payload sv = true -> fresh_hash db sid ty t payload sv.
Proof.
  unfold fresh_hash_b, fresh_hash. intros H h e Hh He. rewrite Hh in H. rewrite forallb_forall in H.
  apply list_elem_of_In, H, negb_true_iff, String.eqb_neq in He. done.
Qed.

Definition log_room (db : Db) (sid : string) : Prop := Z.of_nat (length (event_rows sid db)) < 2 ^ 64.

Lemma event_hash_Ok sid seq t ty cause payload prior :
  json_ok (VDict payload) = true -> exists h, event_hash sid seq t ty cause payload prior = Ok h.
Proof.
  intros Hp. unfold event_hash. destruct (dumps_total true (event_preimage sid seq t ty cause payload prior))
    as (text & ->); [|cbn; eauto].
  unfold event_preimage. apply json_ok_dict. split.
  - repeat constructor; done.
  - repeat constructor; set_solver.
Qed.

Lemma append_event_enabled db sid ty t payload sv :
  chains_ok db -> has_session sid db = true -> log_room db sid -> - 2 ^ 63 <= t < 2 ^ 63 ->
  0 <= sv <= U64_MAX -> json_ok (VDict payload) = true -> fresh_hash db sid ty t payload sv ->
  exists db', append_event sid ty t payload sv db = (Ok tt, db') /\ sessions db' = sessions db.
Proof.
  intros Hc Hs Hroom Ht Hsv Hp Hfresh. pose proof (chain_next_seq0 _ (Hc sid)) as Hseq.
  unfold append_event, sbind, lift, gets, validate_i64, validate_version.
  rewrite (proj2 (in_i64_spec t) Ht). cbn [negb raise_if].
  replace ((sv <? 0) || (U64_MAX <? sv))%bool with false by lia.
  unfold last_event. rewrite session_events_chain by done. cbn [raise_if].
  fold (next_seq (event_rows sid db)). fold (last_hash (event_rows sid db)).
  unfold log_room in Hroom. assert (U64_MAX = 2 ^ 64 - 1) as Hmax by done.
  replace ((next_seq _ <? 0) || _)%bool with false by lia. cbn [raise_if].
  destruct (event_hash_Ok sid (next_seq (event_rows sid db)) t ty (causation sid sv) payload
              (last_hash (event_rows sid db)) Hp) as (h & Hh). rewrite Hh.
  eexists. split; [|shelve]. apply insert_event_Ok. cbn. split_and!; [|lia|done|reflexivity].
  intros x Hx. split; [|by apply (Hfresh h x Hh)].
  pose proof (chain_bounds _ _ _ _ (Hc sid) Hx). lia.
  Unshelve. done.
Qed.

Lemma finish_enabled db sid row w status principal ty t payload tgt :
  db_ok db -> sessions db !! sid = Some row -> s_principal_id row = principal ->
  view_events empty_view (event_rows sid db) = Ok w -> ruleset_agrees row w = true ->
  record_ok (row_record sid row status w) -> s_version row < U64_MAX ->
  log_room db sid -> - 2 ^ 63 <= t < 2 ^ 63 -> json_ok (VDict payload) = true ->
  fresh_hash db sid ty t payload (s_version row + 1) ->
  forall w', view_event w ty (VDict payload) = Ok w' -> v_setup w' = v_setup w ->
  record_ok (row_record sid (set_status tgt (s_version row + 1) row) tgt w') ->
  exists r db', finish sid principal ty t payload (s_version row) (s_version row + 1) tgt db = (Ok r, db').
Proof.
  intros Hok Hs Hp Hw Hag Hr Hver Hroom Ht Hj Hf w' Hw' Hset Hr'. unfold finish.
  destruct (append_event_enabled db sid ty t payload (s_version row + 1)) as (db1 & Ha & Hs1); try done.
  - apply Hok.
  - unfold has_session. by rewrite Hs.
  - destruct Hr as [Hr _ _]. cbn in Hr. unfold U64_MAX in *. lia.
  - destruct (append_event_Ok _ _ _ _ _ _ _ _ (do_chains _ Hok) Ha) as (_ & e & E1 & E2 & E3 & Hdb1 & Hc1 & _).
    unfold sbind. rewrite Ha. unfold advance_version, update_session, sbind, lift.
    rewrite Hs1, Hs, Z.eqb_refl. cbn [raise_if negb Z.eqb Pos.eqb].
    set (row' := set_status tgt (s_version row + 1) row) in *.
    destruct (write_session db (set_sessions (<[sid:=row']> (sessions db1)) db1) sid row' [e] w' tgt)
      as (Hok2 & Hst2 & _); try done.
    + by eapply session_id_ne.
    + cbn. by rewrite Hs1.
    + by rewrite Hdb1.
    + by repeat constructor.
    + rewrite view_events_app, Hw. cbn. by rewrite E2, E3, Hw'.
    + apply status_of_value.
    + unfold row', ruleset_agrees in *. cbn. by rewrite Hset.
    + destruct (state_inv _ _ _ Hst2) as (row2 & Hrow2 & Hm). rewrite Hs1 in *.
      unfold materialize. cbn in *. rewrite lookup_insert_eq in *. injection Hrow2 as <-. subst principal.
      change (s_principal_id row) with (s_principal_id row'). rewrite Hm. eauto.
Qed.

Lemma read_current_enabled db sid p v b :
  db_ok db -> owned (state db) sid p v b ->
  exists row w status, read_current sid p v db = (Ok (row, b), db) /\ b = row_record sid row status w /\
    sessions db !! sid = Some row /\ s_principal_id row = p /\ s_version row = v /\
    view_events empty_view (event_rows sid db) = Ok w /\ ruleset_agrees row w = true /\
    record_ok (row_record sid row status w) /\ next_version v = Ok (v + 1).
Proof.
  intros Hok (Hst & Hp & Hver & Hmax).
  destruct (state_inv _ _ _ Hst) as (row & Hs & Hm).
  destruct (row_view _ _ _ Hok Hs) as (w & status & Hv & Hst' & Hag & Hrok & Hmat & Hstate).
  destruct (Hmat _ _ Hm) as [_ ->]. cbn in Hp, Hver. subst p v.
  destruct Hrok as [Q1 Q2 Q3]. cbn in Q1.
  assert (U64_MAX = 2 ^ 64 - 1) as HU by done.
  exists row, w, status. split; [|split_and!; done || idtac].
  - unfold read_current, sbind, lift, sret, locked_row. rewrite Hs, String.eqb_refl. cbn [negb].
    unfold require_version, validate_version.
    replace ((s_version row <? 0) || (U64_MAX <? s_version row))%bool with false by lia.
    cbn [raise_if rbind catch_res]. rewrite Z.eqb_refl. cbn. by rewrite Hm.
  - unfold next_version, validate_lifecycle_version, validate_version.
    replace ((s_version row <? 0) || (U64_MAX <? s_version row))%bool with false by lia.
    cbn [raise_if rbind catch_res]. by replace (s_version row =? 2 ^ 64 - 1) with false by lia.
Qed.

Lemma require_status_ok s l : s ∈ l -> require_status s l = Ok tt.
Proof. intros H. unfold require_status. by rewrite bool_decide_eq_true_2. Qed.

(** The event an operation appends. *)
Definition call_event (c : call) (b : SessionRecord) : string * Z * pydict :=
  let t := default 0 (ss_logical_time_ns b) in
  match c with
  | Start _ _ _ => ("SESSION_STARTED", t, [])
  | Pause _ _ _ => ("SESSION_PAUSED", t, [])
  | Advance _ _ _ t => ("SESSION_ADVANCED", t, obj [("logical_time_ns", VStr (str_Z t))])
  | Complete _ _ _ => ("SESSION_COMPLETED", t, [])
  | _ => ("", t, [])
  end.

Definition simple_call (c : call) : bool :=
  match c with Start _ _ _ | Pause _ _ _ | Advance _ _ _ _ | Complete _ _ _ => true | _ => false end.

(** Nothing but a hash collision or a full event log stops an allowed step. *)
Definition can_log (c : call) (db : Db) : Prop :=
  log_room db (target c) /\
  forall b, state db (target c) = Some b ->
    let '(ty, t, payload) := call_event c b in
    fresh_hash db (target c) ty t payload (ss_version b + 1).

Lemma enabled_transition db sid p v (allowed : list SessionStatus) tgt ty b :
  db_ok db -> owned (state db) sid p v b -> ss_status b ∈ allowed -> SETUP ∉ allowed ->
  ty ∈ ["SESSION_STARTED"; "SESSION_PAUSED"] -> (tgt = RUNNING \/ tgt = PAUSED) ->
  log_room db sid -> fresh_hash db sid ty (default 0 (ss_logical_time_ns b)) [] (v + 1) ->
  exists r db', status_transition sid p v allowed tgt ty db = (Ok r, db').
Proof.
  intros Hok Ho Hin Hall Hty Htgt Hroom Hf.
  destruct (read_current_enabled _ _ _ _ _ Hok Ho)
    as (row & w & status & Hrc & -> & Hs & Hp & Hver & Hw & Hag & Hrok & Hnext).
  destruct Ho as (_ & _ & _ & Hmax). cbn in Hin, Hf. subst v. pose proof Hrok as [Q1 Q2 Q3]. cbn in Q1, Q2, Q3.
  assert (status <> SETUP) as Hne by by intros ->.
  destruct (v_setup w) as [cs|] eqn:Ecs, (v_logical_time_ns w) as [t|] eqn:Et; try done;
    [|by destruct Q3].
  destruct Q3 as (_ & Hcs & Hrange & _). pose proof (so_play_start _ Hcs). pose proof (so_play_end _ Hcs).
  unfold status_transition. rewrite Hnext, sbind_lift.
  destruct (finish_enabled db sid row w status p ty t [] tgt Hok Hs Hp Hw Hag Hrok) with (w' := w)
    as (r & db' & Hfin); try done; try lia.
  - unfold view_event. cbn. apply elem_of_cons in Hty as [->|Hty]; [done|].
    by apply list_elem_of_singleton in Hty as ->.
  - split; cbn; [unfold U64_MAX in Hmax; lia|done|]. rewrite Ecs, Et.
    destruct Htgt as [-> | ->]; (split_and!; [discriminate|exact Hcs|lia|lia|discriminate..]).
  - exists r, db'. apply transaction_run. rewrite (read_current_bind sid p (s_version row)), (sbind_run _ _ _ _ _ Hrc).
    cbn [snd row_record ss_status ss_logical_time_ns].
    rewrite (require_status_ok _ _ Hin), sbind_lift, Et. cbn [of_option]. by rewrite sbind_lift.
Qed.

Lemma enabled_advance db sid p v t r :
  db_ok db -> transition (Advance sid p v t) (state db) r -> can_log (Advance sid p v t) db ->
  exists r' db', advance sid p v t db = (Ok r', db').
Proof.
  intros Hok (b & cs & t0 & Ho & Hst & Hset & Hlt & Hrange & _) [Hroom Hf].
  destruct (read_current_enabled _ _ _ _ _ Hok Ho)
    as (row & w & status & Hrc & -> & Hs & Hp & Hver & Hw & Hag & Hrok & Hnext).
  destruct Ho as (Hstate & _ & _ & Hmax). specialize (Hf _ Hstate). cbn in Hf, Hst, Hset, Hlt. subst v status.
  pose proof Hrok as [Q1 Q2 Q3]. cbn in Q1, Q2, Q3. rewrite Hset, Hlt in Q3.
  destruct Q3 as (_ & Hcs & Hr0 & _). pose proof (so_play_start _ Hcs). pose proof (so_play_end _ Hcs).
  assert (- 2 ^ 63 <= t < 2 ^ 63) as Ht by lia.
  destruct (finish_enabled db sid row w RUNNING p "SESSION_ADVANCED" t
              (obj [("logical_time_ns", VStr (str_Z t))]) RUNNING Hok Hs Hp Hw Hag Hrok)
    with (w' := mk_view (v_setup w) (Some t) (v_parent w)) as (r' & db' & Hfin); try done; try lia.
  - unfold view_event. rewrite mapping_obj. cbn -[decimal_i64 obj]. rewrite Hset. by rewrite (i64_field t).
  - split; cbn; [unfold U64_MAX in Hmax; lia|done|]. rewrite Hset.
    split_and!; [discriminate|exact Hcs|lia|lia|discriminate..].
  - exists r', db'. unfold advance, validate_lifecycle_i64, validate_i64.
    rewrite (proj2 (in_i64_spec t) Ht). cbn [negb raise_if catch_res]. rewrite sbind_lift, Hnext, sbind_lift.
    apply transaction_run. rewrite (read_current_bind sid p (s_version row)), (sbind_run _ _ _ _ _ Hrc).
    cbn [snd row_record ss_status]. rewrite require_status_ok by left. rewrite sbind_lift.
    rewrite (committed_frontier_eq (row_record _ _ _ _) cs _ Hset Hlt), sbind_lift. cbn [fst snd].
    replace ((t <=? t0) || (play_end_ns cs <? t))%bool with false by lia. cbn [raise_if]. by rewrite sbind_lift.
Qed.

Lemma enabled_complete db sid p v r :
  db_ok db -> transition (Complete sid p v) (state db) r -> can_log (Complete sid p v) db ->
  exists r' db', complete sid p v db = (Ok r', db').
Proof.
  intros Hok (b & cs & Ho & Hst & Hset & Hlt & _) [Hroom Hf].
  destruct (read_current_enabled _ _ _ _ _ Hok Ho)
    as (row & w & status & Hrc & -> & Hs & Hp & Hver & Hw & Hag & Hrok & Hnext).
  destruct Ho as (Hstate & _ & _ & Hmax). specialize (Hf _ Hstate). cbn in Hf, Hst, Hset, Hlt. subst v.
  pose proof Hrok as [Q1 Q2 Q3]. cbn in Q1, Q2, Q3. rewrite Hset, Hlt in *.
  destruct Q3 as (_ & Hcs & Hr0 & _). pose proof (so_play_start _ Hcs). pose proof (so_play_end _ Hcs).
  destruct (finish_enabled db sid row w status p "SESSION_COMPLETED" (play_end_ns cs) [] COMPLETED
              Hok Hs Hp Hw Hag Hrok) with (w' := w) as (r' & db' & Hfin); try done; try lia.
  - split; cbn; [unfold U64_MAX in Hmax; lia|done|]. rewrite Hset, Hlt.
    split_and!; [discriminate|exact Hcs|lia|lia|discriminate|done].
  - exists r', db'. unfold complete. rewrite Hnext, sbind_lift.
    apply transaction_run. rewrite (read_current_bind sid p (s_version row)), (sbind_run _ _ _ _ _ Hrc).
    cbn [snd row_record ss_status]. rewrite require_status_ok by done. rewrite sbind_lift.
    rewrite (committed_frontier_eq (row_record _ _ _ _) cs _ Hset Hlt), sbind_lift. cbn [fst snd].
    rewrite Z.eqb_refl. cbn [negb raise_if]. by rewrite sbind_lift.
Qed.

(** ** Histories *)

Definition session_step (db db' : Db) : Prop :=
  exists c r, call_made c /\ run_call c db = (Ok r, db').

Lemma run_call_refines c db r db' :
  db_ok db -> call_made c -> run_call c db = (Ok r, db') ->
  transition c (state db) r /\ db_ok db' /\ state db' (target c) = Some r /\
  (forall o, o <> target c -> state db' o = state db o).
Proof.
  intros Hok Hmade H. destruct c; cbn [run_call target] in *.
  - by apply transition_create.
  - by apply transition_commit.
  - apply transition_start in H as (b & Ho & Hin & -> & Q); [|done|set_solver|auto|set_solver].
    split; [|exact Q]. exists b. done.
  - apply transition_start in H as (b & Ho & Hin & -> & Q); [|done|set_solver|auto|set_solver].
    split; [|exact Q]. exists b. by apply list_elem_of_singleton in Hin.
  - by apply transition_advance.
  - by apply transition_complete.
  - by apply transition_fork.
Qed.

Lemma empty_db_ok : db_ok empty_db.
Proof. split; [by intros sid|done|done|]. intros sid row H. discriminate H. Qed.

Lemma session_history_ok db db' : rtc session_step db db' -> db_ok db -> db_ok db'.
Proof.
  induction 1 as [|db db1 db' (c & r & Hm & H) _ IH]; [done|]. intros Hok. apply IH.
  by apply (run_call_refines c db r).
Qed.

(** What never changes about a session, and what only grows. *)
Definition session_le (r r' : SessionRecord) : Prop :=
  ss_session_id r' = ss_session_id r /\ ss_principal_id r' = ss_principal_id r /\
  ss_created_at_ns r' = ss_created_at_ns r /\
  ss_version r <= ss_version r' /\ (ss_version r = ss_version r' -> r' = r) /\
  (forall s, ss_setup r = Some s -> ss_setup r' = Some s /\ ss_parent_session_id r' = ss_parent_session_id r) /\
  (forall t, ss_logical_time_ns r = Some t -> exists t', ss_logical_time_ns r' = Some t' /\ t <= t') /\
  (ss_status r = COMPLETED -> r' = r).

Lemma session_le_refl r : session_le r r.
Proof. split_and!; try done; try lia. intros t H. exists t. split; [done|lia]. Qed.

Lemma session_le_trans a b c : session_le a b -> session_le b c -> session_le a c.
Proof.
  intros (A1 & A2 & A3 & A4 & A5 & A6 & A7 & A8) (B1 & B2 & B3 & B4 & B5 & B6 & B7 & B8).
  split_and!; try congruence; try lia.
  - intros E. assert (ss_version a = ss_version b) as Ea by lia. specialize (A5 Ea). subst b. by apply B5.
  - intros s Hs. destruct (A6 _ Hs) as [Hb Ep]. destruct (B6 _ Hb). split; congruence.
  - intros t Ht. destruct (A7 _ Ht) as (t1 & H1 & ?). destruct (B7 _ H1) as (t2 & ? & ?).
    exists t2. split; [done|lia].
  - intros E. specialize (A8 E). subst b. by apply B8.
Qed.

Lemma with_status_le b status t :
  record_ok b -> ss_status b <> SETUP -> ss_status b <> COMPLETED ->
  (forall t0, ss_logical_time_ns b = Some t0 -> exists t', t = Some t' /\ t0 <= t') ->
  session_le b (with_status b status t).
Proof. intros _ Hs Hc Ht. split_and!; cbn; try done; lia. Qed.

Lemma same_frontier b t0 : ss_logical_time_ns b = Some t0 -> exists t', ss_logical_time_ns b = Some t' /\ t0 <= t'.
Proof. intros H. exists t0. split; [done|lia]. Qed.

Lemma state_record_ok db sid r : db_ok db -> state db sid = Some r -> record_ok r /\ ss_session_id r = sid.
Proof.
  intros Hok Hr. destruct (state_inv _ _ _ Hr) as (row & Hs & Hmat).
  destruct (row_view _ _ _ Hok Hs) as (w & status & _ & _ & _ & Hrok & Hm & _).
  by destruct (Hm _ _ Hmat) as [_ ->].
Qed.

(** A listed status is none of the others. *)
Ltac not_listed H :=
  let E := fresh in intros E; rewrite E in H; apply (bool_decide_pack _) in H; destruct H.

(** A step of the target session, seen from its record before the step. *)
Lemma transition_le c db r r' :
  db_ok db -> state db (target c) = Some r -> transition c (state db) r' -> session_le r r'.
Proof.
  intros Hok Hr Ht. destruct (state_record_ok _ _ _ Hok Hr) as [Hrok Hid].
  assert (forall p v b, owned (state db) (target c) p v b -> b = r) as Hb
    by (intros p v b (Hb & _); congruence).
  destruct c as [sid p t|cat sid p v setup|sid p v|sid p v|sid p v t|sid p v|sid p v child t];
    cbn [transition target] in *.
  - destruct Ht as [Ht _]. congruence.
  - destruct Ht as (b & cs & Ho & Hs & _ & ->). pose proof (Hb _ _ _ Ho) as ->.
    destruct Ho as (_ & <- & <- & _). destruct Hrok as [_ _ Q3].
    destruct (ss_setup r) eqn:Es, (ss_logical_time_ns r) eqn:El; try done; [by destruct Q3|].
    split_and!; cbn; try done; try lia; congruence.
  - destruct Ht as (b & Ho & Hs & ->). pose proof (Hb _ _ _ Ho) as ->.
    apply with_status_le; [done|not_listed Hs|not_listed Hs|apply same_frontier].
  - destruct Ht as (b & Ho & Hs & ->). pose proof (Hb _ _ _ Ho) as ->.
    apply with_status_le; [done|congruence|congruence|apply same_frontier].
  - destruct Ht as (b & cs & t0 & Ho & Hs & _ & Hlt & Hrange & ->). pose proof (Hb _ _ _ Ho) as ->.
    apply with_status_le; [done|congruence|congruence|]. intros t1 Ht1. exists t. split; [done|].
    assert (t1 = t0) as -> by congruence. lia.
  - destruct Ht as (b & cs & Ho & Hs & _ & Hlt & ->). pose proof (Hb _ _ _ Ho) as ->.
    apply with_status_le; [done|not_listed Hs|not_listed Hs|]. rewrite <- Hlt. apply same_frontier.
  - destruct Ht as (b & cs & t0 & _ & _ & _ & Hn & _). congruence.
Qed.

Lemma session_step_le db db' sid r :
  db_ok db -> session_step db db' -> state db sid = Some r ->
  exists r', state db' sid = Some r' /\ session_le r r'.
Proof.
  intros Hok (c & r' & Hm & H) Hr. destruct (run_call_refines _ _ _ _ Hok Hm H) as (Ht & _ & Hst & Hoth).
  destruct (decide (sid = target c)) as [->|Hne].
  - exists r'. split; [done|]. by eapply transition_le.
  - exists r. rewrite Hoth by done. split; [done|apply session_le_refl].
Qed.

Lemma transition_functional c s r r' :
  simple_call c = true -> transition c s r -> transition c s r' -> r' = r.
Proof.
  destruct c; try done; cbn; intros _.
  - intros (b & (Hb & _) & _ & ->) (b' & (Hb' & _) & _ & ->). congruence.
  - intros (b & (Hb & _) & _ & ->) (b' & (Hb' & _) & _ & ->). congruence.
  - intros (b & ? & ? & (Hb & _) & _ & _ & _ & _ & ->) (b' & ? & ? & (Hb' & _) & _ & _ & _ & _ & ->). congruence.
  - intros (b & cs & (Hb & _) & _ & Hs & _ & ->) (b' & cs' & (Hb' & _) & _ & Hs' & _ & ->). congruence.
Qed.

(** ** Properties *)

(** C6. Every operation of the session service implements its contract: an exception leaves the
    store as it was; a returned record is the abstract [transition] of the state before the call,
    is what every reader sees afterwards, and no other session changes. *)
Theorem lifecycle_refines c db :
  db_ok db -> call_made c ->
  match run_call c db with
  | (Raise e, db') => db' = db
  | (Ok r, db') =>
      transition c (state db) r /\ db_ok db' /\ state db' (target c) = Some r /\
      (forall o, o <> target c -> state db' o = state db o)
  end.
Proof.
  intros Hok Hm. destruct (run_call c db) as [[r|e] db'] eqn:H.
  - by apply run_call_refines.
  - by eapply run_call_Raise.
Qed.

(** C7. Conversely, an allowed start, pause, advance or completion succeeds: if the contract allows
    it in the current state, the operation returns the contract's record, unless the session's event
    log is full or the next event hash collides. *)
Theorem lifecycle_enabled c db r :
  db_ok db -> simple_call c = true -> transition c (state db) r -> can_log c db ->
  exists db', run_call c db = (Ok r, db').
Proof.
  intros Hok Hsimple Ht Hlog.
  assert (exists r' db', run_call c db = (Ok r', db')) as (r' & db' & H).
  { destruct c as [sid p t|cat sid p v setup|sid p v|sid p v|sid p v t|sid p v|sid p v child t];
      cbn [run_call simple_call] in *; try done.
    - destruct Ht as (b & Ho & Hin & _), Hlog as [Hroom Hf]. pose proof Ho as (Hb & _ & Hv & _).
      specialize (Hf _ Hb). cbn in Hf. rewrite Hv in Hf.
      eapply enabled_transition; try done; auto; set_solver.
    - destruct Ht as (b & Ho & Hin & _), Hlog as [Hroom Hf]. pose proof Ho as (Hb & _ & Hv & _).
      specialize (Hf _ Hb). cbn in Hf. rewrite Hv in Hf.
      eapply enabled_transition; try done; auto; set_solver.
    - by eapply enabled_advance.
    - by eapply enabled_complete. }
  assert (call_made c) as Hm by by destruct c.
  destruct (run_call_refines c db r' db' Hok Hm H) as (Ht' & _). exists db'.
  assert (r' = r) as ->; [|done]. by eapply transition_functional.
Qed.

(** C8. In every reachable store each session reads back as a well-formed record (a set-up one has no
    setup; any other has its pinned setup and a frontier inside it, at the start when committed and
    at the end when completed) and its events form one gap-free hash chain. *)
Theorem reachable_sessions_ok db :
  rtc session_step empty_db db ->
  chains_ok db /\
  (forall sid row, sessions db !! sid = Some row -> exists r, state db sid = Some r /\ record_ok r).
Proof.
  intros H. pose proof (session_history_ok _ _ H empty_db_ok) as Hok. split; [apply Hok|].
  intros sid row Hs. destruct (do_records _ Hok _ _ Hs) as (r & Hm & Hr). exists r.
  split; [by eapply state_Some|done].
Qed.

(** C9. Along any history of calls a session keeps its owner, its creation time and, once committed,
    its setup and parent; its version never decreases and moves with every change; its frontier
    never goes back; and a completed session never changes again. *)
Theorem session_monotone db db' sid r :
  rtc session_step empty_db db -> rtc session_step db db' -> state db sid = Some r ->
  exists r', state db' sid = Some r' /\ session_le r r'.
Proof.
  intros H0 H. pose proof (session_history_ok _ _ H0 empty_db_ok) as Hok. clear H0. revert r Hok.
  induction H as [db|db db1 db' Hs _ IH]; intros r Hok Hr.
  - exists r. split; [done|apply session_le_refl].
  - destruct (session_step_le _ _ _ _ Hok Hs Hr) as (r1 & Hr1 & Hle).
    assert (db_ok db1) as Hok1 by (apply (session_history_ok db); [by apply rtc_once|done]).
    destruct (IH _ Hok1 Hr1) as (r' & Hr' & Hle'). exists r'. split; [done|]. by eapply session_le_trans.
Qed.

(** ** A concrete history *)

Definition demo_request : SetupRequest :=
  mk_setup_request "SYNTH" demo_hash 200 100 300 F1 demo_ruleset RELATIVE ∅ {[REDISTRIBUTABLE]} false.

Definition demo_calls : list call :=
  [CreateSession "s1" "alice" 7; Commit demo_catalog "s1" "alice" 0 demo_request;
   Start "s1" "alice" 1; Advance "s1" "alice" 2 250; Pause "s1" "alice" 3;
   Fork "s1" "alice" 4 "s2" 9; Start "s1" "alice" 4; Advance "s1" "alice" 5 500;
   Complete "s1" "alice" 6].

Fixpoint run_calls (cs : list call) (db : Db) : Db :=
  match cs with [] => db | c :: cs' => run_calls cs' (snd (run_call c db)) end.

Definition demo_sessions (n : nat) : Db := run_calls (take n demo_calls) empty_db.

(** The status, version and frontier of each session along the history. *)
Example demo_history :
  map (fun n => match state (demo_sessions n) "s1" with
                | Some r => Some (ss_status r, ss_version r, ss_logical_time_ns r)
                | None => None
                end) (seq 0 10)
  = [None; Some (SETUP, 0, None); Some (COMMITTED, 1, Some 200); Some (RUNNING, 2, Some 200);
     Some (RUNNING, 3, Some 250); Some (PAUSED, 4, Some 250); Some (PAUSED, 4, Some 250);
     Some (RUNNING, 5, Some 250); Some (RUNNING, 6, Some 500); Some (COMPLETED, 7, Some 500)]
  /\ option_map (fun r => (ss_status r, ss_version r, ss_parent_session_id r)) (state (demo_sessions 9) "s2")
     = Some (PAUSED, 1, Some "s1").
Proof. vm_compute. split; reflexivity. Qed.

Lemma demo_ruleset_made : ruleset_made demo_ruleset.
Proof. exists demo_body. vm_compute. reflexivity. Qed.

Lemma demo_calls_made : Forall call_made demo_calls.
Proof.
  unfold demo_calls. repeat apply Forall_cons_2; try exact I; [|by apply Forall_nil].
  split; [vm_compute; reflexivity|apply demo_ruleset_made].
Qed.

Fixpoint all_ok (cs : list call) (db : Db) : bool :=
  match cs with
  | [] => true
  | c :: cs' => match run_call c db with (Ok _, db') => all_ok cs' db' | _ => false end
  end.

Lemma all_ok_take n cs : forall db, all_ok cs db = true -> all_ok (take n cs) db = true.
Proof.
  revert n. induction cs as [|c cs IH]; intros [|n] db; cbn; try done.
  destruct (run_call c db) as [[r|e] db1]; [apply IH|done].
Qed.

Lemma run_calls_history cs : forall db,
  Forall call_made cs -> all_ok cs db = true -> rtc session_step db (run_calls cs db).
Proof.
  induction cs as [|c cs IH]; intros db Hm H; [constructor|]. cbn in *.
  apply Forall_cons in Hm as [Hc Hm]. destruct (run_call c db) as [[r|e] db1] eqn:E; [|done].
  eapply rtc_l; [|by apply IH]. exists c, r. split; [exact Hc|exact E].
Qed.

Lemma demo_all_ok : all_ok demo_calls empty_db = true.
Proof. vm_compute. reflexivity. Qed.

Lemma demo_reachable n : rtc session_step empty_db (demo_sessions n).
Proof.
  apply run_calls_history; [|apply all_ok_take, demo_all_ok].
  apply Forall_take, demo_calls_made.
Qed.

Lemma run_calls_app a b db : run_calls (a ++ b) db = run_calls b (run_calls a db).
Proof. revert db. induction a as [|c a IH]; intros db; cbn; [done|apply IH]. Qed.

Lemma all_ok_app a b db : all_ok (a ++ b) db = true -> all_ok b (run_calls a db) = true.
Proof.
  revert db. induction a as [|c a IH]; intros db; cbn; [done|].
  destruct (run_call c db) as [[r|e] db1]; [apply IH|done].
Qed.

Lemma demo_between n m : (n <= m)%nat -> rtc session_step (demo_sessions n) (demo_sessions m).
Proof.
  intros Hnm. unfold demo_sessions.
  assert (take m demo_calls = take n demo_calls ++ drop n (take m demo_calls)) as E.
  { rewrite <- (take_drop n (take m demo_calls)) at 1. by rewrite take_take, Nat.min_l. }
  rewrite E, run_calls_app. apply run_calls_history.
  - apply Forall_drop, Forall_take, demo_calls_made.
  - apply all_ok_app. rewrite <- E. apply all_ok_take, demo_all_ok.
Qed.

Lemma lifecycle_refines_witness :
  let c := Commit demo_catalog "s1" "alice" 0 demo_request in
  db_ok (demo_sessions 1) /\ call_made c /\
  match run_call c (demo_sessions 1) with
  | (Raise e, db') => db' = demo_sessions 1
  | (Ok r, db') =>
      transition c (state (demo_sessions 1)) r /\ db_ok db' /\ state db' (target c) = Some r /\
      (forall o, o <> target c -> state db' o = state (demo_sessions 1) o)
  end.
Proof.
  intros c. assert (db_ok (demo_sessions 1)) as Hok
    by (eapply session_history_ok; [apply demo_reachable|apply empty_db_ok]).
  assert (call_made c) as Hm by (split; [vm_compute; reflexivity|apply demo_ruleset_made]).
  split; [exact Hok|]. split; [exact Hm|]. exact (lifecycle_refines c (demo_sessions 1) Hok Hm).
Defined.

Lemma reachable_sessions_ok_witness :
  exists r, state (demo_sessions 9) "s1" = Some r /\ record_ok r.
Proof.
  destruct (reachable_sessions_ok (demo_sessions 9) (demo_reachable 9)) as [_ H].
  destruct (sessions (demo_sessions 9) !! "s1") as [row|] eqn:E; [by apply (H "s1" row)|].
  exfalso. vm_compute in E. discriminate E.
Defined.

Lemma session_monotone_witness :
  exists r r', state (demo_sessions 2) "s1" = Some r /\ state (demo_sessions 9) "s1" = Some r' /\
    session_le r r'.
Proof.
  destruct (state (demo_sessions 2) "s1") as [r|] eqn:E; [|vm_compute in E; discriminate E].
  destruct (session_monotone (demo_sessions 2) (demo_sessions 9) "s1" r) as (r' & H1 & H2);
    [apply demo_reachable| |exact E|].
  - apply demo_between. lia.
  - exists r, r'. split; [reflexivity|]. split; [exact H1|exact H2].
Defined.

Lemma demo_committed :
  option_map (fun b => (ss_status b, ss_version b, ss_principal_id b, ss_logical_time_ns b))
    (state (demo_sessions 2) "s1") = Some (COMMITTED, 1, "alice", Some 200).
Proof. vm_compute. reflexivity. Qed.

Lemma lifecycle_enabled_witness :
  exists db', run_call (Start "s1" "alice" 1) (demo_sessions 2)
    = (Ok (with_status (default (mk_session "" "" SETUP 0 0 None None None) (state (demo_sessions 2) "s1"))
             RUNNING (Some 200)), db').
Proof.
  destruct (state (demo_sessions 2) "s1") as [b|] eqn:E; [|vm_compute in E; discriminate E].
  assert (ss_status b = COMMITTED /\ ss_version b = 1 /\ ss_principal_id b = "alice" /\
          ss_logical_time_ns b = Some 200) as (H1 & H2 & H3 & H4)
    by (pose proof demo_committed as H; rewrite E in H; clear E; injection H; intros; subst; auto).
  cbn [default]. apply (lifecycle_enabled (Start "s1" "alice" 1) (demo_sessions 2)).
  - eapply session_history_ok; [apply demo_reachable|apply empty_db_ok].
  - reflexivity.
  - exists b. unfold owned. rewrite H1, H4. split; [|split; [left|reflexivity]].
    split; [exact E|]. split; [exact H3|]. split; [exact H2|]. clear. vm_compute. reflexivity.
  - split; [vm_compute; reflexivity|]. intros b' E'. change (target _) with "s1" in *.
    assert (b' = b) as -> by congruence. cbn [call_event]. rewrite H4, H2. cbn [default].
    apply fresh_hash_check. vm_compute. reflexivity.
Defined.
