(* ===== verification/Frame.v ===== *)
(** * What the session operations leave alone

    With the lemmas of [keeps] (in [Prelude]) and the database [frame] a whole operation is shown to
    keep the other components' tables and every session's owner. *)

From S2P Require Import Prelude PyStr PyJson Catalog Db SessionModel Session.
From Stdlib Require String.

(** Every owner stays: sessions are never removed and never change hands. *)
Definition owners_kept (db db' : Db) : Prop :=
  forall sid row, sessions db !! sid = Some row ->
    exists row', sessions db' !! sid = Some row' /\ s_principal_id row' = s_principal_id row.

Record session_frame (db db' : Db) : Prop := mk_session_frame {
  sf_commands : commands db' = commands db;
  sf_snapshots : snapshots db' = snapshots db;
  sf_commitments : commitments db' = commitments db;
  sf_bundles : result_bundles db' = result_bundles db;
  sf_owners : owners_kept db db';
}.

#[export] Instance owners_kept_preorder : PreOrder owners_kept.
Proof.
  split.
  - intros db sid row H. eauto.
  - intros a b c H1 H2 sid row Hs. destruct (H1 _ _ Hs) as (row1 & Hs1 & E1).
    destruct (H2 _ _ Hs1) as (row2 & Hs2 & E2). exists row2. split; [done|congruence].
Qed.

#[export] Instance session_frame_preorder : PreOrder session_frame.
Proof.
  split.
  - intros db. by split.
  - intros a b c [] []. split; [congruence..|by etransitivity].
Qed.

Lemma owners_insert db sid row row' :
  sessions db !! sid = Some row -> s_principal_id row' = s_principal_id row ->
  owners_kept db (set_sessions (<[sid := row']> (sessions db)) db).
Proof.
  intros Hs Hp o r Ho. cbn. destruct (decide (o = sid)) as [->|Hne].
  - rewrite lookup_insert_eq. exists row'. split; [done|congruence].
  - rewrite lookup_insert_ne by done. eauto.
Qed.

Lemma keeps_update_session sid cond f :
  (forall row, s_principal_id (f row) = s_principal_id row) -> keeps session_frame (update_session sid cond f).
Proof.
  intros Hf db r db'. unfold update_session. destruct (sessions db !! sid) as [row|] eqn:Hs; [|by intros [= _ <-]].
  destruct (cond row); intros [= _ <-]; [|done]. split; try done. by eapply owners_insert.
Qed.

Lemma keeps_insert_session sid row : keeps session_frame (insert_session sid row).
Proof.
  intros db r db'. unfold insert_session. destruct (has_session sid db) eqn:Eh; [by intros [= _ <-]|].
  destruct (_ || _)%bool; intros [= _ <-]; [done|]. split; try done.
  intros o ro Ho. cbn. exists ro. split; [|done]. rewrite lookup_insert_ne; [done|]. intros ->.
  unfold has_session in Eh. by rewrite Ho in Eh.
Qed.

Lemma keeps_insert_event row : keeps session_frame (insert_event row).
Proof. intros db r db'. unfold insert_event. case_match; intros [= _ <-]; split; try done; intros o ro Ho; eauto. Qed.

Lemma keeps_persist_ruleset setup : keeps session_frame (persist_ruleset setup).
Proof.
  intros db r db'. unfold persist_ruleset, insert_ruleset.
  repeat (case_match || intros [= _ <-]); split; try done; intros o ro Ho; eauto.
Qed.

Lemma keeps_locked_row sid p : keeps session_frame (locked_row sid p).
Proof. apply keeps_read, _. Qed.
Lemma keeps_materialize sid p : keeps session_frame (materialize sid p).
Proof. apply keeps_read, _. Qed.

#[export] Hint Resolve keeps_insert_session keeps_insert_event keeps_persist_ruleset keeps_locked_row
  keeps_materialize : frame.

Lemma keeps_append_event sid ty t payload v : keeps session_frame (append_event sid ty t payload v).
Proof. unfold append_event. frame. Qed.
Lemma keeps_advance_version sid v n target : keeps session_frame (advance_version sid v n target).
Proof. unfold advance_version. apply keeps_bind; [apply _|by apply keeps_update_session|frame]. Qed.
#[export] Hint Resolve keeps_append_event keeps_advance_version : frame.

(** Every session operation keeps the commands, the checkpoints, the commitments, the results and the
    owners. *)
Lemma run_call_frame c : keeps session_frame (run_call c).
Proof.
  destruct c; cbn [run_call].
  - unfold create_session. frame.
  - unfold commit. frame. by apply keeps_update_session.
  - unfold start, status_transition. frame.
  - unfold pause, status_transition. frame.
  - unfold advance. frame.
  - unfold complete. frame.
  - unfold fork. frame.
Qed.

Lemma session_step_frame db db' : session_step db db' -> session_frame db db'.
Proof. intros (c & r & _ & H). by eapply run_call_frame. Qed.

(** Reading a session only takes the sessions and the events. *)
Lemma state_same db db' :
  sessions db' = sessions db -> domain_events db' = domain_events db -> forall sid, state db' sid = state db sid.
Proof.
  intros Hs He sid. unfold state. rewrite Hs. destruct (sessions db !! sid) as [row|]; [|done].
  assert (session_events sid db' = session_events sid db) as E.
  { unfold session_events, event_rows. by rewrite He. }
  unfold materialize_from_row. by rewrite E.
Qed.

Lemma db_ok_same db db' :
  sessions db' = sessions db -> domain_events db' = domain_events db -> db_ok db -> db_ok db'.
Proof.
  intros Hs He [H1 H2 H3 H4].
  assert (forall sid, event_rows sid db' = event_rows sid db) as Er by (intros sid; unfold event_rows; by rewrite He).
  split.
  - intros sid. rewrite Er. apply H1.
  - by rewrite Hs.
  - intros sid. unfold has_session. rewrite Hs, Er. apply H3.
  - intros sid row. rewrite Hs. intros Hrow. destruct (H4 _ _ Hrow) as (r & Hm & Hr). exists r. split; [|done].
    rewrite <- Hm. unfold materialize_from_row, session_events. by rewrite Er.
Qed.

(** What a reader of an owned session gets, and how it is owned. *)
Lemma get_session_Ok sid p db r db' :
  get_session sid p db = (Ok r, db') -> db' = db /\ state db sid = Some r /\ ss_principal_id r = p /\ ss_session_id r = sid.
Proof.
  intros (-> & row & Hs & Hm)%materialize_st. pose proof (materialize_principal _ _ _ _ _ Hm) as Hp. subst p.
  split; [done|]. split; [by eapply state_Some|]. unfold materialize_from_row in Hm. repeat step_ok. by subst.
Qed.

Lemma get_session_state sid db r :
  state db sid = Some r -> get_session sid (ss_principal_id r) db = (Ok r, db).
Proof.
  intros (row & Hs & Hm)%state_inv. assert (ss_principal_id r = s_principal_id row) as ->.
  { unfold materialize_from_row in Hm. repeat step_ok. by subst. }
  apply materialize_st. eauto.
Qed.

Lemma get_session_Raise sid p db e db' : get_session sid p db = (Raise e, db') -> db' = db.
Proof. unfold get_session, materialize. by intros [= _ <-]. Qed.

Lemma state_row db sid r :
  state db sid = Some r -> exists row, sessions db !! sid = Some row /\ s_principal_id row = ss_principal_id r.
Proof.
  intros (row & Hs & Hm)%state_inv. exists row. split; [done|].
  unfold materialize_from_row in Hm. repeat step_ok. by subst.
Qed.
