(* ===== verification/Commands.v ===== *)
(** * Trading commands ([apps/api/.../commands/model.py], [store.py], [service.py], [router.py])

    Canonicalisation of orders, price shortcuts resolved against the visible quote, and exactly-once
    acceptance.  The quote resolver and the clock are protocols of the code: the resolver is the
    argument [quote] (what it returns for the call), the clock the argument [now_ns]. *)

From S2P Require Import Prelude Sort PyStr Bytes PyJson JsonParse Catalog Db SessionModel.
From Stdlib Require Import Ascii.
From Stdlib Require String.

Inductive CommandType := SUBMIT_ORDER | CANCEL_ORDER | REPLACE_ORDER | SET_LEVERAGE.
Inductive PriceReference := BID | ASK | MIDPOINT.

Definition command_type_value (t : CommandType) : string :=
  match t with
  | SUBMIT_ORDER => "SUBMIT_ORDER" | CANCEL_ORDER => "CANCEL_ORDER"
  | REPLACE_ORDER => "REPLACE_ORDER" | SET_LEVERAGE => "SET_LEVERAGE"
  end.
Definition reference_value (r : PriceReference) : string :=
  match r with BID => "BID" | ASK => "ASK" | MIDPOINT => "MIDPOINT" end.
Definition reference_of := enum_of reference_value [BID; ASK; MIDPOINT].

Record VisibleQuote := mk_quote {
  event_id : string;
  bid_price_atoms : Z;
  ask_price_atoms : Z;
}.

Definition validate_positive_i64 (v : Z) : result unit := raise_if ((v <=? 0) || (I64_MAX <? v)) ValueError.

Definition VisibleQuote_post_init (q : VisibleQuote) : result unit :=
  let! _ := raise_if (is_empty (event_id q)) ValueError in
  let! _ := validate_positive_i64 (bid_price_atoms q) in
  let! _ := validate_positive_i64 (ask_price_atoms q) in
  raise_if (ask_price_atoms q <=? bid_price_atoms q) ValueError.

Record AcceptedCommand := mk_accepted {
  ac_command_id : string;
  ac_session_id : string;
  ac_idempotency_key : string;
  ac_payload_hash : string;
  ac_expected_session_version : Z;
  ac_resulting_session_version : Z;
  ac_accepted_at_ns : Z;
  ac_payload : pydict;
  ac_replayed : bool;
}.

Record PreparedCommand := mk_prepared {
  pc_payload : pydict;
  pc_payload_hash : string;
}.

Definition command_error (c : CommandErrorCode) : exn := CommandServiceError c.
Definition invalid : exn := command_error C_INVALID_COMMAND.

(** ** Canonical payloads *)

Definition command_canonical_json (v : pyval) : result string :=
  if reject_float v
  then catch_res (fun e => match e with TypeError | ValueError => invalid | e => e end) (json_dumps true v)
  else Raise invalid.

Definition canonical_payload_hash (payload : pydict) : result string :=
  let! text := command_canonical_json (VDict payload) in
  Ok (sha256_hex (utf8 text)).

(** [value] is [None] when the key is missing or [null]. *)
Definition canonical_u64_text (value : option pyval) (positive : bool) : result string :=
  match value with
  | Some (VStr s) =>
      let! _ := raise_if (is_empty s) invalid in
      let! _ := raise_if (starts_with "+" s || starts_with "-" s || leading_zero s) invalid in
      let! _ := raise_if (negb (py_isascii s) || negb (py_isdigit s)) invalid in
      let! parsed := py_int s in
      let! _ := raise_if ((U64_MAX <? parsed) || (positive && (parsed =? 0))) invalid in
      Ok s
  | _ => Raise invalid
  end.

Definition canonical_i64_text (value : option pyval) (positive : bool) : result string :=
  match value with
  | Some (VStr s) =>
      let! _ := raise_if (is_empty s || starts_with "+" s || String.eqb s "-0") invalid in
      let digits := if starts_with "-" s then tail s else s in
      let! _ := raise_if (is_empty digits || negb (py_isascii digits) || negb (py_isdigit digits)
                          || leading_zero digits) invalid in
      let! parsed := py_int s in
      let! _ := raise_if ((parsed <? I64_MIN) || (I64_MAX <? parsed) || (positive && (parsed <=? 0))) invalid in
      Ok s
  | _ => Raise invalid
  end.

(** [None] and a missing key read alike through [Mapping.get]. *)
Definition field (fields : pydict) (name : string) : option pyval :=
  match dict_get name fields with Some VNone => None | o => o end.

Definition require_string (fields : pydict) (name : string) : result string :=
  match dict_get name fields with
  | Some (VStr s) =>
      let! _ := raise_if (is_empty s) invalid in
      let! _ := raise_if (has_control s) invalid in
      Ok s
  | _ => Raise invalid
  end.

Definition optional_bool (fields : pydict) (name : string) : result bool :=
  match dict_get name fields with
  | None => Ok false
  | Some (VBool b) => Ok b
  | Some _ => Raise invalid
  end.

Definition known_key (allowed : list string) (k : pykey) : bool :=
  match k with KStr s => bool_decide (s ∈ allowed) | KOther _ => false end.

Definition reject_unknown (fields : pydict) (allowed : list string) : result unit :=
  raise_if (negb (forallb (fun p => known_key allowed (fst p)) fields)) invalid.

Definition enum_string (fields : pydict) (name : string) (allowed : list string) : result string :=
  match dict_get name fields with
  | Some (VStr s) => if bool_decide (s ∈ allowed) then Ok s else Raise invalid
  | _ => Raise invalid
  end.

Definition safe_identifier (s : string) : result unit := raise_if (is_empty s || has_control s) invalid.

(** ** Order preparation *)

Definition ORDER_FIELDS : list string :=
  ["instrument_id"; "side"; "quantity_atoms"; "order_type"; "limit_price_atoms"; "stop_price_atoms";
   "price_reference"; "time_in_force"; "reduce_only"; "post_only"; "marketable_only"].
Definition REPLACE_FIELDS : list string :=
  ["quantity_atoms"; "limit_price_atoms"; "stop_price_atoms"; "time_in_force"; "reduce_only";
   "post_only"; "marketable_only"].

Definition reference_price (q : VisibleQuote) (side : string) (r : PriceReference) : Z :=
  match r with
  | BID => bid_price_atoms q
  | ASK => ask_price_atoms q
  | MIDPOINT =>
      let total := bid_price_atoms q + ask_price_atoms q in
      if String.eqb side "BUY" then total / 2 else (total + 1) / 2
  end.

Definition resolve_reference (quote : option VisibleQuote) (side : string) (raw : pyval)
    : result (Z * string * string) :=
  match raw with
  | VStr s =>
      let! r := catch_res (fun e => match e with ValueError => invalid | e => e end) (reference_of s) in
      match quote with
      | None => Raise (command_error C_QUOTE_UNAVAILABLE)
      | Some q => Ok (reference_price q side r, event_id q, reference_value r)
      end
  | _ => Raise invalid
  end.

Definition limit_bearing (order_type : string) : bool :=
  String.eqb order_type "LIMIT" || String.eqb order_type "STOP_LIMIT".
Definition stop_bearing (order_type : string) : bool :=
  String.eqb order_type "STOP_MARKET" || String.eqb order_type "STOP_LIMIT".

Definition is_present (o : option pyval) : bool := match o with Some _ => true | None => false end.

Definition resolve_limit (payload : pydict) (quote : option VisibleQuote) (side order_type : string)
    (request : pydict) : result pydict :=
  let limit_raw := field request "limit_price_atoms" in
  match field request "price_reference" with
  | Some reference =>
      if is_present limit_raw then Raise invalid
      else if negb (limit_bearing order_type) then Raise invalid
      else
        let! r := resolve_reference quote side reference in
        let '(price, quote_event, name) := r in
        Ok (dict_update payload [("limit_price_atoms", VStr (str_Z price));
                                 ("price_reference", VStr name); ("quote_event_id", VStr quote_event)])
  | None =>
      if limit_bearing order_type then
        let! text := canonical_i64_text limit_raw true in
        Ok (dict_update payload [("limit_price_atoms", VStr text)])
      else if is_present limit_raw then Raise invalid else Ok payload
  end.

Definition resolve_stop (payload : pydict) (order_type : string) (request : pydict) : result pydict :=
  let stop_raw := field request "stop_price_atoms" in
  if stop_bearing order_type then
    let! text := canonical_i64_text stop_raw true in
    Ok (dict_update payload [("stop_price_atoms", VStr text)])
  else if is_present stop_raw then Raise invalid else Ok payload.

Definition resolve_prices (payload : pydict) (quote : option VisibleQuote) (side order_type : string)
    (request : pydict) : result pydict :=
  let! p := resolve_limit payload quote side order_type request in
  resolve_stop p order_type request.

Definition prepare_order (quote : option VisibleQuote) (request : pydict) : result PreparedCommand :=
  let! _ := reject_unknown request ORDER_FIELDS in
  let! instrument := require_string request "instrument_id" in
  let! side := enum_string request "side" ["BUY"; "SELL"] in
  let! quantity := canonical_u64_text (field request "quantity_atoms") true in
  let! order_type := enum_string request "order_type" ["MARKET"; "LIMIT"; "STOP_MARKET"; "STOP_LIMIT"] in
  let! tif := enum_string request "time_in_force" ["GTC"; "IOC"; "FOK"] in
  let! reduce_only := optional_bool request "reduce_only" in
  let! post_only := optional_bool request "post_only" in
  let! marketable_only := optional_bool request "marketable_only" in
  let! _ := raise_if (post_only && negb (limit_bearing order_type)) invalid in
  let payload := obj [
    ("command_type", VStr (command_type_value SUBMIT_ORDER)); ("instrument_id", VStr instrument);
    ("side", VStr side); ("quantity_atoms", VStr quantity); ("order_type", VStr order_type);
    ("time_in_force", VStr tif); ("reduce_only", VBool reduce_only); ("post_only", VBool post_only);
    ("marketable_only", VBool marketable_only)] in
  let! payload' := resolve_prices payload quote side order_type request in
  let! h := canonical_payload_hash payload' in
  Ok (mk_prepared payload' h).

(** [if name in request: payload[name] = read(...)]. *)
Definition copy_field (name : string) (read : result pyval) (request : pydict) (payload : pydict)
    : result pydict :=
  match dict_get name request with
  | None => Ok payload
  | Some _ => let! v := read in Ok (dict_update payload [(name, v)])
  end.

Definition as_text (r : result string) : result pyval := let! s := r in Ok (VStr s).
Definition as_flag (r : result bool) : result pyval := let! b := r in Ok (VBool b).

Definition copy_order_mutations (payload : pydict) (request : pydict) : result pydict :=
  let! p := copy_field "quantity_atoms"
              (as_text (canonical_u64_text (field request "quantity_atoms") true)) request payload in
  let! p := copy_field "time_in_force"
              (as_text (enum_string request "time_in_force" ["GTC"; "IOC"; "FOK"])) request p in
  let! p := copy_field "reduce_only" (as_flag (optional_bool request "reduce_only")) request p in
  let! p := copy_field "post_only" (as_flag (optional_bool request "post_only")) request p in
  let! p := copy_field "marketable_only" (as_flag (optional_bool request "marketable_only")) request p in
  let! p := copy_field "limit_price_atoms"
              (as_text (canonical_i64_text (field request "limit_price_atoms") true)) request p in
  copy_field "stop_price_atoms"
    (as_text (canonical_i64_text (field request "stop_price_atoms") true)) request p.

(** ** The command store *)

Definition command_mapping (v : pyval) : result pydict :=
  match v with
  | VDict d => if str_keys d then Ok d else Raise (command_error C_DATABASE_CONFLICT)
  | _ => Raise (command_error C_DATABASE_CONFLICT)
  end.

Definition materialize_command (row : command_row) (replayed : bool) : result AcceptedCommand :=
  let! payload := command_mapping (c_payload row) in
  Ok (mk_accepted (c_command_id row) (c_session_id row) (c_idempotency_key row) (c_payload_hash row)
        (c_expected_session_version row) (c_expected_session_version row + 1) (c_accepted_at_ns row)
        payload replayed).

Definition command_id_of (sid key payload_hash : string) : result string :=
  let! identity := command_canonical_json
    (VDict (obj [("idempotency_key", VStr key); ("payload_hash", VStr payload_hash);
                 ("session_id", VStr sid)])) in
  Ok ("cmd_" +:+ sha256_hex (utf8 ("TRL-COMMAND-ID-v1\0" +:+ identity))).

Definition validate_command_identity (s : string) : result unit := raise_if (is_empty s || has_control s) invalid.
Definition validate_idempotency_key (s : string) : result unit :=
  raise_if (is_empty s || (200 <? py_len s) || has_control s) invalid.
Definition validate_command_version (v : Z) : result unit := raise_if ((v <? 0) || (U64_MAX <? v)) invalid.
Definition validate_command_i64 (v : Z) : result unit := raise_if ((v <? I64_MIN) || (I64_MAX <? v)) invalid.

Definition integrity_conflict (e : exn) : exn :=
  match e with IntegrityError => command_error C_DATABASE_CONFLICT | e => e end.

Definition bump_version (v : Z) (r : session_row) : session_row :=
  mk_session_row (s_principal_id r) (s_status r) v (s_ruleset_id r) (s_commitment_hash r)
    (s_created_at_ns r).

Definition command_session (sid principal : string) : ST Db session_row := fun db =>
  (match sessions db !! sid with
   | None => Raise (command_error C_SESSION_NOT_FOUND)
   | Some row =>
       if negb (String.eqb (s_principal_id row) principal)
       then Raise (command_error C_PRINCIPAL_MISMATCH) else Ok row
   end, db).

(** The rest of [accept] for an unused idempotency key. *)
Definition accept_new (sid key : string) (expected accepted_at_ns : Z) (prepared : PreparedCommand)
    (session : session_row) : ST Db AcceptedCommand :=
  lift (raise_if (negb (String.eqb (s_status session) (status_value RUNNING)))
          (command_error C_SESSION_NOT_RUNNING)) ;;;
  lift (raise_if (negb (s_version session =? expected)) (command_error C_VERSION_CONFLICT)) ;;;
  let next := expected + 1 in
  lift (raise_if (U64_MAX <? next) (command_error C_VERSION_CONFLICT)) ;;;
  cid <- lift (command_id_of sid key (pc_payload_hash prepared)) ;;
  n <- update_session sid
         (fun r => (s_version r =? expected) && String.eqb (s_status r) (status_value RUNNING))
         (bump_version next) ;;
  lift (raise_if (negb (n =? 1)) (command_error C_VERSION_CONFLICT)) ;;;
  insert_command (mk_command_row cid sid key (pc_payload_hash prepared) expected accepted_at_ns
                    (VDict (pc_payload prepared))) ;;;
  sret (mk_accepted cid sid key (pc_payload_hash prepared) expected next accepted_at_ns
          (pc_payload prepared) false).

Definition accept (sid principal key : string) (expected accepted_at_ns : Z)
    (prepared : PreparedCommand) : ST Db AcceptedCommand :=
  lift (validate_command_identity sid) ;;;
  lift (validate_command_identity principal) ;;;
  lift (validate_idempotency_key key) ;;;
  lift (validate_command_version expected) ;;;
  lift (validate_command_i64 accepted_at_ns) ;;;
  reraise integrity_conflict (transaction (
    session <- command_session sid principal ;;
    existing <- (fun db => (one_or_none (commands_of sid key db), db)) ;;
    match existing with
    | Some row =>
        lift (raise_if (negb (String.eqb (c_payload_hash row) (pc_payload_hash prepared)))
                (command_error C_IDEMPOTENCY_CONFLICT)) ;;;
        lift (materialize_command row true)
    | None => accept_new sid key expected accepted_at_ns prepared session
    end)).

Definition get_command (sid principal cid : string) : ST Db AcceptedCommand :=
  lift (validate_command_identity sid) ;;;
  lift (validate_command_identity principal) ;;;
  lift (validate_command_identity cid) ;;;
  command_session sid principal ;;;
  row <- (fun db => (one_or_none (command_by_id sid cid db), db)) ;;
  match row with
  | None => sraise (command_error C_COMMAND_NOT_FOUND)
  | Some row => lift (materialize_command row false)
  end.

(** ** The service *)

Definition accept_payload (sid principal key : string) (expected now_ns : Z) (payload : pydict)
    : ST Db AcceptedCommand :=
  h <- lift (canonical_payload_hash payload) ;;
  accept sid principal key expected now_ns (mk_prepared payload h).

Definition submit_order (quote : option VisibleQuote) (now_ns : Z) (sid principal key : string)
    (expected : Z) (request : pydict) : ST Db AcceptedCommand :=
  prepared <- lift (prepare_order quote request) ;;
  accept sid principal key expected now_ns prepared.

Definition cancel_order (now_ns : Z) (sid principal key : string) (expected : Z) (order_id : string)
    (request : pydict) : ST Db AcceptedCommand :=
  lift (reject_unknown request []) ;;;
  lift (safe_identifier order_id) ;;;
  accept_payload sid principal key expected now_ns
    (obj [("command_type", VStr (command_type_value CANCEL_ORDER)); ("order_id", VStr order_id)]).

Definition replace_order (now_ns : Z) (sid principal key : string) (expected : Z) (order_id : string)
    (request : pydict) : ST Db AcceptedCommand :=
  lift (safe_identifier order_id) ;;;
  lift (reject_unknown request REPLACE_FIELDS) ;;;
  lift (raise_if match request with [] => true | _ => false end invalid) ;;;
  payload <- lift (copy_order_mutations
    (obj [("command_type", VStr (command_type_value REPLACE_ORDER)); ("order_id", VStr order_id)])
    request) ;;
  accept_payload sid principal key expected now_ns payload.

Definition set_leverage (now_ns : Z) (sid principal key : string) (expected : Z) (request : pydict)
    : ST Db AcceptedCommand :=
  lift (reject_unknown request ["leverage"]) ;;;
  leverage <- lift match dict_get "leverage" request with
                   | Some (VInt n) => if (1 <=? n) && (n <=? 50) then Ok n else Raise invalid
                   | _ => Raise invalid
                   end ;;
  accept_payload sid principal key expected now_ns
    (obj [("command_type", VStr (command_type_value SET_LEVERAGE)); ("leverage", VInt leverage)]).

(** ** The routes *)

Definition http_status (c : CommandErrorCode) : Z :=
  match c with
  | C_INVALID_COMMAND => 422
  | C_SESSION_NOT_FOUND | C_PRINCIPAL_MISMATCH | C_COMMAND_NOT_FOUND => 404
  | C_SESSION_NOT_RUNNING | C_VERSION_CONFLICT | C_IDEMPOTENCY_CONFLICT | C_QUOTE_UNAVAILABLE
  | C_DATABASE_CONFLICT => 409
  end.

Definition header_version (raw : string) : result Z :=
  let! text := canonical_u64_text (Some (VStr raw)) false in py_int text.

Definition response (c : AcceptedCommand) : pydict := obj [
  ("command_id", VStr (ac_command_id c)); ("session_id", VStr (ac_session_id c));
  ("idempotency_key", VStr (ac_idempotency_key c)); ("payload_hash", VStr (ac_payload_hash c));
  ("expected_session_version", VStr (str_Z (ac_expected_session_version c)));
  ("resulting_session_version", VStr (str_Z (ac_resulting_session_version c)));
  ("accepted_at_ns", VStr (str_Z (ac_accepted_at_ns c)));
  ("payload", VDict (ac_payload c)); ("replayed", VBool (ac_replayed c))].

(** ** Canonical integers *)

Lemma u64_text_Ok s pos t :
  canonical_u64_text (Some (VStr s)) pos = Ok t <->
  t = s /\ exists n, s = str_Z n /\ 0 <= n < 2 ^ 64 /\ (pos = true -> 0 < n).
Proof.
  split.
  - unfold canonical_u64_text, U64_MAX. intros H. repeat step_ok. subst. bools. split; [done|].
    match goal with Hi : py_int t = Ok ?n |- _ => exists n;
      destruct (canonical_digits t n) as [Hn Hs]; [by apply isdigit_ascii|done|done|] end.
    split_and!; try lia.
    + unfold str_Z. by rewrite (proj2 (Z.ltb_ge _ _) Hn).
    + intros ->. cbn in *. bools. lia.
  - intros (-> & n & -> & Hn & Hpos). unfold str_Z. rewrite (proj2 (Z.ltb_ge n 0)) by lia.
    pose proof (str_N_no_leading_zero n ltac:(lia)) as Hz. pose proof (str_N_all n) as Hall.
    destruct (str_N_cons n ltac:(lia)) as (c & s & Hs & Hc & Hs' & _).
    assert (py_int (str_N n) = Ok n) as Hi.
    { pose proof (py_int_str_Z n ltac:(lia)) as H. unfold str_Z in H.
      by rewrite (proj2 (Z.ltb_ge n 0)) in H by lia. }
    rewrite Hs in *. destruct (starts_with_digit c s Hc) as [H1 H2].
    unfold canonical_u64_text. rewrite H1, H2, Hz, (digits_ascii _ Hall), (isdigit_digits c s), Hi by done.
    cbn [is_empty raise_if rbind orb negb]. unfold U64_MAX.
    replace (2 ^ 64 - 1 <? n) with false by lia. cbn [orb].
    destruct pos; cbn [andb raise_if rbind]; [|done].
    replace (n =? 0) with false; [done|]. specialize (Hpos eq_refl). lia.
Qed.

Lemma i64_text_Ok s pos t :
  canonical_i64_text (Some (VStr s)) pos = Ok t <->
  t = s /\ exists n, s = str_Z n /\ - 2 ^ 63 <= n < 2 ^ 63 /\ (pos = true -> 0 < n).
Proof.
  split.
  - unfold canonical_i64_text, I64_MIN, I64_MAX. intros H. repeat step_ok. subst. bools. split; [done|].
    match goal with Hi : py_int t = Ok ?n |- _ => exists n; rename n into m end.
    split_and!; try lia.
    + unfold str_Z. destruct (starts_with "-" t) eqn:E.
      * destruct t as [|c ds]; [done|]. cbn in E. apply Ascii.eqb_eq in E as <-. cbn [tail] in *.
        assert (starts_with "0" ds = false) as Hz.
        { destruct (starts_with "0" ds) eqn:Ez; [|done]. exfalso.
          match goal with Hl : leading_zero ds = false |- _ => unfold leading_zero in Hl; rewrite Ez in Hl;
            cbn in Hl; apply negb_false_iff, String.eqb_eq in Hl; subst ds end. done. }
        destruct (canonical_neg_digits ds m) as [Hn ->]; [by apply isdigit_ascii|done|done|].
        by rewrite (proj2 (Z.ltb_lt _ _) Hn).
      * destruct (canonical_digits t m) as [Hn ->]; [by apply isdigit_ascii|done|done|].
        by rewrite (proj2 (Z.ltb_ge _ _) Hn).
    + intros ->. cbn in *. bools. lia.
  - intros (-> & n & -> & Hn & Hpos). pose proof (py_int_str_Z n ltac:(lia)) as Hi.
    unfold str_Z in *. unfold canonical_i64_text, I64_MIN, I64_MAX.
    assert (((n <? - 2 ^ 63) || (2 ^ 63 - 1 <? n) || (pos && (n <=? 0)))%bool = false) as Hr.
    { destruct pos; [specialize (Hpos eq_refl)|]; cbn; lia. }
    destruct (n <? 0) eqn:E; [apply Z.ltb_lt in E|apply Z.ltb_ge in E].
    + pose proof (str_N_no_zero (- n) ltac:(lia)) as Hz. pose proof (str_N_all (- n)) as Hall.
      destruct (str_N_cons (- n) ltac:(lia)) as (c & s & Hs & Hc & Hs' & _). rewrite Hs in *.
      replace (String.eqb (String "-" (String c s)) "-0") with false.
      2: { symmetry. apply String.eqb_neq. by intros [= -> ->]. }
      change (starts_with "-" (String "-" (String c s))) with true. cbn [tail].
      unfold leading_zero. rewrite Hz, (digits_ascii _ Hall), (isdigit_digits c s), Hi by done.
      cbn [is_empty raise_if rbind orb negb andb starts_with Ascii.eqb]. cbn [rbind]. by rewrite Hr.
    + pose proof (str_N_no_leading_zero n E) as Hz. pose proof (str_N_all n) as Hall.
      destruct (str_N_cons n E) as (c & s & Hs & Hc & Hs' & _). rewrite Hs in *.
      destruct (starts_with_digit c s Hc) as [H1 H2].
      replace (String.eqb (String c s) "-0") with false.
      2: { symmetry. apply String.eqb_neq. intros [= -> ->]. discriminate Hc. }
      rewrite H1, H2, Hz, (digits_ascii _ Hall), (isdigit_digits c s), Hi by done.
      cbn [is_empty raise_if rbind orb negb]. by rewrite Hr.
Qed.

(** ** Prepared orders *)

Lemma dict_update_cons d k v items : dict_update d ((k, v) :: items) = dict_update (dict_set (KStr k) v d) items.
Proof. done. Qed.

Lemma dict_get_set_str k k' v d :
  dict_get k (dict_set (KStr k') v d) = if String.eqb k k' then Some v else dict_get k d.
Proof.
  unfold dict_get. rewrite dict_get_set. unfold key_eqb.
  destruct (String.eqb_spec k k') as [->|]; case_bool_decide; congruence.
Qed.

Lemma enum_string_Ok fields name allowed s : enum_string fields name allowed = Ok s -> s ∈ allowed.
Proof.
  unfold enum_string. destruct (dict_get name fields) as [[]|]; try done.
  case_bool_decide; [by intros [= ->]|done].
Qed.

Lemma canonical_payload_hash_Ok p h :
  canonical_payload_hash p = Ok h ->
  exists text, reject_float (VDict p) = true /\ json_dumps true (VDict p) = Ok text /\
    h = sha256_hex (utf8 text).
Proof.
  unfold canonical_payload_hash, command_canonical_json. intros H. repeat step_ok.
  destruct (reject_float (VDict p)); [|done]. apply catch_res_Ok in H. eauto.
Qed.

(** A positive 64-bit price stored as canonical text. *)
Definition has_price (payload : pydict) (name : string) (p : Z) : Prop :=
  0 < p < 2 ^ 63 /\ dict_get name payload = Some (VStr (str_Z p)).

Definition quote_ok (quote : option VisibleQuote) : Prop :=
  forall q, quote = Some q -> VisibleQuote_post_init q = Ok tt.

Lemma quote_bounds q : VisibleQuote_post_init q = Ok tt ->
  0 < bid_price_atoms q < ask_price_atoms q /\ ask_price_atoms q < 2 ^ 63.
Proof.
  unfold VisibleQuote_post_init, validate_positive_i64, I64_MAX. intros H. repeat step_ok. bools. lia.
Qed.

Lemma reference_price_bounds q side r :
  VisibleQuote_post_init q = Ok tt ->
  bid_price_atoms q <= reference_price q side r <= ask_price_atoms q.
Proof.
  intros H%quote_bounds. unfold reference_price.
  pose proof (Z.div_mod (bid_price_atoms q + ask_price_atoms q) 2 ltac:(lia)).
  pose proof (Z.mod_pos_bound (bid_price_atoms q + ask_price_atoms q) 2 ltac:(lia)).
  pose proof (Z.div_mod (bid_price_atoms q + ask_price_atoms q + 1) 2 ltac:(lia)).
  pose proof (Z.mod_pos_bound (bid_price_atoms q + ask_price_atoms q + 1) 2 ltac:(lia)).
  destruct r; [lia|lia|]. destruct (String.eqb side "BUY"); lia.
Qed.

Lemma i64_price_Ok v t :
  canonical_i64_text v true = Ok t -> exists p, t = str_Z p /\ 0 < p < 2 ^ 63.
Proof.
  destruct v as [[| | | |s| | |]|]; try discriminate.
  intros (-> & n & -> & Hn & Hpos)%i64_text_Ok. exists n. split; [done|]. specialize (Hpos eq_refl). lia.
Qed.

(** What the prices of an accepted order are. *)
Record limit_ok (quote : option VisibleQuote) (side order_type : string) (request p : pydict) : Prop := {
  lo_limit : if limit_bearing order_type
             then exists n, has_price p "limit_price_atoms" n else dict_get "limit_price_atoms" p = None;
  lo_reference : forall raw, field request "price_reference" = Some raw ->
    exists q r, quote = Some q /\ reference_of match raw with VStr s => s | _ => "" end = Ok r /\
      limit_bearing order_type = true /\ field request "limit_price_atoms" = None /\
      has_price p "limit_price_atoms" (reference_price q side r) /\
      dict_get "price_reference" p = Some (VStr (reference_value r)) /\
      dict_get "quote_event_id" p = Some (VStr (event_id q));
}.

Lemma resolve_limit_Ok payload quote side order_type request p :
  quote_ok quote -> dict_get "limit_price_atoms" payload = None ->
  resolve_limit payload quote side order_type request = Ok p ->
  limit_ok quote side order_type request p /\
  (forall k, k ∉ ["limit_price_atoms"; "price_reference"; "quote_event_id"] -> dict_get k p = dict_get k payload).
Proof.
  intros Hq Hnone H. unfold resolve_limit in H.
  destruct (field request "price_reference") as [reference|] eqn:Er.
  - destruct (field request "limit_price_atoms") as [l|] eqn:El; [done|]. cbn [is_present] in H.
    destruct (limit_bearing order_type) eqn:Elb; [|done]. cbn [negb] in H.
    apply rbind_Ok in H as ([[price ev] name] & Hr & H). injection H as <-.
    unfold resolve_reference in Hr. destruct reference as [| | | |s| | |]; try discriminate Hr.
    apply rbind_Ok in Hr as (r & Hr%catch_res_Ok & Hm). destruct quote as [q|]; [|done].
    injection Hm as <- <- <-. specialize (Hq q eq_refl).
    pose proof (reference_price_bounds q side r Hq). pose proof (quote_bounds q Hq).
    assert (has_price (dict_update payload [("limit_price_atoms", VStr (str_Z (reference_price q side r)));
      ("price_reference", VStr (reference_value r)); ("quote_event_id", VStr (event_id q))])
      "limit_price_atoms" (reference_price q side r)) as Hp.
    { split; [lia|]. cbn [dict_update fold_left]. unfold dict_update. cbn [fold_left]. by rewrite !dict_get_set_str. }
    split; [split|].
    + rewrite Elb. eauto.
    + intros raw Hraw. assert (raw = VStr s) as -> by congruence. exists q, r. split_and!; try done; by rewrite !dict_get_set_str.

    + intros k Hk. apply (dict_update_get k payload [(_, _); (_, _); (_, _)] Hk).
  - destruct (limit_bearing order_type) eqn:Elb.
    + apply rbind_Ok in H as (t & Ht & H). injection H as <-. apply i64_price_Ok in Ht as (n & -> & Hn).
      split; [split|].
      * rewrite Elb. exists n. split; [done|]. apply dict_get_set_str.
      * intros raw Hraw. congruence.
      * intros k Hk. apply (dict_update_get k payload [(_, _)]). cbn. set_solver.
    + destruct (field request "limit_price_atoms"); [done|]. injection H as <-. split; [split|done].
      * by rewrite Elb.
      * intros raw Hraw. congruence.
Qed.

Lemma resolve_stop_Ok payload order_type request p :
  dict_get "stop_price_atoms" payload = None -> resolve_stop payload order_type request = Ok p ->
  (if stop_bearing order_type then exists n, has_price p "stop_price_atoms" n
   else dict_get "stop_price_atoms" p = None) /\
  (forall k, k <> "stop_price_atoms" -> dict_get k p = dict_get k payload).
Proof.
  intros Hnone H. unfold resolve_stop in H. destruct (stop_bearing order_type).
  - apply rbind_Ok in H as (t & Ht & H). injection H as <-. apply i64_price_Ok in Ht as (n & -> & Hn).
    split.
    + exists n. split; [done|]. apply dict_get_set_str.
    + intros k Hk. apply (dict_update_get k payload [(_, _)]). cbn. set_solver.
  - destruct (field request "stop_price_atoms"); [done|]. by injection H as <-.
Qed.

Lemma limit_ok_same quote side order_type request p p' :
  (forall k, k <> "stop_price_atoms" -> dict_get k p' = dict_get k p) ->
  limit_ok quote side order_type request p -> limit_ok quote side order_type request p'.
Proof.
  intros Hs [H1 H2]. unfold has_price in *. split; unfold has_price.
  - rewrite !Hs by done. exact H1.
  - intros raw Hraw. rewrite !Hs by done. by apply H2.
Qed.

(** A canonical order payload. *)
Record order_ok (quote : option VisibleQuote) (request p : pydict) (side order_type : string) : Prop := {
  oo_type : dict_get "command_type" p = Some (VStr "SUBMIT_ORDER");
  oo_side : side ∈ ["BUY"; "SELL"] /\ dict_get "side" p = Some (VStr side);
  oo_order_type : order_type ∈ ["MARKET"; "LIMIT"; "STOP_MARKET"; "STOP_LIMIT"] /\
    dict_get "order_type" p = Some (VStr order_type);
  oo_quantity : exists n, 0 < n < 2 ^ 64 /\ dict_get "quantity_atoms" p = Some (VStr (str_Z n));
  oo_limit : limit_ok quote side order_type request p;
  oo_stop : if stop_bearing order_type then exists n, has_price p "stop_price_atoms" n
            else dict_get "stop_price_atoms" p = None;
  oo_post_only : dict_get "post_only" p = Some (VBool true) -> limit_bearing order_type = true;
}.

Lemma u64_quantity_Ok v t :
  canonical_u64_text v true = Ok t -> exists n, t = str_Z n /\ 0 < n < 2 ^ 64.
Proof.
  destruct v as [[| | | |s| | |]|]; try discriminate.
  intros (-> & n & -> & Hn & Hpos)%u64_text_Ok. exists n. split; [done|]. specialize (Hpos eq_refl). lia.
Qed.

(** C10. A prepared order is canonical: its hash is the hash of its payload, side, type and quantity
    are valid, it has a limit price exactly when its type bears one and a stop price exactly when
    its type bears one, both positive 64-bit integers, and a price shortcut was resolved by the
    server from the visible quote, never by the client. *)
Theorem prepare_order_sound quote request pc :
  quote_ok quote -> prepare_order quote request = Ok pc ->
  canonical_payload_hash (pc_payload pc) = Ok (pc_payload_hash pc) /\
  exists side order_type, order_ok quote request (pc_payload pc) side order_type.
Proof.
  intros Hq H. unfold prepare_order in H. do 10 (apply rbind_Ok in H as (? & ? & H)).
  apply rbind_Ok in H as (p & Hp & H). apply rbind_Ok in H as (h & Hh & H). injection H as <-.
  cbn [pc_payload pc_payload_hash]. split; [done|].
  unfold resolve_prices in Hp. apply rbind_Ok in Hp as (p1 & Hlim & Hstop).
  set (payload := obj _) in Hlim.
  apply resolve_limit_Ok in Hlim as [Hlim Hsame1]; [|done|done].
  apply resolve_stop_Ok in Hstop as [Hstop Hsame2].
  2: { by rewrite Hsame1 by set_solver. }
  repeat match goal with
  | Hx : enum_string _ _ _ = Ok _ |- _ => apply enum_string_Ok in Hx
  | Hx : canonical_u64_text _ true = Ok _ |- _ => apply u64_quantity_Ok in Hx as (n & -> & Hn)
  | Hx : raise_if _ _ = Ok _ |- _ => apply raise_if_Ok in Hx
  end.
  match goal with Hs : ?s ∈ ["BUY"; "SELL"], Ht : ?t ∈ ["MARKET"; _; _; _] |- _ => exists s, t end.
  split.
  - rewrite Hsame2, Hsame1 by (done || set_solver). done.
  - split; [done|]. rewrite Hsame2, Hsame1 by (done || set_solver). done.
  - split; [done|]. rewrite Hsame2, Hsame1 by (done || set_solver). done.
  - exists n. split; [done|]. rewrite Hsame2, Hsame1 by (done || set_solver). done.
  - by apply (limit_ok_same _ _ _ _ p1).
  - exact Hstop.
  - rewrite Hsame2, Hsame1 by (done || set_solver). cbn. intros [= ->].
    match goal with Hx : (_ && negb _)%bool = false |- _ => cbn in Hx; by apply negb_false_iff in Hx end.
Qed.

(** ** Acceptance *)

Lemma command_session_Ok sid p db row db' :
  command_session sid p db = (Ok row, db') ->
  db' = db /\ sessions db !! sid = Some row /\ s_principal_id row = p.
Proof.
  unfold command_session. destruct (sessions db !! sid) as [r|]; [|done].
  destruct (String.eqb_spec (s_principal_id r) p); [|done]. by intros [= <- <-].
Qed.

(** What a fresh acceptance does to the store. *)
Definition accepted_new (sid p key : string) (expected now : Z) (pc : PreparedCommand) (r : AcceptedCommand)
    (db db' : Db) : Prop :=
  exists row cid, sessions db !! sid = Some row /\ s_principal_id row = p /\
    s_status row = status_value RUNNING /\ s_version row = expected /\ expected < U64_MAX /\
    commands_of sid key db = [] /\ command_id_of sid key (pc_payload_hash pc) = Ok cid /\
    (forall x, x ∈ commands db -> c_command_id x <> cid) /\
    r = mk_accepted cid sid key (pc_payload_hash pc) expected (expected + 1) now (pc_payload pc) false /\
    db' = set_commands (commands db ++ [mk_command_row cid sid key (pc_payload_hash pc) expected now
                                          (VDict (pc_payload pc))])
            (set_sessions (<[sid := bump_version (expected + 1) row]> (sessions db)) db).

Lemma accept_Ok sid p key expected now pc db r db' :
  accept sid p key expected now pc db = (Ok r, db') ->
  (db' = db /\ exists row, sessions db !! sid <> None /\ commands_of sid key db = [row] /\
     c_payload_hash row = pc_payload_hash pc /\ materialize_command row true = Ok r) \/
  accepted_new sid p key expected now pc r db db'.
Proof.
  intros H. unfold accept in H.
  do 5 (apply sbind_Ok in H as (? & ? & Hl & H); apply lift_Ok in Hl as [_ ->]).
  apply reraise_inv, transaction_inv in H.
  apply sbind_Ok in H as (row & ? & Hs & H). apply command_session_Ok in Hs as (-> & Hs & Hp).
  apply sbind_Ok in H as (ex & db0 & He & H). injection He as He <-.
  unfold one_or_none in He. destruct (commands_of sid key db) as [|c [|c2 l]] eqn:Ec; [| |done]; injection He as <-.
  - right. unfold accept_new in H.
    apply sbind_Ok in H as (? & ? & Hl & H). apply lift_Ok in Hl as [H1%raise_if_Ok ->].
    apply sbind_Ok in H as (? & ? & Hl & H). apply lift_Ok in Hl as [H2%raise_if_Ok ->].
    apply sbind_Ok in H as (? & ? & Hl & H). apply lift_Ok in Hl as [H3%raise_if_Ok ->].
    apply sbind_Ok in H as (cid & ? & Hl & H). apply lift_Ok in Hl as [Hcid ->].
    apply sbind_Ok in H as (n & db1 & Hup & H).
    apply sbind_Ok in H as (? & ? & Hl & H). apply lift_Ok in Hl as [Hn%raise_if_Ok ->].
    apply sbind_Ok in H as (? & db2 & Hins & H). injection H as <- <-.
    apply negb_false_iff in H1, H2, Hn. apply String.eqb_eq in H1. apply Z.eqb_eq in H2. apply Z.ltb_ge in H3.
    unfold update_session in Hup. rewrite Hs in Hup.
    destruct (_ && _)%bool in Hup; [|by injection Hup as <- _]. injection Hup as _ <-.
    apply insert_command_Ok in Hins as (_ & Hid & _ & ->). cbn in Hid.
    exists row, cid. split_and!; try done. lia.
  - left. apply sbind_Ok in H as (? & ? & Hl & H). apply lift_Ok in Hl as [Hh%raise_if_Ok ->].
    apply lift_Ok in H as [Hm ->]. split; [done|]. exists c. split_and!; try done; [congruence|].
    by apply negb_false_iff, String.eqb_eq in Hh.
Qed.

Lemma accept_Raise sid p key expected now pc db e db' :
  accept sid p key expected now pc db = (Raise e, db') -> db' = db.
Proof.
  unfold accept. repeat (apply sbind_lift_Raise; intros ? ? ? ?). apply reraise_tx_Raise.
Qed.

(** ** The command log *)

Record commands_ok (db : Db) : Prop := mk_commands_ok {
  ko_keys : NoDup (map command_key (commands db));
  ko_ids : NoDup (map c_command_id (commands db));
  ko_sessions : forall r, r ∈ commands db -> has_session (c_session_id r) db = true;
  ko_payloads : forall r, r ∈ commands db -> exists p, command_mapping (c_payload r) = Ok p;
}.

(** Later stores keep the commands and the owners of the sessions. *)
Definition commands_grow (db db' : Db) : Prop :=
  (forall r, r ∈ commands db -> r ∈ commands db') /\
  (forall sid row, sessions db !! sid = Some row ->
     exists row', sessions db' !! sid = Some row' /\ s_principal_id row' = s_principal_id row).

#[export] Instance commands_grow_preorder : PreOrder commands_grow.
Proof.
  split.
  - intros db. split; eauto.
  - intros a b c [H1 H2] [H3 H4]. split; [eauto|]. intros sid row Hs.
    destruct (H2 _ _ Hs) as (row' & Hs' & E). destruct (H4 _ _ Hs') as (row2 & ? & ?).
    exists row2. split; [done|congruence].
Qed.

Lemma str_keys_reject p : reject_float (VDict p) = true -> str_keys p = true.
Proof.
  cbn. unfold str_keys. rewrite !forallb_forall. intros H [k v] Hin. specialize (H _ Hin). by destruct k.
Qed.

Lemma accepted_new_ok sid p key expected now pc r db db' :
  commands_ok db -> str_keys (pc_payload pc) = true -> accepted_new sid p key expected now pc r db db' ->
  commands_ok db' /\ commands_grow db db'.
Proof.
  intros [H1 H2 H3 H4] Hp (row & cid & Hs & _ & _ & _ & _ & Hk & _ & Hid & _ & ->). split.
  - split; cbn.
    + rewrite map_app. apply NoDup_app. split_and!; [done| |apply NoDup_singleton].
      intros x Hx Hx'. apply list_elem_of_singleton in Hx'. cbn in Hx'. subst.
      apply elem_of_mapl in Hx as (r' & Hr & Hin).
      assert (r' ∈ commands_of sid key db) as Hn by by apply elem_of_commands_of.
      rewrite Hk in Hn. by apply not_elem_of_nil in Hn.
    + rewrite map_app. apply NoDup_app. split_and!; [done| |apply NoDup_singleton].
      intros x Hx Hx'. apply list_elem_of_singleton in Hx'. cbn in Hx'. subst.
      apply elem_of_mapl in Hx as (r' & Hr & Hin). by apply (Hid r').
    + intros x [Hx|Hx]%elem_of_app; apply has_session_insert; [by apply H3|].
      apply list_elem_of_singleton in Hx. subst. unfold has_session. cbn. by rewrite Hs.
    + intros x [Hx|Hx]%elem_of_app; [by apply H4|]. apply list_elem_of_singleton in Hx. subst. cbn.
      rewrite Hp. eauto.
  - split; cbn.
    + intros x Hx. apply elem_of_app. by left.
    + intros sid' row' Hs'. destruct (decide (sid' = sid)) as [->|Hne].
      * rewrite lookup_insert_eq. eexists. split; [done|]. cbn. congruence.
      * rewrite lookup_insert_ne by done. eauto.
Qed.

(** The arguments of [accept] pass its validation. *)
Definition accept_args_ok (sid p key : string) (expected now : Z) : bool :=
  is_ok (validate_command_identity sid) && is_ok (validate_command_identity p)
  && is_ok (validate_idempotency_key key) && is_ok (validate_command_version expected)
  && is_ok (validate_command_i64 now).

Lemma accept_args sid p key expected now pc db :
  accept_args_ok sid p key expected now = true ->
  accept sid p key expected now pc db =
  reraise integrity_conflict (transaction (
    session <- command_session sid p ;;
    existing <- (fun db => (one_or_none (commands_of sid key db), db)) ;;
    match existing with
    | Some row =>
        lift (raise_if (negb (String.eqb (c_payload_hash row) (pc_payload_hash pc)))
                (command_error C_IDEMPOTENCY_CONFLICT)) ;;;
        lift (materialize_command row true)
    | None => accept_new sid key expected now pc session
    end)) db.
Proof.
  unfold accept_args_ok, accept. intros H.
  destruct (validate_command_identity sid) as [[]|], (validate_command_identity p) as [[]|],
    (validate_idempotency_key key) as [[]|], (validate_command_version expected) as [[]|],
    (validate_command_i64 now) as [[]|]; try discriminate H. done.
Qed.

(** A used idempotency key: the stored command for the same payload, a conflict for another. *)
Lemma accept_used sid p key expected now pc db row srow payload :
  commands_ok db -> accept_args_ok sid p key expected now = true ->
  sessions db !! sid = Some srow -> s_principal_id srow = p ->
  row ∈ commands db -> command_key row = (sid, key) -> command_mapping (c_payload row) = Ok payload ->
  accept sid p key expected now pc db =
  (if String.eqb (c_payload_hash row) (pc_payload_hash pc)
   then Ok (mk_accepted (c_command_id row) sid key (c_payload_hash row) (c_expected_session_version row)
              (c_expected_session_version row + 1) (c_accepted_at_ns row) payload true)
   else Raise (command_error C_IDEMPOTENCY_CONFLICT), db).
Proof.
  intros Hok Hargs Hs Hp Hrow Hk Hm. rewrite accept_args by done. injection Hk as <- <-.
  unfold reraise, transaction, sbind, command_session. rewrite Hs, Hp, String.eqb_refl. cbn [negb].
  rewrite (commands_of_unique row) by (done || apply ko_keys, Hok). cbn [one_or_none].
  destruct (String.eqb _ _); cbn; [|done]. unfold materialize_command. by rewrite Hm.
Qed.

(** ** Properties *)

(** The integer text of commands is exactly canonical: [canonical_u64_text] accepts a string
    exactly when it is the decimal text of a number below 2^64, [canonical_i64_text] exactly when it
    is the decimal text of a signed 64-bit number, both positive when asked, and both return it
    unchanged. *)
Theorem canonical_text_exact s positive t :
  (canonical_u64_text (Some (VStr s)) positive = Ok t <->
   t = s /\ exists n, s = str_Z n /\ 0 <= n < 2 ^ 64 /\ (positive = true -> 0 < n)) /\
  (canonical_i64_text (Some (VStr s)) positive = Ok t <->
   t = s /\ exists n, s = str_Z n /\ - 2 ^ 63 <= n < 2 ^ 63 /\ (positive = true -> 0 < n)).
Proof. split; [apply u64_text_Ok|apply i64_text_Ok]. Qed.

(** A price shortcut never leaves the visible spread and is rounded against the order: BID and
    ASK are the quote's prices, MIDPOINT is the spread's middle rounded down for a buy and up for a
    sell. *)
Theorem reference_price_spec q side r :
  VisibleQuote_post_init q = Ok tt ->
  let price := reference_price q side r in
  bid_price_atoms q <= price <= ask_price_atoms q /\
  match r with
  | BID => price = bid_price_atoms q
  | ASK => price = ask_price_atoms q
  | MIDPOINT =>
      if String.eqb side "BUY"
      then 2 * price <= bid_price_atoms q + ask_price_atoms q < 2 * price + 2
      else 2 * price - 2 < bid_price_atoms q + ask_price_atoms q <= 2 * price
  end.
Proof.
  intros H price. split; [by apply reference_price_bounds|]. unfold price, reference_price.
  set (total := bid_price_atoms q + ask_price_atoms q).
  pose proof (Z.div_mod total 2 ltac:(lia)). pose proof (Z.mod_pos_bound total 2 ltac:(lia)).
  pose proof (Z.div_mod (total + 1) 2 ltac:(lia)). pose proof (Z.mod_pos_bound (total + 1) 2 ltac:(lia)).
  destruct r; [done|done|]. destruct (String.eqb side "BUY"); lia.
Qed.

(** ** Concrete values *)

Definition demo_quote : VisibleQuote := mk_quote "q1" 100 103.
Definition demo_order : pydict := obj
  [("instrument_id", VStr "SYNTH"); ("side", VStr "BUY"); ("quantity_atoms", VStr "5");
   ("order_type", VStr "STOP_LIMIT"); ("time_in_force", VStr "GTC"); ("price_reference", VStr "MIDPOINT");
   ("stop_price_atoms", VStr "99")].
Definition demo_prepared (q : VisibleQuote) : PreparedCommand :=
  match prepare_order (Some q) demo_order with Ok pc => pc | Raise _ => mk_prepared [] "" end.

Lemma demo_quote_ok : quote_ok (Some demo_quote).
Proof. intros q [= <-]. vm_compute. reflexivity. Qed.

Lemma prepare_order_sound_witness :
  prepare_order (Some demo_quote) demo_order = Ok (demo_prepared demo_quote) /\
  dict_get "limit_price_atoms" (pc_payload (demo_prepared demo_quote)) = Some (VStr "101") /\
  exists side order_type,
    order_ok (Some demo_quote) demo_order (pc_payload (demo_prepared demo_quote)) side order_type.
Proof.
  split; [vm_compute; reflexivity|]. split; [vm_compute; reflexivity|].
  apply (prepare_order_sound (Some demo_quote) demo_order (demo_prepared demo_quote)).
  - exact demo_quote_ok.
  - vm_compute. reflexivity.
Defined.

Lemma reference_price_spec_witness :
  VisibleQuote_post_init demo_quote = Ok tt /\
  bid_price_atoms demo_quote <= reference_price demo_quote "SELL" MIDPOINT <= ask_price_atoms demo_quote.
Proof.
  split; [reflexivity|]. apply (reference_price_spec demo_quote "SELL" MIDPOINT). reflexivity.
Defined.

(** Digits beyond CPython's conversion limit escape as a bare [ValueError]. *)
Definition long_digits : string := Nat.iter 4301 (String "1") EmptyString.

Theorem long_text_value_error :
  canonical_u64_text (Some (VStr long_digits)) true = Raise ValueError /\
  canonical_i64_text (Some (VStr long_digits)) true = Raise ValueError.
Proof. vm_compute. split; reflexivity. Qed.
