(* ===== verification/ReplayModel.v ===== *)
(** * Replay data and persistence ([apps/api/.../replay/model.py], [store.py])

    Canonical inputs, verified simulator states, checkpoints and their snapshot rows, and the
    publication reader.  The simulator and the source of inputs are ports of the code: the classes
    [SimulatorPort] and [ReplaySource] are their signatures; what the code relies on is stated by
    [DeterministicSimulator] and [CanonicalSource]. *)

From S2P Require Import Prelude Sort PyStr Bytes PyJson JsonParse Catalog Db SessionModel Session.
From Stdlib Require Import Ascii.
From Stdlib Require String.

Definition replay_error (c : ReplayErrorCode) : exn := ReplayError c.

Record ReplayInput := mk_input {
  source_event_seq : Z;
  logical_ts_ns : Z;
  kind : string;
  canonical_payload_json : string;
  input_hash : string;
}.

Record SimulatorState := mk_sim {
  state_version : Z;
  state_hash : string;
  canonical_snapshot_json : string;
}.

Record ReplayCheckpoint := mk_checkpoint {
  cp_logical_time_ns : Z;
  cp_source_event_seq : option Z;
  cp_simulator : SimulatorState;
}.

Record PersistedReplayEvent := mk_published {
  pe_event_seq : Z;
  pe_logical_ts_ns : Z;
  pe_event_type : string;
  pe_payload : pydict;
  pe_current_event_hash : string;
}.

#[export] Instance SimulatorState_eq_dec : EqDecision SimulatorState.
Proof. solve_decision. Defined.
#[export] Instance ReplayCheckpoint_eq_dec : EqDecision ReplayCheckpoint.
Proof. solve_decision. Defined.

(** [canonical_json] of this module is the one of the sessions: floats, other keys and values raise
    [ValueError]. *)
Definition replay_canonical_json (v : pyval) : result string :=
  if reject_float v
  then catch_res (fun e => match e with TypeError | ValueError => ValueError | e => e end) (json_dumps true v)
  else Raise ValueError.

Definition validate_u64 (v : Z) : result unit := raise_if ((v <? 0) || (U64_MAX <? v)) ValueError.
Definition replay_validate_i64 (v : Z) : result unit := raise_if ((v <? I64_MIN) || (I64_MAX <? v)) ValueError.
Definition validate_hash (h : string) : result unit := raise_if (negb (is_sha256 h)) ValueError.

Definition input_identity (seq t : Z) (kind : string) (payload : pyval) : pyval :=
  VDict (obj [("kind", VStr kind); ("logical_ts_ns", VStr (str_Z t)); ("payload", payload);
              ("source_event_seq", VStr (str_Z seq))]).

Definition input_from_payload (seq t : Z) (kind : string) (payload : pydict) : result ReplayInput :=
  let! _ := validate_u64 seq in
  let! _ := replay_validate_i64 t in
  let! _ := raise_if (is_empty kind) ValueError in
  let! canonical := replay_canonical_json (VDict payload) in
  let! decoded := json_loads canonical in
  let! identity := replay_canonical_json (input_identity seq t kind decoded) in
  Ok (mk_input seq t kind canonical (sha256_hex (utf8 identity))).

Definition loads_object (text : string) : result pydict :=
  let! value := json_loads text in
  match value with VDict d => Ok d | _ => Raise (replay_error R_SNAPSHOT_CORRUPT) end.

Definition input_payload (i : ReplayInput) : result pydict := loads_object (canonical_payload_json i).

Definition from_snapshot (version : Z) (hash : string) (snapshot : pydict) : result SimulatorState :=
  let! _ := validate_u64 version in
  let! _ := validate_hash hash in
  let! text := replay_canonical_json (VDict snapshot) in
  Ok (mk_sim version hash text).

Definition snapshot (s : SimulatorState) : result pydict := loads_object (canonical_snapshot_json s).

(** [ReplayCheckpoint(...)]. *)
Definition ReplayCheckpoint_post_init (t : Z) (seq : option Z) (s : SimulatorState) : result ReplayCheckpoint :=
  let! _ := replay_validate_i64 t in
  let! _ := match seq with Some n => validate_u64 n | None => Ok tt end in
  Ok (mk_checkpoint t seq s).

(** ** The checkpoint codec *)

Definition CHECKPOINT_FORMAT : string := "1".

Definition checkpoint_payload (c : ReplayCheckpoint) : result pydict :=
  let! snap := snapshot (cp_simulator c) in
  Ok (obj [("checkpoint_format", VStr CHECKPOINT_FORMAT);
           ("logical_time_ns", VStr (str_Z (cp_logical_time_ns c)));
           ("simulator_snapshot", VDict snap);
           ("source_event_seq", match cp_source_event_seq c with
                                | None => VNone | Some n => VStr (str_Z n) end)]).

Definition canonical_int (v : option pyval) : result Z :=
  match v with
  | Some (VStr s) =>
      let! _ := raise_if (is_empty s || starts_with "+" s) ValueError in
      let! _ := raise_if (String.eqb s "-0" || leading_zero s) ValueError in
      let digits := if starts_with "-" s then tail s else s in
      let! _ := raise_if (negb (py_isdigit digits) || (starts_with "-" s && starts_with "0" digits)) ValueError in
      py_int s
  | _ => Raise ValueError
  end.

(** [None if source_raw is None else _canonical_int(source_raw, ...)]. *)
Definition optional_int (v : option pyval) : result (option Z) :=
  match v with
  | None | Some VNone => Ok None
  | v => let! n := canonical_int v in Ok (Some n)
  end.

Definition replay_mapping (v : option pyval) : result pydict :=
  match v with
  | Some (VDict d) => if str_keys d then Ok d else Raise ValueError
  | _ => Raise ValueError
  end.

Definition corrupt (e : exn) : exn :=
  match e with TypeError | ValueError => replay_error R_SNAPSHOT_CORRUPT | e => e end.

Definition decode_checkpoint (raw : pyval) (version : Z) (hash : string) : result ReplayCheckpoint :=
  catch_res corrupt (
    let! payload := replay_mapping (Some raw) in
    let! _ := raise_if match dict_get "checkpoint_format" payload with
                       | Some (VStr s) => negb (String.eqb s CHECKPOINT_FORMAT) | _ => true end ValueError in
    let! t := canonical_int (dict_get "logical_time_ns" payload) in
    let! seq := optional_int (dict_get "source_event_seq" payload) in
    let! snap := replay_mapping (dict_get "simulator_snapshot" payload) in
    let! s := from_snapshot version hash snap in
    ReplayCheckpoint_post_init t seq s).

(** ** The checkpoint store *)

Definition require_principal (sid principal : string) : ST Db unit := fun db =>
  (match sessions db !! sid with
   | None => Raise (replay_error R_SNAPSHOT_CORRUPT)
   | Some row =>
       raise_if (negb (String.eqb (s_principal_id row) principal)) (replay_error R_SNAPSHOT_CORRUPT)
   end, db).

Definition load_latest (sid principal : string) : ST Db (option ReplayCheckpoint) :=
  require_principal sid principal ;;;
  row <- gets (fun db => last (session_snapshots sid db)) ;;
  match row with
  | None => sret None
  | Some row =>
      c <- lift (decode_checkpoint (sn_state row) (sn_state_version row) (sn_state_hash row)) ;;
      sret (Some c)
  end.

Definition save_conflict (e : exn) : exn :=
  match e with IntegrityError => replay_error R_SNAPSHOT_CONFLICT | e => e end.

(** The stored row is the checkpoint being saved. *)
Definition same_checkpoint (row : snapshot_row) (c : ReplayCheckpoint) (state_json : pydict) : result bool :=
  if negb (sn_state_version row =? state_version (cp_simulator c)) then Ok false
  else if negb (String.eqb (sn_state_hash row) (state_hash (cp_simulator c))) then Ok false
  else
    let! stored := replay_mapping (Some (sn_state row)) in
    let! a := replay_canonical_json (VDict stored) in
    let! b := replay_canonical_json (VDict state_json) in
    Ok (String.eqb a b).

Definition save (sid principal : string) (session_version : Z) (c : ReplayCheckpoint) : ST Db unit :=
  lift (raise_if (session_version <=? 0) ValueError) ;;;
  state_json <- lift (checkpoint_payload c) ;;
  reraise save_conflict (transaction (
    require_principal sid principal ;;;
    existing <- (fun db => (one_or_none (snapshots_at sid session_version db), db)) ;;
    match existing with
    | Some row =>
        same <- lift (same_checkpoint row c state_json) ;;
        if same : bool then sret tt else sraise (replay_error R_SNAPSHOT_CONFLICT)
    | None =>
        insert_snapshot (mk_snapshot_row sid session_version (state_version (cp_simulator c))
                           (state_hash (cp_simulator c)) (VDict state_json))
    end)).

(** ** Publication *)

Definition publish (row : event_row) : result PersistedReplayEvent :=
  let! payload := replay_mapping (Some (e_payload row)) in
  Ok (mk_published (e_event_seq row) (e_logical_ts_ns row) (e_event_type row) payload
        (e_current_event_hash row)).

Definition after_seq (after : option Z) (row : event_row) : bool :=
  match after with None => true | Some n => n <? e_event_seq row end.

Definition read_after (sid principal : string) (after : option Z) (limit : Z)
    : ST Db (list PersistedReplayEvent) :=
  lift (raise_if match after with Some n => n <? 0 | None => false end ValueError) ;;;
  lift (raise_if ((limit <=? 0) || (10000 <? limit)) ValueError) ;;;
  require_principal sid principal ;;;
  rows <- gets (fun db => take (Z.to_nat limit)
                 (py_sorted e_event_seq (List.filter (after_seq after) (event_rows sid db)))) ;;
  lift (rmap publish rows).

(** ** The ports *)

Class SimulatorPort (Sim : Type) := {
  sim_restore : option ReplayCheckpoint -> ST Sim SimulatorState;
  sim_apply : ReplayInput -> Z -> ST Sim SimulatorState;
}.

Class ReplaySource := {
  next_after : string -> option Z -> Z -> Z -> result (list ReplayInput);
}.

(** ** What the coordinator relies on

    A deterministic simulator: it holds one state; restoring nothing gives the pristine state,
    restoring a checkpoint of a state it once produced gives that state back, and applying an input
    with the current version gives the next state.  Every state it produces is made by
    [SimulatorState.from_snapshot] from a JSON object. *)

Definition state_made (s : SimulatorState) : Prop :=
  exists snap, json_ok (VDict snap) = true /\ from_snapshot (state_version s) (state_hash s) snap = Ok s.

Inductive produced (pristine : SimulatorState) (next : SimulatorState -> ReplayInput -> result SimulatorState)
    : SimulatorState -> Prop :=
| produced_pristine : produced pristine next pristine
| produced_next s i s' : produced pristine next s -> next s i = Ok s' -> produced pristine next s'.

Class DeterministicSimulator (Sim : Type) `{SimulatorPort Sim} := {
  pristine : SimulatorState;
  sim_next : SimulatorState -> ReplayInput -> result SimulatorState;
  holds : Sim -> SimulatorState -> Prop;
  restore_pristine (x : Sim) : exists x', sim_restore None x = (Ok pristine, x') /\ holds x' pristine;
  restore_produced (x : Sim) (c : ReplayCheckpoint) : produced pristine sim_next (cp_simulator c) ->
    exists x', sim_restore (Some c) x = (Ok (cp_simulator c), x') /\ holds x' (cp_simulator c);
  apply_next (x : Sim) (s : SimulatorState) (i : ReplayInput) : holds x s ->
    exists x', sim_apply i (state_version s) x = (sim_next s i, x') /\
      (forall s', sim_next s i = Ok s' -> holds x' s');
  produced_made (s : SimulatorState) : produced pristine sim_next s -> state_made s;
}.

(** A canonical source: each manifest names one list of inputs, numbered from zero and ordered by
    time; [next_after] returns the next ones after a sequence number, up to a time and a limit. *)

Definition after_input (after : option Z) (i : ReplayInput) : bool :=
  match after with None => true | Some n => n <? source_event_seq i end.

Class CanonicalSource `{ReplaySource} := {
  inputs_of : string -> list ReplayInput;
  inputs_seq (m : string) (k : nat) (i : ReplayInput) :
    inputs_of m !! k = Some i -> source_event_seq i = Z.of_nat k;
  inputs_ordered (m : string) :
    StronglySorted (fun a b => logical_ts_ns a <= logical_ts_ns b) (inputs_of m);
  inputs_bounded (m : string) : Z.of_nat (length (inputs_of m)) <= U64_MAX;
  next_inputs (m : string) (after : option Z) (through limit : Z) : 0 < limit ->
    next_after m after through limit =
    Ok (take (Z.to_nat limit)
          (List.filter (fun i => after_input after i && (logical_ts_ns i <=? through)) (inputs_of m)));
}.

(** ** Lemmas on the codec *)

Lemma replay_canonical_ok v :
  json_ok v = true -> exists t, replay_canonical_json v = Ok t /\ json_dumps true v = Ok t.
Proof. apply canonical_json_ok. Qed.

Lemma replay_canonical_canon v :
  json_ok v = true -> replay_canonical_json (canon v) = replay_canonical_json v.
Proof.
  intros Hv. unfold replay_canonical_json. rewrite !reject_float_ok, dumps_canon; try done.
  by apply canon_json_ok.
Qed.

Lemma canon_is_dict d : exists d', canon (VDict d) = VDict d'.
Proof. cbn. eauto. Qed.

Lemma json_ok_str_keys d : json_ok (VDict d) = true -> str_keys d = true.
Proof.
  intros [H _]%json_ok_dict. unfold str_keys. apply forallb_forall. intros [k v] Hin%list_elem_of_In.
  rewrite Forall_forall in H. by destruct (H _ Hin), k.
Qed.

(** A made state is the state of its own decoded snapshot. *)
Lemma snapshot_made s :
  state_made s -> exists snap, snapshot s = Ok snap /\ json_ok (VDict snap) = true /\
    from_snapshot (state_version s) (state_hash s) snap = Ok s.
Proof.
  intros (snap & Hj & H). pose proof H as Hmade. unfold from_snapshot in H.
  apply rbind_Ok in H as (? & Hv & H). apply rbind_Ok in H as (? & Hh & H).
  apply rbind_Ok in H as (t & Ht & H). injection H as Hs.
  destruct (replay_canonical_ok _ Hj) as (t' & Ht' & Hd). rewrite Ht in Ht'. injection Ht' as <-.
  pose proof (canon_json_ok _ Hj) as Hc. pose proof (replay_canonical_canon _ Hj) as Hcan.
  destruct (canon_is_dict snap) as (d & Ed). exists d. unfold snapshot, loads_object.
  replace (canonical_snapshot_json s) with t by by rewrite <- Hs.
  rewrite (loads_dumps _ _ _ Hj Hd), Ed. rewrite Ed in Hc, Hcan. split_and!; [done|done|].
  rewrite <- Hmade. unfold from_snapshot. by rewrite Hcan.
Qed.

Lemma canonical_int_str n : - 2 ^ 63 <= n < 2 ^ 64 -> canonical_int (Some (VStr (str_Z n))) = Ok n.
Proof.
  intros Hn. unfold canonical_int. pose proof (py_int_str_Z n Hn) as Hi. rewrite Hi.
  unfold str_Z in *. destruct (n <? 0) eqn:E; bools.
  - destruct (str_N_nonempty (- n)) as (c & s & Es). pose proof (str_N_all (- n)) as Ha.
    pose proof (str_N_no_zero (- n) ltac:(lia)) as Hz. rewrite Es in *. cbn [starts_with is_empty tail orb].
    cbn in Ha. apply andb_true_iff in Ha as [Hc Hs]. cbn [raise_if rbind].
    replace (String.eqb (String "-" (String c s)) "-0") with false.
    + change (("-" =? "-")%char) with true. cbn [andb]. by rewrite (isdigit_digits c s), Hz by done.
    + symmetry. apply String.eqb_neq. intros [= -> ->]. by cbn in Hz.
  - destruct (str_N_nonempty n) as (c & s & Es). pose proof (str_N_all n) as Ha.
    pose proof (str_N_no_leading_zero n ltac:(lia)) as Hz. rewrite Es in *. cbn in Ha.
    apply andb_true_iff in Ha as [Hc Hs]. destruct (starts_with_digit c s Hc) as [Hm Hp].
    rewrite Hm, Hp, Hz. cbn [is_empty orb raise_if rbind].
    replace (String.eqb (String c s) "-0") with false.
    + by rewrite (isdigit_digits c s).
    + symmetry. apply String.eqb_neq. intros [= -> ->]. discriminate Hc.
Qed.

(** ** The checkpoint round trip *)

Record checkpoint_made (c : ReplayCheckpoint) : Prop := mk_checkpoint_made {
  cm_time : - 2 ^ 63 <= cp_logical_time_ns c < 2 ^ 63;
  cm_seq : match cp_source_event_seq c with Some n => 0 <= n < 2 ^ 64 | None => True end;
  cm_state : state_made (cp_simulator c);
}.

Lemma post_init_Ok t seq s c :
  ReplayCheckpoint_post_init t seq s = Ok c <->
  c = mk_checkpoint t seq s /\ - 2 ^ 63 <= t < 2 ^ 63 /\
  match seq with Some n => 0 <= n < 2 ^ 64 | None => True end.
Proof.
  unfold ReplayCheckpoint_post_init, replay_validate_i64, validate_u64, I64_MIN, I64_MAX, U64_MAX, raise_if.
  destruct (_ || _)%bool eqn:E; cbn; [split; [done|lia]|].
  destruct seq as [n|]; cbn; [destruct ((n <? 0) || (2 ^ 64 - 1 <? n))%bool eqn:E2; cbn|].
  - split; [done|lia].
  - split; [intros [= <-]; split_and!; [done|lia..]|by intros (-> & _)].
  - split; [intros [= <-]; split_and!; [done|lia..|done]|by intros (-> & _)].
Qed.

Definition snapshot_payload (c : ReplayCheckpoint) (snap : pydict) : pydict :=
  obj [("checkpoint_format", VStr CHECKPOINT_FORMAT);
       ("logical_time_ns", VStr (str_Z (cp_logical_time_ns c)));
       ("simulator_snapshot", VDict snap);
       ("source_event_seq", match cp_source_event_seq c with
                            | None => VNone | Some n => VStr (str_Z n) end)].

Lemma payload_json_ok c snap : json_ok (VDict snap) = true -> json_ok (VDict (snapshot_payload c snap)) = true.
Proof.
  intros Hj. apply json_ok_dict. split.
  - unfold snapshot_payload. cbn -[json_ok]. repeat constructor; try done. cbn -[json_ok].
    by destruct (cp_source_event_seq c).
  - unfold snapshot_payload. cbn. repeat (apply NoDup_cons; split; [set_solver|]). apply NoDup_nil. done.
Qed.

Lemma checkpoint_payload_eq c snap :
  snapshot (cp_simulator c) = Ok snap -> checkpoint_payload c = Ok (snapshot_payload c snap).
Proof. unfold checkpoint_payload. by intros ->. Qed.

Lemma checkpoint_payload_made c :
  checkpoint_made c -> exists snap, json_ok (VDict snap) = true /\
    checkpoint_payload c = Ok (snapshot_payload c snap) /\
    decode_checkpoint (VDict (snapshot_payload c snap)) (state_version (cp_simulator c))
      (state_hash (cp_simulator c)) = Ok c.
Proof.
  intros [Ht Hs Hm]. destruct (snapshot_made _ Hm) as (snap & Hsnap & Hj & Hfrom).
  exists snap. split; [done|]. split; [unfold checkpoint_payload; by rewrite Hsnap|].
  unfold decode_checkpoint, replay_mapping. rewrite (json_ok_str_keys _ (payload_json_ok c snap Hj)).
  cbn [rbind]. change (dict_get "checkpoint_format" _) with (Some (VStr CHECKPOINT_FORMAT)).
  change (dict_get "logical_time_ns" _) with (Some (VStr (str_Z (cp_logical_time_ns c)))).
  change (dict_get "simulator_snapshot" _) with (Some (VDict snap)).
  rewrite canonical_int_str by lia. cbn [rbind].
  destruct c as [t seq s]; cbn [snapshot_payload cp_source_event_seq cp_logical_time_ns cp_simulator] in *.
  change (dict_get "source_event_seq" _)
    with (Some match seq with None => VNone | Some n => VStr (str_Z n) end).
  assert (optional_int (Some match seq with None => VNone | Some n => VStr (str_Z n) end) = Ok seq) as ->.
  { destruct seq as [n|]; [|done]. cbn [optional_int]. by rewrite canonical_int_str by lia. }
  cbn [rbind raise_if]. rewrite String.eqb_refl. cbn [negb raise_if rbind].
  rewrite (json_ok_str_keys _ Hj). cbn [rbind]. rewrite Hfrom. cbn [rbind].
  by rewrite (proj2 (post_init_Ok _ _ _ _)) by done.
Qed.

(** ** The store *)

Definition owns (sid principal : string) (db : Db) : Prop :=
  exists row, sessions db !! sid = Some row /\ s_principal_id row = principal.

Lemma require_principal_owns sid p db : owns sid p db -> require_principal sid p db = (Ok tt, db).
Proof. intros (row & Hs & Hp). unfold require_principal. by rewrite Hs, Hp, String.eqb_refl. Qed.

Lemma require_principal_Ok sid p db u db' :
  require_principal sid p db = (Ok u, db') -> db' = db /\ owns sid p db.
Proof.
  unfold require_principal. destruct (sessions db !! sid) as [row|] eqn:E; [|done].
  destruct (String.eqb_spec (s_principal_id row) p); [|done]. intros [= _ <-]. split; [done|]. by exists row.
Qed.

(** The snapshot row of a checkpoint saved at a session version. *)
Definition row_of (sid : string) (v : Z) (c : ReplayCheckpoint) (row : snapshot_row) : Prop :=
  exists p, checkpoint_payload c = Ok p /\
    row = mk_snapshot_row sid v (state_version (cp_simulator c)) (state_hash (cp_simulator c)) (VDict p).

Definition snapshot_key (r : snapshot_row) : string * Z := (sn_session_id r, sn_event_seq r).

Lemma elem_of_snapshots_at r sid v db :
  r ∈ snapshots_at sid v db <-> r ∈ snapshots db /\ snapshot_key r = (sid, v).
Proof.
  unfold snapshots_at, snapshot_key. rewrite elem_of_filterb, andb_true_iff, String.eqb_eq, Z.eqb_eq.
  split; [intros (? & <- & <-)|intros (? & [= <- <-])]; done.
Qed.

Lemma save_Ok sid p v c db u db' :
  save sid p v c db = (Ok u, db') ->
  0 < v /\ owns sid p db /\
  ((db' = db /\ exists row, row ∈ snapshots db /\ snapshot_key row = (sid, v)) \/
   (snapshots_at sid v db = [] /\ 0 < state_version (cp_simulator c) /\
    exists row, row_of sid v c row /\ db' = set_snapshots (snapshots db ++ [row]) db)).
Proof.
  intros H. unfold save in H.
  apply sbind_Ok in H as (? & ? & Hl & H). apply lift_Ok in Hl as [Hv%raise_if_Ok ->]. apply Z.leb_gt in Hv.
  apply sbind_Ok in H as (payload & ? & Hl & H). apply lift_Ok in Hl as [Hp ->].
  apply reraise_inv, transaction_inv in H.
  apply sbind_Ok in H as (? & ? & Hl & H). apply require_principal_Ok in Hl as [-> Ho].
  apply sbind_Ok in H as (ex & ? & Hl & H). injection Hl as He <-. split; [done|]. split; [done|].
  unfold one_or_none in He. destruct (snapshots_at sid v db) as [|r [|]] eqn:Es; [| |done]; injection He as <-.
  - right. unfold insert_snapshot in H. cbn [sn_session_id sn_event_seq sn_state_version] in H. rewrite Es in H.
    cbn [negb orb] in H. destruct (v <? 0); [done|]. cbn [orb] in H.
    destruct (state_version (cp_simulator c) <=? 0) eqn:E0; [done|]. cbn [orb] in H.
    destruct (has_session sid db); [|done]. cbn in H. injection H as _ <-.
    split; [done|]. split; [by apply Z.leb_gt|]. eexists. split; [|done]. by exists payload.
  - left. apply sbind_Ok in H as (same & ? & Hl & H). apply lift_Ok in Hl as [_ ->].
    destruct same; [|done]. injection H as _ <-. split; [done|]. exists r. apply elem_of_snapshots_at.
    rewrite Es. by left.
Qed.

Lemma save_Raise sid p v c db e db' : save sid p v c db = (Raise e, db') -> db' = db.
Proof. unfold save. repeat (apply sbind_lift_Raise; intros ? ? ? ?). apply reraise_tx_Raise. Qed.

(** Saving into a free version succeeds, and so does saving the same checkpoint again. *)
Lemma save_new sid p v c db :
  0 < v -> checkpoint_made c -> owns sid p db -> snapshots_at sid v db = [] -> 0 < state_version (cp_simulator c) ->
  exists row, row_of sid v c row /\ save sid p v c db = (Ok tt, set_snapshots (snapshots db ++ [row]) db).
Proof.
  intros Hv Hc Ho Hn Hsv. destruct (checkpoint_payload_made c Hc) as (snap & _ & Hp & _).
  eexists. split; [exists (snapshot_payload c snap); by split|]. unfold save.
  rewrite (proj2 (raise_if_Ok _ _ tt)) by (apply Z.leb_gt; lia). rewrite Hp, !sbind_lift.
  unfold reraise, transaction. rewrite (sbind_run _ _ _ _ _ (require_principal_owns _ _ _ Ho)).
  unfold sbind. rewrite Hn. cbn [one_or_none]. unfold insert_snapshot.
  cbn [sn_session_id sn_event_seq sn_state_version]. rewrite Hn. cbn [negb orb].
  destruct Ho as (row & Hs & _). unfold has_session. rewrite Hs. cbn [negb].
  rewrite (proj2 (Z.ltb_ge v 0)), (proj2 (Z.leb_gt _ 0)) by lia. done.
Qed.

(** A simulator state of version 0, which [validate_simulator_state] accepts, cannot be stored: the
    table wants a positive version. *)
Theorem zero_version_conflict sid p v c db :
  0 < v -> checkpoint_made c -> owns sid p db -> snapshots_at sid v db = [] -> state_version (cp_simulator c) = 0 ->
  save sid p v c db = (Raise (replay_error R_SNAPSHOT_CONFLICT), db).
Proof.
  intros Hv Hc Ho Hn Hsv. destruct (checkpoint_payload_made c Hc) as (snap & _ & Hp & _). unfold save.
  rewrite (proj2 (raise_if_Ok _ _ tt)) by (apply Z.leb_gt; lia). rewrite Hp, !sbind_lift.
  unfold reraise, transaction. rewrite (sbind_run _ _ _ _ _ (require_principal_owns _ _ _ Ho)).
  unfold sbind. rewrite Hn. cbn [one_or_none]. unfold insert_snapshot. cbn [sn_state_version].
  rewrite (proj2 (Z.leb_le (state_version _) 0)) by lia. by rewrite orb_true_r.
Qed.

Lemma save_again sid p v c row db :
  0 < v -> checkpoint_made c -> owns sid p db -> snapshots_at sid v db = [row] -> row_of sid v c row ->
  save sid p v c db = (Ok tt, db).
Proof.
  intros Hv Hc Ho Hn (payload & Hp & ->).
  destruct (checkpoint_payload_made c Hc) as (snap & Hj & Hp' & _). assert (payload = snapshot_payload c snap) as -> by congruence.
  unfold save. rewrite (proj2 (raise_if_Ok _ _ tt)) by (apply Z.leb_gt; lia). rewrite Hp, !sbind_lift.
  unfold reraise, transaction. rewrite (sbind_run _ _ _ _ _ (require_principal_owns _ _ _ Ho)).
  unfold sbind. rewrite Hn. cbn [one_or_none]. unfold same_checkpoint, replay_mapping.
  cbn [sn_state_version sn_state_hash sn_state]. rewrite Z.eqb_refl, String.eqb_refl. cbn [negb].
  pose proof (payload_json_ok c snap Hj) as Hjp. rewrite (json_ok_str_keys _ Hjp). cbn [rbind].
  destruct (replay_canonical_ok _ Hjp) as (t & -> & _). cbn. by rewrite String.eqb_refl.
Qed.

Lemma last_py_sorted {A} (key : A -> Z) l x :
  last (py_sorted key l) = Some x -> x ∈ l /\ forall y, y ∈ l -> key y <= key x.
Proof.
  intros H. apply last_Some in H as [l' E]. split.
  - rewrite <- (elem_of_py_sorted key), E. apply elem_of_app. right. by left.
  - intros y Hy. rewrite <- (elem_of_py_sorted key), E in Hy. pose proof (py_sorted_sorted key l) as Hs.
    rewrite E in Hs. apply elem_of_app in Hy as [Hy|Hy%list_elem_of_singleton]; [|subst; lia].
    apply StronglySorted_app_1_elem_of with (x1 := y) (x2 := x) in Hs; [|done|by left].
    unfold key_le, kle, cmp, Z_cmp in Hs. rewrite Z.compare_gt_iff in Hs. lia.
Qed.

Lemma last_session_snapshot sid db :
  match last (session_snapshots sid db) with
  | None => forall r, r ∈ snapshots db -> sn_session_id r <> sid
  | Some r => r ∈ snapshots db /\ sn_session_id r = sid /\
      forall r', r' ∈ snapshots db -> sn_session_id r' = sid -> sn_event_seq r' <= sn_event_seq r
  end.
Proof.
  unfold session_snapshots. destruct (last _) as [r|] eqn:E.
  - apply last_py_sorted in E as [Hr Hmax]. apply elem_of_filterb in Hr as [Hr Hs]. apply String.eqb_eq in Hs.
    split_and!; [done|done|]. intros r' Hr' Hs'. apply Hmax. apply elem_of_filterb. split; [done|].
    by apply String.eqb_eq.
  - apply last_None in E. intros r Hr Hs. assert (r ∈ py_sorted sn_event_seq
      (List.filter (fun r => String.eqb (sn_session_id r) sid) (snapshots db))) as Hin.
    { apply elem_of_py_sorted, elem_of_filterb. split; [done|]. by apply String.eqb_eq. }
    rewrite E in Hin. by apply not_elem_of_nil in Hin.
Qed.

Lemma load_latest_Ok sid p db r db' :
  load_latest sid p db = (r, db') -> db' = db.
Proof.
  unfold load_latest, sbind, require_principal, gets, lift. destruct (sessions db !! sid) as [row|]; [|by intros [= _ <-]].
  unfold raise_if. destruct (negb _); [by intros [= _ <-]|].
  destruct (last _); [|by intros [= _ <-]]. destruct (decode_checkpoint _ _ _); by intros [= _ <-].
Qed.

(** The newest row of an owned session is what [load_latest] decodes. *)
Lemma load_latest_row sid p db row v c :
  owns sid p db -> last (session_snapshots sid db) = Some row -> checkpoint_made c -> row_of sid v c row ->
  load_latest sid p db = (Ok (Some c), db).
Proof.
  intros Ho Hl Hc (payload & Hp & ->). destruct (checkpoint_payload_made c Hc) as (snap & _ & Hp' & Hd).
  assert (payload = snapshot_payload c snap) as -> by congruence. unfold load_latest.
  rewrite (sbind_run _ _ _ _ _ (require_principal_owns _ _ _ Ho)). unfold sbind, gets. rewrite Hl.
  unfold lift. cbn [sn_state sn_state_version sn_state_hash]. by rewrite Hd.
Qed.

Lemma load_latest_none sid p db :
  owns sid p db -> last (session_snapshots sid db) = None -> load_latest sid p db = (Ok None, db).
Proof.
  intros Ho Hl. unfold load_latest. rewrite (sbind_run _ _ _ _ _ (require_principal_owns _ _ _ Ho)).
  unfold sbind, gets. by rewrite Hl.
Qed.

Lemma made_text s snap :
  from_snapshot (state_version s) (state_hash s) snap = Ok s ->
  replay_canonical_json (VDict snap) = Ok (canonical_snapshot_json s).
Proof.
  unfold from_snapshot. intros H. apply rbind_Ok in H as (? & _ & H). apply rbind_Ok in H as (? & _ & H).
  apply rbind_Ok in H as (t & Ht & H). injection H as <-. exact Ht.
Qed.

Lemma option_text_inj (a b : option Z) :
  match a with Some n => 0 <= n < 2 ^ 64 | None => True end ->
  match b with Some n => 0 <= n < 2 ^ 64 | None => True end ->
  match a with None => VNone | Some n => VStr (str_Z n) end =
  match b with None => VNone | Some n => VStr (str_Z n) end -> a = b.
Proof.
  destruct a, b; try done. intros Ha Hb [= E]. f_equal. apply str_Z_inj in E; [done|lia|lia].
Qed.

(** Two checkpoints with the same stored text, version and hash are the same. *)
Lemma payload_text_inj c1 c2 p1 p2 t :
  checkpoint_made c1 -> checkpoint_made c2 -> checkpoint_payload c1 = Ok p1 -> checkpoint_payload c2 = Ok p2 ->
  replay_canonical_json (VDict p1) = Ok t -> replay_canonical_json (VDict p2) = Ok t ->
  state_version (cp_simulator c1) = state_version (cp_simulator c2) ->
  state_hash (cp_simulator c1) = state_hash (cp_simulator c2) -> c1 = c2.
Proof.
  intros H1 H2 Hp1 Hp2 Ht1 Ht2 Hv Hh.
  destruct H1 as [Hn1 Hs1 Hm1], H2 as [Hn2 Hs2 Hm2].
  destruct (snapshot_made _ Hm1) as (snap1 & E1 & J1 & F1), (snapshot_made _ Hm2) as (snap2 & E2 & J2 & F2).
  apply checkpoint_payload_eq in E1, E2. rewrite E1 in Hp1. rewrite E2 in Hp2.
  apply Ok_inj in Hp1 as <-. apply Ok_inj in Hp2 as <-.
  pose proof (payload_json_ok c1 snap1 J1) as K1. pose proof (payload_json_ok c2 snap2 J2) as K2.
  destruct (replay_canonical_ok _ K1) as (t1 & T1 & D1), (replay_canonical_ok _ K2) as (t2 & T2 & D2).
  rewrite Ht1 in T1. rewrite Ht2 in T2. injection T1 as <-. injection T2 as <-.
  pose proof (dumps_inj _ _ _ _ K1 K2 D1 D2) as E. rewrite !canon_dict, !map_canon_sorted in E. cbn -[canon str_Z] in E.
  injection E as Ea Eb Ec.
  assert (canon (VDict snap1) = canon (VDict snap2)) as Ecan by (cbn; by rewrite Eb). clear Eb.
  apply made_text in F1, F2. rewrite <- replay_canonical_canon, Ecan, replay_canonical_canon, F2 in F1 by done.
  destruct c1 as [t1 q1 [v1 h1 x1]], c2 as [t2 q2 [v2 h2 x2]]. cbn in *. injection F1 as ->.
  apply str_Z_inj in Ea; [|lia|lia]. assert (q1 = q2) as ->; [|by subst].
  apply option_text_inj; try done. destruct q1, q2; cbn in *; congruence.
Qed.

(** Saving into an occupied version: an exact retry is accepted, anything else is a conflict. *)
Lemma save_occupied sid p v c c' row db :
  0 < v -> checkpoint_made c -> checkpoint_made c' -> owns sid p db -> snapshots_at sid v db = [row] ->
  row_of sid v c row ->
  save sid p v c' db = (if bool_decide (c' = c) then Ok tt else Raise (replay_error R_SNAPSHOT_CONFLICT), db).
Proof.
  intros Hv Hc Hc' Ho Hn Hrow. case_bool_decide as He; [subst; by eapply save_again|].
  destruct Hrow as (p1 & Hp1 & ->).
  destruct (checkpoint_payload_made c' Hc') as (snap' & Hj' & Hp' & _).
  destruct (checkpoint_payload_made c Hc) as (snap & Hj & Hp & _).
  assert (p1 = snapshot_payload c snap) as -> by congruence.
  unfold save. rewrite (proj2 (raise_if_Ok _ _ tt)) by (apply Z.leb_gt; lia). rewrite Hp', !sbind_lift.
  unfold reraise, transaction. rewrite (sbind_run _ _ _ _ _ (require_principal_owns _ _ _ Ho)).
  unfold sbind. rewrite Hn. cbn [one_or_none]. unfold same_checkpoint, replay_mapping.
  cbn [sn_state_version sn_state_hash sn_state].
  destruct (Z.eqb_spec (state_version (cp_simulator c)) (state_version (cp_simulator c'))) as [Ev|]; cbn [negb]; [|done].
  destruct (String.eqb_spec (state_hash (cp_simulator c)) (state_hash (cp_simulator c'))) as [Eh|]; cbn [negb]; [|done].
  pose proof (payload_json_ok c snap Hj) as K. pose proof (payload_json_ok c' snap' Hj') as K'.
  rewrite (json_ok_str_keys _ K). cbn [rbind].
  destruct (replay_canonical_ok _ K) as (t & Ht & _), (replay_canonical_ok _ K') as (t' & Ht' & _).
  rewrite Ht, Ht'. cbn. destruct (String.eqb_spec t t') as [<-|]; [|done].
  exfalso. apply He. by eapply payload_text_inj.
Qed.

(** C14. A saved checkpoint survives the snapshot table: saved at a version above the stored ones it is
    what [load_latest] reads back, and a second save at that version succeeds, changing nothing,
    exactly when it saves the same checkpoint, and is a conflict otherwise. *)
Theorem checkpoint_store_roundtrip sid p v c db db1 :
  checkpoint_made c -> (forall r, r ∈ snapshots db -> sn_session_id r = sid -> sn_event_seq r < v) ->
  save sid p v c db = (Ok tt, db1) ->
  load_latest sid p db1 = (Ok (Some c), db1) /\
  forall c', checkpoint_made c' ->
    save sid p v c' db1 = (if bool_decide (c' = c) then Ok tt else Raise (replay_error R_SNAPSHOT_CONFLICT), db1).
Proof.
  intros Hc Hnew H. apply save_Ok in H as (Hv & Ho & [(-> & r & Hr & Hk)|(Hn & _ & row & Hrow & ->)]).
  { exfalso. injection Hk as Hs Hq. specialize (Hnew r Hr Hs). lia. }
  set (db1 := set_snapshots _ _). assert (owns sid p db1) as Ho1 by done.
  pose proof Hrow as (payload & _ & Erow).
  assert (forall r, r ∈ snapshots db1 -> sn_session_id r = sid -> r = row \/ sn_event_seq r < v) as Hold.
  { cbn. intros r [Hr|Hr%list_elem_of_singleton]%elem_of_app Hs; [right; by apply Hnew|by left]. }
  split.
  - pose proof (last_session_snapshot sid db1) as Hl. destruct (last (session_snapshots sid db1)) as [r|] eqn:El.
    + destruct Hl as (Hr & Hs & Hmax). destruct (Hold r Hr Hs) as [->|Hlt]; [by eapply load_latest_row|].
      exfalso. specialize (Hmax row). subst row. cbn in Hmax.
      enough (v <= sn_event_seq r) by lia. apply Hmax; [|done]. apply elem_of_app. right. by left.
    + exfalso. apply (Hl row); [|by subst]. cbn. apply elem_of_app. right. by left.
  - intros c' Hc'. eapply save_occupied; try done. unfold snapshots_at, db1. cbn. rewrite List.filter_app.
    unfold snapshots_at in Hn. rewrite Hn. subst row. cbn. by rewrite String.eqb_refl, Z.eqb_refl.
Qed.

Lemma identity_canon_inj q1 t1 k1 p1 q2 t2 k2 p2 :
  canon (input_identity q1 t1 k1 p1) = canon (input_identity q2 t2 k2 p2) ->
  k1 = k2 /\ str_Z t1 = str_Z t2 /\ canon p1 = canon p2 /\ str_Z q1 = str_Z q2.
Proof.
  unfold input_identity. generalize (str_Z q1), (str_Z q2), (str_Z t1), (str_Z t2). intros a b c d.
  rewrite !canon_dict, !map_canon_sorted. intros E. injection E as Ek Et Ep Eq. done.
Qed.

Lemma validate_u64_Ok v u : validate_u64 v = Ok u -> 0 <= v < 2 ^ 64.
Proof. unfold validate_u64, U64_MAX. intros H%raise_if_Ok. lia. Qed.
Lemma replay_validate_i64_Ok v u : replay_validate_i64 v = Ok u -> - 2 ^ 63 <= v < 2 ^ 63.
Proof. unfold replay_validate_i64, I64_MIN, I64_MAX. intros H%raise_if_Ok. lia. Qed.

Lemma input_from_payload_Ok seq t k payload i :
  json_ok (VDict payload) = true -> input_from_payload seq t k payload = Ok i ->
  0 <= seq < 2 ^ 64 /\ - 2 ^ 63 <= t < 2 ^ 63 /\
  source_event_seq i = seq /\ logical_ts_ns i = t /\ kind i = k /\
  (exists d, canon (VDict payload) = VDict d /\ input_payload i = Ok d) /\
  exists text, json_ok (input_identity seq t k (canon (VDict payload))) = true /\
    json_dumps true (input_identity seq t k (canon (VDict payload))) = Ok text /\
    input_hash i = sha256_hex (utf8 text).
Proof.
  intros Hj H. unfold input_from_payload in H.
  apply rbind_Ok in H as (? & Hs%validate_u64_Ok & H). apply rbind_Ok in H as (? & Ht%replay_validate_i64_Ok & H).
  apply rbind_Ok in H as (? & _ & H). apply rbind_Ok in H as (text & Htext & H).
  destruct (replay_canonical_ok _ Hj) as (text' & Et & Hd). rewrite Htext in Et. injection Et as <-.
  pose proof (loads_dumps _ _ _ Hj Hd) as Hl. rewrite Hl in H. cbn [rbind] in H.
  pose proof (canon_json_ok _ Hj) as Hc.
  assert (json_ok (input_identity seq t k (canon (VDict payload))) = true) as Hi.
  { apply json_ok_dict. split; [|cbn; repeat (apply NoDup_cons; split; [set_solver|]); by apply NoDup_nil].
    cbn -[json_ok canon]. repeat constructor; done. }
  destruct (replay_canonical_ok _ Hi) as (it & Ei & Di). rewrite Ei in H. injection H as <-.
  split_and!; try done; try lia.
  - destruct (canon_is_dict payload) as (d & Ed). exists d. split; [done|].
    unfold input_payload, loads_object. cbn [canonical_payload_json]. by rewrite Hl, Ed.
  - by exists it.
Qed.

(** A replay input's hash binds the input: two inputs built from payloads with the same hash have
    the same sequence number, time, kind and payload up to key order, unless SHA-256 collides on
    their identities; and [payload] gives the constructor's payload back in canonical order. *)
Theorem input_hash_binds q1 t1 k1 p1 i1 q2 t2 k2 p2 i2 :
  json_ok (VDict p1) = true -> json_ok (VDict p2) = true ->
  input_from_payload q1 t1 k1 p1 = Ok i1 -> input_from_payload q2 t2 k2 p2 = Ok i2 ->
  (exists d, canon (VDict p1) = VDict d /\ input_payload i1 = Ok d) /\
  (input_hash i1 = input_hash i2 ->
   (q1 = q2 /\ t1 = t2 /\ k1 = k2 /\ canon (VDict p1) = canon (VDict p2)) \/
   exists text1 text2, collides text1 text2 /\
     json_dumps true (input_identity q1 t1 k1 (canon (VDict p1))) = Ok text1 /\
     json_dumps true (input_identity q2 t2 k2 (canon (VDict p2))) = Ok text2).
Proof.
  intros J1 J2 H1 H2.
  destruct (input_from_payload_Ok _ _ _ _ _ J1 H1) as (Q1 & T1 & _ & _ & _ & Hp & x1 & I1 & D1 & E1).
  destruct (input_from_payload_Ok _ _ _ _ _ J2 H2) as (Q2 & T2 & _ & _ & _ & _ & x2 & I2 & D2 & E2).
  split; [done|]. rewrite E1, E2. intros Eh. destruct (decide (x1 = x2)) as [<-|Hne].
  - left. destruct (identity_canon_inj _ _ _ _ _ _ _ _ (dumps_inj _ _ _ _ I1 I2 D1 D2)) as (-> & Et & Ep & Eq).
    rewrite !canon_idemp in Ep. apply str_Z_inj in Et; [|lia|lia]. apply str_Z_inj in Eq; [|lia|lia]. done.
  - right. by exists x1, x2.
Qed.

(** ** Reading published pages *)

(** A consumer that reads page after page, from the last sequence number it saw, until a page is empty. *)
Fixpoint read_pages (fuel : nat) (sid principal : string) (after : option Z) (limit : Z)
    : ST Db (list PersistedReplayEvent) :=
  match fuel with
  | O => sraise OutOfFuel
  | S f =>
      page <- read_after sid principal after limit ;;
      match last page with
      | None => sret []
      | Some e => rest <- read_pages f sid principal (Some (pe_event_seq e)) limit ;; sret (page ++ rest)
      end
  end.

Lemma chain_after n h l k :
  chain_from n h l -> n <= k + 1 ->
  List.filter (after_seq (Some k)) l = drop (Z.to_nat (k + 1 - n)) l.
Proof.
  revert n h. induction l as [|e l IH]; intros n h H Hk; [by rewrite drop_nil|].
  destruct H as (Hs & _ & H). cbn [List.filter after_seq]. rewrite Hs.
  destruct (k <? n) eqn:E; bools.
  - replace (Z.to_nat (k + 1 - n)) with 0%nat by lia. cbn. f_equal.
    apply filter_all. intros x Hx. pose proof (chain_bounds _ _ _ _ H Hx). cbn. apply Z.ltb_lt. lia.
  - replace (Z.to_nat (k + 1 - n)) with (S (Z.to_nat (k + 1 - (n + 1)))) by lia. cbn. eapply IH; [done|lia].
Qed.

Lemma publish_seq row e : publish row = Ok e -> pe_event_seq e = e_event_seq row.
Proof. unfold publish. intros (p & _ & [= <-])%rbind_Ok. done. Qed.

Lemma rmap_take_drop {A B} (f : A -> result B) l ys n m :
  rmap f l = Ok ys -> rmap f (take n (drop m l)) = Ok (take n (drop m ys)).
Proof. rewrite !rmap_Ok. intros H. by apply Forall2_take, Forall2_drop. Qed.

Lemma chain_lookup n h l j e : chain_from n h l -> l !! j = Some e -> e_event_seq e = n + Z.of_nat j.
Proof.
  revert n h j. induction l as [|x l IH]; intros n h j H Hj; [done|]. destruct H as (Hs & _ & H).
  destruct j as [|j]; cbn in Hj; [injection Hj as <-; lia|]. rewrite (IH _ _ _ H Hj). lia.
Qed.

Definition page_start (after : option Z) : nat := match after with None => 0 | Some k => Z.to_nat (k + 1) end.

Section Pages.
Context (db : Db) (sid principal : string) (limit : Z) (published : list PersistedReplayEvent).
Hypothesis Hchains : chains_ok db.
Hypothesis Howner : owns sid principal db.
Hypothesis Hlimit : 0 < limit <= 10000.
Hypothesis Hpublished : rmap publish (event_rows sid db) = Ok published.

Lemma read_after_page after :
  match after with Some k => 0 <= k | None => True end ->
  read_after sid principal after limit db =
  (Ok (take (Z.to_nat limit) (drop (page_start after) published)), db).
Proof using Hchains Howner Hlimit Hpublished.
  intros Hk. unfold read_after.
  rewrite (proj2 (raise_if_Ok _ _ tt)) by (destruct after; [apply Z.ltb_ge; lia|done]).
  rewrite (proj2 (raise_if_Ok _ _ tt)) by lia. rewrite !sbind_lift.
  rewrite (sbind_run _ _ _ _ _ (require_principal_owns _ _ _ Howner)). unfold sbind, gets, lift. f_equal.
  specialize (Hchains sid) as Hc.
  rewrite py_sorted_id by (apply StronglySorted_filterb; by eapply chain_sorted).
  assert (List.filter (after_seq after) (event_rows sid db) = drop (page_start after) (event_rows sid db)) as ->.
  { destruct after as [k|]; [|by apply filter_all]. rewrite (chain_after _ _ _ _ Hc) by lia.
    unfold page_start. f_equal. lia. }
  by apply rmap_take_drop.
Qed.

Lemma published_seq j e : published !! j = Some e -> pe_event_seq e = Z.of_nat j.
Proof using Hchains Hpublished.
  intros Hj. apply rmap_Ok in Hpublished. destruct (Forall2_lookup_r _ _ _ _ _ Hpublished Hj) as (row & Hr & Hp).
  apply publish_seq in Hp. rewrite Hp. rewrite (chain_lookup _ _ _ _ _ (Hchains sid) Hr). lia.
Qed.

Lemma read_pages_from fuel after :
  match after with Some k => 0 <= k | None => True end ->
  (length published - page_start after < fuel)%nat ->
  read_pages fuel sid principal after limit db = (Ok (drop (page_start after) published), db).
Proof using Hchains Howner Hlimit Hpublished.
  revert after. induction fuel as [|f IH]; intros after Hk Hf; [lia|]. cbn [read_pages].
  rewrite (sbind_run _ _ _ _ _ (read_after_page _ Hk)).
  set (m := page_start after) in *. set (page := take _ _).
  destruct (last page) as [e|] eqn:El.
  - rewrite last_lookup in El. pose proof (lookup_lt_Some _ _ _ El) as Hlen.
    set (j := pred (length page)) in *.
    assert (published !! (m + j)%nat = Some e) as Hj.
    { unfold page in El. apply lookup_take_Some in El as [El _]. by rewrite lookup_drop in El. }
    pose proof (published_seq _ _ Hj) as Hseq. pose proof (lookup_lt_Some _ _ _ Hj) as Hlt.
    assert (page_start (Some (pe_event_seq e)) = m + length page)%nat as Hps.
    { cbn. rewrite Hseq. lia. }
    unfold sbind. rewrite IH by (try rewrite Hps; lia). unfold sret. rewrite Hps. do 2 f_equal.
    rewrite <- drop_drop. unfold page. set (rest := drop m published). rewrite length_take.
    destruct (decide (Z.to_nat limit <= length rest)%nat) as [Hle|Hgt].
    + rewrite Nat.min_l by done. apply take_drop.
    + rewrite Nat.min_r, (take_ge rest), drop_ge by lia. by rewrite app_nil_r.
  - apply last_None in El. unfold sret. do 2 f_equal. unfold page in El. apply (f_equal length) in El.
    rewrite length_take in El. cbn in El. symmetry. apply length_zero_iff_nil. lia.
Qed.
End Pages.

(** Publication loses and repeats nothing: a consumer that reads pages of any legal size, each from
    the last sequence number it saw, gets every persisted event of the session exactly once, in
    order, and its loop ends. *)
Theorem read_pages_complete db sid principal limit published :
  chains_ok db -> owns sid principal db -> 0 < limit <= 10000 ->
  rmap publish (event_rows sid db) = Ok published ->
  read_pages (S (length published)) sid principal None limit db = (Ok published, db).
Proof.
  intros Hc Ho Hl Hp. rewrite (read_pages_from db sid principal limit published Hc Ho Hl Hp) by (cbn; lia).
  done.
Qed.

(** ** Concrete values *)

Definition demo_state (v : Z) : SimulatorState :=
  match from_snapshot v ZERO_HASH (obj [("z", VInt 1); ("a", VStr "x")]) with
  | Ok s => s | Raise _ => mk_sim 0 "" "" end.
Definition demo_checkpoint : ReplayCheckpoint := mk_checkpoint 10 (Some 3) (demo_state 4).

Lemma demo_checkpoint_made : checkpoint_made demo_checkpoint.
Proof.
  split; [cbn; lia|cbn; lia|]. exists (obj [("z", VInt 1); ("a", VStr "x")]). split; vm_compute; reflexivity.
Qed.

Lemma checkpoint_store_roundtrip_witness :
  let db := demo_sessions 3 in let db1 := snd (save "s1" "alice" 2 demo_checkpoint db) in
  load_latest "s1" "alice" db1 = (Ok (Some demo_checkpoint), db1).
Proof.
  intros db db1. apply (checkpoint_store_roundtrip "s1" "alice" 2 demo_checkpoint db db1).
  - exact demo_checkpoint_made.
  - intros r Hr. vm_compute in Hr. by apply not_elem_of_nil in Hr.
  - vm_compute. reflexivity.
Defined.

Definition demo_input (seq t : Z) (payload : pydict) : ReplayInput :=
  match input_from_payload seq t "bar" payload with Ok i => i | Raise _ => mk_input 0 0 "" "" "" end.

Lemma input_hash_binds_witness :
  let p1 := obj [("b", VInt 1); ("a", VNone)] in let p2 := obj [("a", VNone); ("b", VInt 1)] in
  input_from_payload 0 5 "bar" p1 = Ok (demo_input 0 5 p1) /\
  exists d, canon (VDict p1) = VDict d /\ input_payload (demo_input 0 5 p1) = Ok d.
Proof.
  intros p1 p2. split; [vm_compute; reflexivity|].
  apply (input_hash_binds 0 5 "bar" p1 (demo_input 0 5 p1) 0 5 "bar" p2 (demo_input 0 5 p2));
    vm_compute; reflexivity.
Defined.

Lemma read_pages_complete_witness :
  exists published, length published = 3%nat /\
  read_pages 4 "s1" "alice" None 2 (demo_sessions 4) = (Ok published, demo_sessions 4).
Proof.
  destruct (rmap publish (event_rows "s1" (demo_sessions 4))) as [l|] eqn:E; [|vm_compute in E; discriminate E].
  exists l. split; [vm_compute in E; injection E as <-; reflexivity|].
  assert (4 = S (length l))%nat as En by (vm_compute in E; injection E as <-; reflexivity).
  pattern 4%nat at 1. rewrite En. apply (read_pages_complete (demo_sessions 4) "s1" "alice" 2 l).
  - exact (do_chains _ (session_history_ok _ _ (demo_reachable 4) empty_db_ok)).
  - eexists. split; vm_compute; reflexivity.
  - lia.
  - exact E.
Defined.
