(* ===== verification/ReplayRun.v ===== *)
(** * The replay loop ([apps/api/.../replay/service.py])

    [run_until] is the coordinator's loop over source batches, with fuel for its [while True].
    Proved here: it equals a fold over the manifest's inputs whatever the batch size and whichever
    checkpoint it resumes from, and it validates untrusted ports. *)

From S2P Require Import Prelude Sort PyStr Bytes PyJson JsonParse Catalog Db SessionModel Session Frame ReplayModel.
From Stdlib Require String.

(** The loop variables of [_run_until]. *)
Record Run := mk_run {
  ru_state : SimulatorState;
  ru_after : option Z;
  ru_prior : Z;
  ru_applied : Z;
}.

Record RunResult := mk_run_result {
  rr_checkpoint : ReplayCheckpoint;
  rr_applied_inputs : Z;
}.

Definition validate_simulator_state (s : SimulatorState) : result unit :=
  let! _ := raise_if (state_version s <? 0) (replay_error R_SIMULATOR_VERSION) in
  raise_if (negb (is_sha256 (state_hash s))) (replay_error R_SIMULATOR_HASH).

Definition require_same_state (actual expected : SimulatorState) : result unit :=
  raise_if (negb (bool_decide (actual = expected))) (replay_error R_SNAPSHOT_CORRUPT).

Definition validate_transition (previous current : SimulatorState) : result unit :=
  let! _ := validate_simulator_state current in
  let! _ := raise_if (negb (state_version current =? state_version previous + 1)) (replay_error R_SIMULATOR_VERSION) in
  raise_if (String.eqb (state_hash current) (state_hash previous)) (replay_error R_SIMULATOR_HASH).

Definition expected_seq (after : option Z) : Z := match after with None => 0 | Some n => n + 1 end.

Definition validate_source_item (i : ReplayInput) (after : option Z) (prior warmup target : Z) : result unit :=
  let! _ := raise_if (negb (source_event_seq i =? expected_seq after)) (replay_error R_SOURCE_SEQUENCE) in
  let! _ := raise_if ((logical_ts_ns i <? warmup) || (logical_ts_ns i <? prior)) (replay_error R_SOURCE_TIME) in
  raise_if (target <? logical_ts_ns i) (replay_error R_SOURCE_TIME).

Section Coordinator.
Context {Sim : Type} `{SimulatorPort Sim} `{ReplaySource}.

(** [for item in batch: ...]. *)
Fixpoint apply_batch (warmup target : Z) (batch : list ReplayInput) (run : Run) : ST Sim Run :=
  match batch with
  | [] => sret run
  | i :: batch' =>
      lift (validate_source_item i (ru_after run) (ru_prior run) warmup target) ;;;
      next <- sim_apply i (state_version (ru_state run)) ;;
      lift (validate_transition (ru_state run) next) ;;;
      apply_batch warmup target batch'
        (mk_run next (Some (source_event_seq i)) (logical_ts_ns i) (ru_applied run + 1))
  end.

(** [while True: ...]. *)
Fixpoint run_loop (fuel : nat) (manifest : string) (warmup target batch_size : Z) (run : Run) : ST Sim Run :=
  match fuel with
  | O => sraise OutOfFuel
  | S f =>
      batch <- lift (next_after manifest (ru_after run) target batch_size) ;;
      lift (raise_if (batch_size <? Z.of_nat (length batch)) (replay_error R_SOURCE_SEQUENCE)) ;;;
      match batch with
      | [] => sret run
      | _ =>
          run' <- apply_batch warmup target batch run ;;
          if Z.of_nat (length batch) <? batch_size then sret run'
          else run_loop f manifest warmup target batch_size run'
      end
  end.

Definition run_until (fuel : nat) (manifest : string) (warmup target : Z)
    (checkpoint : option ReplayCheckpoint) (batch_size : Z) : ST Sim RunResult :=
  state <- sim_restore checkpoint ;;
  lift match checkpoint with
       | Some c => require_same_state state (cp_simulator c) | None => Ok tt end ;;;
  lift (validate_simulator_state state) ;;;
  run <- run_loop fuel manifest warmup target batch_size
    (mk_run state (match checkpoint with None => None | Some c => cp_source_event_seq c end)
       (match checkpoint with None => warmup | Some c => cp_logical_time_ns c end) 0) ;;
  c <- lift (ReplayCheckpoint_post_init target (ru_after run) (ru_state run)) ;;
  sret (mk_run_result c (ru_applied run)).

Definition warmup_start_ns (s : CommittedSetup) : Z := cs_play_start_ns s - cs_warmup_ns s.

End Coordinator.

(** ** Numbered, ordered inputs *)

Definition numbered (n : Z) (l : list ReplayInput) : Prop :=
  forall k i, l !! k = Some i -> source_event_seq i = n + Z.of_nat k.
Definition time_le (a b : ReplayInput) : Prop := logical_ts_ns a <= logical_ts_ns b.
Definition within (lo hi : Z) (i : ReplayInput) : Prop := lo <= logical_ts_ns i <= hi.

Lemma numbered_cons n i l : numbered n (i :: l) <-> source_event_seq i = n /\ numbered (n + 1) l.
Proof.
  split.
  - intros H. split; [rewrite (H 0%nat i) by done; lia|]. intros k x Hx. rewrite (H (S k) x) by done. lia.
  - intros [Hi H] [|k] x Hx; cbn in Hx; [injection Hx as <-; lia|]. rewrite (H k x) by done. lia.
Qed.

Lemma numbered_app n l1 l2 : numbered n (l1 ++ l2) <-> numbered n l1 /\ numbered (n + Z.of_nat (length l1)) l2.
Proof.
  revert n. induction l1 as [|i l1 IH]; intros n; cbn [app length].
  - rewrite Z.add_0_r. split; [intros Hn; split; [by intros [|k] x|done]|by intros [_ ?]].
  - rewrite !numbered_cons, IH. rewrite Nat2Z.inj_succ.
    replace (n + 1 + Z.of_nat (length l1)) with (n + Z.succ (Z.of_nat (length l1))) by lia. tauto.
Qed.

Lemma StronglySorted_app_inv {A} (R : A -> A -> Prop) l1 l2 :
  StronglySorted R (l1 ++ l2) ->
  StronglySorted R l1 /\ StronglySorted R l2 /\ (forall x y, x ∈ l1 -> y ∈ l2 -> R x y).
Proof.
  intros H. split_and!.
  - by apply StronglySorted_app_1_l in H.
  - by apply StronglySorted_app_1_r in H.
  - intros x y. by apply StronglySorted_app_1_elem_of.
Qed.

(** Filtering an ordered list by a time bound keeps a prefix. *)
Lemma until_prefix t l :
  StronglySorted time_le l -> exists n, List.filter (fun i => logical_ts_ns i <=? t) l = take n l.
Proof.
  induction 1 as [|i l Hl (n & IH) Hi]; [by exists 0%nat|]. cbn. destruct (logical_ts_ns i <=? t) eqn:E.
  - exists (S n). cbn. by rewrite IH.
  - exists 0%nat. cbn. apply filter_none. intros x Hx. rewrite Forall_forall in Hi. specialize (Hi x Hx).
    unfold time_le in Hi. lia.
Qed.

Lemma after_drop n after l :
  0 <= n -> numbered n l -> n <= expected_seq after ->
  List.filter (after_input after) l = drop (Z.to_nat (expected_seq after - n)) l.
Proof.
  revert n. induction l as [|i l IH]; intros n H0 Hn Ha; [by rewrite drop_nil|]. apply numbered_cons in Hn as [Hi Hn].
  cbn [List.filter]. destruct (after_input after i) eqn:E.
  - assert (expected_seq after = n) as ->.
    { destruct after as [m|]; cbn in *; [apply Z.ltb_lt in E; lia|].
      lia. }
    replace (Z.to_nat (n - n)) with 0%nat by lia. cbn. f_equal. apply filter_all. intros x Hx.
    apply list_elem_of_lookup in Hx as [k Hx]. specialize (Hn k x Hx).
    destruct after as [m|]; cbn in *; [apply Z.ltb_lt in E; apply Z.ltb_lt; lia|done].
  - assert (n + 1 <= expected_seq after) as Ha'.
    { destruct after as [m|]; cbn in *; [apply Z.ltb_ge in E; lia|done]. }
    rewrite (IH (n + 1) ltac:(lia) Hn Ha'). replace (Z.to_nat (expected_seq after - n)) with (S (Z.to_nat (expected_seq after - (n + 1)))) by lia.
    done.
Qed.

Lemma filter_andb {A} (p q : A -> bool) l : List.filter (fun x => p x && q x) l = List.filter p (List.filter q l).
Proof.
  induction l as [|x l IH]; cbn; [done|]. destruct (q x) eqn:E; cbn; [|by rewrite andb_false_r].
  rewrite andb_true_r, IH. done.
Qed.

Definition last_seq (after : option Z) (l : list ReplayInput) : option Z :=
  match last l with Some i => Some (source_event_seq i) | None => after end.
Definition last_time (prior : Z) (l : list ReplayInput) : Z :=
  match last l with Some i => logical_ts_ns i | None => prior end.

Lemma last_seq_cons after i l : last_seq after (i :: l) = last_seq (Some (source_event_seq i)) l.
Proof. unfold last_seq. rewrite last_cons. by destruct (last l). Qed.
Lemma last_time_cons prior i l : last_time prior (i :: l) = last_time (logical_ts_ns i) l.
Proof. unfold last_time. rewrite last_cons. by destruct (last l). Qed.
Lemma last_app_default {A} (l1 l2 : list A) :
  last (l1 ++ l2) = match last l2 with Some x => Some x | None => last l1 end.
Proof. apply last_app. Qed.
Lemma last_seq_app after l1 l2 : last_seq after (l1 ++ l2) = last_seq (last_seq after l1) l2.
Proof. unfold last_seq. rewrite last_app_default. by destruct (last l2). Qed.
Lemma last_time_app prior l1 l2 : last_time prior (l1 ++ l2) = last_time (last_time prior l1) l2.
Proof. unfold last_time. rewrite last_app_default. by destruct (last l2). Qed.

Lemma expected_last after l :
  numbered (expected_seq after) l -> expected_seq (last_seq after l) = expected_seq after + Z.of_nat (length l).
Proof.
  intros Hn. unfold last_seq. destruct (last l) as [i|] eqn:E.
  - rewrite last_lookup in E. pose proof (lookup_lt_Some _ _ _ E). apply Hn in E. cbn. lia.
  - apply last_None in E as ->. cbn. lia.
Qed.

(** ** The reference run *)

Section Reference.
Context {Sim : Type} `{DeterministicSimulator Sim} `{CanonicalSource}.

(** Apply the inputs one by one, with the code's checks. *)
Fixpoint replay (warmup : Z) (s : SimulatorState) (l : list ReplayInput) : result SimulatorState :=
  match l with
  | [] => Ok s
  | i :: l' =>
      let! _ := raise_if (logical_ts_ns i <? warmup) (replay_error R_SOURCE_TIME) in
      let! s' := sim_next s i in
      let! _ := validate_transition s s' in
      replay warmup s' l'
  end.

Definition inputs_until (manifest : string) (t : Z) : list ReplayInput :=
  List.filter (fun i => logical_ts_ns i <=? t) (inputs_of manifest).

Definition reference (manifest : string) (warmup t : Z) : result ReplayCheckpoint :=
  let! _ := validate_simulator_state pristine in
  let! s := replay warmup pristine (inputs_until manifest t) in
  ReplayCheckpoint_post_init t (last_seq None (inputs_until manifest t)) s.

Lemma replay_app warmup s l1 l2 :
  replay warmup s (l1 ++ l2) = let! s' := replay warmup s l1 in replay warmup s' l2.
Proof.
  revert s. induction l1 as [|i l1 IH]; intros s; cbn; [done|]. destruct (raise_if _ _); cbn; [|done].
  destruct (sim_next s i) as [s'|]; cbn; [|done]. destruct (validate_transition s s'); cbn; [|done]. apply IH.
Qed.

Lemma validate_transition_state s s' u : validate_transition s s' = Ok u -> validate_simulator_state s' = Ok tt.
Proof. unfold validate_transition. intros ([] & Hv & _)%rbind_Ok. done. Qed.

Lemma replay_Ok warmup s l s' :
  produced pristine sim_next s -> validate_simulator_state s = Ok tt -> replay warmup s l = Ok s' ->
  produced pristine sim_next s' /\ validate_simulator_state s' = Ok tt /\
  state_version s' = state_version s + Z.of_nat (length l).
Proof.
  revert s. induction l as [|i l IH]; intros s Hp Hv Hr; cbn in Hr; [injection Hr as <-; split_and!; [done|done|cbn; lia]|].
  apply rbind_Ok in Hr as (? & _ & Hr). apply rbind_Ok in Hr as (s1 & Hn & Hr). apply rbind_Ok in Hr as (? & Ht & Hr).
  destruct (IH s1) as (Hp' & Hv' & Hs'); [by eapply produced_next|by eapply validate_transition_state|done|].
  split_and!; [done|done|]. rewrite Hs'. unfold validate_transition in Ht.
  apply rbind_Ok in Ht as (? & _ & Ht). apply rbind_Ok in Ht as (? & E & _). apply raise_if_Ok in E.
  apply negb_false_iff, Z.eqb_eq in E. cbn [length]. lia.
Qed.

Lemma apply_batch_replay warmup target batch : forall run x,
  holds x (ru_state run) -> numbered (expected_seq (ru_after run)) batch -> StronglySorted time_le batch ->
  Forall (within (ru_prior run) target) batch ->
  exists x', apply_batch warmup target batch run x =
    (let! s := replay warmup (ru_state run) batch in
     Ok (mk_run s (last_seq (ru_after run) batch) (last_time (ru_prior run) batch)
           (ru_applied run + Z.of_nat (length batch))), x') /\
    (forall s, replay warmup (ru_state run) batch = Ok s -> holds x' s).
Proof.
  induction batch as [|i batch IH]; intros run x Hx Hn Hs Hw.
  - exists x. cbn. unfold sret, last_seq, last_time. cbn. split; [|by intros s [= <-]].
    rewrite Z.add_0_r. by destruct run.
  - apply numbered_cons in Hn as [Hi Hn]. apply StronglySorted_inv in Hs as [Hs Hle].
    apply Forall_cons in Hw as [[Hlo Hhi] Hw]. cbn [apply_batch replay]. unfold validate_source_item.
    rewrite Hi, Z.eqb_refl. cbn [negb raise_if rbind].
    rewrite (proj2 (Z.ltb_ge (logical_ts_ns i) (ru_prior run)) Hlo), orb_false_r.
    destruct (logical_ts_ns i <? warmup); cbn [raise_if rbind]; [exists x; by split|].
    rewrite (proj2 (Z.ltb_ge target (logical_ts_ns i)) Hhi). cbn [raise_if]. rewrite sbind_lift. unfold sbind at 1.
    destruct (apply_next x (ru_state run) i Hx) as (x1 & -> & Hx1).
    destruct (sim_next (ru_state run) i) as [s1|e]; cbn [rbind]; [|exists x1; by split].
    unfold sbind, lift. destruct (validate_transition (ru_state run) s1) as [[]|e]; cbn [rbind]; [|exists x1; by split].
    destruct (IH (mk_run s1 (Some (expected_seq (ru_after run))) (logical_ts_ns i) (ru_applied run + 1)) x1)
      as (x2 & E & Hx2); cbn [ru_state ru_after ru_prior] in *; [by apply Hx1|done|done| |].
    { rewrite !Forall_forall in *. intros j Hj. split; [by apply Hle|by apply Hw]. }
    exists x2. rewrite E. split; [|done]. destruct (replay warmup s1 batch) as [s2|]; cbn [rbind]; [|done].
    rewrite last_seq_cons, last_time_cons, Hi. do 3 f_equal. cbn [ru_applied length]. lia.
Qed.

Lemma manifest_numbered m : numbered 0 (inputs_of m).
Proof. intros k i Hk. rewrite (inputs_seq m k i Hk). lia. Qed.

(** The inputs up to a later time extend those up to an earlier one. *)
Lemma until_take m t : exists n, inputs_until m t = take n (inputs_of m).
Proof. apply until_prefix, inputs_ordered. Qed.

Lemma until_numbered m t : numbered 0 (inputs_until m t).
Proof.
  destruct (until_take m t) as [n ->]. pose proof (manifest_numbered m) as Hn.
  rewrite <- (take_drop n (inputs_of m)) in Hn. by apply numbered_app in Hn as [? _].
Qed.

Lemma until_sorted m t : StronglySorted time_le (inputs_until m t).
Proof. apply StronglySorted_filterb, inputs_ordered. Qed.

Lemma until_le m t i : i ∈ inputs_until m t <-> i ∈ inputs_of m /\ logical_ts_ns i <= t.
Proof. unfold inputs_until. by rewrite elem_of_filterb, Z.leb_le. Qed.

Lemma next_batch m after t limit :
  0 < limit -> 0 <= expected_seq after ->
  next_after m after t limit = Ok (take (Z.to_nat limit) (drop (Z.to_nat (expected_seq after)) (inputs_until m t))).
Proof.
  intros Hl Ha. rewrite next_inputs by done. do 2 f_equal. rewrite filter_andb. fold (inputs_until m t).
  rewrite (after_drop 0 after _ ltac:(lia) (until_numbered m t)) by done. by rewrite Z.sub_0_r.
Qed.

Lemma until_split m t0 t :
  t0 <= t -> exists rest, inputs_until m t = inputs_until m t0 ++ rest /\ Forall (within t0 t) rest.
Proof.
  intros Ht. exists (List.filter (fun i => t0 <? logical_ts_ns i) (inputs_until m t)). split.
  - unfold inputs_until. pose proof (inputs_ordered m) as Hs. induction Hs as [|i l Hs IH Hi]; [done|]. cbn.
    destruct (logical_ts_ns i <=? t) eqn:E1; destruct (logical_ts_ns i <=? t0) eqn:E2; cbn; try lia.
    + rewrite (proj2 (Z.ltb_ge t0 (logical_ts_ns i))) by lia. cbn. f_equal. exact IH.
    + rewrite (proj2 (Z.ltb_lt t0 (logical_ts_ns i))) by lia. rewrite (filter_none (fun i => logical_ts_ns i <=? t0)).
      * cbn. f_equal. symmetry. apply filter_all. intros j [Hj _]%elem_of_filterb.
        rewrite Forall_forall in Hi. specialize (Hi j Hj). cbn in Hi. apply Z.ltb_lt. lia.
      * intros j Hj. rewrite Forall_forall in Hi. specialize (Hi j Hj). cbn in Hi. lia.
    + exact IH.
  - apply Forall_forall. intros i [Hi%until_le Hlt]%elem_of_filterb. split; lia.
Qed.

Lemma run_loop_replay fuel m warmup target b : forall run x rem,
  0 < b -> holds x (ru_state run) -> 0 <= expected_seq (ru_after run) ->
  rem = drop (Z.to_nat (expected_seq (ru_after run))) (inputs_until m target) ->
  (Z.to_nat (expected_seq (ru_after run)) <= length (inputs_until m target))%nat ->
  Forall (within (ru_prior run) target) rem -> (length rem < fuel)%nat ->
  exists x', run_loop fuel m warmup target b run x =
    (let! s := replay warmup (ru_state run) rem in
     Ok (mk_run s (last_seq (ru_after run) rem) (last_time (ru_prior run) rem)
           (ru_applied run + Z.of_nat (length rem))), x').
Proof.
  induction fuel as [|f IH]; intros run x rem Hb Hx Ha Hrem Hle Hw Hf; [lia|].
  assert (numbered (expected_seq (ru_after run)) rem /\ StronglySorted time_le rem) as [Hn Hs].
  { pose proof (until_numbered m target) as Hn. pose proof (until_sorted m target) as Hs.
    rewrite <- (take_drop (Z.to_nat (expected_seq (ru_after run))) (inputs_until m target)) in Hn, Hs.
    rewrite <- Hrem in Hn, Hs. apply numbered_app in Hn as [_ Hn]. apply StronglySorted_app_inv in Hs as (_ & Hs & _).
    rewrite length_take, Nat.min_l in Hn by done. rewrite Z2Nat.id in Hn by done. done. }
  cbn [run_loop]. rewrite next_batch, <- Hrem by done. rewrite sbind_lift.
  pose proof (take_drop (Z.to_nat b) rem) as Hsplit. set (batch := take (Z.to_nat b) rem) in *.
  set (rest := drop (Z.to_nat b) rem) in *.
  assert (length batch = Nat.min (Z.to_nat b) (length rem)) as Hlen by apply length_take.
  rewrite (proj2 (Z.ltb_ge b _)) by lia. cbn [raise_if]. rewrite sbind_lift.
  rewrite <- Hsplit in Hn, Hs, Hw. apply numbered_app in Hn as [Hn Hn'].
  apply StronglySorted_app_inv in Hs as (Hs & Hs' & Hcross). apply Forall_app in Hw as [Hw Hw'].
  destruct (apply_batch_replay warmup target batch run x Hx Hn Hs Hw) as (x1 & Eb & Hx1).
  destruct batch as [|i batch'] eqn:Ebatch.
  - assert (rem = []) as -> by (destruct rem; [done|cbn in Hlen; lia]). exists x. cbn. unfold sret, last_seq, last_time.
    cbn. rewrite Z.add_0_r. by destruct run.
  - rewrite <- Ebatch in *. unfold sbind. rewrite Eb. rewrite <- Hsplit, replay_app.
    destruct (replay warmup (ru_state run) batch) as [s1|e] eqn:Er; cbn [rbind]; [|by exists x1].
    rewrite last_seq_app, last_time_app, length_app.
    destruct (Z.of_nat (length batch) <? b) eqn:El.
    + assert (rest = []) as -> by (apply drop_ge; lia). exists x1. cbn. unfold sret, last_seq at 2, last_time at 2.
      cbn. by rewrite Nat.add_0_r.
    + assert (length batch = Z.to_nat b) as Hfull by lia.
      pose proof (expected_last _ _ Hn) as Hlast.
      destruct (IH (mk_run s1 (last_seq (ru_after run) batch) (last_time (ru_prior run) batch)
                     (ru_applied run + Z.of_nat (length batch))) x1 rest) as (x2 & E2);
        cbn [ru_state ru_after ru_prior ru_applied].
      * done.
      * by apply Hx1.
      * lia.
      * rewrite Hlast, Z2Nat.inj_add, Nat2Z.id, <- drop_drop, <- Hrem, Hfull by lia. done.
      * rewrite Hlast, Z2Nat.inj_add, Nat2Z.id by lia. apply (f_equal length) in Hrem.
        rewrite length_drop in Hrem. lia.
      * rewrite Forall_forall in *. intros j Hj. destruct (Hw' j Hj) as [_ Hhi]. split; [|done].
        unfold last_time. destruct (last batch) as [l|] eqn:E; [|apply last_None in E; rewrite E in Hfull; cbn in Hfull; lia].
        apply Hcross; [|done]. apply last_Some in E as [l' ->]. apply elem_of_app. right. by left.
      * subst rest. rewrite length_drop. lia.
      * exists x2. cbn [ru_after ru_prior ru_applied ru_state] in E2. rewrite E2.
        destruct (replay warmup s1 rest); cbn [rbind]; [|done]. rewrite Nat2Z.inj_add, Z.add_assoc. done.
Qed.

(** A checkpoint the coordinator can resume from: none, or the reference at an earlier time. *)
Definition resumable (m : string) (warmup t : Z) (c : option ReplayCheckpoint) : Prop :=
  match c with
  | None => True
  | Some c => cp_logical_time_ns c <= t /\ reference m warmup (cp_logical_time_ns c) = Ok c
  end.

(** How many inputs a checkpoint covers. *)
Definition covered (m : string) (c : option ReplayCheckpoint) : nat :=
  match c with None => 0 | Some c => length (inputs_until m (cp_logical_time_ns c)) end.

Lemma reference_Ok m warmup t c :
  reference m warmup t = Ok c ->
  cp_logical_time_ns c = t /\ cp_source_event_seq c = last_seq None (inputs_until m t) /\
  produced pristine sim_next (cp_simulator c) /\ validate_simulator_state (cp_simulator c) = Ok tt /\
  validate_simulator_state pristine = Ok tt /\
  replay warmup pristine (inputs_until m t) = Ok (cp_simulator c) /\
  state_version (cp_simulator c) = state_version pristine + Z.of_nat (length (inputs_until m t)) /\
  checkpoint_made c.
Proof.
  unfold reference. intros ([] & Hv & Hall)%rbind_Ok. apply rbind_Ok in Hall as (s & Hr & Hall).
  apply post_init_Ok in Hall as (-> & Ht & Hs). cbn [cp_logical_time_ns cp_source_event_seq cp_simulator].
  destruct (replay_Ok warmup pristine _ s (produced_pristine _ _) Hv Hr) as (Hp & Hv' & Hn).
  split_and!; try done. split; cbn; [done|done|by apply produced_made].
Qed.

Lemma reference_resume m warmup t c :
  cp_logical_time_ns c <= t -> reference m warmup (cp_logical_time_ns c) = Ok c ->
  exists rest, inputs_until m t = inputs_until m (cp_logical_time_ns c) ++ rest /\
    Forall (within (cp_logical_time_ns c) t) rest /\
    rest = drop (Z.to_nat (expected_seq (cp_source_event_seq c))) (inputs_until m t) /\
    expected_seq (cp_source_event_seq c) = Z.of_nat (length (inputs_until m (cp_logical_time_ns c))) /\
    reference m warmup t =
      (let! s := replay warmup (cp_simulator c) rest in
       ReplayCheckpoint_post_init t (last_seq (cp_source_event_seq c) rest) s).
Proof.
  intros Ht Hc. destruct (until_split m _ _ Ht) as (rest & E & Hw). exists rest.
  destruct (reference_Ok _ _ _ _ Hc) as (_ & Hs & _ & _ & Hv & Hr & _ & _).
  assert (expected_seq (cp_source_event_seq c) = Z.of_nat (length (inputs_until m (cp_logical_time_ns c)))) as Hexp.
  { rewrite Hs. pose proof (expected_last None _ (until_numbered m (cp_logical_time_ns c))) as El. rewrite El. done. }
  split_and!; [done|done| |done|].
  - rewrite Hexp, Nat2Z.id, E. by rewrite drop_app_length.
  - unfold reference. rewrite Hv. cbn [rbind]. rewrite E, replay_app, Hr. cbn [rbind]. rewrite last_seq_app, Hs. done.
Qed.

(** An input before the warm-up start stops the run at once, as in the reference. *)
Lemma run_loop_early fuel m warmup target b run x i l :
  0 < b -> expected_seq (ru_after run) = 0 -> inputs_until m target = i :: l -> logical_ts_ns i < warmup ->
  run_loop (S fuel) m warmup target b run x = (Raise (replay_error R_SOURCE_TIME), x).
Proof.
  intros Hb Ha Hi Hlt. cbn [run_loop]. rewrite next_batch by (done || lia). rewrite Ha. cbn [Z.to_nat drop].
  rewrite Hi, sbind_lift. rewrite (proj2 (Z.ltb_ge b _)) by (rewrite length_take; lia). cbn [raise_if].
  rewrite sbind_lift. change (drop (Z.to_nat 0) (i :: l)) with (i :: l).
  destruct (Z.to_nat b) as [|n] eqn:En; [lia|]. cbn [take]. unfold sbind. cbn [apply_batch].
  pose proof (until_numbered m target 0%nat i) as Hseq. rewrite Hi in Hseq. unfold validate_source_item.
  rewrite Ha, Hseq by done. cbn [negb Z.add Z.of_nat Z.eqb raise_if rbind].
  rewrite (proj2 (Z.ltb_lt _ _) Hlt). done.
Qed.

Lemma run_until_spec fuel m warmup t c b x :
  0 < b -> resumable m warmup t c -> (length (inputs_until m t) < fuel)%nat ->
  exists x', run_until fuel m warmup t c b x =
    (let! c' := reference m warmup t in
     Ok (mk_run_result c' (Z.of_nat (length (inputs_until m t) - covered m c)%nat)), x').
Proof.
  intros Hb Hc Hf. unfold run_until, sbind. destruct c as [c|]; cbn [resumable covered] in *.
  - destruct Hc as [Ht Hc]. destruct (reference_resume _ _ _ _ Ht Hc) as (rest & E & Hw & Hrest & Hexp & ->).
    destruct (reference_Ok _ _ _ _ Hc) as (_ & _ & Hp & Hv & _).
    destruct (restore_produced x c Hp) as (x1 & -> & Hx1).
    unfold require_same_state. rewrite bool_decide_eq_true_2 by done. cbn [negb raise_if lift]. rewrite Hv. cbn [lift].
    destruct (run_loop_replay fuel m warmup t b
      (mk_run (cp_simulator c) (cp_source_event_seq c) (cp_logical_time_ns c) 0) x1 rest) as (x2 & E2);
      cbn [ru_state ru_after ru_prior]; try done.
    + lia.
    + rewrite Hexp, Nat2Z.id, E, length_app. lia.
    + rewrite E, length_app in Hf. lia.
    + exists x2. cbn [ru_state ru_after ru_prior ru_applied] in E2. rewrite E2.
      destruct (replay warmup (cp_simulator c) rest) as [s|]; cbn [rbind]; [|done]. unfold lift. cbn [ru_after ru_state].
      destruct (ReplayCheckpoint_post_init _ _ _); cbn [rbind]; [|done]. unfold sret. cbn [ru_applied]. do 3 f_equal.
      rewrite E, length_app. lia.
  - destruct (restore_pristine x) as (x1 & -> & Hx1). cbn [lift]. unfold reference.
    destruct (validate_simulator_state pristine) as [[]|e] eqn:Hv; cbn [lift rbind]; [|by exists x1].
    rewrite Nat.sub_0_r.
    destruct (inputs_until m t) as [|i l] eqn:Ei.
    + destruct (run_loop_replay fuel m warmup t b (mk_run pristine None warmup 0) x1 []) as (x2 & E2);
        cbn [ru_state ru_after ru_prior]; try done.
      { apply Nat.le_0_l. }
      exists x2. rewrite E2. cbn. unfold lift. by destruct (ReplayCheckpoint_post_init _ _ _).
    + destruct (decide (logical_ts_ns i < warmup)) as [Hlt|Hge].
      * destruct fuel as [|fuel]; [lia|]. exists x1.
        rewrite (run_loop_early fuel m warmup t b _ x1 i l) by done. cbn [replay].
        by rewrite (proj2 (Z.ltb_lt _ _) Hlt).
      * pose proof (until_sorted m t) as Hs. rewrite Ei in Hs. apply StronglySorted_inv in Hs as [_ Hle].
        destruct (run_loop_replay fuel m warmup t b (mk_run pristine None warmup 0) x1 (i :: l)) as (x2 & E2);
          cbn [ru_state ru_after ru_prior]; try done.
        { apply Nat.le_0_l. }
        { rewrite Forall_forall. intros j Hj. assert (j ∈ inputs_until m t) as Hj' by by rewrite Ei.
          apply until_le in Hj' as [_ ?]. split; [|done]. apply elem_of_cons in Hj as [->|Hj]; [lia|].
          rewrite Forall_forall in Hle. specialize (Hle j Hj). unfold time_le in Hle. lia. }
        exists x2. rewrite E2. cbn [ru_state ru_after ru_prior ru_applied].
        destruct (replay warmup pristine (i :: l)) as [s|]; cbn [rbind]; [|done]. unfold lift. cbn [ru_after ru_state].
        by destruct (ReplayCheckpoint_post_init _ _ _).
Qed.


(** C13. The coordinator's loop ends and computes the reference run: from nothing or from any earlier
    reference checkpoint, in batches of any positive size and whatever the simulator held before, it
    returns the checkpoint of applying the manifest's inputs up to the target one by one (or that
    run's error) and counts the inputs the resumed checkpoint did not cover. *)
Theorem run_until_reference fuel m warmup t c batch_size x :
  0 < batch_size -> resumable m warmup t c -> (length (inputs_until m t) < fuel)%nat ->
  exists x', run_until fuel m warmup t c batch_size x =
    (match reference m warmup t with
     | Ok c' => Ok (mk_run_result c' (Z.of_nat (length (inputs_until m t) - covered m c)))
     | Raise e => Raise e
     end, x').
Proof.
  intros Hb Hc Hf. destruct (run_until_spec fuel m warmup t c batch_size x Hb Hc Hf) as (x' & ->). exists x'.
  by destruct (reference m warmup t).
Qed.

End Reference.

(** ** Untrusted ports *)

Section Untrusted.
Context {Sim : Type} `{SimulatorPort Sim} `{ReplaySource}.

(** The inputs applied so far: numbered from [n], in time order from [prior], none beyond [target]. *)
Fixpoint applied_ok (after : option Z) (prior warmup target : Z) (l : list ReplayInput) : Prop :=
  match l with
  | [] => True
  | i :: l' =>
      source_event_seq i = expected_seq after /\ prior <= logical_ts_ns i /\
      warmup <= logical_ts_ns i <= target /\
      applied_ok (Some (source_event_seq i)) (logical_ts_ns i) warmup target l'
  end.

Lemma applied_app after prior warmup target l1 l2 :
  applied_ok after prior warmup target (l1 ++ l2) <->
  applied_ok after prior warmup target l1 /\
  applied_ok (last_seq after l1) (last_time prior l1) warmup target l2.
Proof.
  revert after prior. induction l1 as [|i l1 IH]; intros after prior; cbn [app applied_ok]; [tauto|].
  rewrite IH, last_seq_cons, last_time_cons. tauto.
Qed.

(** A run reached from another one by applying inputs. *)
Definition run_grows (warmup target : Z) (run run' : Run) : Prop :=
  exists l, applied_ok (ru_after run) (ru_prior run) warmup target l /\
    ru_after run' = last_seq (ru_after run) l /\ ru_prior run' = last_time (ru_prior run) l /\
    ru_applied run' = ru_applied run + Z.of_nat (length l) /\
    state_version (ru_state run') = state_version (ru_state run) + Z.of_nat (length l).

Lemma run_grows_trans warmup target a b c :
  run_grows warmup target a b -> run_grows warmup target b c -> run_grows warmup target a c.
Proof.
  intros (l1 & A1 & A2 & A3 & A4 & A5) (l2 & B1 & B2 & B3 & B4 & B5). exists (l1 ++ l2).
  rewrite A2, A3 in B1. rewrite applied_app, last_seq_app, last_time_app, length_app.
  split_and!; try done; try lia; [by rewrite B2, A2|by rewrite B3, A3].
Qed.

Lemma run_grows_refl warmup target run : run_grows warmup target run run.
Proof. exists []. cbn. split_and!; try done; lia. Qed.

Lemma validate_transition_version s s' u :
  validate_transition s s' = Ok u -> state_version s' = state_version s + 1.
Proof.
  unfold validate_transition. intros (? & _ & Ht)%rbind_Ok. apply rbind_Ok in Ht as (? & E & _).
  apply raise_if_Ok, negb_false_iff, Z.eqb_eq in E. done.
Qed.

Lemma validate_source_item_Ok i after prior warmup target u :
  validate_source_item i after prior warmup target = Ok u ->
  source_event_seq i = expected_seq after /\ prior <= logical_ts_ns i /\ warmup <= logical_ts_ns i <= target.
Proof.
  unfold validate_source_item. intros (? & E1%raise_if_Ok & Ht)%rbind_Ok. apply rbind_Ok in Ht as (? & E2%raise_if_Ok & E3%raise_if_Ok).
  bools. lia.
Qed.

Lemma apply_batch_grows warmup target batch : forall run x run' x',
  apply_batch warmup target batch run x = (Ok run', x') -> run_grows warmup target run run'.
Proof.
  induction batch as [|i batch IH]; intros run x run' x' Ha; cbn [apply_batch] in Ha.
  { injection Ha as <- _. apply run_grows_refl. }
  apply sbind_Ok in Ha as (? & ? & Hl & Ha). apply lift_Ok in Hl as [(E1 & E2 & E3)%validate_source_item_Ok ->].
  apply sbind_Ok in Ha as (s & x1 & _ & Ha). apply sbind_Ok in Ha as (? & ? & Hl & Ha).
  apply lift_Ok in Hl as [E4%validate_transition_version ->]. eapply run_grows_trans; [|by eapply IH].
  exists [i]. cbn. split_and!; try done; lia.
Qed.

Lemma run_loop_grows fuel m warmup target b : forall run x run' x',
  run_loop fuel m warmup target b run x = (Ok run', x') -> run_grows warmup target run run'.
Proof.
  induction fuel as [|f IH]; intros run x run' x' Ha; cbn [run_loop] in Ha; [done|].
  apply sbind_Ok in Ha as (batch & ? & Hl & Ha). apply lift_Ok in Hl as [_ ->].
  apply sbind_Ok in Ha as (? & ? & Hl & Ha). apply lift_Ok in Hl as [_ ->].
  destruct batch as [|i batch]; [injection Ha as <- _; apply run_grows_refl|].
  apply sbind_Ok in Ha as (run1 & x1 & Hb & Ha). apply apply_batch_grows in Hb.
  destruct (_ <? _); [injection Ha as <- _; done|]. eapply run_grows_trans; [done|by eapply IH].
Qed.

(** The coordinator trusts neither port: whatever a source and a simulator return, a run that ends
    in a checkpoint applied inputs numbered without a gap from the resumed sequence number, in time
    order, none before the warm-up start and none beyond the target, and moved the simulator's
    version by exactly one for each. *)
Theorem run_until_validates fuel m warmup target c batch_size x r x' :
  run_until fuel m warmup target c batch_size x = (Ok r, x') ->
  exists s l, fst (sim_restore c x) = Ok s /\
    match c with Some c0 => s = cp_simulator c0 | None => True end /\
    let after := match c with Some c0 => cp_source_event_seq c0 | None => None end in
    let prior := match c with Some c0 => cp_logical_time_ns c0 | None => warmup end in
    applied_ok after prior warmup target l /\
    rr_applied_inputs r = Z.of_nat (length l) /\
    cp_logical_time_ns (rr_checkpoint r) = target /\
    cp_source_event_seq (rr_checkpoint r) = last_seq after l /\
    state_version (cp_simulator (rr_checkpoint r)) = state_version s + Z.of_nat (length l).
Proof.
  unfold run_until. intros (s & x1 & Hs & Ha)%sbind_Ok. exists s.
  apply sbind_Ok in Ha as (? & ? & Hl & Ha). apply lift_Ok in Hl as [Hsame ->].
  apply sbind_Ok in Ha as (? & ? & Hl & Ha). apply lift_Ok in Hl as [_ ->].
  apply sbind_Ok in Ha as (run & y2 & Hrun & Ha). apply run_loop_grows in Hrun as (l & R1 & R2 & R3 & R4 & R5).
  apply sbind_Ok in Ha as (c' & ? & Hl & Ha). apply lift_Ok in Hl as [(-> & _)%post_init_Ok ->].
  injection Ha as <- _. exists l. rewrite Hs. cbn in *. split_and!; try done; try lia.
  destruct c as [c0|]; [|done]. unfold require_same_state in Hsame. apply raise_if_Ok in Hsame. by bools.
Qed.
End Untrusted.

(** ** Concrete ports and runs

    The simulator and the source of the code's own tests: the simulator hashes its previous hash with
    the input's, the source serves a fixed list.  The pristine version is 1 here. *)

Module Demo.

Definition sim_state (v : Z) (hash : string) : result SimulatorState :=
  from_snapshot v hash (obj [("state_version", VStr (str_Z v))]).

Definition sim_pristine : SimulatorState :=
  match sim_state 1 ZERO_HASH with Ok s => s | Raise _ => mk_sim 0 "" "" end.

Definition next (s : SimulatorState) (i : ReplayInput) : result SimulatorState :=
  sim_state (state_version s + 1) (sha256_hex (utf8 (state_hash s +:+ input_hash i))).

#[global] Instance simulator : SimulatorPort SimulatorState := {|
  sim_restore c := fun _ => let s := match c with None => sim_pristine | Some c => cp_simulator c end in (Ok s, s);
  sim_apply i v := fun s =>
    if v =? state_version s
    then match next s i with Ok s' => (Ok s', s') | Raise e => (Raise e, s) end
    else (Raise AssertionError, s);
|}.

Lemma sim_state_made v hash s : sim_state v hash = Ok s -> state_made s.
Proof.
  intros Hs. exists (obj [("state_version", VStr (str_Z v))]). split; [done|]. rewrite <- Hs.
  unfold sim_state, from_snapshot in Hs |- *. repeat step_ok. by subst s.
Qed.

Lemma pristine_eq : sim_state 1 ZERO_HASH = Ok sim_pristine.
Proof. vm_compute. reflexivity. Qed.

#[global] Program Instance deterministic : DeterministicSimulator SimulatorState := {|
  pristine := sim_pristine;
  sim_next := next;
  holds := eq;
|}.
Next Obligation. intros x. by exists sim_pristine. Qed.
Next Obligation. intros x c _. by exists (cp_simulator c). Qed.
Next Obligation.
  intros x s i ->. cbn. rewrite Z.eqb_refl. destruct (next s i) as [s'|e].
  - exists s'. split; [done|]. by intros s2 [= <-].
  - exists s. by split.
Qed.
Next Obligation.
  intros s. induction 1 as [|s i s' _ _ Hn]; [exact (sim_state_made _ _ _ pristine_eq)|].
  by eapply sim_state_made.
Qed.

Definition feed : list ReplayInput :=
  [demo_input 0 100 []; demo_input 1 200 []; demo_input 2 200 []; demo_input 3 250 []; demo_input 4 400 []].

#[global] Instance source : ReplaySource := {|
  next_after m after through limit :=
    Ok (take (Z.to_nat limit)
          (List.filter (fun i => after_input after i && (logical_ts_ns i <=? through)) feed));
|}.

#[global] Program Instance canonical : CanonicalSource := {| inputs_of m := feed |}.
Next Obligation.
  intros m k i Hk. do 5 (destruct k as [|k]; [injection Hk as <-; vm_compute; reflexivity|]). discriminate Hk.
Qed.
Next Obligation.
  intros m. repeat constructor; vm_compute; discriminate.
Qed.
Next Obligation. intros m. vm_compute. discriminate. Qed.
Next Obligation. done. Qed.

End Demo.

Lemma run_until_reference_witness :
  exists x', run_until 6 "m" 100 250 None 2 Demo.sim_pristine =
    (match reference "m" 100 250 with
     | Ok c => Ok (mk_run_result c (Z.of_nat (length (inputs_until "m" 250) - covered "m" None)))
     | Raise e => Raise e end, x').
Proof.
  apply (run_until_reference 6 "m" 100 250 None 2 Demo.sim_pristine); [lia|exact I|].
  apply Nat.ltb_lt. vm_compute. reflexivity.
Defined.

Lemma run_until_validates_witness :
  exists r x', run_until 6 "m" 100 250 None 2 Demo.sim_pristine = (Ok r, x') /\ rr_applied_inputs r = 4 /\
  exists s l, fst (sim_restore None Demo.sim_pristine) = Ok s /\ applied_ok None 100 100 250 l /\
    rr_applied_inputs r = Z.of_nat (length l).
Proof.
  destruct (run_until 6 "m" 100 250 None 2 Demo.sim_pristine) as [[r|e] x'] eqn:E;
    [|vm_compute in E; discriminate E].
  exists r, x'. split; [exact eq_refl|]. split; [vm_compute in E; injection E as <- _; reflexivity|].
  destruct (run_until_validates 6 "m" 100 250 None 2 Demo.sim_pristine r x' E) as (s & l & Hs & _ & Ha & Hn & _).
  exists s, l. exact (conj Hs (conj Ha Hn)).
Defined.

