(* ===== verification/Replay.v ===== *)
(** * The replay coordinator ([apps/api/.../replay/service.py])

    [advance_to] is the whole operation over the store and the simulator: recovery from the newest
    checkpoint, the run to the target, the session's advance and both checkpoint writes.  Proved
    here: in any history it is right, recovers, and keeps every stored checkpoint a reference
    checkpoint. *)

From S2P Require Import Prelude Sort PyStr Bytes PyJson JsonParse Catalog Db SessionModel Session Frame ReplayModel ReplayRun.
From Stdlib Require String.

Record ReplayAdvanceResult := mk_advance_result {
  ar_session : SessionRecord;
  ar_checkpoint : ReplayCheckpoint;
  ar_applied_inputs : Z;
  ar_recovered_inputs : Z;
}.

Definition require_running (s : SessionRecord) : result unit :=
  let! _ := raise_if match ss_setup s, ss_logical_time_ns s with Some _, Some _ => false | _, _ => true end
              (replay_error R_SESSION_NOT_COMMITTED) in
  raise_if (negb (bool_decide (ss_status s = RUNNING))) (replay_error R_SESSION_NOT_RUNNING).

Section Coordinator.
Context {Sim : Type} `{SimulatorPort Sim} `{ReplaySource}.

Definition recover_current_frontier (fuel : nat) (setup : CommittedSetup) (frontier : Z)
    (checkpoint : option ReplayCheckpoint) (batch_size : Z) : ST Sim RunResult :=
  let run := run_until fuel (cs_manifest_hash setup) (warmup_start_ns setup) frontier checkpoint batch_size in
  match checkpoint with
  | None => run
  | Some c =>
      if frontier <? cp_logical_time_ns c then sraise (replay_error R_SNAPSHOT_CORRUPT)
      else if cp_logical_time_ns c =? frontier then
        restored <- sim_restore (Some c) ;;
        lift (require_same_state restored (cp_simulator c)) ;;;
        sret (mk_run_result c 0)
      else run
  end.

(** The store and the simulator. *)
Definition on_db {A} (m : ST Db A) : ST (Db * Sim) A := fun w => let '(r, db) := m (fst w) in (r, (db, snd w)).
Definition on_sim {A} (m : ST Sim A) : ST (Db * Sim) A := fun w => let '(r, x) := m (snd w) in (r, (fst w, x)).

Definition advance_to (fuel : nat) (sid principal : string) (expected target batch_size : Z)
    : ST (Db * Sim) ReplayAdvanceResult :=
  lift (raise_if ((batch_size <=? 0) || (100000 <? batch_size)) ValueError) ;;;
  session <- on_db (get_session sid principal) ;;
  lift (raise_if (negb (ss_version session =? expected)) (replay_error R_TARGET_OUT_OF_RANGE)) ;;;
  lift (require_running session) ;;;
  match ss_setup session, ss_logical_time_ns session with
  | Some setup, Some frontier =>
      lift (raise_if ((target <? frontier) || (play_end_ns setup <? target)) (replay_error R_TARGET_OUT_OF_RANGE)) ;;;
      checkpoint <- on_db (load_latest sid principal) ;;
      recovered <- on_sim (recover_current_frontier fuel setup frontier checkpoint batch_size) ;;
      let current := rr_checkpoint recovered in
      lift (raise_if (negb (cp_logical_time_ns current =? frontier)) (replay_error R_SNAPSHOT_CORRUPT)) ;;;
      on_db (save sid principal (ss_version session) current) ;;;
      if target =? frontier
      then sret (mk_advance_result session current 0 (rr_applied_inputs recovered))
      else
        run <- on_sim (run_until fuel (cs_manifest_hash setup) (warmup_start_ns setup) target (Some current) batch_size) ;;
        advanced <- on_db (advance sid principal (ss_version session) target) ;;
        on_db (save sid principal (ss_version advanced) (rr_checkpoint run)) ;;;
        sret (mk_advance_result advanced (rr_checkpoint run) (rr_applied_inputs run) (rr_applied_inputs recovered))
  | _, _ => sraise AssertionError
  end.
End Coordinator.

Section Recovery.
Context {Sim : Type} `{DeterministicSimulator Sim} `{CanonicalSource}.

(** ** Recovery *)

Lemma recover_spec fuel setup t c b x :
  let m := cs_manifest_hash setup in let warmup := warmup_start_ns setup in
  0 < b -> resumable m warmup t c -> (length (inputs_until m t) < fuel)%nat ->
  exists x', recover_current_frontier fuel setup t c b x =
    (let! c' := reference m warmup t in
     Ok (mk_run_result c' (Z.of_nat (length (inputs_until m t) - covered m c)%nat)), x').
Proof.
  intros m warmup Hb Hc Hf. unfold recover_current_frontier. destruct c as [c|]; [|by apply run_until_spec].
  pose proof Hc as [Hle Href]. rewrite (proj2 (Z.ltb_ge t (cp_logical_time_ns c)) Hle).
  destruct (Z.eqb_spec (cp_logical_time_ns c) t) as [<-|Hne]; [|by apply run_until_spec].
  destruct (reference_Ok _ _ _ _ Href) as (_ & _ & Hp & _). destruct (restore_produced x c Hp) as (x1 & E & _).
  exists x1. unfold sbind. rewrite E. unfold require_same_state. rewrite bool_decide_eq_true_2 by done. cbn.
  rewrite Href. cbn [rbind]. by rewrite Nat.sub_diag.
Qed.

(** A stored checkpoint is the reference checkpoint of its session at some time up to the session's
    frontier, at the frontier when it is stored under the session's current version. *)
Definition checkpoint_row_ok (db : Db) (row : snapshot_row) : Prop :=
  exists r setup t c, state db (sn_session_id row) = Some r /\ ss_setup r = Some setup /\
    ss_logical_time_ns r = Some t /\ row_of (sn_session_id row) (sn_event_seq row) c row /\
    0 < sn_state_version row /\
    reference (cs_manifest_hash setup) (warmup_start_ns setup) (cp_logical_time_ns c) = Ok c /\
    cp_logical_time_ns c <= t /\ sn_event_seq row <= ss_version r /\
    (sn_event_seq row = ss_version r -> cp_logical_time_ns c = t).

Record checkpoints_ok (db : Db) : Prop := mk_checkpoints_ok {
  co_keys : NoDup (map snapshot_key (snapshots db));
  co_rows : forall row, row ∈ snapshots db -> checkpoint_row_ok db row;
}.

(** A running session with its pinned setup and frontier. *)
Record running (db : Db) (sid p : string) (b : SessionRecord) (setup : CommittedSetup) (t : Z) : Prop := mk_running {
  rn_state : state db sid = Some b;
  rn_principal : ss_principal_id b = p;
  rn_setup : ss_setup b = Some setup;
  rn_frontier : ss_logical_time_ns b = Some t;
}.

Lemma running_owns db sid p b setup t : running db sid p b setup t -> owns sid p db.
Proof.
  intros [Hs <- _ _]. destruct (state_row _ _ _ Hs) as (row & ? & ?). by exists row.
Qed.

Lemma checkpoints_grow db db' :
  (forall sid r, state db sid = Some r -> exists r', state db' sid = Some r' /\ session_le r r') ->
  snapshots db' = snapshots db -> checkpoints_ok db -> checkpoints_ok db'.
Proof.
  intros Hle Hs [Hk Hr]. split; [by rewrite Hs|]. rewrite Hs. intros row Hrow.
  destruct (Hr row Hrow) as (r & setup & t & c & Hst & Hset & Ht & Hof & Hpos & Href & Hct & Hv & Heq).
  destruct (Hle _ _ Hst) as (r' & Hst' & (_ & _ & _ & L4 & L5 & L6 & L7 & _)).
  destruct (L6 _ Hset) as [Hset' _]. destruct (L7 _ Ht) as (t' & Ht' & Hle').
  exists r', setup, t', c. split_and!; try done; [lia|lia|].
  intros E. assert (ss_version r = ss_version r') as E' by lia. specialize (L5 E'). subst r'.
  rewrite Ht in Ht'. injection Ht' as <-. by apply Heq.
Qed.

Lemma checkpoints_session_step db db' :
  db_ok db -> session_step db db' -> checkpoints_ok db -> checkpoints_ok db'.
Proof.
  intros Hok Hs. apply checkpoints_grow; [|apply sf_snapshots; by apply session_step_frame].
  intros sid r. by apply session_step_le.
Qed.

Lemma load_resumable db sid p b setup t :
  checkpoints_ok db -> running db sid p b setup t ->
  exists c, load_latest sid p db = (Ok c, db) /\ resumable (cs_manifest_hash setup) (warmup_start_ns setup) t c.
Proof.
  intros [Hk Hr] Hrun. pose proof (running_owns _ _ _ _ _ _ Hrun) as Ho. destruct Hrun as [Hst Hp Hset Ht].
  pose proof (last_session_snapshot sid db) as Hl. destruct (last (session_snapshots sid db)) as [row|] eqn:E.
  - destruct Hl as (Hrow & <- & _).
    destruct (Hr row Hrow) as (r & setup' & t' & c & Hst' & Hset' & Ht' & Hof & _ & Href & Hct & _).
    assert (r = b) as -> by congruence. assert (setup' = setup) as -> by congruence.
    assert (t' = t) as -> by congruence. exists (Some c). split; [|done].
    eapply load_latest_row; [done|done| |done]. destruct (reference_Ok _ _ _ _ Href) as (_&_&_&_&_&_&_&Hm). exact Hm.
  - exists None. split; [by apply load_latest_none|done].
Qed.

(** A checkpoint is already stored under this version. *)
Definition stored_at (db : Db) (sid : string) (v : Z) : Prop := exists row, row ∈ snapshots db /\ snapshot_key row = (sid, v).

Lemma snapshots_at_unique db sid v row :
  NoDup (map snapshot_key (snapshots db)) -> row ∈ snapshots db -> snapshot_key row = (sid, v) ->
  snapshots_at sid v db = [row].
Proof.
  unfold snapshots_at. induction (snapshots db) as [|x l IH]; [by intros _ ?%not_elem_of_nil|].
  cbn [map List.filter]. intros [Hx Hl]%NoDup_cons Hr Hk. rewrite elem_of_mapl in Hx.
  destruct (String.eqb (sn_session_id x) sid && (sn_event_seq x =? v))%bool eqn:E.
  - apply andb_true_iff in E as [E1%String.eqb_eq E2%Z.eqb_eq].
    assert (snapshot_key x = (sid, v)) as Hkx by (unfold snapshot_key; congruence).
    assert (x = row) as ->.
    { apply elem_of_cons in Hr as [->|Hr]; [done|]. exfalso. apply Hx. exists row. split; [congruence|done]. }
    f_equal. apply filter_none. intros y Hy. apply not_true_iff_false. intros Ey.
    apply andb_true_iff in Ey as [Ey1%String.eqb_eq Ey2%Z.eqb_eq]. apply Hx. exists y. split; [|done].
    unfold snapshot_key in *. congruence.
  - apply elem_of_cons in Hr as [<-|Hr]; [|by apply IH]. injection Hk as <- <-.
    by rewrite String.eqb_refl, Z.eqb_refl in E.
Qed.

(** Saving the reference checkpoint of the frontier under the current version. *)
Lemma save_reference db sid p b setup t c :
  db_ok db -> checkpoints_ok db -> running db sid p b setup t ->
  reference (cs_manifest_hash setup) (warmup_start_ns setup) t = Ok c ->
  exists r db', save sid p (ss_version b) c db = (r, db') /\
    sessions db' = sessions db /\ domain_events db' = domain_events db /\ checkpoints_ok db' /\
    match r with
    | Ok _ => stored_at db' sid (ss_version b) /\ 0 < state_version (cp_simulator c)
    | Raise _ => db' = db /\ ~ (0 < ss_version b /\ (stored_at db sid (ss_version b) \/ 0 < state_version (cp_simulator c)))
    end.
Proof.
  intros Hok Hck Hrun Href. pose proof (running_owns _ _ _ _ _ _ Hrun) as Ho. pose proof Hrun as [Hst Hp Hset Ht].
  destruct (reference_Ok _ _ _ _ Href) as (Hct & _ & _ & _ & _ & _ & _ & Hmade).
  destruct (decide (0 < ss_version b)) as [Hv|Hv].
  2: { exists (Raise ValueError), db. unfold save. rewrite (proj2 (Z.leb_le _ 0)) by lia. split_and!; try done. lia. }
  destruct (snapshots_at sid (ss_version b) db) as [|row l] eqn:Ea.
  - assert (~ stored_at db sid (ss_version b)) as Hns.
    { intros (row & Hrow & Hk). assert (row ∈ snapshots_at sid (ss_version b) db) as Hin by by apply elem_of_snapshots_at.
      rewrite Ea in Hin. by apply not_elem_of_nil in Hin. }
    destruct (decide (0 < state_version (cp_simulator c))) as [Hsv|Hsv].
    + destruct (save_new sid p (ss_version b) c db Hv Hmade Ho Ea Hsv) as (row & Hrow & Hsave).
      exists (Ok tt), (set_snapshots (snapshots db ++ [row]) db). split; [done|]. split; [done|]. split; [done|].
      assert (snapshot_key row = (sid, ss_version b)) as Hkey by by destruct Hrow as (payload & _ & ->).
      split.
      * destruct Hck as [Hk Hr]. split.
        { cbn. rewrite map_app. apply NoDup_app. split_and!; [done| |apply NoDup_singleton].
          intros k Hk1 Hk2%list_elem_of_singleton. apply elem_of_mapl in Hk1 as (row' & -> & Hin). apply Hns.
          exists row'. split; [done|]. by rewrite Hk2. }
        cbn. intros row' [Hin|Hin%list_elem_of_singleton]%elem_of_app.
        { destruct (Hr row' Hin) as (r & s' & t' & c' & Q). by exists r, s', t', c'. }
        subst row'. exists b, setup, t, c. destruct Hrow as (payload & Hpay & ->). cbn.
        split_and!; try done; try lia; [by exists payload|by rewrite Hct].
      * split; [|done]. exists row. split; [|done]. cbn. apply elem_of_app. right. by left.
    + exists (Raise (replay_error R_SNAPSHOT_CONFLICT)), db.
      destruct (checkpoint_payload_made c Hmade) as (snap & _ & Hpay & _).
      assert (save sid p (ss_version b) c db = (Raise (replay_error R_SNAPSHOT_CONFLICT), db)) as ->.
      { unfold save. rewrite (proj2 (raise_if_Ok _ _ tt)) by (apply Z.leb_gt; lia). rewrite Hpay, !sbind_lift.
        unfold reraise, transaction. rewrite (sbind_run _ _ _ _ _ (require_principal_owns _ _ _ Ho)).
        unfold sbind. rewrite Ea. cbn [one_or_none]. unfold insert_snapshot. cbn [sn_state_version].
        rewrite (proj2 (Z.leb_le (state_version _) 0)) by lia. rewrite orb_true_r. done. }
      split_and!; try done. intros [_ [H'|H']]; [by apply Hns|lia].
  - assert (row ∈ snapshots_at sid (ss_version b) db) as Hin by (rewrite Ea; by left).
    apply elem_of_snapshots_at in Hin as [Hin Hk].
    rewrite (snapshots_at_unique _ _ _ _ (co_keys _ Hck) Hin Hk) in Ea. injection Ea as <-.
    destruct (co_rows _ Hck _ Hin) as (r & setup' & t' & c' & Hst' & Hset' & Ht' & Hof & Hpos & Href' & _ & _ & Heq).
    injection Hk as Hk1 Hk2. rewrite Hk1 in *. assert (r = b) as -> by congruence.
    assert (setup' = setup) as -> by congruence. assert (t' = t) as -> by congruence.
    rewrite (Heq Hk2) in Href'. assert (c' = c) as -> by congruence. rewrite Hk2 in Hof.
    exists (Ok tt), db. split.
    { eapply save_again; try done. apply snapshots_at_unique; [by apply co_keys|done|]. unfold snapshot_key. by rewrite Hk1, Hk2. }
    split_and!; try done.
    + exists row. split; [done|]. unfold snapshot_key. by rewrite Hk1, Hk2.
    + destruct Hof as (payload & _ & E). rewrite E in Hpos. exact Hpos.
Qed.

(** ** Advancing *)

Lemma on_db_run {A} (m : ST Db A) db (x : Sim) : on_db m (db, x) = (fst (m db), (snd (m db), x)).
Proof. unfold on_db. cbn. by destruct (m db). Qed.
Lemma on_sim_run {A} (m : ST Sim A) (db : Db) x : on_sim m (db, x) = (fst (m x), (db, snd (m x))).
Proof. unfold on_sim. cbn. by destruct (m x). Qed.

Definition count_to (setup : CommittedSetup) (t : Z) : Z := Z.of_nat (length (inputs_until (cs_manifest_hash setup) t)).
Definition ref_at (setup : CommittedSetup) (t : Z) : result ReplayCheckpoint :=
  reference (cs_manifest_hash setup) (warmup_start_ns setup) t.

(** The part of [advance_to] after the session was read and checked. *)
Definition advance_session (fuel : nat) (sid p : string) (session : SessionRecord) (setup : CommittedSetup)
    (frontier target batch_size : Z) : ST (Db * Sim) ReplayAdvanceResult :=
  checkpoint <- on_db (load_latest sid p) ;;
  recovered <- on_sim (recover_current_frontier fuel setup frontier checkpoint batch_size) ;;
  let current := rr_checkpoint recovered in
  lift (raise_if (negb (cp_logical_time_ns current =? frontier)) (replay_error R_SNAPSHOT_CORRUPT)) ;;;
  on_db (save sid p (ss_version session) current) ;;;
  if target =? frontier
  then sret (mk_advance_result session current 0 (rr_applied_inputs recovered))
  else
    run <- on_sim (run_until fuel (cs_manifest_hash setup) (warmup_start_ns setup) target (Some current) batch_size) ;;
    advanced <- on_db (advance sid p (ss_version session) target) ;;
    on_db (save sid p (ss_version advanced) (rr_checkpoint run)) ;;;
    sret (mk_advance_result advanced (rr_checkpoint run) (rr_applied_inputs run) (rr_applied_inputs recovered)).

Lemma advance_to_start fuel sid p v target batch_size db x b setup t :
  0 < batch_size <= 100000 -> running db sid p b setup t -> ss_version b = v -> ss_status b = RUNNING ->
  t <= target <= play_end_ns setup ->
  advance_to fuel sid p v target batch_size (db, x) =
  advance_session fuel sid p b setup t target batch_size (db, x).
Proof.
  intros Hb [Hst <- Hset Ht] Hv Hrun Htgt. unfold advance_to.
  rewrite (proj2 (raise_if_Ok _ _ tt)) by lia. rewrite sbind_lift. unfold sbind at 1. rewrite on_db_run.
  rewrite (get_session_state _ _ _ Hst). cbn [fst snd]. rewrite Hv, Z.eqb_refl. cbn [negb raise_if]. rewrite sbind_lift.
  unfold require_running. rewrite Hset, Ht, Hrun. rewrite bool_decide_eq_true_2 by done. cbn [rbind raise_if negb].
  rewrite sbind_lift. rewrite (proj2 (raise_if_Ok _ _ tt)) by lia. rewrite sbind_lift.
  unfold advance_session. by rewrite Hv.
Qed.

(** Every other call raises before anything happens. *)
Lemma advance_to_cases fuel sid p v target batch_size db x :
  (exists e, advance_to fuel sid p v target batch_size (db, x) = (Raise e, (db, x))) \/
  exists b setup t, 0 < batch_size <= 100000 /\ running db sid p b setup t /\ ss_version b = v /\
    ss_status b = RUNNING /\ t <= target <= play_end_ns setup.
Proof.
  unfold advance_to. unfold sbind at 1, lift at 1, raise_if at 1.
  destruct ((batch_size <=? 0) || (100000 <? batch_size))%bool eqn:Eb; [left; by eexists|].
  unfold sbind at 1. rewrite on_db_run. destruct (get_session sid p db) as [[b|e1] db1] eqn:Eg; cbn [fst snd].
  2: { apply get_session_Raise in Eg as ->. left. by eexists. }
  apply get_session_Ok in Eg as (-> & Hst & Hp & Hid).
  unfold sbind at 1, lift at 1, raise_if at 1. destruct (negb (ss_version b =? v)) eqn:Ev; [left; by eexists|].
  unfold sbind at 1, lift at 1. destruct (require_running b) as [[]|e1] eqn:Er; [|left; by eexists].
  unfold require_running in Er. apply rbind_Ok in Er as (? & Es & Er). apply raise_if_Ok in Es, Er.
  destruct (ss_setup b) as [setup|] eqn:Eset; [|done]. destruct (ss_logical_time_ns b) as [t|] eqn:Et; [|done].
  unfold sbind at 1, lift at 1, raise_if at 1.
  destruct ((target <? t) || (play_end_ns setup <? target))%bool eqn:Etgt; [left; by eexists|].
  right. exists b, setup, t. bools. split_and!; done || lia.
Qed.

(** What [advance_session] does, to the value or exception and to the store. *)
Definition advanced (db db' : Db) (sid p : string) (b : SessionRecord) (setup : CommittedSetup) (t target : Z)
    (res : result ReplayAdvanceResult) : Prop :=
  match res with
  | Ok r =>
      ar_session r = (if target =? t then b else with_status b RUNNING (Some target)) /\
      state db' sid = Some (ar_session r) /\
      ref_at setup target = Ok (ar_checkpoint r) /\
      ar_applied_inputs r = count_to setup target - count_to setup t /\
      0 <= ar_recovered_inputs r <= count_to setup t /\
      (forall o, o <> sid -> state db' o = state db o)
  | Raise _ => forall o, state db' o = state db o
  end.

Lemma inputs_until_mono m t1 t2 : t1 <= t2 -> (length (inputs_until m t1) <= length (inputs_until m t2))%nat.
Proof. intros Ht. destruct (until_split m t1 t2 Ht) as (rest & -> & _). rewrite length_app. lia. Qed.

Lemma resumed_count m warmup t c : resumable m warmup t c -> (covered m c <= length (inputs_until m t))%nat.
Proof. destruct c as [c|]; [|cbn; lia]. intros [Hc _]. by apply inputs_until_mono. Qed.

(** The record and the owner after the advance. *)
Lemma advance_running db sid p b setup t target r db' :
  db_ok db -> checkpoints_ok db -> running db sid p b setup t -> ss_status b = RUNNING ->
  advance sid p (ss_version b) target db = (Ok r, db') ->
  r = with_status b RUNNING (Some target) /\ db_ok db' /\ checkpoints_ok db' /\ snapshots db' = snapshots db /\
  running db' sid p r setup target /\ (forall o, o <> sid -> state db' o = state db o).
Proof.
  intros Hok Hck [Hst Hp Hset Ht] Hrun Ha.
  destruct (transition_advance _ _ _ _ _ _ _ Hok Ha) as (Htr & Hok' & Hst' & Hoth).
  pose proof Htr as (b' & cs & t0 & (Hb' & _) & _ & _ & _ & _ & Hr).
  assert (b' = b) as -> by congruence.
  assert (session_step db db') as Hstep by (exists (Advance sid p (ss_version b) target), r; done).
  pose proof (session_step_frame _ _ Hstep) as Hf.
  split_and!; [done|done| |by apply sf_snapshots|by subst r; split|done].
  exact (checkpoints_session_step db db' Hok Hstep Hck).
Qed.

Lemma last_seq_bound m t :
  match last_seq None (inputs_until m t) with Some n => 0 <= n < 2 ^ 64 | None => True end.
Proof.
  unfold last_seq. destruct (last (inputs_until m t)) as [i|] eqn:El; [|done].
  rewrite last_lookup in El. pose proof (lookup_lt_Some _ _ _ El) as Hlt. rewrite (until_numbered m t _ _ El).
  pose proof (inputs_bounded m) as Hbd. destruct (until_take m t) as [n En].
  assert (length (inputs_until m t) <= length (inputs_of m))%nat by (rewrite En, length_take; lia).
  unfold U64_MAX in Hbd. lia.
Qed.

(** If the reference run reaches a time it reaches every earlier one. *)
Lemma reference_prefix m wu t target :
  t <= target -> - 2 ^ 63 <= t < 2 ^ 63 ->
  is_ok (reference m wu target) = true -> is_ok (reference m wu t) = true.
Proof.
  intros Hle Ht Hr. destruct (reference m wu target) as [ct|] eqn:Er; [|done].
  apply reference_Ok in Er as (_ & _ & _ & _ & Hv & Hrep & _ & _).
  destruct (until_split m t target Hle) as (rest & E & _). rewrite E, replay_app in Hrep.
  apply rbind_Ok in Hrep as (s & Hs & _). unfold reference. rewrite Hv. cbn [rbind]. rewrite Hs. cbn [rbind].
  by rewrite (proj2 (post_init_Ok t _ s (mk_checkpoint t _ s)) (conj eq_refl (conj Ht (last_seq_bound m t)))).
Qed.

Lemma advance_session_spec fuel sid p b setup t target batch_size db x :
  0 < batch_size -> db_ok db -> checkpoints_ok db -> running db sid p b setup t -> ss_status b = RUNNING ->
  t <= target <= play_end_ns setup -> (length (inputs_of (cs_manifest_hash setup)) < fuel)%nat ->
  exists res db' x', advance_session fuel sid p b setup t target batch_size (db, x) = (res, (db', x')) /\
    db_ok db' /\ checkpoints_ok db' /\ advanced db db' sid p b setup t target res /\
    (is_ok (ref_at setup target) = true -> 0 < ss_version b -> ss_version b < U64_MAX ->
     (forall c, ref_at setup t = Ok c -> 0 < state_version (cp_simulator c)) ->
     (target <> t -> can_log (Advance sid p (ss_version b) target) db) -> is_ok res = true).
Proof.
  intros Hb Hok Hck Hrun Hst Htgt Hfuel. set (m := cs_manifest_hash setup) in *. set (wu := warmup_start_ns setup).
  assert (forall t', (length (inputs_until m t') < fuel)%nat) as Hf.
  { intros t'. destruct (until_take m t') as [n ->]. rewrite length_take. lia. }
  unfold advance_session. destruct (load_resumable _ _ _ _ _ _ Hck Hrun) as (c0 & Hload & Hres).
  fold m wu in Hres |- *. unfold sbind at 1. rewrite on_db_run, Hload. cbn [fst snd].
  destruct (recover_spec fuel setup t c0 batch_size x Hb Hres (Hf t)) as (x1 & Hrec). fold m wu in Hrec.
  unfold sbind at 1. rewrite on_sim_run, Hrec. cbn [fst snd].
  assert (is_ok (reference m wu target) = true -> is_ok (reference m wu t) = true) as Hprefix.
  { destruct (state_record_ok _ _ _ Hok (rn_state _ _ _ _ _ _ Hrun)) as [[_ _ Q] _].
    rewrite (rn_setup _ _ _ _ _ _ Hrun), (rn_frontier _ _ _ _ _ _ Hrun) in Q. destruct Q as (_ & Hso & Hr0 & _).
    pose proof (so_play_start _ Hso). pose proof (so_play_end _ Hso). apply reference_prefix; lia. }
  destruct (reference m wu t) as [c|e] eqn:Eref; cbn [rbind].
  2: { exists (Raise e), db, x1. split_and!; try done. intros Hr. by apply Hprefix in Hr. }
  cbn [rr_checkpoint rr_applied_inputs]. destruct (reference_Ok _ _ _ _ Eref) as (Hct & _ & _ & _ & _ & _ & Hcv & _).
  rewrite Hct, Z.eqb_refl. cbn [negb raise_if]. rewrite sbind_lift.
  destruct (save_reference db sid p b setup t c Hok Hck Hrun Eref) as (rs & db1 & Hsave & Hs1 & He1 & Hck1 & Hrs).
  unfold sbind at 1. rewrite on_db_run, Hsave. cbn [fst snd].
  destruct rs as [u|e]; [|destruct Hrs as [-> Hno]; exists (Raise e), db, x1; split_and!; try done;
    intros _ Hv _ Hsv _; exfalso; apply Hno; split; [done|right; by apply Hsv]].
  destruct Hrs as [Hstored Hsvpos]. pose proof (db_ok_same _ _ Hs1 He1 Hok) as Hok1.
  pose proof (state_same _ _ Hs1 He1) as Hsame1.
  assert (running db1 sid p b setup t) as Hrun1 by (destruct Hrun; split; try done; by rewrite Hsame1).
  pose proof (resumed_count _ _ _ _ Hres) as Hcov.
  destruct (Z.eqb_spec target t) as [->|Hne].
  { eexists _, db1, x1. split; [done|]. split_and!; try done. unfold advanced. rewrite Z.eqb_refl. cbn.
    split_and!; try done; [rewrite Hsame1; apply Hrun|lia|lia|unfold count_to; fold m; lia]. }
  destruct (run_until_spec fuel m wu target (Some c) batch_size x1 Hb) as (x2 & Hrun2); [|by apply Hf|].
  { split; [lia|by rewrite Hct]. }
  unfold sbind at 1. rewrite on_sim_run, Hrun2. cbn [fst snd].
  destruct (reference m wu target) as [c2|e] eqn:Eref2; cbn [rbind].
  2: { exists (Raise e), db1, x2. split_and!; try done. unfold ref_at. fold m wu. by rewrite Eref2. }
  cbn [rr_checkpoint rr_applied_inputs]. unfold sbind at 1. rewrite on_db_run.
  destruct (advance sid p (ss_version b) target db1) as [[r|e] db2] eqn:Eadv; cbn [fst snd].
  2: { assert (db2 = db1) as -> by exact (run_call_Raise (Advance sid p (ss_version b) target) db1 e db2 Eadv).
       exists (Raise e), db1, x2. split_and!; try done. intros _ _ Hmax _ Hcl. exfalso. specialize (Hcl Hne).
       destruct (enabled_advance db1 sid p (ss_version b) target (with_status b RUNNING (Some target)) Hok1) as (r' & db' & E).
       - exists b, setup, t. destruct Hrun1. split_and!; try done; lia.
       - destruct Hcl as [Hroom Hfresh].
         assert (event_rows sid db1 = event_rows sid db) as Erows by (unfold event_rows; by rewrite He1).
         split; [unfold log_room in *; cbn in *; by rewrite Erows|]. intros b' Hb'. cbn in Hb'. rewrite Hsame1 in Hb'.
         specialize (Hfresh b' Hb'). cbn in *. unfold fresh_hash in *. by rewrite Erows.
       - congruence. }
  destruct (advance_running _ _ _ _ _ _ _ _ _ Hok1 Hck1 Hrun1 Hst Eadv) as (Hr & Hok2 & Hck2 & Hsn2 & Hrunr & Hoth2).
  destruct (save_reference db2 sid p r setup target c2 Hok2 Hck2 Hrunr Eref2) as (rs & db3 & Hsave3 & Hs3 & He3 & Hck3 & Hrs3).
  unfold sbind at 1. rewrite on_db_run, Hsave3. cbn [fst snd].
  assert (state_version (cp_simulator c) <= state_version (cp_simulator c2)) as Hsvle.
  { destruct (reference_Ok _ _ _ _ Eref2) as (_ & _ & _ & _ & _ & _ & -> & _). rewrite Hcv.
    pose proof (inputs_until_mono m t target ltac:(lia)). lia. }
  destruct rs as [u'|e].
  - eexists _, db3, x2. split; [done|]. split; [by eapply db_ok_same|]. split; [done|]. split; [|done].
    unfold advanced. rewrite (proj2 (Z.eqb_neq target t) Hne). cbn. pose proof (state_same _ _ Hs3 He3) as Hsame3.
    split_and!; try done.
    + rewrite Hsame3. apply Hrunr.
    + rewrite Hct. unfold count_to. fold m. pose proof (inputs_until_mono m t target ltac:(lia)). lia.
    + lia.
    + unfold count_to. fold m. lia.
    + intros o Ho. rewrite Hsame3, Hoth2 by done. apply Hsame1.
  - exfalso. destruct Hrs3 as [_ Hno]. apply Hno. split; [|right; lia].
    subst r. cbn. destruct (state_record_ok _ _ _ Hok (rn_state _ _ _ _ _ _ Hrun)) as [[Q _ _] _]. lia.
Qed.

(** ** Histories *)

(** Enough fuel for every manifest of the source. *)
Definition fuel_for (fuel : nat) : Prop := forall m, (length (inputs_of m) < fuel)%nat.

(** A step of the system: any session operation on its own (so also an [advance_to] cut short between
    its session update and its second checkpoint), or a whole [advance_to] with any outcome. *)
Inductive replay_step : Db * Sim -> Db * Sim -> Prop :=
| step_session db db' x x' : session_step db db' -> replay_step (db, x) (db', x')
| step_advance fuel sid p v target batch_size w r w' :
    fuel_for fuel -> advance_to fuel sid p v target batch_size w = (r, w') -> replay_step w w'.

Lemma advance_to_spec fuel sid p v target batch_size db x r db' x' :
  fuel_for fuel -> db_ok db -> checkpoints_ok db ->
  advance_to fuel sid p v target batch_size (db, x) = (r, (db', x')) ->
  db_ok db' /\ checkpoints_ok db' /\
  match r with
  | Ok res => exists b setup t, running db sid p b setup t /\ ss_version b = v /\ ss_status b = RUNNING /\
      t <= target <= play_end_ns setup /\ advanced db db' sid p b setup t target (Ok res)
  | Raise _ => forall o, state db' o = state db o
  end.
Proof.
  intros Hfuel Hok Hck Ha.
  destruct (advance_to_cases fuel sid p v target batch_size db x) as [[e E]|(b & setup & t & Hb & Hrun & Hv & Hst & Htgt)].
  { rewrite E in Ha. by injection Ha as <- <- <-. }
  rewrite (advance_to_start _ _ _ _ _ _ _ _ b setup t) in Ha by done.
  destruct (advance_session_spec fuel sid p b setup t target batch_size db x) as (res & db1 & x1 & E & H1' & H2' & H3' & _);
    try done; [lia|]. rewrite E in Ha. injection Ha as <- <- <-. split; [done|]. split; [done|].
  destruct res as [res|e]; [|exact H3']. by exists b, setup, t.
Qed.

Lemma replay_history_ok w w' :
  rtc replay_step w w' -> db_ok (fst w) -> checkpoints_ok (fst w) -> db_ok (fst w') /\ checkpoints_ok (fst w').
Proof.
  induction 1 as [|w w1 w' Hs _ IH]; [done|]. intros Hok Hck.
  assert (db_ok (fst w1) /\ checkpoints_ok (fst w1)) as [Hok1 Hck1]; [|by apply IH].
  destruct Hs as [db db' x x' Hs|fuel sid p v target b [db x] r [db' x'] Hf Ha]; cbn in *.
  - split; [|by apply (checkpoints_session_step db)]. apply (session_history_ok db); [by apply rtc_once|done].
  - by destruct (advance_to_spec _ _ _ _ _ _ _ _ _ _ _ Hf Hok Hck Ha) as (? & ? & _).
Qed.

Lemma empty_checkpoints_ok : checkpoints_ok empty_db.
Proof. split; [by apply NoDup_nil|]. intros row Hrow. by apply not_elem_of_nil in Hrow. Qed.

(** C11. In every history of session operations and coordinated advances, complete or cut short,
    [advance_to] is right: a result is a running session moved to the target, with the reference
    checkpoint of the target and the number of inputs between the two frontiers; an exception leaves
    every session as it was; no other session changes; and every stored checkpoint stays the
    reference checkpoint of its session. *)
Theorem advance_to_refines x0 db x fuel sid p v target batch_size :
  rtc replay_step (empty_db, x0) (db, x) -> fuel_for fuel ->
  let '(r, (db', x')) := advance_to fuel sid p v target batch_size (db, x) in
  db_ok db' /\ checkpoints_ok db' /\
  match r with
  | Ok res => exists b setup t, running db sid p b setup t /\ ss_version b = v /\ ss_status b = RUNNING /\
      t <= target <= play_end_ns setup /\ advanced db db' sid p b setup t target (Ok res)
  | Raise _ => forall o, state db' o = state db o
  end.
Proof.
  intros Hh Hf. destruct (replay_history_ok _ _ Hh empty_db_ok empty_checkpoints_ok) as [Hok Hck].
  destruct (advance_to fuel sid p v target batch_size (db, x)) as [r [db' x']] eqn:E.
  by apply (advance_to_spec fuel sid p v target batch_size db x r db' x').
Qed.

(** C12. [advance_to] recovers and makes progress: whatever crashes came before, an owned running session
    can be moved to any time up to its end if the reference run reaches that time, the simulator's
    state at the current frontier is past version 0, and the session's log can take the event. *)
Theorem advance_to_recovers x0 db x fuel sid p b setup t target batch_size :
  rtc replay_step (empty_db, x0) (db, x) -> fuel_for fuel -> 0 < batch_size <= 100000 ->
  running db sid p b setup t -> ss_status b = RUNNING -> 0 < ss_version b < U64_MAX ->
  t <= target <= play_end_ns setup -> is_ok (ref_at setup target) = true ->
  (forall c, ref_at setup t = Ok c -> 0 < state_version (cp_simulator c)) ->
  (target <> t -> can_log (Advance sid p (ss_version b) target) db) ->
  exists res w', advance_to fuel sid p (ss_version b) target batch_size (db, x) = (Ok res, w').
Proof.
  intros Hh Hf Hb Hrun Hst Hv Htgt Href Hsv Hlog.
  destruct (replay_history_ok _ _ Hh empty_db_ok empty_checkpoints_ok) as [Hok Hck].
  rewrite (advance_to_start _ _ _ _ _ _ _ _ b setup t) by done.
  destruct (advance_session_spec fuel sid p b setup t target batch_size db x) as (res & db1 & x1 & E & _ & _ & _ & Hlive);
    try done; [lia|]. specialize (Hlive Href ltac:(lia) ltac:(lia) Hsv Hlog).
  destruct res as [res|e]; [|done]. by exists res, (db1, x1).
Qed.
End Recovery.

(** ** Concrete runs *)

Module DemoCrash.

Lemma feed_fuel : fuel_for 6.
Proof. intros m. cbn. lia. Qed.

(** A crash before any checkpoint: the session was advanced to 250 by its own operation. *)
Definition crashed : Db * SimulatorState := (demo_sessions 4, Demo.sim_pristine).

Lemma crashed_history : rtc replay_step (empty_db, Demo.sim_pristine) crashed.
Proof.
  unfold crashed. pose proof (demo_reachable 4) as Hd. revert Hd. generalize (demo_sessions 4).
  intros db Hd. induction Hd as [db|db db1 db' Hs _ IH]; [constructor|].
  eapply rtc_l; [|exact IH]. by constructor.
Qed.

Definition demo_record : SessionRecord :=
  match state (demo_sessions 4) "s1" with Some r => r | None => mk_session "" "" SETUP 0 0 None None None end.
Definition demo_committed : CommittedSetup :=
  match ss_setup demo_record with Some s => s | None => demo_setup end.

Lemma demo_running : running (demo_sessions 4) "s1" "alice" demo_record demo_committed 250.
Proof. split; vm_compute; reflexivity. Qed.

Lemma demo_can_log : can_log (Advance "s1" "alice" 3 400) (demo_sessions 4).
Proof.
  split; [vm_compute; reflexivity|]. intros b Hb. assert (b = demo_record) as ->.
  { unfold demo_record. change (Session.target _) with "s1" in Hb. by rewrite Hb. }
  change (Session.target _) with "s1". apply fresh_hash_check. vm_compute. reflexivity.
Qed.
End DemoCrash.

Lemma advance_to_refines_witness :
  let '(r, (db', _)) := advance_to 6 "s1" "alice" 3 400 2 DemoCrash.crashed in
  is_ok r = true /\ db_ok db' /\ checkpoints_ok db'.
Proof.
  pose proof (advance_to_refines Demo.sim_pristine (demo_sessions 4) Demo.sim_pristine 6 "s1" "alice" 3 400 2
                DemoCrash.crashed_history DemoCrash.feed_fuel) as Ha.
  assert (is_ok (fst (advance_to 6 "s1" "alice" 3 400 2 DemoCrash.crashed)) = true) as Hr by (vm_compute; reflexivity).
  unfold DemoCrash.crashed in *. destruct (advance_to 6 "s1" "alice" 3 400 2 (demo_sessions 4, Demo.sim_pristine)) as [r [db' x']].
  split; [exact Hr|]. destruct Ha as (H1 & H2 & _). split; [exact H1|exact H2].
Defined.

Lemma advance_to_recovers_witness :
  exists res w', advance_to 6 "s1" "alice" 3 400 2 (demo_sessions 4, Demo.sim_pristine) = (Ok res, w').
Proof.
  apply (advance_to_recovers Demo.sim_pristine (demo_sessions 4) Demo.sim_pristine 6 "s1" "alice"
           DemoCrash.demo_record DemoCrash.demo_committed 250 400 2).
  - exact DemoCrash.crashed_history.
  - exact DemoCrash.feed_fuel.
  - lia.
  - exact DemoCrash.demo_running.
  - vm_compute. reflexivity.
  - vm_compute. split; reflexivity.
  - vm_compute. split; discriminate.
  - vm_compute. reflexivity.
  - intros c Hc. destruct (reference_Ok _ _ _ _ Hc) as (_ & _ & _ & _ & _ & _ & -> & _). vm_compute. reflexivity.
  - intros _. exact DemoCrash.demo_can_log.
Defined.
