(* ===== verification/CommitmentModel.v ===== *)
(** * Episode-selection commitments: the protocol ([apps/api/.../commitments/__init__.py])

    The canonical encodings of the setup and of the eligible episodes, the commitment hash, the
    rejection-sampled draw, the derivation of a selection and the offline verification of a
    completion proof.  The persistent service is in [Commitment]. *)

From S2P Require Import Prelude Sort PyStr Bytes.
From Stdlib Require Import Strings.Byte.
From Stdlib Require String.

Definition ALGORITHM_VERSION : string := "trl-episode-v1".
Definition MAX_PLAYER_NONCE_BYTES : Z := 256.

(** ** Data *)

Record SelectionSetup := mk_selection_setup {
  sel_instrument_id : string;
  sel_ruleset_hash : string;
  sel_execution_tier : string;
  sel_warmup_ns : Z;
  sel_duration_ns : Z;
  sel_visibility_mode : string;
  sel_required_capabilities : list string;
  sel_allowed_redistribution : list string;
  sel_allow_degraded : bool;
}.

Record EligibleEpisode := mk_episode {
  episode_id : string;
  ep_manifest_hash : string;
  ep_play_start_ns : Z;
  ep_play_end_ns : Z;
}.

Record CompletionProof := mk_proof {
  pf_algorithm_version : string;
  pf_commitment_hash : string;
  pf_setup_hash : string;
  pf_eligible_set_hash : string;
  pf_secret_hex : string;
  pf_player_nonce_hex : string;
  pf_selected_index : Z;
  pf_draw_counter : Z;
  pf_selected_episode : EligibleEpisode;
}.

Record SelectionResult := mk_selection_result {
  sr_setup_hash : string;
  sr_eligible_set_hash : string;
  sr_commitment_hash : string;
  sr_selected_index : Z;
  sr_draw_counter : Z;
}.

#[export] Instance EligibleEpisode_eq_dec : EqDecision EligibleEpisode.
Proof. solve_decision. Defined.

(** ** Validation *)

Definition validate_i64 (v : Z) : result unit := raise_if (negb (in_i64 v)) ValueError.

Definition validate_sha256 (v : string) : result unit :=
  let! _ := raise_if (negb (py_len v =? 64)) ValueError in
  let! decoded := fromhex v in
  raise_if (negb (String.eqb (hex decoded) v)) ValueError.

(** [values != tuple(sorted(values)) or len(set(values)) != len(values)]. *)
Definition canonical_order (values : list string) : bool :=
  bool_decide (values = py_sorted id values)
  && (size (list_to_set values : gset string) =? length values)%nat.

Definition require_canonical_strings (values : list string) : result unit :=
  let! _ := raise_if (existsb is_empty values) ValueError in
  raise_if (negb (canonical_order values)) ValueError.

Definition SelectionSetup_post_init (s : SelectionSetup) : result unit :=
  let! _ := raise_if (is_empty (sel_instrument_id s) || is_empty (sel_execution_tier s)
                      || is_empty (sel_visibility_mode s)) ValueError in
  let! _ := validate_sha256 (sel_ruleset_hash s) in
  let! _ := validate_i64 (sel_warmup_ns s) in
  let! _ := validate_i64 (sel_duration_ns s) in
  let! _ := raise_if ((sel_warmup_ns s <? 0) || (sel_duration_ns s <=? 0)) ValueError in
  let! _ := require_canonical_strings (sel_required_capabilities s) in
  require_canonical_strings (sel_allowed_redistribution s).

Definition EligibleEpisode_post_init (e : EligibleEpisode) : result unit :=
  let! _ := raise_if (is_empty (episode_id e)) ValueError in
  let! _ := validate_sha256 (ep_manifest_hash e) in
  let! _ := validate_i64 (ep_play_start_ns e) in
  let! _ := validate_i64 (ep_play_end_ns e) in
  raise_if (ep_play_end_ns e <=? ep_play_start_ns e) ValueError.

Definition validate_player_nonce (nonce : bytes) : result unit :=
  raise_if (MAX_PLAYER_NONCE_BYTES <? Z.of_nat (length nonce)) ValueError.

(** ** Canonical bytes *)

(** [n.to_bytes(8, "big")]. *)
Definition to_bytes8 (n : Z) : result bytes := if in_u64 n then Ok (be_bytes 8 n) else Raise OverflowError.

Definition text (value : string) : result bytes :=
  let! _ := raise_if (is_empty value) ValueError in
  let encoded := utf8 value in
  let! n := to_bytes8 (Z.of_nat (length encoded)) in
  Ok (n ++ encoded).

Fixpoint texts (values : list string) : result bytes :=
  match values with
  | [] => Ok []
  | v :: vs => let! b := text v in let! bs := texts vs in Ok (b ++ bs)
  end.

Definition strings (values : list string) : result bytes :=
  let! n := to_bytes8 (Z.of_nat (length values)) in
  let! bs := texts values in
  Ok (n ++ bs).

(** [value.to_bytes(8, "big", signed=True)]. *)
Definition i64 (value : Z) : result bytes := let! _ := validate_i64 value in Ok (be_bytes 8 value).

Definition canonical_setup_bytes (s : SelectionSetup) : result bytes :=
  let! a := text (sel_instrument_id s) in
  let! b := fromhex (sel_ruleset_hash s) in
  let! c := text (sel_execution_tier s) in
  let! d := i64 (sel_warmup_ns s) in
  let! e := i64 (sel_duration_ns s) in
  let! f := text (sel_visibility_mode s) in
  let! g := strings (sel_required_capabilities s) in
  let! h := strings (sel_allowed_redistribution s) in
  Ok (utf8 "trl:episode-setup:v1" ++ a ++ b ++ c ++ d ++ e ++ f ++ g ++ h
      ++ [if sel_allow_degraded s then x01 else x00]).

Definition episode_bytes (e : EligibleEpisode) : result bytes :=
  let! a := text (episode_id e) in
  let! b := fromhex (ep_manifest_hash e) in
  let! c := i64 (ep_play_start_ns e) in
  let! d := i64 (ep_play_end_ns e) in
  let encoded := a ++ b ++ c ++ d in
  let! n := to_bytes8 (Z.of_nat (length encoded)) in
  Ok (n ++ encoded).

Fixpoint episodes_bytes (es : list EligibleEpisode) : result bytes :=
  match es with
  | [] => Ok []
  | e :: es' => let! b := episode_bytes e in let! bs := episodes_bytes es' in Ok (b ++ bs)
  end.

Definition canonical_eligible_bytes (es : list EligibleEpisode) : result bytes :=
  let! _ := raise_if (match es with [] => true | _ => false end) ValueError in
  let! _ := raise_if (negb (canonical_order (map episode_id es))) ValueError in
  let! n := to_bytes8 (Z.of_nat (length es)) in
  let! bs := episodes_bytes es in
  Ok (utf8 "trl:eligible-episodes:v1" ++ n ++ bs).

Definition setup_hash (s : SelectionSetup) : result string :=
  let! bs := canonical_setup_bytes s in Ok (sha256_hex bs).

Definition eligible_set_hash (es : list EligibleEpisode) : result string :=
  let! bs := canonical_eligible_bytes es in Ok (sha256_hex bs).

Definition commitment_payload (secret : bytes) (setup_digest eligible_digest : string) (nonce : bytes)
    : result bytes :=
  let! a := fromhex setup_digest in
  let! b := fromhex eligible_digest in
  let! n := to_bytes8 (Z.of_nat (length nonce)) in
  Ok (utf8 "trl:episode-commitment:v1" ++ secret ++ a ++ b ++ n ++ nonce).

Definition commitment_hash (secret : bytes) (setup_digest eligible_digest : string) (nonce : bytes)
    : result string :=
  let! payload := commitment_payload secret setup_digest eligible_digest nonce in Ok (sha256_hex payload).

(** ** The draw *)

Definition SPACE : Z := Z.shiftl 1 256.
Definition draw_limit (count : Z) : Z := SPACE - SPACE mod count.

Definition draw_message (setup_digest eligible_digest : string) (nonce : bytes) (counter : Z) : result bytes :=
  let! a := fromhex setup_digest in
  let! b := fromhex eligible_digest in
  let! n := to_bytes8 (Z.of_nat (length nonce)) in
  let! c := to_bytes8 counter in
  Ok (utf8 "trl:episode-draw:v1" ++ a ++ b ++ n ++ nonce ++ c).

(** One iteration of [while counter < 2**64]. *)
Definition draw_step (secret : bytes) (setup_digest eligible_digest : string) (nonce : bytes) (count : Z)
    (counter : Z) : Z + result (Z * Z) :=
  match draw_message setup_digest eligible_digest nonce counter with
  | Raise e => inr (Raise e)
  | Ok message =>
      let candidate := be_value (hmac_sha256 secret message) in
      if candidate <? draw_limit count then inr (Ok (candidate mod count, counter)) else inl (counter + 1)
  end.

Definition draw_index (secret : bytes) (setup_digest eligible_digest : string) (nonce : bytes) (count : Z)
    : result (Z * Z) :=
  let! _ := raise_if (count <=? 0) ValueError in
  match iter_until 18446744073709551616 (draw_step secret setup_digest eligible_digest nonce count) 0 with
  | inr r => r
  | inl _ => Raise RuntimeError
  end.

(** ** Selection and verification *)

Definition derive_selection (s : SelectionSetup) (es : list EligibleEpisode) (secret nonce : bytes)
    : result SelectionResult :=
  let! _ := raise_if (negb (Z.of_nat (length secret) =? 32)) ValueError in
  let! _ := validate_player_nonce nonce in
  let! _ := raise_if (match es with [] => true | _ => false end) ValueError in
  let! sd := setup_hash s in
  let! ed := eligible_set_hash es in
  let! c := commitment_hash secret sd ed nonce in
  let! draw := draw_index secret sd ed nonce (Z.of_nat (length es)) in
  Ok (mk_selection_result sd ed c (fst draw) (snd draw)).

(** [hmac.compare_digest] of two texts: only ASCII ones. *)
Definition compare_digest (a b : string) : result bool :=
  if py_isascii a && py_isascii b then Ok (String.eqb a b) else Raise TypeError.

Definition require_digest (a b : string) : result unit :=
  let! same := compare_digest a b in raise_if (negb same) CommitmentVerificationError.

(** [except (ValueError, TypeError)]. *)
Definition proof_error (e : exn) : exn :=
  match e with ValueError | TypeError => CommitmentVerificationError | e => e end.

Definition proof_selection (s : SelectionSetup) (es : list EligibleEpisode) (p : CompletionProof)
    : result SelectionResult :=
  let! secret := fromhex (pf_secret_hex p) in
  let! nonce := fromhex (pf_player_nonce_hex p) in
  derive_selection s es secret nonce.

Definition verify_completion_proof (s : SelectionSetup) (es : list EligibleEpisode) (p : CompletionProof)
    : result EligibleEpisode :=
  let! _ := raise_if (negb (String.eqb (pf_algorithm_version p) ALGORITHM_VERSION)) CommitmentVerificationError in
  let! derived := catch_res proof_error (proof_selection s es p) in
  let! _ := require_digest (sr_setup_hash derived) (pf_setup_hash p) in
  let! _ := require_digest (sr_eligible_set_hash derived) (pf_eligible_set_hash p) in
  let! _ := require_digest (sr_commitment_hash derived) (pf_commitment_hash p) in
  let! _ := raise_if (negb (sr_selected_index derived =? pf_selected_index p)
                      || negb (sr_draw_counter derived =? pf_draw_counter p)) CommitmentVerificationError in
  let! _ := raise_if ((pf_selected_index p <? 0) || (Z.of_nat (length es) <=? pf_selected_index p))
              CommitmentVerificationError in
  match es !! Z.to_nat (pf_selected_index p) with
  | None => Raise CommitmentVerificationError        (* not reached: the index is in range *)
  | Some selected =>
      let! _ := raise_if (negb (bool_decide (selected = pf_selected_episode p))) CommitmentVerificationError in
      Ok selected
  end.

(** ** Examples *)

Definition demo_digest : string := sha256_hex (utf8 "demo").
Definition demo_selection_setup : SelectionSetup :=
  mk_selection_setup "SYNTH" demo_digest "F1" 100 300 "RELATIVE" ["DEPTH"; "TRADES"] ["REDISTRIBUTABLE"] false.
Definition demo_episodes : list EligibleEpisode :=
  [mk_episode "ep-1" demo_digest 200 500; mk_episode "ep-2" demo_digest 300 600; mk_episode "ep-3" demo_digest (-5) 295].
Definition demo_secret : bytes := be_bytes 32 7.

Transparent sha256.
Example demo_valid :
  (SelectionSetup_post_init demo_selection_setup, map EligibleEpisode_post_init demo_episodes)
  = (Ok tt, [Ok tt; Ok tt; Ok tt]).
Proof. vm_compute. reflexivity. Qed.
Example demo_draws :
  map (fun n => match derive_selection demo_selection_setup demo_episodes (be_bytes 32 n) [] with
                | Ok r => Some (sr_selected_index r, sr_draw_counter r) | Raise _ => None end) [0; 1; 2; 3; 4; 5]
  = [Some (0, 0); Some (0, 0); Some (1, 0); Some (2, 0); Some (2, 0); Some (1, 0)].
Proof. vm_compute. reflexivity. Qed.
Opaque sha256.

#[local] Opaque be_bytes utf8.

(** ** The encodings can be read back

    [decodable P enc]: a value that satisfies [P] and what follows its encoding are determined by
    the bytes. *)

Definition decodable {A} (P : A -> Prop) (enc : A -> result bytes) : Prop :=
  forall x y a b r s, P x -> P y -> enc x = Ok a -> enc y = Ok b -> a ++ r = b ++ s -> x = y /\ r = s.

Lemma app_same_length {A} (a b r s : list A) : length a = length b -> a ++ r = b ++ s -> a = b /\ r = s.
Proof. intros Hl H. by apply app_inj_1 in H. Qed.

Lemma to_bytes8_Ok n b : to_bytes8 n = Ok b -> 0 <= n < 2 ^ 64 /\ b = be_bytes 8 n.
Proof. unfold to_bytes8. destruct (in_u64 n) eqn:E; [|discriminate]. intros [= <-]. by apply in_u64_spec in E. Qed.

Lemma to_bytes8_run n : 0 <= n < 2 ^ 64 -> to_bytes8 n = Ok (be_bytes 8 n).
Proof. intros H. unfold to_bytes8. by rewrite (proj2 (in_u64_spec n)). Qed.

Lemma to_bytes8_decodable : decodable (fun _ => True) to_bytes8.
Proof.
  intros x y a b r s _ _ [Hx ->]%to_bytes8_Ok [Hy ->]%to_bytes8_Ok H.
  apply app_same_length in H as [H ->]; [|by rewrite !length_be_bytes]. split; [|done].
  exact (be_bytes_inj 8 _ _ Hx Hy H).
Qed.

Lemma i64_decodable : decodable (fun _ => True) i64.
Proof.
  intros x y a b r s _ _ Hx Hy H. unfold i64, validate_i64 in *. repeat step_ok. subst. bools.
  apply app_same_length in H as [H ->]; [|by rewrite !length_be_bytes]. split; [|done].
  apply be_bytes8_i64_inj; [by apply in_i64_spec..|exact H].
Qed.

Lemma text_decodable : decodable (fun _ => True) text.
Proof.
  intros x y a b r s _ _ Hx Hy H. unfold text in *. repeat step_ok. subst.
  rewrite <- !app_assoc in H.
  match goal with H1 : to_bytes8 _ = Ok _, H2 : to_bytes8 _ = Ok _ |- _ =>
    destruct (to_bytes8_decodable _ _ _ _ _ _ I I H1 H2 H) as [Hl Ht] end.
  apply app_same_length in Ht as [Ht ->]; [|lia]. split; [by apply utf8_inj|done].
Qed.

Lemma texts_decodable n : decodable (fun l => length l = n) texts.
Proof.
  induction n as [|n IH]; intros x y a b r s Lx Ly Hx Hy H; destruct x as [|v x], y as [|w y]; try discriminate.
  - cbn in *. simplify_eq. done.
  - cbn [texts] in Hx, Hy. repeat step_ok. subst. rewrite <- !app_assoc in H.
    match goal with H1 : text v = Ok _, H2 : text w = Ok _ |- _ =>
      destruct (text_decodable _ _ _ _ _ _ I I H1 H2 H) as [-> Ht] end.
    match goal with H1 : texts x = Ok _, H2 : texts y = Ok _ |- _ =>
      destruct (IH x y _ _ _ _ ltac:(cbn in *; lia) ltac:(cbn in *; lia) H1 H2 Ht) as [-> ->] end. done.
Qed.

Lemma strings_decodable : decodable (fun _ => True) strings.
Proof.
  intros x y a b r s _ _ Hx Hy H. unfold strings in *. repeat step_ok. subst.
  rewrite <- !app_assoc in H.
  match goal with H1 : to_bytes8 _ = Ok _, H2 : to_bytes8 _ = Ok _ |- _ =>
    destruct (to_bytes8_decodable _ _ _ _ _ _ I I H1 H2 H) as [Hl Ht] end.
  match goal with H1 : texts x = Ok _, H2 : texts y = Ok _ |- _ =>
    exact (texts_decodable (length y) x y _ _ _ _ (Nat2Z.inj _ _ Hl) eq_refl H1 H2 Ht) end.
Qed.

(** A lowercase SHA-256 digest: the text of 32 bytes. *)
Definition is_digest (v : string) : Prop := exists bs, length bs = 32%nat /\ v = hex bs.

Lemma fromhex_digest v : is_digest v -> exists bs, fromhex v = Ok bs /\ length bs = 32%nat /\ v = hex bs.
Proof. intros (bs & Hl & ->). exists bs. by rewrite fromhex_hex. Qed.

Lemma validate_sha256_digest v : validate_sha256 v = Ok tt -> is_digest v.
Proof.
  unfold validate_sha256. intros H. repeat step_ok. bools.
  match goal with H1 : String.eqb (hex ?b) v = true, Hl : py_len v = 64 |- _ =>
    apply String.eqb_eq in H1; exists b; split; [|done]; unfold py_len in Hl;
    rewrite <- H1, length_hex in Hl; lia end.
Qed.

Lemma sha256_hex_digest m : is_digest (sha256_hex m).
Proof. exists (sha256 m). split; [apply length_sha256|done]. Qed.

Lemma digest_decodable : decodable is_digest fromhex.
Proof.
  intros x y a b r s Hx Hy. apply fromhex_digest in Hx as (? & -> & Lx & ->), Hy as (? & -> & Ly & ->).
  intros [= ->] [= ->] H. apply app_same_length in H as [-> ->]; [done|congruence].
Qed.

Lemma flag_inj (a b : bool) : [if a then x01 else x00] = [if b then x01 else x00] -> a = b.
Proof. by destruct a, b. Qed.

(** Reads the fields of two equal encodings one after the other. *)
Ltac read_field :=
  match goal with
  | H : ?a ++ _ = ?b ++ _, H1 : ?f ?u = Ok ?a, H2 : ?f ?v = Ok ?b |- _ =>
      first
        [ apply (to_bytes8_decodable _ _ _ _ _ _ I I H1 H2) in H
        | apply (text_decodable _ _ _ _ _ _ I I H1 H2) in H
        | apply (i64_decodable _ _ _ _ _ _ I I H1 H2) in H
        | apply (strings_decodable _ _ _ _ _ _ I I H1 H2) in H
        | apply (digest_decodable u v _ _ _ _ ltac:(assumption) ltac:(assumption) H1 H2) in H ];
      destruct H as [? H]; clear H1 H2
  end.

(** Drops the domain-separation prefix. *)
Ltac strip_tag := match goal with H : utf8 ?t ++ _ = utf8 ?t ++ _ |- _ => apply app_inv_head in H end.

Lemma setup_made_digest s : SelectionSetup_post_init s = Ok tt -> is_digest (sel_ruleset_hash s).
Proof. unfold SelectionSetup_post_init. intros H. repeat step_ok. by apply validate_sha256_digest. Qed.

Lemma episode_made_digest e : EligibleEpisode_post_init e = Ok tt -> is_digest (ep_manifest_hash e).
Proof. unfold EligibleEpisode_post_init. intros H. repeat step_ok. by apply validate_sha256_digest. Qed.

Lemma setup_bytes_inj s t b :
  is_digest (sel_ruleset_hash s) -> is_digest (sel_ruleset_hash t) ->
  canonical_setup_bytes s = Ok b -> canonical_setup_bytes t = Ok b -> s = t.
Proof.
  intros Hs Ht H1 H2. unfold canonical_setup_bytes in *. destruct s, t; cbn in *. repeat step_ok. subst b.
  strip_tag. repeat read_field.
  match goal with H : [_] = [_] |- _ => apply flag_inj in H end. by subst.
Qed.

Lemma episode_decodable : decodable (fun e => is_digest (ep_manifest_hash e)) episode_bytes.
Proof.
  intros x y a b r s Dx Dy Hx Hy H. unfold episode_bytes in *. destruct x, y; cbn in *. repeat step_ok.
  subst a b. rewrite <- !app_assoc in H. repeat read_field. by subst.
Qed.

Lemma episodes_decodable n :
  decodable (fun l => length l = n /\ Forall (fun e => is_digest (ep_manifest_hash e)) l) episodes_bytes.
Proof.
  induction n as [|n IH]; intros x y a b r s [Lx Dx] [Ly Dy] Hx Hy H; destruct x as [|v x], y as [|w y]; try discriminate.
  - cbn in *. simplify_eq. done.
  - cbn [episodes_bytes] in Hx, Hy. repeat step_ok. subst. rewrite <- !app_assoc in H.
    apply Forall_cons in Dx as [Dv Dx], Dy as [Dw Dy].
    match goal with H1 : episode_bytes v = Ok _, H2 : episode_bytes w = Ok _ |- _ =>
      destruct (episode_decodable _ _ _ _ _ _ Dv Dw H1 H2 H) as [-> Ht] end.
    match goal with H1 : episodes_bytes x = Ok _, H2 : episodes_bytes y = Ok _ |- _ =>
      destruct (IH x y _ _ _ _ ltac:(split; [cbn in *; lia|done]) ltac:(split; [cbn in *; lia|done]) H1 H2 Ht)
        as [-> ->] end. done.
Qed.

Lemma eligible_bytes_inj l l' b :
  Forall (fun e => is_digest (ep_manifest_hash e)) l -> Forall (fun e => is_digest (ep_manifest_hash e)) l' ->
  canonical_eligible_bytes l = Ok b -> canonical_eligible_bytes l' = Ok b -> l = l'.
Proof.
  intros Dl Dl' H1 H2. unfold canonical_eligible_bytes in *. repeat step_ok. subst b.
  strip_tag. read_field.
  match goal with Ha : episodes_bytes l = Ok ?a, Hb : episodes_bytes l' = Ok ?b |- _ =>
    destruct (episodes_decodable (length l') l l' a b [] [] ltac:(split; [lia|done]) ltac:(done) Ha Hb) end.
  - by rewrite !app_nil_r.
  - done.
Qed.

Lemma payload_inj k k' sd sd' ed ed' n n' b :
  length k = 32%nat -> length k' = 32%nat ->
  is_digest sd -> is_digest sd' -> is_digest ed -> is_digest ed' ->
  commitment_payload k sd ed n = Ok b -> commitment_payload k' sd' ed' n' = Ok b ->
  k = k' /\ sd = sd' /\ ed = ed' /\ n = n'.
Proof.
  intros Lk Lk' D1 D2 D3 D4 H1 H2. unfold commitment_payload in *. repeat step_ok. subst b.
  strip_tag.
  match goal with H : k' ++ _ = k ++ _ |- _ => symmetry in H | _ => idtac end.
  match goal with H : k ++ _ = k' ++ _ |- _ => apply app_same_length in H as [-> H]; [|congruence] end.
  repeat read_field. by subst.
Qed.

(** ** Derivations *)

Definition bytes_collide (a b : bytes) : Prop := a <> b /\ sha256_hex a = sha256_hex b.

Lemma sha256_binds a b : sha256_hex a = sha256_hex b -> a = b \/ bytes_collide a b.
Proof. intros H. destruct (decide (a = b)); [by left|by right]. Qed.

(** What a derivation went through. *)
Record derived (s : SelectionSetup) (es : list EligibleEpisode) (secret nonce : bytes) (r : SelectionResult)
    (sb eb pb : bytes) : Prop := mk_derived {
  dv_secret : length secret = 32%nat;
  dv_nonce : Z.of_nat (length nonce) <= MAX_PLAYER_NONCE_BYTES;
  dv_some : es <> [];
  dv_setup : canonical_setup_bytes s = Ok sb;
  dv_eligible : canonical_eligible_bytes es = Ok eb;
  dv_payload : commitment_payload secret (sha256_hex sb) (sha256_hex eb) nonce = Ok pb;
  dv_draw : draw_index secret (sha256_hex sb) (sha256_hex eb) nonce (Z.of_nat (length es))
            = Ok (sr_selected_index r, sr_draw_counter r);
  dv_hashes : sr_setup_hash r = sha256_hex sb /\ sr_eligible_set_hash r = sha256_hex eb /\
              sr_commitment_hash r = sha256_hex pb;
}.

Lemma derive_Ok s es k n r : derive_selection s es k n = Ok r -> exists sb eb pb, derived s es k n r sb eb pb.
Proof.
  unfold derive_selection, validate_player_nonce, setup_hash, eligible_set_hash, commitment_hash.
  intros H. repeat step_ok. subst.
  match goal with Hd : draw_index _ _ _ _ _ = Ok ?d |- _ => destruct d as [i c] end. do 3 eexists. split; try done; bools; [lia|lia|by destruct es].
Qed.

Lemma derived_run s es k n r sb eb pb : derived s es k n r sb eb pb -> derive_selection s es k n = Ok r.
Proof.
  intros [H1 H2 H3 H4 H5 H6 H7 (E1 & E2 & E3)].
  unfold derive_selection, validate_player_nonce, setup_hash, eligible_set_hash, commitment_hash.
  rewrite H1, (proj2 (raise_if_Ok _ _ tt)) by done. cbn [rbind].
  rewrite (proj2 (raise_if_Ok _ _ tt)) by (apply Z.ltb_ge; lia). cbn [rbind].
  rewrite (proj2 (raise_if_Ok _ _ tt)) by (by destruct es). cbn [rbind].
  rewrite H4, H5. cbn [rbind]. rewrite H6. cbn [rbind]. rewrite H7. cbn [rbind fst snd].
  rewrite <- E1, <- E2, <- E3. by destruct r.
Qed.

(** ** The draw *)

Section Draw.
Context (secret : bytes) (setup_digest eligible_digest : string) (nonce : bytes) (count : Z).
Context (sb eb : bytes) (Hsetup : fromhex setup_digest = Ok sb) (Heligible : fromhex eligible_digest = Ok eb).
Context (Hnonce : Z.of_nat (length nonce) <= MAX_PLAYER_NONCE_BYTES).

(** The 256-bit number drawn at a counter. *)
Definition candidate (counter : Z) : Z :=
  be_value (hmac_sha256 secret (utf8 "trl:episode-draw:v1" ++ sb ++ eb ++ be_bytes 8 (Z.of_nat (length nonce))
                                ++ nonce ++ be_bytes 8 counter)).

Definition accepted (counter : Z) : Prop := candidate counter < draw_limit count.

Lemma draw_step_run k :
  0 <= k < 2 ^ 64 ->
  draw_step secret setup_digest eligible_digest nonce count k
  = if candidate k <? draw_limit count then inr (Ok (candidate k mod count, k)) else inl (k + 1).
Proof.
  intros Hk. unfold draw_step, draw_message. rewrite Hsetup, Heligible. cbn [rbind].
  rewrite !to_bytes8_run by (unfold MAX_PLAYER_NONCE_BYTES in *; lia). done.
Qed.

Lemma draw_steps n k :
  0 <= k -> k + Z.of_nat n <= 2 ^ 64 ->
  match iter_nat n (draw_step secret setup_digest eligible_digest nonce count) k with
  | inr (Ok (i, c)) =>
      k <= c < k + Z.of_nat n /\ accepted c /\ i = candidate c mod count /\ forall j, k <= j < c -> ~ accepted j
  | inr (Raise _) => False
  | inl _ => forall j, k <= j < k + Z.of_nat n -> ~ accepted j
  end.
Proof.
  revert k. induction n as [|n IH]; intros k Hk Hn; cbn [iter_nat]; [lia|].
  rewrite draw_step_run by lia. destruct (candidate k <? draw_limit count) eqn:E; bools.
  - split_and!; [lia|lia|done|done|lia].
  - assert (~ accepted k) as Hr by (unfold accepted; lia). specialize (IH (k + 1) ltac:(lia) ltac:(lia)).
    destruct (iter_nat n _ (k + 1)) as [s|[[i c]|e]]; [| |done].
    + intros j Hj. destruct (decide (j = k)) as [->|]; [done|]. apply IH. lia.
    + destruct IH as (Hc & Ha & -> & Hj). split_and!; [lia|lia|done|done|].
      intros j Hjc. destruct (decide (j = k)) as [->|]; [done|]. apply Hj. lia.
Qed.

Lemma draw_loop :
  match iter_until 18446744073709551616 (draw_step secret setup_digest eligible_digest nonce count) 0 with
  | inr (Ok (i, c)) =>
      0 <= c < 2 ^ 64 /\ accepted c /\ i = candidate c mod count /\ forall j, 0 <= j < c -> ~ accepted j
  | inr (Raise _) => False
  | inl _ => forall j, 0 <= j < 2 ^ 64 -> ~ accepted j
  end.
Proof.
  rewrite iter_until_nat.
  pose proof (draw_steps (Pos.to_nat 18446744073709551616) 0 (Z.le_refl 0)) as H.
  rewrite positive_nat_Z in H. exact (H (Z.le_refl _)).
Qed.

(** The drawn index and counter: the first accepted candidate of the 2^64. *)
Lemma draw_index_Ok i c :
  draw_index secret setup_digest eligible_digest nonce count = Ok (i, c) <->
  0 < count /\ 0 <= c < 2 ^ 64 /\ accepted c /\ i = candidate c mod count /\ forall j, 0 <= j < c -> ~ accepted j.
Proof.
  unfold draw_index. pose proof draw_loop as H. destruct (count <=? 0) eqn:E; cbn [raise_if rbind]; bools.
  { split; [discriminate|lia]. }
  destruct (iter_until _ _ 0) as [s|[[i' c']|e]]; [| |done].
  - split; [done|]. intros (_ & Hc & Ha & _). by destruct (H c Hc).
  - destruct H as (Hc & Ha & -> & Hj). split; [intros [= <- <-]; done|].
    intros (_ & Hc2 & Ha2 & -> & Hj2). assert (c' = c) as ->; [|done].
    destruct (Z.lt_trichotomy c' c) as [?|[?|?]]; [|done|].
    + by destruct (Hj2 c' ltac:(lia)).
    + by destruct (Hj c ltac:(lia)).
Qed.

Lemma draw_index_Raise e :
  0 < count -> draw_index secret setup_digest eligible_digest nonce count = Raise e ->
  e = RuntimeError /\ forall j, 0 <= j < 2 ^ 64 -> ~ accepted j.
Proof.
  intros Hcount. unfold draw_index. pose proof draw_loop as H.
  rewrite (proj2 (raise_if_Ok _ _ tt)) by (apply Z.leb_gt; lia). cbn [rbind].
  destruct (iter_until _ _ 0) as [s|[[i' c']|e']]; [|done|done]. intros [= <-]. done.
Qed.
End Draw.

(** The accepted candidates that select an index, in order. *)
Lemma residues count i q :
  0 <= i < count ->
  List.filter (fun c => c mod count =? i) (seqZ 0 (count * Z.of_nat q))
  = map (fun k => i + count * k) (seqZ 0 (Z.of_nat q)).
Proof.
  intros Hi. induction q as [|q IH]; [by rewrite Z.mul_0_r|].
  assert (0 <= count * Z.of_nat q) by nia.
  rewrite Nat2Z.inj_succ, Z.mul_succ_r, (seqZ_app 0 (count * Z.of_nat q) count) by lia.
  rewrite List.filter_app, IH, Z.add_0_l, <- Z.add_1_r, (seqZ_app 0 (Z.of_nat q) 1), map_app by lia.
  f_equal. rewrite Z.add_0_l. change (seqZ (Z.of_nat q) 1) with [Z.of_nat q]. cbn [map].
  set (b := count * Z.of_nat q).
  assert (seqZ b count = seqZ b i ++ [b + i] ++ seqZ (b + i + 1) (count - i - 1)) as ->.
  { change [b + i] with (seqZ (b + i) 1). rewrite <- !seqZ_app by lia. f_equal. lia. }
  assert (forall d, 0 <= d < count -> (b + d) mod count = d) as Hmod.
  { intros d Hd. unfold b. rewrite (Z.mul_comm count), Z.add_comm, Z.mod_add by lia. by apply Z.mod_small. }
  rewrite !List.filter_app, (filter_none _ (seqZ b i)), (filter_none _ (seqZ (b + i + 1) _)).
  - cbn [List.filter app]. rewrite Hmod, Z.eqb_refl by done. by rewrite app_nil_r, Z.add_comm.
  - intros c Hc%elem_of_seqZ. apply Z.eqb_neq. replace c with (b + (c - b)) by lia. rewrite Hmod; lia.
  - intros c Hc%elem_of_seqZ. apply Z.eqb_neq. replace c with (b + (c - b)) by lia. rewrite Hmod; lia.
Qed.

Lemma SPACE_eq : SPACE = 2 ^ 256.
Proof. vm_compute. reflexivity. Qed.

Lemma draw_limit_bounds count :
  0 < count <= SPACE -> SPACE - count < draw_limit count <= SPACE /\ draw_limit count = count * (draw_limit count / count)
    /\ 0 <= draw_limit count / count.
Proof.
  intros Hc. unfold draw_limit. pose proof (Z.mod_pos_bound SPACE count ltac:(lia)) as Hm.
  split; [lia|]. pose proof (Z.div_mod SPACE count ltac:(lia)) as Hd.
  assert (SPACE - SPACE mod count = count * (SPACE / count)) as -> by lia.
  rewrite (Z.mul_comm count), Z.div_mul by lia. split; [lia|]. apply Z.div_pos; lia.
Qed.

Lemma be_value_bound bs : 0 <= be_value bs < 256 ^ Z.of_nat (length bs).
Proof.
  induction bs as [|b bs IH] using rev_ind; [cbn; lia|].
  rewrite be_value_app, length_app. cbn [length]. rewrite Nat2Z.inj_add, Z.pow_add_r by lia.
  change (256 ^ Z.of_nat 1) with 256. pose proof (Z_of_byte_bound b). lia.
Qed.

Lemma candidate_bound secret nonce sb eb k : 0 <= candidate secret nonce sb eb k < SPACE.
Proof.
  pose proof (be_value_bound (hmac_sha256 secret (utf8 "trl:episode-draw:v1" ++ sb ++ eb
    ++ be_bytes 8 (Z.of_nat (length nonce)) ++ nonce ++ be_bytes 8 k))) as H.
  assert (forall key m, length (hmac_sha256 key m) = 32%nat) as Hl by (intros; unfold hmac_sha256; cbv zeta; apply length_sha256).
  rewrite Hl in H. rewrite SPACE_eq. change (256 ^ Z.of_nat 32) with (2 ^ 256) in H. exact H.
Qed.

(** C16. The draw is a fair deterministic choice.  It is the first of the 2^64 candidates below the
    limit, reduced modulo the number of episodes, and fails only when the limit rejects all of them;
    the limit rejects fewer than [count] of the 2^256 values, and among the accepted ones every index
    is selected by exactly as many values. *)
Theorem draw_index_fair secret setup_digest eligible_digest nonce count sb eb :
  fromhex setup_digest = Ok sb -> fromhex eligible_digest = Ok eb ->
  Z.of_nat (length nonce) <= MAX_PLAYER_NONCE_BYTES -> 0 < count < 2 ^ 63 ->
  let value := candidate secret nonce sb eb in
  (forall i c, draw_index secret setup_digest eligible_digest nonce count = Ok (i, c) <->
     0 <= c < 2 ^ 64 /\ value c < draw_limit count /\ i = value c mod count /\
     (forall j, 0 <= j < c -> draw_limit count <= value j)) /\
  (forall e, draw_index secret setup_digest eligible_digest nonce count = Raise e <->
     e = RuntimeError /\ forall j, 0 <= j < 2 ^ 64 -> draw_limit count <= value j) /\
  (forall c, 0 <= value c < 2 ^ 256) /\ 2 ^ 256 - count < draw_limit count <= 2 ^ 256 /\
  (forall i, 0 <= i < count ->
     length (List.filter (fun v => v mod count =? i) (seqZ 0 (draw_limit count)))
     = Z.to_nat (draw_limit count / count)).
Proof.
  intros Hs He Hn Hcount value.
  pose proof (draw_limit_bounds count ltac:(rewrite SPACE_eq; lia)) as (Hlim & Hdiv & Hpos).
  rewrite SPACE_eq in Hlim.
  assert (forall k, ~ accepted secret nonce count sb eb k <-> draw_limit count <= value k) as Hrej
    by (intros k; unfold accepted, value; lia).
  split; [|split; [|split; [|split; [exact Hlim|]]]].
  - intros i c. rewrite draw_index_Ok by done. setoid_rewrite Hrej. unfold accepted. tauto.
  - intros e. split.
    + intros Hr. eapply draw_index_Raise in Hr as [-> Hr]; try done; [|lia]. split; [done|].
      intros j Hj. apply Hrej, Hr, Hj.
    + intros [-> Hall]. destruct (draw_index _ _ _ _ _) as [[i c]|e] eqn:Hr.
      * apply (draw_index_Ok _ _ _ _ _ sb eb Hs He Hn) in Hr as (_ & Hc & Ha & _).
        specialize (Hall c Hc). unfold accepted in Ha. fold value in Ha. lia.
      * eapply draw_index_Raise in Hr as [-> _]; [done..|lia].
  - intros c. rewrite <- SPACE_eq. apply candidate_bound.
  - intros i Hi. rewrite Hdiv, <- (Z2Nat.id (draw_limit count / count)) at 1 by done.
    rewrite residues by done. rewrite length_map, length_seqZ, Nat2Z.id. done.
Qed.

(** ** Verification *)

Lemma hex_ascii bs : py_isascii (hex bs) = true.
Proof.
  eapply all_chars_impl; [|apply hex_is_hex]. intros c H. unfold is_hex_char, is_ascii_digit in H. lia.
Qed.

Lemma digest_ascii d : is_digest d -> py_isascii d = true.
Proof. intros (bs & _ & ->). apply hex_ascii. Qed.

Lemma require_digest_Ok d x u : is_digest d -> require_digest d x = Ok u <-> x = d.
Proof.
  intros Hd. unfold require_digest, compare_digest. rewrite (digest_ascii d) by done. cbn [andb].
  destruct u. split.
  - destruct (py_isascii x); [|discriminate]. cbn [rbind]. intros H%raise_if_Ok. bools. by apply String.eqb_eq in H.
  - intros ->. rewrite digest_ascii by done. cbn [rbind]. by rewrite String.eqb_refl.
Qed.

(** The proof a server publishes for a derivation. *)
Definition proof_of (r : SelectionResult) (secret_hex nonce_hex : string) (e : EligibleEpisode) : CompletionProof :=
  mk_proof ALGORITHM_VERSION (sr_commitment_hash r) (sr_setup_hash r) (sr_eligible_set_hash r) secret_hex nonce_hex
    (sr_selected_index r) (sr_draw_counter r) e.

Lemma derived_digests s es k n r :
  derive_selection s es k n = Ok r ->
  is_digest (sr_setup_hash r) /\ is_digest (sr_eligible_set_hash r) /\ is_digest (sr_commitment_hash r).
Proof.
  intros (sb & eb & pb & H)%derive_Ok. destruct (dv_hashes _ _ _ _ _ _ _ _ H) as (-> & -> & ->).
  split_and!; apply sha256_hex_digest.
Qed.

Lemma derived_index s es k n r :
  derive_selection s es k n = Ok r ->
  0 <= sr_selected_index r < Z.of_nat (length es) /\ 0 <= sr_draw_counter r < 2 ^ 64.
Proof.
  intros (sb & eb & pb & D)%derive_Ok. pose proof (dv_draw _ _ _ _ _ _ _ _ D) as Hd.
  pose proof (fromhex_digest _ (sha256_hex_digest sb)) as (sb' & Hs & _ & _).
  pose proof (fromhex_digest _ (sha256_hex_digest eb)) as (eb' & He & _ & _).
  apply (draw_index_Ok _ _ _ _ _ sb' eb' Hs He (dv_nonce _ _ _ _ _ _ _ _ D)) in Hd.
  destruct Hd as (Hc & Hk & _ & Hi & _). rewrite Hi. split; [by apply Z.mod_pos_bound|done].
Qed.

Lemma derived_selected s es k n r :
  derive_selection s es k n = Ok r -> exists e, es !! Z.to_nat (sr_selected_index r) = Some e.
Proof. intros [H _]%derived_index. apply lookup_lt_is_Some. lia. Qed.

Lemma verify_Ok s es p e :
  verify_completion_proof s es p = Ok e <->
  exists secret nonce r,
    fromhex (pf_secret_hex p) = Ok secret /\ fromhex (pf_player_nonce_hex p) = Ok nonce /\
    derive_selection s es secret nonce = Ok r /\ es !! Z.to_nat (sr_selected_index r) = Some e /\
    p = proof_of r (pf_secret_hex p) (pf_player_nonce_hex p) e.
Proof.
  unfold verify_completion_proof. split.
  - intros H. repeat step_ok. bools.
    match goal with Hd : proof_selection _ _ _ = Ok ?r |- _ =>
      unfold proof_selection in Hd; repeat step_ok; rename r into r0 end.
    match goal with Hd : derive_selection _ _ _ _ = Ok _ |- _ =>
      destruct (derived_digests _ _ _ _ _ Hd) as (D1 & D2 & D3) end.
    repeat match goal with Hr : require_digest _ _ = Ok _ |- _ => apply require_digest_Ok in Hr; [|done] end.
    destruct (es !! _) as [sel|] eqn:Hl; [|discriminate]. repeat step_ok. bools. subst.
    match goal with Ha : String.eqb _ _ = true |- _ => apply String.eqb_eq in Ha end.
    do 3 eexists. split_and!; [done|done|done| |].
    + congruence.
    + destruct p; unfold proof_of; cbn in *; subst; congruence.
  - intros (k & n & r & Hk & Hn & Hd & Hl & Hp). destruct (derived_digests _ _ _ _ _ Hd) as (D1 & D2 & D3).
    destruct (derived_index _ _ _ _ _ Hd) as [Hi _]. unfold proof_selection. rewrite Hk. cbn [rbind].
    rewrite Hn. cbn [rbind]. rewrite Hd. rewrite Hp.
    cbn [proof_of pf_algorithm_version pf_setup_hash pf_eligible_set_hash pf_commitment_hash pf_selected_index
         pf_draw_counter pf_selected_episode]. rewrite String.eqb_refl. cbn [negb raise_if rbind catch_res].
    rewrite (proj2 (require_digest_Ok _ _ tt D1) eq_refl), (proj2 (require_digest_Ok _ _ tt D2) eq_refl),
      (proj2 (require_digest_Ok _ _ tt D3) eq_refl). cbn [rbind]. rewrite !Z.eqb_refl. cbn [negb orb raise_if rbind].
    rewrite (proj2 (raise_if_Ok _ _ tt)) by (apply orb_false_iff; split; [apply Z.ltb_ge|apply Z.leb_gt]; lia).
    cbn [rbind]. rewrite Hl. by rewrite bool_decide_eq_true_2.
Qed.

(** The bytes whose digest a proof's commitment hash is. *)
Definition proof_payload (s : SelectionSetup) (es : list EligibleEpisode) (p : CompletionProof) : result bytes :=
  let! secret := fromhex (pf_secret_hex p) in
  let! nonce := fromhex (pf_player_nonce_hex p) in
  let! sd := setup_hash s in
  let! ed := eligible_set_hash es in
  commitment_payload secret sd ed nonce.

(** The two computations hash different bytes to the same digest. *)
Definition collision (m m' : result bytes) : Prop := exists a b, m = Ok a /\ m' = Ok b /\ bytes_collide a b.

Definition selection_made (s : SelectionSetup) (es : list EligibleEpisode) : Prop :=
  SelectionSetup_post_init s = Ok tt /\ Forall (fun e => EligibleEpisode_post_init e = Ok tt) es.

Lemma made_digests es :
  Forall (fun e => EligibleEpisode_post_init e = Ok tt) es -> Forall (fun e => is_digest (ep_manifest_hash e)) es.
Proof. intros H. eapply Forall_impl; [exact H|]. apply episode_made_digest. Qed.

Lemma derived_binding s1 es1 k1 n1 r1 sb1 eb1 pb1 s2 es2 k2 n2 r2 sb2 eb2 pb2 :
  selection_made s1 es1 -> selection_made s2 es2 ->
  derived s1 es1 k1 n1 r1 sb1 eb1 pb1 -> derived s2 es2 k2 n2 r2 sb2 eb2 pb2 ->
  sr_commitment_hash r1 = sr_commitment_hash r2 ->
  (s1 = s2 /\ es1 = es2 /\ k1 = k2 /\ n1 = n2) \/
  bytes_collide pb1 pb2 \/ bytes_collide sb1 sb2 \/ bytes_collide eb1 eb2.
Proof.
  intros [M1 F1] [M2 F2] D1 D2 Hc. destruct D1 as [L1 _ _ S1 E1 P1 _ (_ & _ & C1)], D2 as [L2 _ _ S2 E2 P2 _ (_ & _ & C2)].
  rewrite C1, C2 in Hc. destruct (sha256_binds _ _ Hc) as [->|]; [|by right; left].
  destruct (payload_inj _ _ _ _ _ _ _ _ _ L1 L2 (sha256_hex_digest _) (sha256_hex_digest _) (sha256_hex_digest _)
    (sha256_hex_digest _) P1 P2) as (-> & Hs & He & ->).
  destruct (sha256_binds _ _ Hs) as [->|]; [|by right; right; left].
  destruct (sha256_binds _ _ He) as [->|]; [|by right; right; right].
  left. split_and!; [| |done|done].
  - eapply setup_bytes_inj; [..|exact S1|exact S2]; by apply setup_made_digest.
  - eapply eligible_bytes_inj; [..|exact E1|exact E2]; by apply made_digests.
Qed.

Lemma derived_payload s es p k n r sb eb pb :
  fromhex (pf_secret_hex p) = Ok k -> fromhex (pf_player_nonce_hex p) = Ok n ->
  derived s es k n r sb eb pb -> proof_payload s es p = Ok pb.
Proof.
  intros Hk Hn D. unfold proof_payload, setup_hash, eligible_set_hash.
  rewrite Hk, Hn, (dv_setup _ _ _ _ _ _ _ _ D), (dv_eligible _ _ _ _ _ _ _ _ D). apply D.
Qed.

(** C15. A commitment hash binds the whole selection: if proofs for two setups and candidate lists both
    verify against the same commitment hash, the setups, the ordered candidates, the draw and the
    selected episode are the same, unless the two exhibit a SHA-256 collision. *)
Theorem commitment_binding s1 es1 p1 e1 s2 es2 p2 e2 :
  selection_made s1 es1 -> selection_made s2 es2 ->
  verify_completion_proof s1 es1 p1 = Ok e1 -> verify_completion_proof s2 es2 p2 = Ok e2 ->
  pf_commitment_hash p1 = pf_commitment_hash p2 ->
  (s1 = s2 /\ es1 = es2 /\ e1 = e2 /\ pf_selected_index p1 = pf_selected_index p2 /\
   pf_draw_counter p1 = pf_draw_counter p2) \/
  collision (proof_payload s1 es1 p1) (proof_payload s2 es2 p2) \/
  collision (canonical_setup_bytes s1) (canonical_setup_bytes s2) \/
  collision (canonical_eligible_bytes es1) (canonical_eligible_bytes es2).
Proof.
  intros M1 M2 (k1 & n1 & r1 & K1 & N1 & D1 & L1 & P1)%verify_Ok (k2 & n2 & r2 & K2 & N2 & D2 & L2 & P2)%verify_Ok Hc.
  rewrite P1, P2 in Hc. cbn in Hc.
  pose proof (derive_Ok _ _ _ _ _ D1) as (sb1 & eb1 & pb1 & V1).
  pose proof (derive_Ok _ _ _ _ _ D2) as (sb2 & eb2 & pb2 & V2).
  pose proof (derived_payload _ _ _ _ _ _ _ _ _ K1 N1 V1). pose proof (derived_payload _ _ _ _ _ _ _ _ _ K2 N2 V2).
  destruct (derived_binding _ _ _ _ _ _ _ _ _ _ _ _ _ _ _ _ M1 M2 V1 V2 Hc) as [(-> & -> & -> & ->)|[?|[?|?]]].
  - left. assert (r1 = r2) as -> by congruence. rewrite P1, P2. cbn. split_and!; congruence.
  - right; left. by exists pb1, pb2.
  - right; right; left. exists sb1, sb2. split_and!; [apply V1|apply V2|done].
  - right; right; right. exists eb1, eb2. split_and!; [apply V1|apply V2|done].
Qed.

(** ** Which exceptions escape *)

Definition raises {A} (P : exn -> Prop) (m : result A) : Prop := forall e, m = Raise e -> P e.

Section Raises.
Context (P : exn -> Prop).

Lemma raises_Ok {A} (a : A) : raises P (Ok a).
Proof. by intros e. Qed.
Lemma raises_bind {A B} (m : result A) (k : A -> result B) :
  raises P m -> (forall a, m = Ok a -> raises P (k a)) -> raises P (rbind m k).
Proof. intros Hm Hk e. destruct m as [a|e']; cbn; [apply Hk; done|]. intros [= <-]. by apply Hm. Qed.
Lemma raises_if b e : P e -> raises P (raise_if b e).
Proof. by intros He e' [_ ->]%raise_if_Raise. Qed.

Context (HV : P ValueError) (HO : P OverflowError).

Lemma raises_fromhex s : raises P (fromhex s).
Proof.
  intros e. induction s as [s IH] using (well_founded_ind (Wf_nat.well_founded_ltof _ String.length)).
  destruct s as [|c s]; cbn [fromhex]; [done|].
  destruct (is_ascii_blank c); [apply IH; unfold Wf_nat.ltof; cbn; lia|].
  destruct s as [|d s]; [by intros [= <-]|]. destruct (hex_val c), (hex_val d); [|by intros [= <-]..].
  destruct (fromhex s) as [bs|e'] eqn:E; [done|]. intros [= <-]. apply (IH s); [unfold Wf_nat.ltof; cbn; lia|done].
Qed.

Lemma raises_to_bytes8 n : raises P (to_bytes8 n).
Proof. intros e. unfold to_bytes8. destruct (in_u64 n); [done|]. by intros [= <-]. Qed.

Lemma raises_i64 n : raises P (i64 n).
Proof. apply raises_bind; [by apply raises_if|]. intros. apply raises_Ok. Qed.
End Raises.

(** Follows the binds of an encoder. *)
Ltac raises_auto :=
  repeat match goal with
  | |- raises _ (rbind _ _) => apply raises_bind; [|intros ? ?]
  | |- raises _ (Ok _) => apply raises_Ok
  | |- raises _ (raise_if _ _) => apply raises_if; assumption
  | |- raises _ (fromhex _) => apply raises_fromhex; assumption
  | |- raises _ (to_bytes8 _) => apply raises_to_bytes8; assumption
  | |- raises _ (i64 _) => apply raises_i64; assumption
  | H : forall x, raises _ (?f x) |- raises _ (?f _) => apply H
  end.

Section RaisesDerive.
Context (P : exn -> Prop) (HV : P ValueError) (HO : P OverflowError).

Lemma raises_text v : raises P (text v).
Proof. unfold text. raises_auto. Qed.
Lemma raises_texts l : raises P (texts l).
Proof. pose proof raises_text. induction l; cbn [texts]; raises_auto; done. Qed.
Lemma raises_strings l : raises P (strings l).
Proof. pose proof raises_texts. unfold strings. raises_auto. Qed.
Lemma raises_setup_bytes s : raises P (canonical_setup_bytes s).
Proof. pose proof raises_text. pose proof raises_strings. unfold canonical_setup_bytes. raises_auto. Qed.
Lemma raises_episode_bytes e : raises P (episode_bytes e).
Proof. pose proof raises_text. unfold episode_bytes. raises_auto. Qed.
Lemma raises_episodes_bytes l : raises P (episodes_bytes l).
Proof. pose proof raises_episode_bytes. induction l; cbn [episodes_bytes]; raises_auto; done. Qed.
Lemma raises_eligible_bytes l : raises P (canonical_eligible_bytes l).
Proof. pose proof raises_episodes_bytes. unfold canonical_eligible_bytes. raises_auto. Qed.

Lemma raises_derive (HR : P RuntimeError) s es k n : raises P (derive_selection s es k n).
Proof.
  pose proof raises_setup_bytes. pose proof raises_eligible_bytes.
  unfold derive_selection, validate_player_nonce, setup_hash, eligible_set_hash, commitment_hash, commitment_payload.
  raises_auto. intros e He.
  match goal with Hs : rbind (canonical_setup_bytes _) _ = Ok ?sd, Hd : rbind (canonical_eligible_bytes _) _ = Ok ?ed |- _ =>
    assert (is_digest sd /\ is_digest ed) as [Ds De] by
      (repeat step_ok; subst; split; apply sha256_hex_digest) end.
  pose proof (fromhex_digest _ Ds) as (sb & Hs & _). pose proof (fromhex_digest _ De) as (eb & Hd & _).
  eapply draw_index_Raise in He as [-> _]; [done|exact Hs|exact Hd| |].
  - match goal with Hn : raise_if (MAX_PLAYER_NONCE_BYTES <? _) _ = Ok _ |- _ => apply raise_if_Ok in Hn; by bools end.
  - match goal with Hn : raise_if (match es with [] => _ | _ => _ end) _ = Ok _ |- _ => apply raise_if_Ok in Hn end.
    destruct es; [done|]. cbn. lia.
Qed.
End RaisesDerive.

Lemma raises_require_digest P d x :
  P CommitmentVerificationError -> is_digest d -> py_isascii x = true -> raises P (require_digest d x).
Proof.
  intros HP Hd Hx. unfold require_digest, compare_digest. rewrite digest_ascii, Hx by done. cbn [andb rbind].
  by apply raises_if.
Qed.

(** Verification accepts exactly the derived proof.  The proof of a derivation verifies and yields the
    episode at the drawn index; conversely a proof that verifies carries a secret and a nonce whose
    derivation has its version, digests, index, counter and episode, so a change of any of them is
    refused.  With ASCII digests the refusal is a [CommitmentVerificationError], unless the 2^64
    candidates are exhausted or a length does not fit 64 bits. *)
Theorem verify_completion_proof_exact s es :
  (forall secret nonce r, derive_selection s es secret nonce = Ok r ->
     exists e, es !! Z.to_nat (sr_selected_index r) = Some e /\
       verify_completion_proof s es (proof_of r (hex secret) (hex nonce) e) = Ok e) /\
  (forall p e, verify_completion_proof s es p = Ok e ->
     exists secret nonce r,
       fromhex (pf_secret_hex p) = Ok secret /\ fromhex (pf_player_nonce_hex p) = Ok nonce /\
       derive_selection s es secret nonce = Ok r /\ es !! Z.to_nat (sr_selected_index r) = Some e /\
       p = proof_of r (pf_secret_hex p) (pf_player_nonce_hex p) e) /\
  (forall p e, verify_completion_proof s es p = Raise e ->
     py_isascii (pf_setup_hash p) = true -> py_isascii (pf_eligible_set_hash p) = true ->
     py_isascii (pf_commitment_hash p) = true ->
     e = CommitmentVerificationError \/ e = RuntimeError \/ e = OverflowError).
Proof.
  split; [|split].
  - intros k n r Hd. destruct (derived_selected _ _ _ _ _ Hd) as (e & He). exists e. split; [done|].
    apply verify_Ok. exists k, n, r. cbn. by rewrite !fromhex_hex.
  - intros p e. apply verify_Ok.
  - intros p e H A1 A2 A3. revert e H. set (P := fun e => e = CommitmentVerificationError \/ e = RuntimeError \/ e = OverflowError).
    assert (P CommitmentVerificationError) as HC by (by left).
    change (raises P (verify_completion_proof s es p)). unfold verify_completion_proof.
    apply raises_bind; [by apply raises_if|]. intros _ _. apply raises_bind.
    { intros e. destruct (proof_selection s es p) as [r|e'] eqn:E; [done|]. intros [= <-].
      assert (e' = ValueError \/ e' = OverflowError \/ e' = RuntimeError) as [->|[->| ->]]; [|by left|by right; right|by right; left].
      revert e' E. change (raises (fun e' => e' = ValueError \/ e' = OverflowError \/ e' = RuntimeError) (proof_selection s es p)).
      unfold proof_selection.
      apply raises_bind; [apply raises_fromhex; by left|]. intros k _.
      apply raises_bind; [apply raises_fromhex; by left|]. intros n _. apply raises_derive; auto. }
    intros r Hr. apply (proj1 (catch_res_Ok _ _ _)) in Hr. unfold proof_selection in Hr. repeat step_ok.
    match goal with Hd : derive_selection _ _ _ _ = Ok _ |- _ => destruct (derived_digests _ _ _ _ _ Hd) as (D1 & D2 & D3) end.
    do 3 (apply raises_bind; [by apply raises_require_digest|intros _ _]).
    apply raises_bind; [by apply raises_if|]. intros _ _. apply raises_bind; [by apply raises_if|]. intros _ _.
    destruct (es !! _); [|by intros e [= <-]].
    apply raises_bind; [by apply raises_if|]. intros. apply raises_Ok.
Qed.

(** ** Witnesses *)

Definition no_result : SelectionResult := mk_selection_result "" "" "" 0 0.
Definition demo_result : SelectionResult :=
  match derive_selection demo_selection_setup demo_episodes demo_secret [x05] with Ok r => r | Raise _ => no_result end.
Definition demo_selected : EligibleEpisode := default (mk_episode "" "" 0 0) (demo_episodes !! Z.to_nat (sr_selected_index demo_result)).
Definition demo_proof : CompletionProof := proof_of demo_result (hex demo_secret) (hex [x05]) demo_selected.

Lemma demo_selection_made : selection_made demo_selection_setup demo_episodes.
Proof. split; [vm_compute; reflexivity|]. repeat constructor; vm_compute; reflexivity. Qed.

Lemma demo_derived : derive_selection demo_selection_setup demo_episodes demo_secret [x05] = Ok demo_result.
Proof. vm_compute. reflexivity. Qed.

Lemma commitment_binding_witness :
  verify_completion_proof demo_selection_setup demo_episodes demo_proof = Ok demo_selected /\
  (demo_selection_setup = demo_selection_setup \/ collision (canonical_setup_bytes demo_selection_setup) (Ok [])).
Proof.
  assert (verify_completion_proof demo_selection_setup demo_episodes demo_proof = Ok demo_selected) as Hv
    by (vm_compute; reflexivity).
  split; [exact Hv|].
  destruct (commitment_binding demo_selection_setup demo_episodes demo_proof demo_selected
    demo_selection_setup demo_episodes demo_proof demo_selected demo_selection_made demo_selection_made Hv Hv eq_refl)
    as [(E & _)|_]; left; reflexivity.
Defined.

Lemma draw_index_fair_witness :
  length (List.filter (fun v => v mod 3 =? 1) (seqZ 0 (draw_limit 3))) = Z.to_nat (draw_limit 3 / 3).
Proof.
  destruct (draw_index_fair demo_secret demo_digest demo_digest [x05] 3 (sha256 (utf8 "demo")) (sha256 (utf8 "demo"))
    (fromhex_hex _) (fromhex_hex _) ltac:(vm_compute; discriminate) ltac:(split; reflexivity)) as (_ & _ & _ & _ & H).
  apply H. split; [discriminate|reflexivity].
Defined.

Lemma verify_completion_proof_exact_witness :
  exists e, demo_episodes !! Z.to_nat (sr_selected_index demo_result) = Some e /\
    verify_completion_proof demo_selection_setup demo_episodes
      (proof_of demo_result (hex demo_secret) (hex [x05]) e) = Ok e.
Proof.
  apply (proj1 (verify_completion_proof_exact demo_selection_setup demo_episodes)). apply demo_derived.
Defined.

(** A proof whose hash field is not ASCII text makes [hmac.compare_digest] raise [TypeError]. *)
Theorem non_ascii_digest_type_error :
  verify_completion_proof demo_selection_setup demo_episodes
    (mk_proof ALGORITHM_VERSION (sr_commitment_hash demo_result) (String (Ascii.ascii_of_N 233) "") (sr_eligible_set_hash demo_result)
       (hex demo_secret) (hex [x05]) 0 0 demo_selected) = Raise TypeError.
Proof. vm_compute. reflexivity. Qed.
