(* ===== verification/Commitment.v ===== *)
(** * Episode-selection commitments: the service ([apps/api/.../commitments/__init__.py])

    Preparing a selection while a session is in [SETUP], reading the public commitment, and revealing
    the secret of a completed session.  AES-GCM is a port, [AEAD], with the law that decryption undoes
    encryption; the entropy source's two answers are arguments. *)

From S2P Require Import Prelude Sort PyStr Bytes Base64 PyJson Catalog Db SessionModel Session Frame CommitmentModel.
From Stdlib Require Import Ascii Strings.Byte.
From Stdlib Require String.

Definition KIND : string := "EPISODE_SELECTION".

(** [cryptography.hazmat...AESGCM]: key, nonce, data, associated data. *)
Class AEAD := {
  aead_encrypt : bytes -> bytes -> bytes -> bytes -> bytes;
  aead_decrypt : bytes -> bytes -> bytes -> bytes -> result bytes;
}.

(** Decryption undoes encryption, and a ciphertext is not shorter than its plaintext. *)
Class AEADLaws `{AEAD} : Prop := {
  aead_roundtrip : forall key nonce data ad, aead_decrypt key nonce (aead_encrypt key nonce data ad) ad = Ok data;
  aead_length : forall key nonce data ad, (length data <= length (aead_encrypt key nonce data ad))%nat;
}.

Record PublicCommitment := mk_public {
  pc_commitment_id : string;
  pc_session_id : string;
  pc_algorithm_version : string;
  pc_commitment_hash : string;
  pc_setup_hash : string;
  pc_eligible_set_hash : string;
  pc_revealed_secret_hex : option string;
}.

Record PreparedSelection := mk_prepared {
  public_commitment : PublicCommitment;
  selected_episode : EligibleEpisode;
}.

Definition associated_data (sid cid : string) : result bytes :=
  let! a := text sid in
  let! b := text cid in
  Ok (utf8 "trl:sealed-episode-secret:v1" ++ a ++ b).

(** ** Stored metadata *)

Definition metadata (v : pyval) : result pydict :=
  match v with VDict d => Ok d | _ => Raise CommitmentVerificationError end.

Definition metadata_string (d : pydict) (key : string) : result string :=
  match dict_get key d with Some (VStr s) => Ok s | _ => Raise CommitmentVerificationError end.

(** [not item or (item[0] == "-" and not item[1:].isdigit()) or (item[0] != "-" and not item.isdigit())] *)
Definition not_an_int (item : string) : bool :=
  is_empty item || (starts_with "-"%char item && negb (py_isdigit (tail item)))
  || (negb (starts_with "-"%char item) && negb (py_isdigit item)).

Definition metadata_int (d : pydict) (key : string) : result Z :=
  let! item := metadata_string d key in
  let! _ := raise_if (not_an_int item) CommitmentVerificationError in
  let! parsed := py_int item in
  let! _ := validate_i64 parsed in
  Ok parsed.

Definition metadata_u64 (d : pydict) (key : string) : result Z :=
  let! item := metadata_string d key in
  let! _ := raise_if (is_empty item || negb (py_isdigit item)) CommitmentVerificationError in
  let! parsed := py_int item in
  let! _ := raise_if (U64_MAX <? parsed) CommitmentVerificationError in
  Ok parsed.

Definition selection_metadata (r : SelectionResult) (player_nonce : bytes) (selected : EligibleEpisode) : pydict :=
  obj [("draw_counter", VStr (str_Z (sr_draw_counter r))); ("player_nonce_hex", VStr (hex player_nonce));
       ("selected_episode_id", VStr (episode_id selected)); ("selected_index", VStr (str_Z (sr_selected_index r)));
       ("selected_manifest_hash", VStr (ep_manifest_hash selected));
       ("selected_play_end_ns", VStr (str_Z (ep_play_end_ns selected)));
       ("selected_play_start_ns", VStr (str_Z (ep_play_start_ns selected)))].

Definition stored_episode (d : pydict) : result EligibleEpisode :=
  let! i := metadata_string d "selected_episode_id" in
  let! m := metadata_string d "selected_manifest_hash" in
  let! s := metadata_int d "selected_play_start_ns" in
  let! e := metadata_int d "selected_play_end_ns" in
  let episode := mk_episode i m s e in
  let! _ := EligibleEpisode_post_init episode in
  Ok episode.

(** ** The service *)

Section Service.
Context `{AEAD} (master_key : bytes).

(** [CommitmentService.__init__]. *)
Definition CommitmentService_init : result unit :=
  raise_if (negb (Z.of_nat (length master_key) =? 32)) ValueError.

Definition seal_secret (sid cid : string) (secret nonce : bytes) : result string :=
  let! _ := raise_if (negb (Z.of_nat (length nonce) =? 12)) RuntimeError in
  let! ad := associated_data sid cid in
  Ok (b64_encode (nonce ++ aead_encrypt master_key nonce secret ad)).

(** [except ValueError], and [except (InvalidTag, ValueError)]. *)
Definition value_error (e : exn) : exn := match e with ValueError => CommitmentVerificationError | e => e end.
Definition unseal_error (e : exn) : exn :=
  match e with InvalidTag | ValueError => CommitmentVerificationError | e => e end.

Definition unseal_secret (sid cid sealed : string) : result bytes :=
  let! payload := catch_res value_error (b64_decode sealed) in
  let! _ := raise_if (Z.of_nat (length payload) <? 13) CommitmentVerificationError in
  let! secret := catch_res unseal_error
    (let! ad := associated_data sid cid in
     aead_decrypt master_key (take 12 payload) (drop 12 payload) ad) in
  let! _ := raise_if (negb (Z.of_nat (length secret) =? 32)) CommitmentVerificationError in
  Ok secret.

Definition require_session (sid principal : string) (expected_status : option string) : ST Db unit :=
  row <- (fun db => (of_option CommitmentNotFound (sessions db !! sid), db)) ;;
  lift (raise_if (negb (String.eqb (s_principal_id row) principal)) CommitmentPrincipalMismatch) ;;;
  match expected_status with
  | None => sret tt
  | Some status => lift (raise_if (negb (String.eqb (s_status row) status)) CommitmentStateError)
  end.

Definition exists_error (e : exn) : exn :=
  match e with IntegrityError => CommitmentExists | e => e end.

(** [entropy32] and [entropy12] are what the entropy source returns for the secret and the nonce. *)
Definition prepare_episode_selection (cid sid principal : string) (setup : SelectionSetup)
    (episodes : list EligibleEpisode) (player_nonce entropy32 entropy12 : bytes) : ST Db PreparedSelection :=
  lift (raise_if (is_empty cid || is_empty sid || is_empty principal) ValueError) ;;;
  lift (raise_if (negb (Z.of_nat (length entropy32) =? 32)) RuntimeError) ;;;
  res <- lift (derive_selection setup episodes entropy32 player_nonce) ;;
  selected <- lift (of_option AssertionError (episodes !! Z.to_nat (sr_selected_index res))) ;;
  sealed <- lift (seal_secret sid cid entropy32 entropy12) ;;
  reraise exists_error (transaction (
    require_session sid principal (Some "SETUP") ;;;
    insert_commitment cid
      (mk_commitment_row sid KIND ALGORITHM_VERSION (sr_commitment_hash res) (sr_setup_hash res)
         (sr_eligible_set_hash res) (VDict (selection_metadata res player_nonce selected)) sealed None))) ;;;
  sret (mk_prepared
          (mk_public cid sid ALGORITHM_VERSION (sr_commitment_hash res) (sr_setup_hash res)
             (sr_eligible_set_hash res) None)
          selected).

Definition commitment_row_of (sid : string) : ST Db (string * commitment_row) := fun db =>
  (let! row := one_or_none (commitment_of sid KIND db) in of_option CommitmentNotFound row, db).

Definition get_public (sid principal : string) : ST Db PublicCommitment :=
  require_session sid principal None ;;;
  row <- commitment_row_of sid ;;
  let '(cid, r) := row in
  sret (mk_public cid sid (cm_algorithm_version r) (cm_commitment_hash r) (cm_setup_hash r)
          (cm_eligible_set_hash r) (cm_revealed_secret r)).

(** [row[7] is not None and not hmac.compare_digest(str(row[7]), secret_hex)]. *)
Definition check_revealed (revealed : option string) (secret_hex : string) : result unit :=
  match revealed with None => Ok tt | Some s => require_digest s secret_hex end.

(** The checks of a stored row: the secret, the player nonce and the metadata. *)
Definition open_row (sid cid : string) (r : commitment_row) : result (bytes * string * pydict) :=
  let! _ := raise_if (negb (String.eqb (cm_algorithm_version r) ALGORITHM_VERSION)) CommitmentVerificationError in
  let! secret := unseal_secret sid cid (cm_sealed_secret r) in
  let! _ := check_revealed (cm_revealed_secret r) (hex secret) in
  let! d := metadata (cm_metadata r) in
  let! nonce_hex := metadata_string d "player_nonce_hex" in
  let! nonce := catch_res value_error (fromhex nonce_hex) in
  let! recomputed := commitment_hash secret (cm_setup_hash r) (cm_eligible_set_hash r) nonce in
  let! _ := require_digest (cm_commitment_hash r) recomputed in
  Ok (secret, nonce_hex, d).

Definition reveal_completed (sid principal : string) : ST Db CompletionProof :=
  transaction (
    require_session sid principal (Some "COMPLETED") ;;;
    row <- commitment_row_of sid ;;
    let '(cid, r) := row in
    opened <- lift (open_row sid cid r) ;;
    let '(secret, nonce_hex, d) := opened in
    match cm_revealed_secret r with None => update_revealed cid (hex secret) | Some _ => sret tt end ;;;
    episode <- lift (stored_episode d) ;;
    index <- lift (metadata_u64 d "selected_index") ;;
    counter <- lift (metadata_u64 d "draw_counter") ;;
    sret (mk_proof (cm_algorithm_version r) (cm_commitment_hash r) (cm_setup_hash r) (cm_eligible_set_hash r)
            (hex secret) nonce_hex index counter episode)).
End Service.

(** ** Lemmas *)

Lemma str_Z_not_int n : not_an_int (str_Z n) = false.
Proof.
  unfold not_an_int, str_Z. destruct (n <? 0).
  - pose proof (str_N_all (- n)) as Ha. destruct (str_N_nonempty (- n)) as (c & s & E). rewrite E in *.
    cbn [is_empty starts_with tail]. unfold py_isdigit. cbn [is_empty negb andb orb].
    by rewrite (digits_isdigit _ Ha).
  - pose proof (str_N_all n) as Ha. destruct (str_N_nonempty n) as (c & s & E). rewrite E in *.
    assert (is_ascii_digit c = true) as Hc by (cbn in Ha; by apply andb_true_iff in Ha as [? _]).
    rewrite (proj1 (starts_with_digit c s Hc)). unfold py_isdigit. cbn [is_empty negb andb orb].
    by rewrite (digits_isdigit _ Ha).
Qed.

Lemma str_N_isdigit n : py_isdigit (str_N n) = true.
Proof.
  unfold py_isdigit. rewrite (digits_isdigit _ (str_N_all n)). by destruct (str_N_nonempty n) as (c & s & ->).
Qed.

Lemma metadata_int_str d key n :
  dict_get key d = Some (VStr (str_Z n)) -> - 2 ^ 63 <= n < 2 ^ 63 -> metadata_int d key = Ok n.
Proof.
  intros Hd Hn. unfold metadata_int, metadata_string. rewrite Hd. cbn [rbind]. rewrite str_Z_not_int.
  cbn [raise_if rbind]. rewrite py_int_str_Z by lia. cbn [rbind]. unfold validate_i64.
  by rewrite (proj2 (in_i64_spec n)) by done.
Qed.

Lemma metadata_u64_str d key n :
  dict_get key d = Some (VStr (str_Z n)) -> 0 <= n < 2 ^ 64 -> metadata_u64 d key = Ok n.
Proof.
  intros Hd Hn. unfold metadata_u64, metadata_string. rewrite Hd. cbn [rbind].
  assert (py_isdigit (str_Z n) = true) as Hi.
  { unfold str_Z. rewrite (proj2 (Z.ltb_ge n 0)) by lia. apply str_N_isdigit. }
  rewrite Hi. assert (is_empty (str_Z n) = false) as -> by (unfold py_isdigit in Hi; by destruct (is_empty (str_Z n))).
  cbn [orb negb raise_if rbind]. rewrite py_int_str_Z by lia. cbn [rbind].
  by rewrite (proj2 (raise_if_Ok _ _ tt)) by (apply Z.ltb_ge; unfold U64_MAX; lia).
Qed.

Lemma episode_bounds e :
  EligibleEpisode_post_init e = Ok tt ->
  - 2 ^ 63 <= ep_play_start_ns e < 2 ^ 63 /\ - 2 ^ 63 <= ep_play_end_ns e < 2 ^ 63.
Proof.
  unfold EligibleEpisode_post_init, validate_i64. intros H. repeat step_ok. bools.
  split; by apply in_i64_spec.
Qed.

(** The episode written to the metadata is the one read back. *)
Lemma stored_episode_prepared r nonce e :
  EligibleEpisode_post_init e = Ok tt -> stored_episode (selection_metadata r nonce e) = Ok e.
Proof.
  intros He. destruct (episode_bounds _ He) as [H1 H2]. unfold stored_episode.
  rewrite (metadata_int_str _ "selected_play_start_ns" (ep_play_start_ns e)) by done.
  rewrite (metadata_int_str _ "selected_play_end_ns" (ep_play_end_ns e)) by done.
  change (metadata_string _ "selected_episode_id") with (Ok (episode_id e)).
  change (metadata_string _ "selected_manifest_hash") with (Ok (ep_manifest_hash e)). cbn [rbind].
  destruct e; cbn in *. by rewrite He.
Qed.

Section Lemmas.
Context `{AEADLaws} (master_key : bytes).

Lemma unseal_seal sid cid secret nonce t :
  length secret = 32%nat -> seal_secret master_key sid cid secret nonce = Ok t ->
  unseal_secret master_key sid cid t = Ok secret.
Proof.
  intros Hl Hs. unfold seal_secret in Hs. repeat step_ok. subst t. bools.
  unfold unseal_secret. rewrite b64_roundtrip. cbn [catch_res rbind].
  assert (length nonce = 12%nat) as Hn by lia.
  match goal with Ha : associated_data _ _ = Ok ?ad |- _ =>
    pose proof (aead_length master_key nonce secret ad) as Hlen; rewrite Ha end.
  rewrite (proj2 (raise_if_Ok _ _ tt)) by (apply Z.ltb_ge; rewrite length_app; lia).
  cbn [rbind]. rewrite <- Hn, take_app_length, drop_app_length, aead_roundtrip. cbn [catch_res rbind].
  by rewrite Hl.
Qed.

Lemma require_session_Ok sid p st db u db' :
  require_session sid p st db = (Ok u, db') <->
  db' = db /\ exists row, sessions db !! sid = Some row /\ s_principal_id row = p /\
    (forall status, st = Some status -> s_status row = status).
Proof.
  unfold require_session, sbind, lift, raise_if, sret. destruct u.
  destruct (sessions db !! sid) as [row|]; cbn [of_option]; [|naive_solver].
  destruct (String.eqb_spec (s_principal_id row) p) as [Hp|]; cbn [negb]; [|naive_solver].
  destruct st as [status|].
  - destruct (String.eqb_spec (s_status row) status) as [Hst|Hst]; cbn [negb].
    + split; [intros [= <-]; split; [done|]; exists row; split_and!; [done|done|congruence]|by intros [-> _]].
    + split; [discriminate|]. intros (_ & row0 & [= <-] & _ & Hs). by destruct (Hst (Hs _ eq_refl)).
  - split; [intros [= <-]; split; [done|]; exists row; by split_and!|by intros [-> _]].
Qed.

Lemma require_session_state sid p st db : snd (require_session sid p st db) = db.
Proof.
  unfold require_session, sbind, lift, raise_if.
  destruct (sessions db !! sid) as [row|]; cbn [of_option]; [|done].
  destruct (negb _); [done|]. destruct st; [|done]. by destruct (negb _).
Qed.

(** What a successful preparation did. *)
Record prepared (cid sid p : string) (setup : SelectionSetup) (eps : list EligibleEpisode) (nonce e32 e12 : bytes)
    (db : Db) (ps : PreparedSelection) (db' : Db) (res : SelectionResult) (sealed : string) : Prop := mk_prep {
  pp_ids : is_empty cid = false /\ is_empty sid = false /\ is_empty p = false;
  pp_secret : length e32 = 32%nat;
  pp_derived : derive_selection setup eps e32 nonce = Ok res;
  pp_selected : eps !! Z.to_nat (sr_selected_index res) = Some (selected_episode ps);
  pp_sealed : seal_secret master_key sid cid e32 e12 = Ok sealed;
  pp_session : exists row, sessions db !! sid = Some row /\ s_principal_id row = p /\ s_status row = "SETUP";
  pp_fresh : commitments db !! cid = None /\ commitment_of sid KIND db = [];
  pp_after : db' = set_commitments (<[cid := mk_commitment_row sid KIND ALGORITHM_VERSION (sr_commitment_hash res)
    (sr_setup_hash res) (sr_eligible_set_hash res) (VDict (selection_metadata res nonce (selected_episode ps))) sealed None]>
    (commitments db)) db;
  pp_public : public_commitment ps = mk_public cid sid ALGORITHM_VERSION (sr_commitment_hash res) (sr_setup_hash res)
    (sr_eligible_set_hash res) None;
}.

Lemma prepare_Ok cid sid p setup eps nonce e32 e12 db ps db' :
  prepare_episode_selection master_key cid sid p setup eps nonce e32 e12 db = (Ok ps, db') ->
  exists res sealed, prepared cid sid p setup eps nonce e32 e12 db ps db' res sealed.
Proof.
  unfold prepare_episode_selection. intros Hp. repeat step_ok. subst ps. bools.
  match goal with Hr : require_session _ _ _ _ = (Ok _, _) |- _ =>
    apply require_session_Ok in Hr as (-> & row & Hs & Ho & Hst) end.
  match goal with Hi : insert_commitment _ _ _ = (Ok _, _) |- _ =>
    apply insert_commitment_Ok in Hi as (Hc & Hf & _ & ->) end.
  match goal with Hsel : of_option _ ?o = Ok ?sel |- _ =>
    assert (o = Some sel) as Hl by (destruct o; [apply Ok_inj in Hsel; by subst|discriminate Hsel]) end.
  do 2 eexists. split; try done; cbn; [lia|].
  exists row. split_and!; [done|done|by apply Hst].
Qed.
End Lemmas.

(** ** Histories

    The commitment operations interleaved with any other writer that leaves the [commitments] table,
    keeps the owner of every session and never reopens a completed one; the session operations are
    such writers. *)

Definition completed_kept (db db' : Db) : Prop :=
  forall sid row, sessions db !! sid = Some row ->
    exists row', sessions db' !! sid = Some row' /\ s_principal_id row' = s_principal_id row /\
      (s_status row = "COMPLETED" -> s_status row' = "COMPLETED").

Inductive commit_step `{AEAD} (master_key : bytes) (db db' : Db) : Prop :=
| step_prepare cid sid p setup eps nonce e32 e12 r :
    prepare_episode_selection master_key cid sid p setup eps nonce e32 e12 db = (r, db') -> commit_step master_key db db'
| step_reveal sid p r : reveal_completed master_key sid p db = (r, db') -> commit_step master_key db db'
| step_other : commitments db' = commitments db -> completed_kept db db' -> commit_step master_key db db'.

#[export] Instance completed_kept_refl : Reflexive completed_kept.
Proof. intros db sid row Hs. by exists row. Qed.

Lemma completed_kept_same db db' : sessions db' = sessions db -> completed_kept db db'.
Proof. intros E sid row Hs. exists row. by rewrite E. Qed.

Lemma state_status db sid row r :
  sessions db !! sid = Some row -> state db sid = Some r ->
  s_status row = status_value (ss_status r) /\ s_principal_id row = ss_principal_id r.
Proof.
  intros Hs (row' & Hs' & Hm)%state_inv. assert (row' = row) as -> by congruence.
  unfold materialize_from_row in Hm. repeat step_ok. subst r. cbn. split; [|done].
  match goal with He : status_of _ = Ok ?st |- _ => clear -He; rename He into Hst end.
  unfold status_of, enum_of in Hst. cbn in Hst.
  repeat match type of Hst with context [String.eqb ?a ?b] => destruct (String.eqb_spec a b) as [<-|]; [by injection Hst as <-|] end.
  discriminate.
Qed.

Lemma session_step_other `{AEAD} master_key db db' :
  db_ok db -> session_step db db' -> commit_step master_key db db'.
Proof.
  intros Hok Hstep. apply step_other; [by apply sf_commitments, session_step_frame|].
  intros sid row Hs. destruct (do_records _ Hok _ _ Hs) as (r & Hm & _).
  assert (state db sid = Some r) as Hr by by eapply state_Some.
  destruct (session_step_le _ _ _ _ Hok Hstep Hr) as (r' & Hr' & Hle).
  destruct (state_row _ _ _ Hr') as (row' & Hs' & Hp'). exists row'. split; [done|].
  destruct (state_status _ _ _ _ Hs Hr) as [Est Ep]. destruct (state_status _ _ _ _ Hs' Hr') as [Est' Ep'].
  destruct Hle as (_ & Hp & _ & _ & _ & _ & _ & Hc). split; [congruence|].
  intros Hcomp. rewrite Est in Hcomp. rewrite Est', Hc; [done|]. by destruct (ss_status r).
Qed.

Section History.
Context `{AEADLaws} (master_key : bytes).

(** How a stored commitment changes: at most once, by revealing the secret it seals. *)
Definition row_le (cid : string) (r r' : commitment_row) : Prop :=
  r' = r \/
  cm_revealed_secret r = None /\
  exists secret, unseal_secret master_key (cm_session_id r) cid (cm_sealed_secret r) = Ok secret /\
    r' = set_revealed (hex secret) r.

(** Revealed secrets belong to completed sessions, and there is one selection per session. *)
Record commitments_ok (db : Db) : Prop := mk_commitments_ok {
  co_unique : commitments_unique db;
  co_sealed : forall cid r s, commitments db !! cid = Some r -> cm_revealed_secret r = Some s ->
    exists row, sessions db !! cm_session_id r = Some row /\ s_status row = "COMPLETED";
  co_session : forall cid r, commitments db !! cid = Some r -> exists row, sessions db !! cm_session_id r = Some row;
}.

Lemma commitment_row_of_Ok sid db cid r db' :
  commitment_row_of sid db = (Ok (cid, r), db') ->
  db' = db /\ commitments db !! cid = Some r /\ cm_session_id r = sid /\ cm_kind r = KIND.
Proof.
  unfold commitment_row_of. intros Hr. injection Hr as Hr <-. split; [done|].
  apply rbind_Ok in Hr as (o & Ho & Hr). destruct o as [p|]; [|discriminate]. cbn in Hr. injection Hr as ->.
  unfold one_or_none in Ho. destruct (commitment_of sid KIND db) as [|p [|? ?]] eqn:E; try discriminate.
  injection Ho as ->. apply elem_of_commitment_of. rewrite E. left.
Qed.

Lemma commitment_row_of_run db cid r :
  commitments_unique db -> commitments db !! cid = Some r -> cm_kind r = KIND ->
  commitment_row_of (cm_session_id r) db = (Ok (cid, r), db).
Proof.
  intros Hu Hc Hk. unfold commitment_row_of. rewrite <- Hk, (commitment_of_eq db cid r) by done. done.
Qed.

(** What a successful reveal did. *)
Lemma reveal_Ok sid p db proof db' :
  reveal_completed master_key sid p db = (Ok proof, db') ->
  exists cid r secret nonce_hex d,
    commitments db !! cid = Some r /\ cm_session_id r = sid /\ cm_kind r = KIND /\
    (exists row, sessions db !! sid = Some row /\ s_principal_id row = p /\ s_status row = "COMPLETED") /\
    open_row master_key sid cid r = Ok (secret, nonce_hex, d) /\
    db' = match cm_revealed_secret r with
          | None => set_commitments (alter (set_revealed (hex secret)) cid (commitments db)) db
          | Some _ => db
          end.
Proof.
  unfold reveal_completed. intros Hr. apply transaction_inv in Hr.
  apply sbind_Ok in Hr as ([] & db0 & (-> & row & Hs & Ho & Hst)%require_session_Ok & Hr).
  apply sbind_Ok in Hr as ([cid r] & db1 & (-> & Hc & Hsid & Hk)%commitment_row_of_Ok & Hr).
  apply sbind_Ok in Hr as ([[secret nonce_hex] d] & db2 & (Hopen & ->)%lift_Ok & Hr).
  exists cid, r, secret, nonce_hex, d. split_and!; try done; [exists row; split_and!; [done|done|by apply Hst]|].
  destruct (cm_revealed_secret r); repeat step_ok.
  - by subst.
  - match goal with Hu : update_revealed _ _ _ = _ |- _ => by injection Hu as <- end.
Qed.

Lemma open_row_unseal sid cid r secret nonce_hex d :
  open_row master_key sid cid r = Ok (secret, nonce_hex, d) ->
  unseal_secret master_key sid cid (cm_sealed_secret r) = Ok secret.
Proof. unfold open_row. intros Ho. repeat step_ok. by subst. Qed.

Lemma reveal_state sid p db r db' :
  reveal_completed master_key sid p db = (r, db') -> sessions db' = sessions db.
Proof.
  intros Hr. destruct r as [proof|e].
  - apply reveal_Ok in Hr as (cid & r & secret & nh & d & _ & _ & _ & _ & _ & ->). by destruct (cm_revealed_secret r).
  - unfold reveal_completed in Hr. apply transaction_Raise in Hr as ->. done.
Qed.

Lemma prepare_Raise cid sid p setup eps nonce e32 e12 db e db' :
  prepare_episode_selection master_key cid sid p setup eps nonce e32 e12 db = (Raise e, db') -> db' = db.
Proof.
  unfold prepare_episode_selection. do 5 (apply sbind_lift_Raise; intros ????).
  intros Hr. unfold sbind in Hr. destruct (reraise _ _ _) as [[?|?] ?] eqn:E; [discriminate|].
  injection Hr as <- <-. by eapply reraise_tx_Raise.
Qed.

Lemma reveal_Raise sid p db e db' : reveal_completed master_key sid p db = (Raise e, db') -> db' = db.
Proof. unfold reveal_completed. apply transaction_Raise. Qed.

(** Every step only adds commitments and reveals sealed secrets of completed sessions. *)
Lemma commit_step_sessions db db' : commit_step master_key db db' -> completed_kept db db'.
Proof.
  intros [cid sid p setup eps nonce e32 e12 r Hp|sid p r Hr|_ Hk]; [| |done]; apply completed_kept_same.
  - destruct r as [ps|e]; [|by apply prepare_Raise in Hp as ->].
    apply prepare_Ok in Hp as (res & sealed & Hp). by rewrite (pp_after _ _ _ _ _ _ _ _ _ _ _ _ _ _ Hp).
  - by eapply reveal_state.
Qed.

Lemma commit_step_row db db' cid r :
  commit_step master_key db db' -> commitments db !! cid = Some r ->
  exists r', commitments db' !! cid = Some r' /\ row_le cid r r'.
Proof.
  intros [cid' sid p setup eps nonce e32 e12 x Hp|sid p x Hr|Hc _] Hrow.
  - destruct x as [ps|e]; [|apply prepare_Raise in Hp as ->; exists r; by split; [|left]].
    apply prepare_Ok in Hp as (res & sealed & Hp). rewrite (pp_after _ _ _ _ _ _ _ _ _ _ _ _ _ _ Hp). cbn.
    exists r. split; [|by left]. rewrite lookup_insert_ne; [done|]. intros ->.
    destruct (pp_fresh _ _ _ _ _ _ _ _ _ _ _ _ _ _ Hp) as [Hf _]. congruence.
  - destruct x as [proof|e]; [|apply reveal_Raise in Hr as ->; exists r; by split; [|left]].
    apply reveal_Ok in Hr as (c & r0 & secret & nh & d & Hc & <- & _ & _ & Ho & ->).
    destruct (cm_revealed_secret r0) eqn:E; [exists r; by split; [|left]|]. cbn.
    destruct (decide (cid = c)) as [->|Hne].
    + assert (r0 = r) as -> by congruence. rewrite lookup_alter_eq, Hrow. eexists. split; [done|]. right.
      split; [done|]. exists secret. split; [by eapply open_row_unseal|done].
    + exists r. rewrite lookup_alter_ne by done. by split; [|left].
  - exists r. rewrite Hc. by split; [|left].
Qed.

Lemma row_le_trans cid a b c : row_le cid a b -> row_le cid b c -> row_le cid a c.
Proof.
  intros [->|(Ha & s & Hs & ->)] [->|(Hb & s' & Hs' & ->)]; [by left|right; eauto|right; eauto|discriminate Hb].
Qed.

Lemma commit_history_row db db' cid r :
  rtc (commit_step master_key) db db' -> commitments db !! cid = Some r ->
  exists r', commitments db' !! cid = Some r' /\ row_le cid r r'.
Proof.
  intros Hh. revert r. induction Hh as [db|db db1 db' Hs _ IH]; intros r Hr.
  - exists r. by split; [|left].
  - destruct (commit_step_row _ _ _ _ Hs Hr) as (r1 & Hr1 & L1). destruct (IH _ Hr1) as (r2 & Hr2 & L2).
    exists r2. split; [done|]. by eapply row_le_trans.
Qed.

Lemma row_le_fields cid r r' : row_le cid r r' -> cm_session_id r' = cm_session_id r /\ cm_kind r' = cm_kind r.
Proof. intros [->|(_ & s & _ & ->)]; done. Qed.

Lemma commit_step_ok db db' : commit_step master_key db db' -> commitments_ok db -> commitments_ok db'.
Proof.
  intros Hs [Hu Hseal Hsess]. pose proof (commit_step_sessions _ _ Hs) as Hk.
  assert (Hold : forall sid row, sessions db !! sid = Some row -> exists row', sessions db' !! sid = Some row')
    by (intros sid row Hrow; destruct (Hk _ _ Hrow) as (row' & ? & _); eauto).
  assert (Hcomp : forall sid row, sessions db !! sid = Some row -> s_status row = "COMPLETED" ->
    exists row', sessions db' !! sid = Some row' /\ s_status row' = "COMPLETED")
    by (intros sid row Hrow Hc; destruct (Hk _ _ Hrow) as (row' & ? & _ & ?); eauto).
  destruct Hs as [cid sid p setup eps nonce e32 e12 x Hp|sid p x Hr|Hc _].
  - destruct x as [ps|e]; [|by apply prepare_Raise in Hp as ->].
    apply prepare_Ok in Hp as (res & sealed & Hp). destruct (pp_fresh _ _ _ _ _ _ _ _ _ _ _ _ _ _ Hp) as [Hf Hn].
    destruct (pp_session _ _ _ _ _ _ _ _ _ _ _ _ _ _ Hp) as (row & Hrow & _).
    pose proof (pp_after _ _ _ _ _ _ _ _ _ _ _ _ _ _ Hp) as Ea.
    match type of Ea with _ = set_commitments (<[_ := ?row]> _) _ => set (new := row) in Ea end.
    assert (commitments_unique db') as Hu'.
    { apply (insert_commitment_unique cid new db tt); [done|]. apply insert_commitment_Ok.
      split_and!; [exact Hf|exact Hn| |exact Ea]. unfold has_session. cbn. by rewrite Hrow. }
    rewrite Ea in *. clear Hp. split; [exact Hu'|cbn [commitments set_commitments sessions] in *..].
    + intros c r s. rewrite lookup_insert_Some. intros [[_ <-]|[_ Hr]]; [done|by eapply Hseal].
    + intros c r. rewrite lookup_insert_Some. intros [[_ <-]|[_ Hr]]; cbn; [eauto|by eapply Hsess].
  - destruct x as [proof|e]; [|by apply reveal_Raise in Hr as ->].
    apply reveal_Ok in Hr as (c & r0 & secret & nh & d & Hc & <- & _ & (row & Hrow & _ & Hst) & Ho & ->).
    destruct (cm_revealed_secret r0) eqn:E; [done|]. split; cbn [commitments set_commitments sessions].
    + by apply (update_revealed_unique c (hex secret) db).
    + intros c' r s. rewrite lookup_alter_Some. intros [(<- & r1 & Hr1 & ->)|[_ Hr]]; [|by eapply Hseal].
      cbn. intros _. assert (r1 = r0) as -> by congruence. by exists row.
    + intros c' r. rewrite lookup_alter_Some. intros [(<- & r1 & Hr1 & ->)|[_ Hr]]; cbn; by eapply Hsess.
  - split.
    + unfold commitments_unique. by rewrite Hc.
    + rewrite Hc. intros c r s Hr Hrs. destruct (Hseal _ _ _ Hr Hrs) as (row & Hrow & Hst). by eapply Hcomp.
    + rewrite Hc. intros c r Hr. destruct (Hsess _ _ Hr) as (row & Hrow). by eapply Hold.
Qed.

Lemma commit_history_ok db db' : rtc (commit_step master_key) db db' -> commitments_ok db -> commitments_ok db'.
Proof. induction 1; eauto using commit_step_ok. Qed.

Lemma empty_commitments_ok : commitments_ok empty_db.
Proof. split; [intros c1 c2 r1 r2|intros cid r s|intros cid r]; cbn; rewrite lookup_empty; discriminate. Qed.
End History.

(** ** Properties *)

(** The prepared row opens to what was sealed, before and after its reveal. *)
Lemma open_prepared `{AEADLaws} master_key cid sid p setup eps nonce e32 e12 db ps db1 res sealed revealed :
  prepared master_key cid sid p setup eps nonce e32 e12 db ps db1 res sealed ->
  revealed = None \/ revealed = Some (hex e32) ->
  open_row master_key sid cid
    (mk_commitment_row sid KIND ALGORITHM_VERSION (sr_commitment_hash res) (sr_setup_hash res) (sr_eligible_set_hash res)
       (VDict (selection_metadata res nonce (selected_episode ps))) sealed revealed)
  = Ok (e32, hex nonce, selection_metadata res nonce (selected_episode ps)).
Proof.
  intros Hp Hrev. destruct (derive_Ok _ _ _ _ _ (pp_derived _ _ _ _ _ _ _ _ _ _ _ _ _ _ Hp)) as (sb & eb & pb & D).
  destruct (dv_hashes _ _ _ _ _ _ _ _ D) as (E1 & E2 & E3). unfold open_row.
  cbn [cm_algorithm_version cm_sealed_secret cm_revealed_secret cm_metadata cm_setup_hash cm_eligible_set_hash cm_commitment_hash].
  rewrite String.eqb_refl. cbn [negb raise_if rbind].
  rewrite (unseal_seal _ _ _ _ _ _ (pp_secret _ _ _ _ _ _ _ _ _ _ _ _ _ _ Hp) (pp_sealed _ _ _ _ _ _ _ _ _ _ _ _ _ _ Hp)).
  cbn [rbind]. assert (check_revealed revealed (hex e32) = Ok tt) as ->.
  { destruct Hrev as [->| ->]; [done|]. unfold check_revealed. apply require_digest_Ok; [|done].
    exists e32. split; [exact (dv_secret _ _ _ _ _ _ _ _ D)|done]. }
  cbn [rbind metadata]. change (metadata_string (selection_metadata res nonce (selected_episode ps)) "player_nonce_hex") with (Ok (hex nonce)).
  cbn [rbind]. rewrite fromhex_hex. cbn [catch_res rbind]. unfold commitment_hash.
  rewrite E1, E2, (dv_payload _ _ _ _ _ _ _ _ D). cbn [rbind]. rewrite E3.
  rewrite (proj2 (require_digest_Ok (sha256_hex pb) (sha256_hex pb) tt (sha256_hex_digest _)) eq_refl). done.
Qed.

(** Revealing a stored row whose contents open to a selection's. *)
Lemma reveal_run `{AEAD} master_key sid cid db r row secret nonce_hex res nonce e :
  commitments_unique db -> commitments db !! cid = Some r -> cm_session_id r = sid -> cm_kind r = KIND ->
  sessions db !! sid = Some row -> s_status row = "COMPLETED" ->
  open_row master_key sid cid r = Ok (secret, nonce_hex, selection_metadata res nonce e) ->
  EligibleEpisode_post_init e = Ok tt -> 0 <= sr_selected_index res < 2 ^ 64 -> 0 <= sr_draw_counter res < 2 ^ 64 ->
  exists db', reveal_completed master_key sid (s_principal_id row) db
    = (Ok (mk_proof (cm_algorithm_version r) (cm_commitment_hash r) (cm_setup_hash r) (cm_eligible_set_hash r)
             (hex secret) nonce_hex (sr_selected_index res) (sr_draw_counter res) e), db').
Proof.
  intros Hu Hc <- Hk Hs Hst Ho He Hi Hd. unfold reveal_completed.
  exists (match cm_revealed_secret r with None => snd (update_revealed cid (hex secret) db) | Some _ => db end).
  apply transaction_run.
  rewrite (sbind_run _ _ db tt db)
    by (apply require_session_Ok; split; [reflexivity|]; exists row; split_and!; [exact Hs|reflexivity|by intros ? [= <-]]).
  rewrite (sbind_run _ _ db (cid, r) db) by by apply commitment_row_of_run. cbv beta iota. rewrite Ho, sbind_lift. cbv beta iota.
  rewrite (sbind_run _ _ db tt (match cm_revealed_secret r with None => snd (update_revealed cid (hex secret) db) | Some _ => db end))
    by (destruct (cm_revealed_secret r); reflexivity).
  rewrite stored_episode_prepared by done. rewrite sbind_lift.
  rewrite (metadata_u64_str _ "selected_index" (sr_selected_index res)) by done. rewrite sbind_lift.
  rewrite (metadata_u64_str _ "draw_counter" (sr_draw_counter res)) by done. rewrite sbind_lift.
  reflexivity.
Qed.

Lemma proof_of_eta r secret_hex nonce_hex e :
  mk_proof ALGORITHM_VERSION (sr_commitment_hash r) (sr_setup_hash r) (sr_eligible_set_hash r) secret_hex nonce_hex
    (sr_selected_index r) (sr_draw_counter r) e = proof_of r secret_hex nonce_hex e.
Proof. done. Qed.

(** C17. A selection that was prepared can be verified by anyone once its session is completed.  Whatever
    happens after the preparation, revealing then succeeds, and its proof has the commitment hash
    published before the draw and verifies offline to the episode the player was given. *)
Theorem prepared_selection_revealed `{AEADLaws} master_key cid sid p setup eps nonce e32 e12 db ps db1 db2 row :
  commitments_ok db -> selection_made setup eps ->
  prepare_episode_selection master_key cid sid p setup eps nonce e32 e12 db = (Ok ps, db1) ->
  rtc (commit_step master_key) db1 db2 ->
  sessions db2 !! sid = Some row -> s_status row = "COMPLETED" ->
  exists proof db3,
    reveal_completed master_key sid (s_principal_id row) db2 = (Ok proof, db3) /\
    pf_commitment_hash proof = pc_commitment_hash (public_commitment ps) /\
    pf_secret_hex proof = hex e32 /\
    verify_completion_proof setup eps proof = Ok (selected_episode ps).
Proof.
  intros Hok Hmade Hprep Hh Hs Hst. pose proof (commit_step_ok _ _ _ (step_prepare _ _ _ _ _ _ _ _ _ _ _ _ Hprep) Hok) as Hok1.
  pose proof (commit_history_ok _ _ _ Hh Hok1) as Hok2. apply prepare_Ok in Hprep as (res & sealed & Hp).
  pose proof (pp_derived _ _ _ _ _ _ _ _ _ _ _ _ _ _ Hp) as Hd.
  destruct (derived_index _ _ _ _ _ Hd) as [Hi Hc].
  assert (EligibleEpisode_post_init (selected_episode ps) = Ok tt) as He.
  { destruct Hmade as [_ Hf]. rewrite Forall_lookup in Hf. eapply Hf, (pp_selected _ _ _ _ _ _ _ _ _ _ _ _ _ _ Hp). }
  assert (0 <= sr_selected_index res < 2 ^ 64) as Hi64.
  { apply derive_Ok in Hd as (sb & eb & pb & D). pose proof (dv_eligible _ _ _ _ _ _ _ _ D) as Hl.
    unfold canonical_eligible_bytes in Hl. repeat step_ok.
    match goal with Hb : to_bytes8 _ = Ok _ |- _ => apply to_bytes8_Ok in Hb as [Hb _] end. lia. }
  pose proof (pp_after _ _ _ _ _ _ _ _ _ _ _ _ _ _ Hp) as Ea.
  match type of Ea with _ = set_commitments (<[_ := ?r]> _) _ => assert (commitments db1 !! cid = Some r) as Hrow
    by (rewrite Ea; apply lookup_insert_eq) end.
  destruct (commit_history_row _ _ _ _ _ Hh Hrow) as (r' & Hr' & Hle).
  assert (exists revealed, (revealed = None \/ revealed = Some (hex e32)) /\
    r' = mk_commitment_row sid KIND ALGORITHM_VERSION (sr_commitment_hash res) (sr_setup_hash res) (sr_eligible_set_hash res)
           (VDict (selection_metadata res nonce (selected_episode ps))) sealed revealed) as (revealed & Hrev & ->).
  { destruct Hle as [->|(_ & s & Hu & ->)]; [exists None; split; [by left|done]|]. exists (Some (hex s)). split; [|done].
    right. do 2 f_equal. cbn [cm_session_id cm_sealed_secret] in Hu.
    rewrite (unseal_seal _ _ _ _ _ _ (pp_secret _ _ _ _ _ _ _ _ _ _ _ _ _ _ Hp) (pp_sealed _ _ _ _ _ _ _ _ _ _ _ _ _ _ Hp)) in Hu.
    by injection Hu. }
  destruct (reveal_run master_key sid cid db2 _ row e32 (hex nonce) res nonce (selected_episode ps) (co_unique _ Hok2) Hr'
    eq_refl eq_refl Hs Hst (open_prepared _ _ _ _ _ _ _ _ _ _ _ _ _ _ _ Hp Hrev) He Hi64 Hc) as (db3 & Hrev3).
  eexists _, db3. split; [exact Hrev3|]. cbn [cm_algorithm_version cm_commitment_hash cm_setup_hash cm_eligible_set_hash].
  rewrite proof_of_eta. split; [by rewrite (pp_public _ _ _ _ _ _ _ _ _ _ _ _ _ _ Hp)|]. split; [done|].
  apply verify_Ok. exists e32, nonce, res. cbn. rewrite !fromhex_hex.
  split_and!; [done|done|done|exact (pp_selected _ _ _ _ _ _ _ _ _ _ _ _ _ _ Hp)|done].
Qed.

(** C18. Before a session is completed its secret stays sealed: in every history a reveal is refused
    without a change, and the public commitment shows no secret. *)
Theorem sealed_until_completed `{AEAD} master_key db sid row :
  rtc (commit_step master_key) empty_db db -> sessions db !! sid = Some row -> s_status row <> "COMPLETED" ->
  reveal_completed master_key sid (s_principal_id row) db = (Raise CommitmentStateError, db) /\
  (forall p r db', reveal_completed master_key sid p db = (r, db') -> db' = db /\ is_ok r = false) /\
  (forall p pub db', get_public sid p db = (Ok pub, db') -> p = s_principal_id row /\ pc_revealed_secret_hex pub = None).
Proof.
  intros Hh Hs Hst. pose proof (commit_history_ok _ _ _ Hh empty_commitments_ok) as [_ Hseal _]. split; [|split].
  - unfold reveal_completed, transaction, require_session, sbind, lift. rewrite Hs. cbn [of_option].
    rewrite String.eqb_refl. cbn [negb raise_if]. by destruct (String.eqb_spec (s_status row) "COMPLETED").
  - intros p r db' Hr. destruct r as [proof|e]; [|by apply reveal_Raise in Hr].
    apply reveal_Ok in Hr as (_ & _ & _ & _ & _ & _ & _ & _ & (row' & Hs' & _ & Hc) & _). congruence.
  - intros p pub db' Hg. unfold get_public in Hg.
    apply sbind_Ok in Hg as ([] & db0 & (-> & row' & Hs' & Ho & _)%require_session_Ok & Hg).
    apply sbind_Ok in Hg as ([cid r] & db1 & (-> & Hc & Hsid & Hk)%commitment_row_of_Ok & Hg).
    injection Hg as <- _. cbn. split; [congruence|]. destruct (cm_revealed_secret r) eqn:E; [|done].
    destruct (Hseal _ _ _ Hc E) as (row2 & Hs2 & Hst2). congruence.
Qed.

(** A session's selection is committed once, before it leaves [SETUP].  After a preparation no later
    one for that session succeeds or changes anything, and at every later time the public commitment
    has the same identifier and digests. *)
Theorem commitment_write_once `{AEADLaws} master_key cid sid p setup eps nonce e32 e12 db ps db1 db2 :
  commitments_ok db ->
  prepare_episode_selection master_key cid sid p setup eps nonce e32 e12 db = (Ok ps, db1) ->
  rtc (commit_step master_key) db1 db2 ->
  (exists row, sessions db !! sid = Some row /\ s_status row = "SETUP" /\ s_principal_id row = p) /\
  (forall cid' p' setup' eps' nonce' e e' r db3,
     prepare_episode_selection master_key cid' sid p' setup' eps' nonce' e e' db2 = (r, db3) -> db3 = db2 /\ is_ok r = false) /\
  (forall p' pub db3, get_public sid p' db2 = (Ok pub, db3) ->
     let pub0 := public_commitment ps in
     pc_commitment_id pub = pc_commitment_id pub0 /\ pc_commitment_hash pub = pc_commitment_hash pub0 /\
     pc_setup_hash pub = pc_setup_hash pub0 /\ pc_eligible_set_hash pub = pc_eligible_set_hash pub0).
Proof.
  intros Hok Hprep Hh. pose proof (commit_step_ok _ _ _ (step_prepare _ _ _ _ _ _ _ _ _ _ _ _ Hprep) Hok) as Hok1.
  pose proof (commit_history_ok _ _ _ Hh Hok1) as [Hu _ _]. apply prepare_Ok in Hprep as (res & sealed & Hp).
  pose proof (pp_after _ _ _ _ _ _ _ _ _ _ _ _ _ _ Hp) as Ea.
  match type of Ea with _ = set_commitments (<[_ := ?r]> _) _ => assert (commitments db1 !! cid = Some r) as Hrow
    by (rewrite Ea; apply lookup_insert_eq) end.
  destruct (commit_history_row _ _ _ _ _ Hh Hrow) as (r' & Hr' & Hle). pose proof (row_le_fields _ _ _ _ Hle) as [Hsid Hkind].
  cbn [cm_session_id cm_kind] in Hsid, Hkind. split; [|split].
  - destruct (pp_session _ _ _ _ _ _ _ _ _ _ _ _ _ _ Hp) as (row & ? & ? & ?). by exists row.
  - intros cid' p' setup' eps' nonce' e e' [ps'|err] db3 Hp'; [|by apply prepare_Raise in Hp'].
    apply prepare_Ok in Hp' as (res' & sealed' & Hp'). destruct (pp_fresh _ _ _ _ _ _ _ _ _ _ _ _ _ _ Hp') as [_ Hnil].
    rewrite commitment_of_nil in Hnil. by destruct (Hnil _ _ Hr').
  - intros p' pub db3 Hg. unfold get_public in Hg.
    apply sbind_Ok in Hg as ([] & db0 & (-> & _)%require_session_Ok & Hg).
    apply sbind_Ok in Hg as ([c r] & db4 & (-> & Hc & Hs2 & Hk2)%commitment_row_of_Ok & Hg).
    injection Hg as <- _. assert (c = cid) as -> by (eapply Hu; [exact Hc|exact Hr'|congruence|congruence]).
    assert (r = r') as -> by congruence. rewrite (pp_public _ _ _ _ _ _ _ _ _ _ _ _ _ _ Hp). cbn.
    by destruct Hle as [->|(_ & s & _ & ->)].
Qed.

Lemma session_history_commit `{AEAD} master_key db db' :
  db_ok db -> rtc session_step db db' -> rtc (commit_step master_key) db db'.
Proof.
  intros Hok Hh. induction Hh as [db|db db1 db' Hs _ IH]; [constructor|].
  eapply rtc_l; [by apply session_step_other|]. apply IH. apply (session_history_ok db); [by apply rtc_once|done].
Qed.

(** ** A concrete history

    The cipher of the example appends a 16-byte tag to the data: it satisfies the law. *)
Module Demo.
#[global] Instance demo_aead : AEAD := {
  aead_encrypt key nonce data ad := data ++ take 16 (hmac_sha256 key (nonce ++ ad ++ data));
  aead_decrypt key nonce ct ad :=
    let n := (length ct - 16)%nat in
    if bool_decide (drop n ct = take 16 (hmac_sha256 key (nonce ++ ad ++ take n ct)))
    then Ok (take n ct) else Raise InvalidTag;
}.

#[global] Instance demo_aead_laws : AEADLaws.
Proof.
  split.
  - intros key nonce data ad. cbn [aead_decrypt aead_encrypt demo_aead].
    set (tag := take 16 (hmac_sha256 key (nonce ++ ad ++ data))).
    assert (length tag = 16%nat) as Hl by (unfold tag; rewrite length_take; unfold hmac_sha256; cbv zeta; by rewrite length_sha256).
    rewrite length_app, Hl, Nat.add_sub, take_app_length, drop_app_length. fold tag. by rewrite bool_decide_eq_true_2.
  - intros. cbn. rewrite length_app. lia.
Qed.

Definition key : bytes := be_bytes 32 99.
Abbreviation prepare :=
  (prepare_episode_selection key "c1" "s1" "alice" demo_selection_setup demo_episodes [x05] demo_secret (be_bytes 12 3)).
Definition no_selection : PreparedSelection := mk_prepared (mk_public "" "" "" "" "" "" None) (mk_episode "" "" 0 0).
Definition demo_ps : PreparedSelection := match fst (prepare (demo_sessions 1)) with Ok ps => ps | Raise _ => no_selection end.
Definition db1 : Db := snd (prepare (demo_sessions 1)).
Definition db2 : Db := run_calls (drop 1 demo_calls) db1.

Lemma prepare_eq : prepare (demo_sessions 1) = (Ok demo_ps, db1).
Proof.
  assert (is_ok (fst (prepare (demo_sessions 1))) = true) as Hok by (vm_compute; reflexivity).
  unfold demo_ps, db1. destruct (prepare (demo_sessions 1)) as [[ps|e] db]; [reflexivity|discriminate Hok].
Qed.

Lemma demo_ok0 : commitments_ok (demo_sessions 1) /\ db_ok (demo_sessions 1).
Proof.
  assert (db_ok (demo_sessions 1)) as Hok by (eapply session_history_ok; [apply demo_reachable|apply empty_db_ok]).
  split; [|exact Hok]. eapply (commit_history_ok key empty_db); [|apply empty_commitments_ok].
  apply session_history_commit; [apply empty_db_ok|apply demo_reachable].
Qed.

Lemma demo_completed_history : rtc (commit_step key) db1 db2.
Proof.
  apply session_history_commit.
  - apply (db_ok_same (demo_sessions 1)); [vm_compute; reflexivity|vm_compute; reflexivity|apply demo_ok0].
  - apply run_calls_history; [apply Forall_drop, demo_calls_made|vm_compute; reflexivity].
Qed.

Lemma demo_full_history : rtc (commit_step key) empty_db db1.
Proof.
  eapply (rtc_r _ (demo_sessions 1)).
  - apply session_history_commit; [apply empty_db_ok|apply (demo_reachable 1)].
  - exact (step_prepare key (demo_sessions 1) db1 "c1" "s1" "alice" demo_selection_setup demo_episodes [x05] demo_secret
             (be_bytes 12 3) (Ok demo_ps) prepare_eq).
Qed.
End Demo.

Definition row_of (db : Db) : session_row := default (mk_session_row "" "" 0 None None 0) (sessions db !! "s1").

Lemma row_of_eq db : is_Some (sessions db !! "s1") -> sessions db !! "s1" = Some (row_of db).
Proof. intros [row E]. unfold row_of. by rewrite E. Qed.

Lemma prepared_selection_revealed_witness :
  exists proof db3,
    reveal_completed Demo.key "s1" (s_principal_id (row_of Demo.db2)) Demo.db2 = (Ok proof, db3) /\
    pf_commitment_hash proof = pc_commitment_hash (public_commitment Demo.demo_ps) /\
    pf_secret_hex proof = hex demo_secret /\
    verify_completion_proof demo_selection_setup demo_episodes proof = Ok (selected_episode Demo.demo_ps).
Proof.
  apply (prepared_selection_revealed Demo.key "c1" "s1" "alice" demo_selection_setup demo_episodes [x05] demo_secret
    (be_bytes 12 3) (demo_sessions 1) Demo.demo_ps Demo.db1 Demo.db2 (row_of Demo.db2)).
  - apply Demo.demo_ok0.
  - apply demo_selection_made.
  - apply Demo.prepare_eq.
  - apply Demo.demo_completed_history.
  - apply row_of_eq. eexists. vm_compute. reflexivity.
  - vm_compute. reflexivity.
Defined.

Lemma sealed_until_completed_witness :
  reveal_completed Demo.key "s1" (s_principal_id (row_of Demo.db1)) Demo.db1 = (Raise CommitmentStateError, Demo.db1).
Proof.
  apply (sealed_until_completed Demo.key Demo.db1 "s1" (row_of Demo.db1)).
  - apply Demo.demo_full_history.
  - apply row_of_eq. eexists. vm_compute. reflexivity.
  - vm_compute. discriminate.
Defined.

Lemma commitment_write_once_witness :
  exists row, sessions (demo_sessions 1) !! "s1" = Some row /\ s_status row = "SETUP" /\ s_principal_id row = "alice".
Proof.
  apply (commitment_write_once Demo.key "c1" "s1" "alice" demo_selection_setup demo_episodes [x05] demo_secret
    (be_bytes 12 3) (demo_sessions 1) Demo.demo_ps Demo.db1 Demo.db2).
  - apply Demo.demo_ok0.
  - apply Demo.prepare_eq.
  - apply Demo.demo_completed_history.
Defined.
