(* ===== verification/ResultModel.v ===== *)
(** * Results: evidence and commitments ([apps/api/.../results/model.py], [service.py])

    The completion evidence, its canonical byte encodings, the kernel event chain, the ledger and
    the result commitment, and the verifier proof built from them.  The service and the store are in
    [Results]. *)

From S2P Require Import Prelude Sort PyStr Bytes PyJson JsonParse CommitmentModel.
From Stdlib Require Import Strings.Byte.
From Stdlib Require String.

Definition result_error (c : ResultErrorCode) : exn := ResultServiceError c.
Definition invalid : exn := result_error RS_INVALID_EVIDENCE.
Definition persisted_conflict : exn := result_error RS_PERSISTED_CONFLICT.

Definition SCHEMA_VERSION : string := "1.0.0".
Definition VERIFICATION_VERSION : string := "1".
Definition EXPORT_VERSION : string := "1".

(** ** Evidence *)

Record CommandReplayMetadata := mk_metadata {
  mt_command_id : string;
  mt_logical_ts_ns : Z;
  mt_arrival_seq : Z;
}.

Record CanonicalInput := mk_canonical_input {
  in_session_id : string;
  in_input_seq : Z;
  in_expected_state_version : Z;
  in_logical_ts_ns : Z;
  in_kind : string;
  in_payload_hex : string;
}.

Record StateHashEvidence := mk_state_hash {
  st_event_seq : Z;
  st_hash : string;
}.

Record LedgerPostingEvidence := mk_posting {
  lp_account : string;
  lp_amount_minor : Z;
  lp_currency : string;
}.

Record LedgerTransactionEvidence := mk_transaction {
  lt_event_seq : Z;
  lt_transaction_id : string;
  lt_postings : list LedgerPostingEvidence;
}.

Record ResultMetrics := mk_metrics {
  rm_survived : bool;
  rm_terminal_return_ppb : Z;
  rm_max_drawdown_ppb : Z;
  rm_peak_effective_leverage_ppb : Z;
  rm_benchmark_return_ppb : Z;
}.

Record ResultEvidence := mk_evidence {
  command_metadata : list CommandReplayMetadata;
  inputs : list CanonicalInput;
  state_hashes : list StateHashEvidence;
  ledger_transactions : list LedgerTransactionEvidence;
  metrics : ResultMetrics;
  eligible_episodes : list EligibleEpisode;
}.

Definition identity (v : string) : result unit :=
  raise_if (is_empty v || (200 <? py_len v) || has_control v) ValueError.
Definition model_i64 (v : Z) : result unit := raise_if ((v <? I64_MIN) || (I64_MAX <? v)) ValueError.
Definition model_u64 (v : Z) : result unit := raise_if ((v <? 0) || (U64_MAX <? v)) ValueError.
Definition model_sha256 (v : string) : result unit := raise_if (negb (is_sha256 v)) ValueError.
(** [_hex(value, exact_bytes=None)]. *)
Definition even_hex (v : string) : result unit :=
  raise_if (negb (py_len v mod 2 =? 0) || negb (all_chars is_hex_char v)) ValueError.

Definition CommandReplayMetadata_post_init (m : CommandReplayMetadata) : result unit :=
  let! _ := identity (mt_command_id m) in
  let! _ := model_i64 (mt_logical_ts_ns m) in
  model_u64 (mt_arrival_seq m).

Definition CanonicalInput_post_init (i : CanonicalInput) : result unit :=
  let! _ := identity (in_session_id i) in
  let! _ := identity (in_kind i) in
  let! _ := model_u64 (in_input_seq i) in
  let! _ := model_u64 (in_expected_state_version i) in
  let! _ := model_i64 (in_logical_ts_ns i) in
  even_hex (in_payload_hex i).

Definition StateHashEvidence_post_init (s : StateHashEvidence) : result unit :=
  let! _ := model_u64 (st_event_seq s) in model_sha256 (st_hash s).

Definition LedgerPostingEvidence_post_init (p : LedgerPostingEvidence) : result unit :=
  let! _ := identity (lp_account p) in
  let! _ := identity (lp_currency p) in
  model_i64 (lp_amount_minor p).

Definition LedgerTransactionEvidence_post_init (t : LedgerTransactionEvidence) : result unit :=
  let! _ := model_u64 (lt_event_seq t) in
  let! _ := identity (lt_transaction_id t) in
  raise_if (Z.of_nat (length (lt_postings t)) <? 2) ValueError.

Definition ResultMetrics_post_init (m : ResultMetrics) : result unit :=
  let! _ := model_i64 (rm_terminal_return_ppb m) in
  let! _ := model_i64 (rm_max_drawdown_ppb m) in
  let! _ := model_i64 (rm_peak_effective_leverage_ppb m) in
  model_i64 (rm_benchmark_return_ppb m).

(** ** Canonical JSON *)

(** Once floats and non-string keys are rejected, [json.dumps] fails only on a non-JSON value, which
    [_validate_json] rejects with the same error. *)
Definition result_canonical_json (v : pyval) : result string :=
  if reject_float v
  then catch_res (fun e => match e with TypeError => invalid | e => e end) (json_dumps true v)
  else Raise invalid.

Definition canonical_hash (v : pyval) : result string :=
  let! text := result_canonical_json v in Ok (sha256_hex (utf8 text)).

Definition mapping (v : pyval) : result pydict :=
  match v with VDict d => if str_keys d then Ok d else Raise persisted_conflict | _ => Raise persisted_conflict end.

(** ** Canonical bytes *)

Definition rs_u64 (v : Z) : result bytes := if (v <? 0) || (U64_MAX <? v) then Raise invalid else Ok (be_bytes 8 v).
Definition rs_i64 (v : Z) : result unit := raise_if ((v <? I64_MIN) || (I64_MAX <? v)) invalid.
Definition rs_i64_bytes (v : Z) : result bytes := let! _ := rs_i64 v in Ok (be_bytes 8 v).
Definition rs_bytes (v : bytes) : result bytes := let! n := rs_u64 (Z.of_nat (length v)) in Ok (n ++ v).
Definition rs_text (v : string) : result bytes := rs_bytes (utf8 v).

Definition validated_sha (v : string) : result string := if is_sha256 v then Ok v else Raise invalid.

(** [b"TAG\0"]. *)
Definition tag (t : string) : bytes := utf8 t ++ [x00].

Definition kernel_input_bytes (i : CanonicalInput) (payload : bytes) : result bytes :=
  let! a := rs_text (in_session_id i) in
  let! b := rs_u64 (in_input_seq i) in
  let! c := rs_u64 (in_expected_state_version i) in
  let! d := rs_i64_bytes (in_logical_ts_ns i) in
  let! e := rs_text (in_kind i) in
  let! f := rs_bytes payload in
  Ok (tag "TRL-KERNEL-INPUT-v1" ++ a ++ b ++ c ++ d ++ e ++ f).

(** The bytes of the event of one input, after the checks of the loop. *)
Definition kernel_event_bytes (sid : string) (index : Z) (prior_hash : bytes) (i : CanonicalInput) : result bytes :=
  let! _ := raise_if (negb (String.eqb (in_session_id i) sid)) invalid in
  let! _ := raise_if (negb (in_input_seq i =? index) || negb (in_expected_state_version i =? index)) invalid in
  let! payload := fromhex (in_payload_hex i) in
  let! canonical_input := kernel_input_bytes i payload in
  let! a := rs_u64 index in
  let! b := rs_u64 (index + 1) in
  let! c := rs_i64_bytes (in_logical_ts_ns i) in
  let! d := rs_text (in_kind i) in
  let! e := rs_bytes canonical_input in
  Ok (tag "TRL-KERNEL-EVENT-v1" ++ prior_hash ++ a ++ b ++ c ++ d ++ sha256 payload ++ e).

Definition kernel_event_json (index : Z) (prior_hash current_hash : bytes) (i : CanonicalInput) : result pyval :=
  let! payload := fromhex (in_payload_hex i) in
  Ok (VDict (obj [("event_seq", VStr (str_Z index)); ("state_version", VStr (str_Z (index + 1)));
                  ("logical_ts_ns", VStr (str_Z (in_logical_ts_ns i))); ("kind", VStr (in_kind i));
                  ("payload_hash", VStr (hex (sha256 payload))); ("prior_event_hash", VStr (hex prior_hash));
                  ("current_event_hash", VStr (hex current_hash))])).

(** The loop of [_kernel_events]: the events and the final hash. *)
Fixpoint kernel_loop (sid : string) (index : Z) (prior_hash : bytes) (items : list CanonicalInput)
    : result (list pyval * bytes) :=
  match items with
  | [] => Ok ([], prior_hash)
  | i :: items' =>
      let! event_bytes := kernel_event_bytes sid index prior_hash i in
      let current_hash := sha256 event_bytes in
      let! event := kernel_event_json index prior_hash current_hash i in
      let! rest := kernel_loop sid (index + 1) current_hash items' in
      Ok (event :: fst rest, snd rest)
  end.

Definition zero_hash : bytes := repeat x00 32.

Definition kernel_events (sid : string) (items : list CanonicalInput) : result (list pyval * string) :=
  let! r := kernel_loop sid 0 zero_hash items in Ok (fst r, hex (snd r)).

Fixpoint digests (hashes : list string) : result bytes :=
  match hashes with
  | [] => Ok []
  | h :: hs =>
      let! v := validated_sha h in
      let! b := fromhex v in
      let! bs := digests hs in
      Ok (b ++ bs)
  end.

Definition manifest_set_bytes (hashes : list string) : result bytes :=
  let ordered := py_sorted id hashes in
  let! n := rs_u64 (Z.of_nat (length ordered)) in
  let! bs := digests ordered in
  Ok (tag "TRL-MANIFEST-SET-v1" ++ n ++ bs).
Definition manifest_commitment (hashes : list string) : result string :=
  let! b := manifest_set_bytes hashes in Ok (sha256_hex b).

Fixpoint state_bytes (prior : option Z) (states : list StateHashEvidence) : result bytes :=
  match states with
  | [] => Ok []
  | s :: states' =>
      let! _ := raise_if (match prior with Some p => st_event_seq s <=? p | None => false end) invalid in
      let! a := rs_u64 (st_event_seq s) in
      let! b := fromhex (st_hash s) in
      let! bs := state_bytes (Some (st_event_seq s)) states' in
      Ok (a ++ b ++ bs)
  end.
Definition state_hash_bytes (states : list StateHashEvidence) : result bytes :=
  let! n := rs_u64 (Z.of_nat (length states)) in
  let! bs := state_bytes None states in
  Ok (tag "TRL-STATE-HASHES-v1" ++ n ++ bs).
Definition state_hash_commitment (states : list StateHashEvidence) : result string :=
  let! b := state_hash_bytes states in Ok (sha256_hex b).

(** [totals[c] = totals.get(c, 0) + amount]. *)
Fixpoint add_total (c : string) (amount : Z) (totals : list (string * Z)) : list (string * Z) :=
  match totals with
  | [] => [(c, 0 + amount)]
  | (c', t) :: rest => if String.eqb c c' then (c', t + amount) :: rest else (c', t) :: add_total c amount rest
  end.
Definition totals (postings : list LedgerPostingEvidence) : list (string * Z) :=
  fold_left (fun acc p => add_total (lp_currency p) (lp_amount_minor p) acc) postings [].

Definition require_balanced (t : LedgerTransactionEvidence) : result unit :=
  raise_if (existsb (fun p => negb (snd p =? 0)) (totals (lt_postings t))) invalid.

Definition posting_key (p : LedgerPostingEvidence) : string * Z * string := (lp_account p, lp_amount_minor p, lp_currency p).

Fixpoint postings_bytes (postings : list LedgerPostingEvidence) : result bytes :=
  match postings with
  | [] => Ok []
  | p :: ps =>
      let! a := rs_text (lp_currency p) in
      let! b := rs_text (lp_account p) in
      let! c := rs_i64_bytes (lp_amount_minor p) in
      let! bs := postings_bytes ps in
      Ok (a ++ b ++ c ++ bs)
  end.

(** The loop of [_ledger_commitment]. *)
Fixpoint ledger_bytes (seen : list string) (prior_seq : option Z) (ts : list LedgerTransactionEvidence) : result bytes :=
  match ts with
  | [] => Ok []
  | t :: ts' =>
      let! _ := raise_if (bool_decide (lt_transaction_id t ∈ seen)) invalid in
      let! _ := raise_if (match prior_seq with Some p => lt_event_seq t <? p | None => false end) invalid in
      let! _ := require_balanced t in
      let! a := rs_u64 (lt_event_seq t) in
      let! b := rs_text (lt_transaction_id t) in
      let postings := py_sorted posting_key (lt_postings t) in
      let! c := rs_u64 (Z.of_nat (length postings)) in
      let! d := postings_bytes postings in
      let! bs := ledger_bytes (lt_transaction_id t :: seen) (Some (lt_event_seq t)) ts' in
      Ok (a ++ b ++ c ++ d ++ bs)
  end.
Definition ledger_proof_bytes (ts : list LedgerTransactionEvidence) : result bytes :=
  let! n := rs_u64 (Z.of_nat (length ts)) in
  let! bs := ledger_bytes [] None ts in
  Ok (tag "TRL-LEDGER-PROOF-v1" ++ n ++ bs).
Definition ledger_commitment (ts : list LedgerTransactionEvidence) : result string :=
  let! b := ledger_proof_bytes ts in Ok (sha256_hex b).

Definition result_bytes (sid manifest_set_hash final_event_hash state_hashes_hash ledger_hash : string) (m : ResultMetrics)
    : result bytes :=
  let! a := rs_text sid in
  let! b := fromhex manifest_set_hash in
  let! c := fromhex final_event_hash in
  let! d := fromhex state_hashes_hash in
  let! e := fromhex ledger_hash in
  let! f := rs_u64 (if rm_survived m then 1 else 0) in
  let! g := rs_i64_bytes (rm_terminal_return_ppb m) in
  let! h := rs_i64_bytes (rm_max_drawdown_ppb m) in
  let! i := rs_i64_bytes (rm_peak_effective_leverage_ppb m) in
  let! j := rs_i64_bytes (rm_benchmark_return_ppb m) in
  Ok (tag "TRL-VERIFIER-RESULT-v1" ++ a ++ b ++ c ++ d ++ e ++ f ++ g ++ h ++ i ++ j).
Definition result_commitment (sid manifest_set_hash final_event_hash state_hashes_hash ledger_hash : string) (m : ResultMetrics)
    : result string :=
  let! b := result_bytes sid manifest_set_hash final_event_hash state_hashes_hash ledger_hash m in Ok (sha256_hex b).

(** ** JSON views *)

Definition input_json (i : CanonicalInput) : pyval := VDict (obj [
  ("session_id", VStr (in_session_id i)); ("input_seq", VStr (str_Z (in_input_seq i)));
  ("expected_state_version", VStr (str_Z (in_expected_state_version i)));
  ("logical_ts_ns", VStr (str_Z (in_logical_ts_ns i))); ("kind", VStr (in_kind i)); ("payload_hex", VStr (in_payload_hex i))]).

Definition state_hash_json (states : list StateHashEvidence) : pyval :=
  VList (map (fun s => VDict (obj [("event_seq", VStr (str_Z (st_event_seq s))); ("hash", VStr (st_hash s))])) states).

Definition posting_json (p : LedgerPostingEvidence) : pyval := VDict (obj [
  ("account", VStr (lp_account p)); ("amount_minor", VStr (str_Z (lp_amount_minor p))); ("currency", VStr (lp_currency p))]).
Definition ledger_json (ts : list LedgerTransactionEvidence) : pyval :=
  VList (map (fun t => VDict (obj [("event_seq", VStr (str_Z (lt_event_seq t))); ("transaction_id", VStr (lt_transaction_id t));
                                   ("postings", VList (map posting_json (lt_postings t)))])) ts).

Definition metrics_json (m : ResultMetrics) : pyval := VDict (obj [
  ("survived", VBool (rm_survived m)); ("terminal_return_ppb", VStr (str_Z (rm_terminal_return_ppb m)));
  ("max_drawdown_ppb", VStr (str_Z (rm_max_drawdown_ppb m)));
  ("peak_effective_leverage_ppb", VStr (str_Z (rm_peak_effective_leverage_ppb m)));
  ("benchmark_return_ppb", VStr (str_Z (rm_benchmark_return_ppb m)))]).

(** ** The verifier proof *)

Definition verifier_proof (sid manifest_hash : string) (e : ResultEvidence) : result pydict :=
  let! manifest_set_hash := manifest_commitment [manifest_hash] in
  let! kernel := kernel_events sid (inputs e) in
  let! state_hashes_hash := state_hash_commitment (state_hashes e) in
  let! ledger_hash := ledger_commitment (ledger_transactions e) in
  let! result_hash := result_commitment sid manifest_set_hash (snd kernel) state_hashes_hash ledger_hash (metrics e) in
  Ok (obj [("verification_version", VStr VERIFICATION_VERSION); ("session_id", VStr sid);
           ("manifest_hashes", VList [VStr manifest_hash]); ("manifest_set_hash", VStr manifest_set_hash);
           ("inputs", VList (map input_json (inputs e))); ("kernel_events", VList (fst kernel));
           ("state_hashes", state_hash_json (state_hashes e)); ("state_hashes_hash", VStr state_hashes_hash);
           ("ledger_transactions", ledger_json (ledger_transactions e)); ("ledger_hash", VStr ledger_hash);
           ("metrics", metrics_json (metrics e)); ("result_hash", VStr result_hash)]).

(** ** The encodings can be read back *)

#[local] Opaque be_bytes utf8.

Lemma rs_u64_Ok n b : rs_u64 n = Ok b -> 0 <= n < 2 ^ 64 /\ b = be_bytes 8 n.
Proof. unfold rs_u64, U64_MAX. destruct (_ || _) eqn:E; [discriminate|]. intros [= <-]. bools. split; [lia|done]. Qed.

Lemma rs_u64_decodable : decodable (fun _ => True) rs_u64.
Proof.
  intros x y a b r s _ _ [Hx ->]%rs_u64_Ok [Hy ->]%rs_u64_Ok H.
  apply app_same_length in H as [H ->]; [|by rewrite !length_be_bytes]. split; [|done].
  exact (be_bytes_inj 8 _ _ Hx Hy H).
Qed.

Lemma rs_i64_decodable : decodable (fun _ => True) rs_i64_bytes.
Proof.
  intros x y a b r s _ _ Hx Hy H. unfold rs_i64_bytes, rs_i64, I64_MIN, I64_MAX in *. repeat step_ok. subst. bools.
  apply app_same_length in H as [H ->]; [|by rewrite !length_be_bytes]. split; [|done].
  apply be_bytes8_i64_inj; [lia..|exact H].
Qed.

Lemma rs_bytes_decodable : decodable (fun _ => True) rs_bytes.
Proof.
  intros x y a b r s _ _ Hx Hy H. unfold rs_bytes in *. repeat step_ok. subst. rewrite <- !app_assoc in H.
  match goal with H1 : rs_u64 _ = Ok _, H2 : rs_u64 _ = Ok _ |- _ =>
    destruct (rs_u64_decodable _ _ _ _ _ _ I I H1 H2 H) as [Hl Ht] end.
  apply app_same_length in Ht as [-> ->]; [done|lia].
Qed.

Lemma rs_text_decodable : decodable (fun _ => True) rs_text.
Proof.
  intros x y a b r s _ _ Hx Hy H. destruct (rs_bytes_decodable _ _ _ _ _ _ I I Hx Hy H) as [E ->].
  split; [by apply utf8_inj|done].
Qed.

(** Lowercase hexadecimal text of even length is the text of its bytes. *)
Lemma hex_char_val c : is_hex_char c = true -> exists d, hex_val c = Some d /\ hex_digit d = c /\ 0 <= d < 16.
Proof.
  intros Hc.
  unfold is_hex_char, is_ascii_digit in Hc. unfold hex_val.
  destruct ((48 <=? code c) && (code c <=? 57)) eqn:E1.
  - exists (code c - 48). bools. split_and!; [done| |lia|lia]. apply code_inj.
    rewrite code_hex_digit by lia. rewrite (proj2 (Z.ltb_lt _ _)) by lia. lia.
  - cbn [orb] in Hc. rewrite Hc. exists (code c - 87). bools. split_and!; [done| |lia|lia]. apply code_inj.
    rewrite code_hex_digit by lia. rewrite (proj2 (Z.ltb_ge _ _)) by lia. lia.
Qed.

Lemma hex_char_not_blank c : is_hex_char c = true -> is_ascii_blank c = false.
Proof. unfold is_hex_char, is_ascii_digit, is_ascii_blank. lia. Qed.

Lemma fromhex_canonical s :
  all_chars is_hex_char s = true -> py_len s mod 2 = 0 -> exists bs, fromhex s = Ok bs /\ hex bs = s.
Proof.
  assert (forall n s, (String.length s <= n)%nat -> all_chars is_hex_char s = true -> py_len s mod 2 = 0 ->
    exists bs, fromhex s = Ok bs /\ hex bs = s) as Hall; [|by eapply Hall].
  clear s. induction n as [|n IH]; intros s Hn Ha Hl.
  { destruct s; [|cbn in Hn; lia]. by exists []. }
  destruct s as [|c [|d s]]; [by exists []|cbn in Hl; discriminate|].
  cbn [all_chars] in Ha. apply andb_true_iff in Ha as [Hc Ha]. apply andb_true_iff in Ha as [Hd Ha].
  destruct (hex_char_val c Hc) as (x & Ex & Exd & Hx), (hex_char_val d Hd) as (y & Ey & Eyd & Hy).
  destruct (IH s) as (bs & Hbs & Hhex); [cbn in Hn; lia|done| |].
  { unfold py_len in *. cbn [String.length] in Hl. rewrite !Nat2Z.inj_succ in Hl.
    replace (Z.succ (Z.succ (Z.of_nat (String.length s)))) with (Z.of_nat (String.length s) + 1 * 2) in Hl by lia.
    by rewrite Z.mod_add in Hl by lia. }
  exists (byte_of_Z (16 * x + y) :: bs). cbn [fromhex]. rewrite hex_char_not_blank, Ex, Ey, Hbs by done. split; [done|].
  cbn [hex]. rewrite Z_of_byte_of_Z, (Z.mod_small (16 * x + y) 256) by lia.
  replace ((16 * x + y) / 16) with x by (apply Z.div_unique_pos with y; lia).
  replace ((16 * x + y) mod 16) with y by (apply Z.mod_unique_pos with x; lia).
  by rewrite Exd, Eyd, Hhex.
Qed.

Lemma is_sha256_digest v : is_sha256 v = true -> is_digest v.
Proof.
  unfold is_sha256. intros [Hl Ha]%andb_true_iff. apply Z.eqb_eq in Hl.
  destruct (fromhex_canonical v Ha) as (bs & _ & Hhex); [by rewrite Hl|]. exists bs. split; [|done].
  rewrite <- Hhex in Hl. unfold py_len in Hl. rewrite length_hex in Hl. lia.
Qed.

Definition is_even_hex (v : string) : Prop := py_len v mod 2 = 0 /\ all_chars is_hex_char v = true.

Lemma fromhex_even_inj v w b : is_even_hex v -> is_even_hex w -> fromhex v = Ok b -> fromhex w = Ok b -> v = w.
Proof.
  intros [Lv Av] [Lw Aw] Hv Hw. destruct (fromhex_canonical v Av Lv) as (bv & Ev & <-).
  destruct (fromhex_canonical w Aw Lw) as (bw & Ew & <-). congruence.
Qed.

(** Reads the fields of two equal encodings, as in [CommitmentModel]. *)
Ltac read_result_field :=
  match goal with
  | H : ?a ++ _ = ?b ++ _, H1 : ?f ?u = Ok ?a, H2 : ?f ?v = Ok ?b |- _ =>
      first
        [ apply (rs_u64_decodable _ _ _ _ _ _ I I H1 H2) in H
        | apply (rs_text_decodable _ _ _ _ _ _ I I H1 H2) in H
        | apply (rs_i64_decodable _ _ _ _ _ _ I I H1 H2) in H
        | apply (rs_bytes_decodable _ _ _ _ _ _ I I H1 H2) in H
        | apply (digest_decodable u v _ _ _ _ ltac:(assumption) ltac:(assumption) H1 H2) in H ];
      destruct H as [? H]; clear H1 H2
  end.
Ltac strip_result_tag :=
  match goal with H : tag ?t ++ _ = tag ?t ++ _ |- _ => apply app_inv_head in H end.

Definition input_made (i : CanonicalInput) : Prop := CanonicalInput_post_init i = Ok tt.

Lemma input_made_hex i : input_made i -> is_even_hex (in_payload_hex i).
Proof.
  unfold input_made, CanonicalInput_post_init, even_hex. intros H. repeat step_ok. bools. by split.
Qed.

Lemma kernel_input_inj i i' w w' b :
  kernel_input_bytes i w = Ok b -> kernel_input_bytes i' w' = Ok b ->
  w = w' /\ in_session_id i = in_session_id i' /\ in_input_seq i = in_input_seq i' /\
  in_expected_state_version i = in_expected_state_version i' /\ in_logical_ts_ns i = in_logical_ts_ns i' /\
  in_kind i = in_kind i'.
Proof.
  intros H1 H2. unfold kernel_input_bytes in *. repeat step_ok. subst b. strip_result_tag.
  do 5 read_result_field.
  match goal with Ha : rs_bytes _ = Ok ?a, Hb : rs_bytes _ = Ok ?b, H : ?b = ?a |- _ =>
    destruct (rs_bytes_decodable _ _ _ _ [] [] I I Hb Ha (f_equal (fun l => l ++ []) H)) as [E _] 
  end.
  split_and!; done.
Qed.

(** The bytes of an event determine the input and the prior hash. *)
Lemma kernel_event_inj sid sid' n n' p p' i i' b :
  length p = 32%nat -> length p' = 32%nat -> input_made i -> input_made i' ->
  kernel_event_bytes sid n p i = Ok b -> kernel_event_bytes sid' n' p' i' = Ok b ->
  sid = sid' /\ n = n' /\ p = p' /\ i = i'.
Proof.
  intros Lp Lp' Hi%input_made_hex Hi'%input_made_hex H1 H2. unfold kernel_event_bytes in *. repeat step_ok. subst b.
  strip_result_tag.
  match goal with H : p' ++ _ = p ++ _ |- _ => symmetry in H | _ => idtac end.
  match goal with H : p ++ _ = p' ++ _ |- _ => apply app_same_length in H as [-> H]; [|congruence] end.
  read_result_field. read_result_field. read_result_field. read_result_field.
  match goal with H : sha256 _ ++ _ = sha256 _ ++ _ |- _ =>
    apply app_same_length in H as [_ H]; [|by rewrite !length_sha256] end.
  match goal with Ha : rs_bytes _ = Ok ?a, Hb : rs_bytes _ = Ok ?b, H : ?a = ?b |- _ =>
    destruct (rs_bytes_decodable _ _ _ _ [] [] I I Ha Hb (f_equal (fun l => l ++ []) H)) as [E _] end.
  subst. match goal with Ha : kernel_input_bytes i ?w = Ok ?b, Hb : kernel_input_bytes i' ?w' = Ok ?b |- _ =>
    destruct (kernel_input_inj _ _ _ _ _ Ha Hb) as (-> & E1 & E2 & E3 & E4 & E5) end.
  match goal with Ha : fromhex (in_payload_hex i) = Ok ?b, Hb : fromhex (in_payload_hex i') = Ok ?b |- _ =>
    pose proof (fromhex_even_inj _ _ _ Hi Hi' Ha Hb) as E6 end.
  repeat match goal with H : negb (String.eqb _ _) = false |- _ =>
    apply negb_false_iff, String.eqb_eq in H end.
  split_and!; [congruence|done|done|]. destruct i, i'; cbn in *. congruence.
Qed.

(** ** The kernel chain *)

Lemma kernel_loop_snoc sid n p xs i evs h :
  kernel_loop sid n p (xs ++ [i]) = Ok (evs, h) <->
  exists evs' h' eb ev, kernel_loop sid n p xs = Ok (evs', h') /\
    kernel_event_bytes sid (n + Z.of_nat (length xs)) h' i = Ok eb /\
    kernel_event_json (n + Z.of_nat (length xs)) h' (sha256 eb) i = Ok ev /\
    evs = evs' ++ [ev] /\ h = sha256 eb.
Proof.
  revert n p evs h. induction xs as [|x xs IH]; intros n p evs h; cbn [app kernel_loop length].
  - rewrite Z.add_0_r. split.
    + intros H. repeat step_ok. simplify_eq. cbn in *. by do 4 eexists.
    + intros (? & ? & eb & ev & [= <- <-] & -> & Hev & -> & ->). cbn. by rewrite Hev.
  - split.
    + intros H. repeat step_ok. simplify_eq.
      match goal with Hr : kernel_loop _ _ _ (_ ++ _) = Ok ?r |- _ => destruct r as [l e]; apply IH in Hr as (a & b & c & d & Hrun & He & Hj & -> & ->) end.
      match goal with Hx : kernel_event_bytes _ n p x = Ok _ |- _ => rewrite Hx end. cbn [rbind].
      match goal with Hx : kernel_event_json n p _ x = Ok _ |- _ => rewrite Hx end. cbn [rbind].
      rewrite Hrun. cbn [rbind fst snd]. replace (n + Z.of_nat (S (length xs))) with (n + 1 + Z.of_nat (length xs)) by lia.
      by do 4 eexists.
    + intros (? & h' & eb & ev & H & He & Hj & -> & ->). repeat step_ok. simplify_eq.
      match goal with Hx : kernel_event_bytes _ n p x = Ok _ |- _ => rewrite Hx end. cbn [rbind].
      match goal with Hx : kernel_event_json n p _ x = Ok _ |- _ => rewrite Hx end. cbn [rbind].
      match goal with Hr : kernel_loop _ _ _ xs = Ok ?r |- _ => destruct r as [l e]; cbn [fst snd] in * end.
      replace (n + Z.of_nat (S (length xs))) with (n + 1 + Z.of_nat (length xs)) in * by lia.
      erewrite (proj2 (IH _ _ _ _)); [|do 4 eexists; split_and!; [eassumption..|reflexivity|reflexivity]]. done.
Qed.

(** The bytes that the chain of [items] hashes. *)
Definition kernel_preimage (sid : string) (items : list CanonicalInput) (b : bytes) : Prop :=
  exists before i after evs prior,
    items = before ++ i :: after /\ kernel_loop sid 0 zero_hash before = Ok (evs, prior) /\
    kernel_event_bytes sid (Z.of_nat (length before)) prior i = Ok b.

Lemma kernel_preimage_snoc sid xs i b : kernel_preimage sid xs b -> kernel_preimage sid (xs ++ [i]) b.
Proof.
  intros (before & j & after & evs & prior & -> & H). exists before, j, (after ++ [i]), evs, prior.
  by rewrite <- app_assoc.
Qed.

Lemma kernel_loop_length sid n p xs evs h : length p = 32%nat -> kernel_loop sid n p xs = Ok (evs, h) -> length h = 32%nat.
Proof.
  revert n p evs h. induction xs as [|x xs IH]; intros n p evs h Hp H; cbn [kernel_loop] in H.
  - by injection H as _ <-.
  - repeat step_ok. simplify_eq.
    match goal with Hr : kernel_loop _ _ _ xs = Ok ?r |- _ => destruct r; eapply IH, Hr; apply length_sha256 end.
Qed.

Lemma kernel_final_length sid xs evs h : kernel_loop sid 0 zero_hash xs = Ok (evs, h) -> length h = 32%nat.
Proof. apply kernel_loop_length. reflexivity. Qed.

(** Two chains with the same final hash have the same inputs, unless they exhibit a collision or an
    event that hashes to the zero start of the chain. *)
Lemma kernel_chain_binds sid sid' xs : forall ys evs evs' h,
  Forall input_made xs -> Forall input_made ys ->
  kernel_loop sid 0 zero_hash xs = Ok (evs, h) -> kernel_loop sid' 0 zero_hash ys = Ok (evs', h) ->
  xs = ys \/
  (exists a b, kernel_preimage sid xs a /\ kernel_preimage sid' ys b /\ a <> b /\ sha256 a = sha256 b) \/
  (exists a, (kernel_preimage sid xs a \/ kernel_preimage sid' ys a) /\ sha256 a = zero_hash).
Proof.
  induction xs as [|x xs IH] using rev_ind; intros ys evs evs' h Mx My Hx Hy.
  { destruct ys as [|y ys _] using rev_ind; [by left|]. right; right. injection Hx as _ <-.
    apply kernel_loop_snoc in Hy as (e & q & b & ? & Hq & Hb & _ & _ & E). exists b. split; [|done]. right.
    by exists ys, y, [], e, q. }
  apply kernel_loop_snoc in Hx as (ex & qx & bx & ? & Hqx & Hbx & _ & _ & Ex). rewrite Z.add_0_l in Hbx.
  assert (kernel_preimage sid (xs ++ [x]) bx) as Px by by exists xs, x, [], ex, qx.
  destruct ys as [|y ys _] using rev_ind.
  { right; right. injection Hy as _ <-. exists bx. split; [by left|done]. }
  apply kernel_loop_snoc in Hy as (ey & qy & by' & ? & Hqy & Hby & _ & _ & Ey). rewrite Z.add_0_l in Hby.
  assert (kernel_preimage sid' (ys ++ [y]) by') as Py by by exists ys, y, [], ey, qy.
  destruct (decide (bx = by')) as [<-|Hne]; [|right; left; exists bx, by'; split_and!; [done..|congruence]].
  apply Forall_app in Mx as [Mxs Mx], My as [Mys My]. apply Forall_inv in Mx, My.
  pose proof (kernel_final_length _ _ _ _ Hqx) as Lx. pose proof (kernel_final_length _ _ _ _ Hqy) as Ly.
  destruct (kernel_event_inj _ _ _ _ _ _ _ _ _ Lx Ly Mx My Hbx Hby) as (_ & _ & <- & <-).
  destruct (IH ys _ _ _ Mxs Mys Hqx Hqy) as [->|[(a & b & Ha & Hb & Hne & He)|(a & Ha & ?)]]; [by left| |].
  - right; left. exists a, b. split_and!; by try apply kernel_preimage_snoc.
  - right; right. exists a. split; [|done]. destruct Ha; [left|right]; by apply kernel_preimage_snoc.
Qed.

(** ** The other commitments *)

Definition state_made (s : StateHashEvidence) : Prop := StateHashEvidence_post_init s = Ok tt.

Lemma state_made_digest s : state_made s -> is_digest (st_hash s).
Proof.
  unfold state_made, StateHashEvidence_post_init, model_sha256. intros H. repeat step_ok. bools. by apply is_sha256_digest.
Qed.

Lemma state_bytes_inj xs : forall ys px py a b,
  length xs = length ys -> Forall state_made xs -> Forall state_made ys ->
  state_bytes px xs = Ok a -> state_bytes py ys = Ok b -> a = b -> xs = ys.
Proof.
  induction xs as [|x xs IH]; intros [|y ys] px py a b L Mx My Hx Hy E; try discriminate; [done|].
  apply Forall_cons in Mx as [Mx%state_made_digest Mxs], My as [My%state_made_digest Mys].
  cbn [state_bytes] in *. repeat step_ok. subst. symmetry in E. repeat read_result_field.
  f_equal; [destruct x, y; cbn in *; congruence|].
  eapply IH; try eassumption; [by injection L|congruence].
Qed.

Lemma state_hash_bytes_inj xs ys b :
  Forall state_made xs -> Forall state_made ys ->
  state_hash_bytes xs = Ok b -> state_hash_bytes ys = Ok b -> xs = ys.
Proof.
  intros Mx My Hx Hy. unfold state_hash_bytes in *. repeat step_ok. subst b. strip_result_tag. read_result_field.
  eapply state_bytes_inj; try eassumption; [lia|done].
Qed.

Lemma manifest_set_bytes_inj m m' b : manifest_set_bytes [m] = Ok b -> manifest_set_bytes [m'] = Ok b -> m = m'.
Proof.
  unfold manifest_set_bytes, py_sorted. cbn [foldr insert_by digests]. unfold validated_sha. intros Hx Hy.
  destruct (is_sha256 m) eqn:E1; [apply is_sha256_digest in E1|by repeat step_ok].
  destruct (is_sha256 m') eqn:E2; [apply is_sha256_digest in E2|by repeat step_ok].
  repeat step_ok. subst. strip_result_tag.
  read_result_field. by read_result_field.
Qed.

Lemma postings_bytes_inj xs : forall ys a b r s,
  length xs = length ys -> postings_bytes xs = Ok a -> postings_bytes ys = Ok b -> a ++ r = b ++ s -> xs = ys /\ r = s.
Proof.
  induction xs as [|x xs IH]; intros [|y ys] a b r s L Hx Hy E; try discriminate.
  { by injection Hx as <-; injection Hy as <-. }
  injection L as L. cbn [postings_bytes] in *. repeat step_ok. subst. rewrite <- !app_assoc in E. repeat read_result_field.
  match goal with Ha : postings_bytes xs = Ok _, Hb : postings_bytes ys = Ok _ |- _ =>
    destruct (IH _ _ _ _ _ L Ha Hb E) as [-> ->] end.
  split; [|done]. f_equal. destruct x, y; cbn in *; congruence.
Qed.

(** What the ledger commitment keeps of a transaction: its postings up to their order. *)
Record same_transaction (t u : LedgerTransactionEvidence) : Prop := mk_same_transaction {
  same_seq : lt_event_seq t = lt_event_seq u;
  same_id : lt_transaction_id t = lt_transaction_id u;
  same_postings : lt_postings t ≡ₚ lt_postings u;
}.

Lemma ledger_bytes_inj xs : forall ys qx qy px py a b,
  length xs = length ys -> ledger_bytes qx px xs = Ok a -> ledger_bytes qy py ys = Ok b -> a = b ->
  Forall2 same_transaction xs ys.
Proof.
  induction xs as [|x xs IH]; intros [|y ys] qx qy px py a b L Hx Hy E; try discriminate; [constructor|].
  injection L as L. cbn [ledger_bytes] in *. repeat step_ok. subst. do 3 read_result_field.
  match goal with Ha : postings_bytes _ = Ok _, Hb : postings_bytes _ = Ok _, Hp : Z.of_nat _ = Z.of_nat _ |- _ =>
    first [ destruct (postings_bytes_inj _ _ _ _ _ _ (Nat2Z.inj _ _ Hp) Ha Hb E) as [Hs Ht]
          | destruct (postings_bytes_inj _ _ _ _ _ _ (Nat2Z.inj _ _ (eq_sym Hp)) Ha Hb E) as [Hs Ht] ] end.
  constructor.
  - split; [congruence..|].
    rewrite <- (py_sorted_perm posting_key (lt_postings x)), <- (py_sorted_perm posting_key (lt_postings y)). by rewrite Hs.
  - by eapply IH.
Qed.

Lemma ledger_proof_bytes_inj xs ys b :
  ledger_proof_bytes xs = Ok b -> ledger_proof_bytes ys = Ok b -> Forall2 same_transaction xs ys.
Proof.
  intros Hx Hy. unfold ledger_proof_bytes in *. repeat step_ok. subst b. strip_result_tag. read_result_field.
  eapply ledger_bytes_inj; try eassumption; [lia|congruence].
Qed.

Lemma result_bytes_inj sid m f s l r sid' m' f' s' l' r' b :
  is_digest m -> is_digest f -> is_digest s -> is_digest l ->
  is_digest m' -> is_digest f' -> is_digest s' -> is_digest l' ->
  result_bytes sid m f s l r = Ok b -> result_bytes sid' m' f' s' l' r' = Ok b ->
  sid = sid' /\ m = m' /\ f = f' /\ s = s' /\ l = l' /\ r = r'.
Proof.
  intros ? ? ? ? ? ? ? ? Hx Hy.
  unfold result_bytes in *. repeat step_ok. subst b. strip_result_tag. repeat read_result_field.
  match goal with Ha : rs_i64_bytes _ = Ok ?a, Hb : rs_i64_bytes _ = Ok ?b, H : ?b = ?a |- _ =>
    destruct (rs_i64_decodable _ _ _ _ [] [] I I Hb Ha (f_equal (fun l => l ++ []) H)) as [? _] end.
  assert (rm_survived r = rm_survived r') by (destruct (rm_survived r), (rm_survived r'); done).
  split_and!; try congruence. destruct r, r'; cbn in *. congruence.
Qed.

(** ** What a proof goes through *)

Definition evidence_made (e : ResultEvidence) : Prop :=
  Forall input_made (inputs e) /\ Forall state_made (state_hashes e).

(** The bytes whose hash is the result hash. *)
Definition result_preimage (sid manifest_hash : string) (e : ResultEvidence) : result bytes :=
  let! manifest_set_hash := manifest_commitment [manifest_hash] in
  let! kernel := kernel_events sid (inputs e) in
  let! state_hashes_hash := state_hash_commitment (state_hashes e) in
  let! ledger_hash := ledger_commitment (ledger_transactions e) in
  result_bytes sid manifest_set_hash (snd kernel) state_hashes_hash ledger_hash (metrics e).

Record proved (sid mh : string) (e : ResultEvidence) (mb : bytes) (evs : list pyval) (fin sb lb rb : bytes) : Prop := mk_proved {
  pv_manifest : manifest_set_bytes [mh] = Ok mb;
  pv_kernel : kernel_loop sid 0 zero_hash (inputs e) = Ok (evs, fin);
  pv_states : state_hash_bytes (state_hashes e) = Ok sb;
  pv_ledger : ledger_proof_bytes (ledger_transactions e) = Ok lb;
  pv_result : result_bytes sid (sha256_hex mb) (hex fin) (sha256_hex sb) (sha256_hex lb) (metrics e) = Ok rb;
}.
Arguments pv_manifest {_ _ _ _ _ _ _ _ _}.
Arguments pv_kernel {_ _ _ _ _ _ _ _ _}.
Arguments pv_states {_ _ _ _ _ _ _ _ _}.
Arguments pv_ledger {_ _ _ _ _ _ _ _ _}.
Arguments pv_result {_ _ _ _ _ _ _ _ _}.

Lemma collision_intro m m' a b : m = Ok a -> m' = Ok b -> bytes_collide a b -> collision m m'.
Proof. intros Ha Hb Hc. exists a, b. exact (conj Ha (conj Hb Hc)). Qed.

Lemma verifier_proof_Ok sid mh e d :
  verifier_proof sid mh e = Ok d ->
  exists mb evs fin sb lb rb, proved sid mh e mb evs fin sb lb rb /\
    d = obj [("verification_version", VStr VERIFICATION_VERSION); ("session_id", VStr sid);
           ("manifest_hashes", VList [VStr mh]); ("manifest_set_hash", VStr (sha256_hex mb));
           ("inputs", VList (map input_json (inputs e))); ("kernel_events", VList evs);
           ("state_hashes", state_hash_json (state_hashes e)); ("state_hashes_hash", VStr (sha256_hex sb));
           ("ledger_transactions", ledger_json (ledger_transactions e)); ("ledger_hash", VStr (sha256_hex lb));
           ("metrics", metrics_json (metrics e)); ("result_hash", VStr (sha256_hex rb))].
Proof.
  unfold verifier_proof, manifest_commitment, kernel_events, state_hash_commitment, ledger_commitment, result_commitment.
  intros H. repeat step_ok. subst.
  match goal with Hk : kernel_loop _ _ _ _ = Ok ?k |- _ => destruct k as [evs fin] end.
  do 6 eexists. split; [split; eassumption|done].
Qed.

Lemma proved_preimage sid mh e mb evs fin sb lb rb :
  proved sid mh e mb evs fin sb lb rb -> result_preimage sid mh e = Ok rb.
Proof.
  intros [Hm Hk Hs Hl Hr].
  unfold result_preimage, manifest_commitment, kernel_events, state_hash_commitment, ledger_commitment.
  by rewrite Hm, Hk, Hs, Hl.
Qed.

(** A collision in the chains of two sessions, or an event that hashes to the start of the chain. *)
Definition kernel_collision (sid : string) (xs : list CanonicalInput) (sid' : string) (ys : list CanonicalInput) : Prop :=
  (exists a b, kernel_preimage sid xs a /\ kernel_preimage sid' ys b /\ bytes_collide a b) \/
  (exists a, (kernel_preimage sid xs a \/ kernel_preimage sid' ys a) /\ sha256 a = zero_hash).

Lemma proved_binding sid mh e mb evs fin sb lb rb sid' mh' e' mb' evs' fin' sb' lb' rb' :
  evidence_made e -> evidence_made e' ->
  proved sid mh e mb evs fin sb lb rb -> proved sid' mh' e' mb' evs' fin' sb' lb' rb' ->
  mb = mb' -> fin = fin' -> sb = sb' -> lb = lb' ->
  (mh = mh' /\ inputs e = inputs e' /\ state_hashes e = state_hashes e' /\
   Forall2 same_transaction (ledger_transactions e) (ledger_transactions e')) \/
  kernel_collision sid (inputs e) sid' (inputs e').
Proof.
  intros [Mi Ms] [Mi' Ms'] [Hm Hk Hs Hl _] [Hm' Hk' Hs' Hl' _] <- <- <- <-.
  destruct (kernel_chain_binds _ _ _ _ _ _ _ Mi Mi' Hk Hk') as [E|[(a & b & Ha & Hb & Hne & Hc)|Hz]].
  - left. split_and!; [by eapply manifest_set_bytes_inj|done|by eapply state_hash_bytes_inj|by eapply ledger_proof_bytes_inj].
  - right; left. exists a, b. split_and!; [done..|]. split; [done|]. unfold sha256_hex. by rewrite Hc.
  - by right; right.
Qed.

(** ** Balanced ledgers *)

(** The sum of the postings of one currency. *)
Definition currency_total (c : string) (ps : list LedgerPostingEvidence) : Z :=
  fold_right Z.add 0 (map lp_amount_minor (List.filter (fun p => String.eqb c (lp_currency p)) ps)).

Definition balanced (t : LedgerTransactionEvidence) : Prop := forall c, currency_total c (lt_postings t) = 0.

(** [totals.get(c, 0)]. *)
Definition total_of (c : string) (l : list (string * Z)) : Z :=
  match List.find (fun q => String.eqb c (fst q)) l with Some q => snd q | None => 0 end.

Lemma total_of_add c k a l : total_of c (add_total k a l) = total_of c l + if String.eqb c k then a else 0.
Proof.
  unfold total_of. induction l as [|[k' t] l IH]; cbn [add_total List.find fst snd].
  - destruct (String.eqb c k); cbn; lia.
  - destruct (String.eqb_spec k k') as [->|Hne]; cbn [List.find fst snd].
    + destruct (String.eqb_spec c k'); cbn; lia.
    + destruct (String.eqb_spec c k') as [->|Hc]; [|done]. cbn.
      destruct (String.eqb_spec k' k); [congruence|lia].
Qed.

Lemma add_total_keys k a l x : x ∈ map fst (add_total k a l) <-> x = k \/ x ∈ map fst l.
Proof.
  induction l as [|[k' t] l IH]; cbn [add_total map fst].
  - rewrite list_elem_of_singleton. split; [by left|by intros [|?%elem_of_nil]].
  - destruct (String.eqb_spec k k') as [->|Hne]; cbn [map fst]; rewrite !elem_of_cons; [tauto|]. rewrite IH. tauto.
Qed.

Lemma add_total_NoDup k a l : NoDup (map fst l) -> NoDup (map fst (add_total k a l)).
Proof.
  induction l as [|[k' t] l IH]; cbn [add_total map fst]; intros H.
  - apply NoDup_singleton.
  - apply NoDup_cons in H as [H1 H2]. destruct (String.eqb_spec k k') as [->|Hne]; cbn [map fst]; apply NoDup_cons; [done|].
    split; [|by apply IH]. rewrite add_total_keys. intros [->|?]; done.
Qed.

Lemma totals_spec ps acc :
  NoDup (map fst acc) ->
  let r := fold_left (fun a p => add_total (lp_currency p) (lp_amount_minor p) a) ps acc in
  NoDup (map fst r) /\ forall c, total_of c r = total_of c acc + currency_total c ps.
Proof.
  revert acc. induction ps as [|p ps IH]; intros acc Hacc; cbn [fold_left].
  - split; [done|]. intros c. unfold currency_total. cbn. lia.
  - destruct (IH _ (add_total_NoDup (lp_currency p) (lp_amount_minor p) acc Hacc)) as [Hn Ht]. split; [done|].
    intros c. rewrite Ht, total_of_add. unfold currency_total. cbn [List.filter].
    destruct (String.eqb c (lp_currency p)); cbn [map fold_right]; lia.
Qed.

Lemma find_NoDup_key l c t : NoDup (map fst l) -> (c, t) ∈ l -> total_of c l = t.
Proof.
  unfold total_of. induction l as [|[k a] l IH]; intros Hn Hin; [by apply elem_of_nil in Hin|].
  cbn [map fst] in Hn. apply NoDup_cons in Hn as [H1 H2]. cbn [List.find fst].
  apply elem_of_cons in Hin as [[= -> ->]|Hin]; [by rewrite String.eqb_refl|].
  destruct (String.eqb_spec c k) as [->|]; [|by apply IH].
  exfalso. apply H1. apply elem_of_mapl. by exists (k, t).
Qed.

Lemma require_balanced_Ok t : require_balanced t = Ok tt <-> balanced t.
Proof.
  unfold require_balanced, balanced, totals. rewrite raise_if_Ok.
  destruct (totals_spec (lt_postings t) [] (NoDup_nil_2)) as [Hn Ht].
  set (r := fold_left _ _ _) in *.
  assert (forall c, total_of c r = currency_total c (lt_postings t)) as Hc by exact Ht. clear Ht. split.
  - intros H c. rewrite <- Hc. unfold total_of. destruct (List.find _ r) as [q|] eqn:E; [|done].
    apply find_elem_of in E as [E _]. destruct (Z.eqb_spec (snd q) 0) as [|Hq]; [done|].
    exfalso. rewrite <- not_true_iff_false in H. apply H. apply existsb_exists. exists q. split; [by apply list_elem_of_In|].
    by rewrite (proj2 (Z.eqb_neq _ _)).
  - intros H. rewrite <- not_true_iff_false. intros ((c & z) & Hin%list_elem_of_In & Hz)%existsb_exists.
    apply (find_NoDup_key _ _ _ Hn) in Hin. rewrite Hc, H in Hin. cbn in Hz. by subst z.
Qed.

(** What the constructors check of a transaction and its postings, with a list shorter than 2^64. *)
Definition transaction_made (t : LedgerTransactionEvidence) : Prop :=
  LedgerTransactionEvidence_post_init t = Ok tt /\
  Forall (fun p => LedgerPostingEvidence_post_init p = Ok tt) (lt_postings t) /\
  Z.of_nat (length (lt_postings t)) < 2 ^ 64.

Lemma rs_u64_total n : 0 <= n < 2 ^ 64 -> rs_u64 n = Ok (be_bytes 8 n).
Proof. intros H. unfold rs_u64, U64_MAX. by rewrite (proj2 (orb_false_iff _ _)) by lia. Qed.

Lemma length_utf8_le s : (length (utf8 s) <= 2 * String.length s)%nat.
Proof.
  Transparent utf8. induction s as [|c s IH]; [done|]. cbn [utf8 String.length]. rewrite length_app.
  unfold utf8_char. destruct (code c <? 128); cbn [length]; lia.
Qed.
#[local] Opaque utf8.

Lemma rs_text_total v : identity v = Ok tt -> exists b, rs_text v = Ok b.
Proof.
  unfold identity. intros H%raise_if_Ok. bools. unfold rs_text, rs_bytes. pose proof (length_utf8_le v) as L.
  unfold py_len in *. rewrite rs_u64_total by lia. by eexists.
Qed.

Lemma rs_i64_total n : model_i64 n = Ok tt -> rs_i64_bytes n = Ok (be_bytes 8 n).
Proof. unfold model_i64, rs_i64_bytes, rs_i64. intros H%raise_if_Ok. by rewrite H. Qed.

Lemma postings_bytes_total ps :
  Forall (fun p => LedgerPostingEvidence_post_init p = Ok tt) ps -> exists b, postings_bytes ps = Ok b.
Proof.
  induction 1 as [|p ps Hp _ [b Hb]]; [by eexists|]. unfold LedgerPostingEvidence_post_init in Hp. repeat step_ok.
  repeat match goal with x : unit |- _ => destruct x end.
  destruct (rs_text_total (lp_currency p)) as [c Hc]; [done|]. destruct (rs_text_total (lp_account p)) as [a Ha]; [done|].
  cbn [postings_bytes]. rewrite Hc, Ha, Hb, rs_i64_total by done. by eexists.
Qed.

Lemma sorted_postings_total t :
  transaction_made t -> exists b, postings_bytes (py_sorted posting_key (lt_postings t)) = Ok b.
Proof. intros (_ & H & _). apply postings_bytes_total. by rewrite py_sorted_perm. Qed.

(** The transactions a ledger may continue with after [seen] and [prior]. *)
Definition ledger_from (seen : list string) (prior : option Z) (ts : list LedgerTransactionEvidence) : Prop :=
  NoDup (map lt_transaction_id ts) /\ (forall t, t ∈ ts -> lt_transaction_id t ∉ seen) /\
  StronglySorted Z.le (map lt_event_seq ts) /\ (forall t p, t ∈ ts -> prior = Some p -> p <= lt_event_seq t) /\
  Forall balanced ts.

Lemma ledger_from_cons seen prior t ts :
  ledger_from seen prior (t :: ts) <->
  (lt_transaction_id t ∉ seen) /\ (forall p, prior = Some p -> p <= lt_event_seq t) /\ balanced t /\
  ledger_from (lt_transaction_id t :: seen) (Some (lt_event_seq t)) ts.
Proof.
  unfold ledger_from. cbn [map]. rewrite NoDup_cons, Forall_cons. split.
  - intros ((Hid & Hn) & Hs & Hsort & Hp & Hb & Hbs). apply StronglySorted_inv in Hsort as [Hsort Hle].
    rewrite Forall_forall in Hle. split_and!; [by apply Hs, list_elem_of_here|by intros p; apply Hp, list_elem_of_here|done..| |done| |done].
    + intros u Hu [E|Hin]%elem_of_cons; [|by eapply Hs; [by apply list_elem_of_further|]].
      apply Hid. rewrite <- E. apply elem_of_mapl. by exists u.
    + intros u p Hu [= <-]. apply Hle, elem_of_mapl. by exists u.
  - intros (Hid & Hp & Hb & Hn & Hs & Hsort & Hq & Hbs). split_and!; [|done| | | |done|done].
    + intros (u & E & Hu)%elem_of_mapl. apply (Hs u Hu). rewrite E. apply list_elem_of_here.
    + intros u [->|Hu]%elem_of_cons; [done|]. intros Hin. apply (Hs u Hu). by apply list_elem_of_further.
    + constructor; [done|]. apply Forall_forall. intros z (u & -> & Hu)%elem_of_mapl. by eapply Hq.
    + intros u p [->|Hu]%elem_of_cons Ep; [by apply Hp|]. specialize (Hp p Ep). specialize (Hq u _ Hu eq_refl). lia.
Qed.

Lemma ledger_bytes_sound ts : forall seen prior b, ledger_bytes seen prior ts = Ok b -> ledger_from seen prior ts.
Proof.
  induction ts as [|t ts IH]; intros seen prior b H.
  { unfold ledger_from. cbn [map]. split_and!; try constructor; intros; exfalso; by eapply elem_of_nil. }
  rewrite ledger_from_cons. cbn [ledger_bytes] in H. repeat step_ok. bools. subst.
  repeat match goal with x : unit |- _ => destruct x end.
  split_and!; [done| |by apply require_balanced_Ok|by eapply IH]. intros p ->. lia.
Qed.

Lemma ledger_bytes_complete ts : forall seen prior,
  Forall transaction_made ts -> ledger_from seen prior ts -> exists b, ledger_bytes seen prior ts = Ok b.
Proof.
  induction ts as [|t ts IH]; intros seen prior Hm H; [by eexists|].
  apply Forall_cons in Hm as [Ht Hts]. apply ledger_from_cons in H as (Hid & Hp & Hb & H).
  destruct (IH _ _ Hts H) as [bs Hbs]. cbn [ledger_bytes].
  rewrite (proj2 (raise_if_Ok _ _ tt)) by (by apply bool_decide_eq_false). cbn [rbind].
  rewrite (proj2 (raise_if_Ok _ _ tt)).
  2: { destruct prior as [p|]; [|done]. specialize (Hp p eq_refl). lia. }
  cbn [rbind]. rewrite (proj2 (require_balanced_Ok t) Hb). cbn [rbind].
  destruct (sorted_postings_total t Ht) as [ps Hps], Ht as (Hpost & _ & Hlen).
  unfold LedgerTransactionEvidence_post_init in Hpost. repeat step_ok.
  repeat match goal with x : unit |- _ => destruct x end.
  match goal with H : identity _ = Ok tt |- _ => destruct (rs_text_total _ H) as [c Hc] end.
  match goal with H : model_u64 _ = Ok tt |- _ => unfold model_u64, U64_MAX in H; apply raise_if_Ok in H end. bools.
  rewrite length_py_sorted, (rs_u64_total (lt_event_seq t)), Hc, rs_u64_total, Hps, Hbs by lia. by eexists.
Qed.

Definition ledger_valid (ts : list LedgerTransactionEvidence) : Prop :=
  NoDup (map lt_transaction_id ts) /\ StronglySorted Z.le (map lt_event_seq ts) /\ Forall balanced ts.

Lemma ledger_from_valid ts : ledger_from [] None ts <-> ledger_valid ts.
Proof.
  unfold ledger_from, ledger_valid. split; [tauto|]. intros (? & ? & ?).
  split_and!; [done|by intros ? _ ?%elem_of_nil|done|done|done].
Qed.

Lemma ledger_commitment_sound ts h : ledger_commitment ts = Ok h -> ledger_valid ts.
Proof.
  unfold ledger_commitment, ledger_proof_bytes. intros H. repeat step_ok. subst.
  apply ledger_from_valid. by eapply ledger_bytes_sound.
Qed.

(** A ledger commitment exists exactly for a valid ledger: among transactions that pass their
    constructors, [_ledger_commitment] succeeds if and only if the transaction ids are distinct, the
    event sequences never decrease, and every transaction balances in every currency. *)
Theorem ledger_commitment_exact ts :
  Forall transaction_made ts -> Z.of_nat (length ts) < 2 ^ 64 ->
  is_ok (ledger_commitment ts) = true <-> ledger_valid ts.
Proof.
  intros Hm Hl. split.
  - intros H. destruct (ledger_commitment ts) as [h|] eqn:E; [|discriminate]. by eapply ledger_commitment_sound.
  - intros H%ledger_from_valid. destruct (ledger_bytes_complete _ _ _ Hm H) as [b Hb].
    unfold ledger_commitment, ledger_proof_bytes. by rewrite rs_u64_total, Hb by lia.
Qed.

Lemma Some_eq_inj {A} (a b : A) : Some a = Some b -> a = b.
Proof. congruence. Qed.

(** C22. The result hash binds the run: two verifier proofs with the same result hash are of the same
    session and manifest, the same canonical inputs in the same order, the same state hashes, the same
    ledger up to the order of the postings within a transaction, and the same metrics, unless the two
    runs exhibit a SHA-256 collision or an event that hashes to the zero start of the kernel chain. *)
Theorem result_commitment_binds sid mh e d sid' mh' e' d' :
  evidence_made e -> evidence_made e' ->
  verifier_proof sid mh e = Ok d -> verifier_proof sid' mh' e' = Ok d' ->
  dict_get "result_hash" d = dict_get "result_hash" d' ->
  (sid = sid' /\ mh = mh' /\ inputs e = inputs e' /\ state_hashes e = state_hashes e' /\
   Forall2 same_transaction (ledger_transactions e) (ledger_transactions e') /\ metrics e = metrics e') \/
  collision (result_preimage sid mh e) (result_preimage sid' mh' e') \/
  collision (manifest_set_bytes [mh]) (manifest_set_bytes [mh']) \/
  kernel_collision sid (inputs e) sid' (inputs e') \/
  collision (state_hash_bytes (state_hashes e)) (state_hash_bytes (state_hashes e')) \/
  collision (ledger_proof_bytes (ledger_transactions e)) (ledger_proof_bytes (ledger_transactions e')).
Proof.
  intros M M' (mb & evs & fin & sb & lb & rb & P & ->)%verifier_proof_Ok
    (mb' & evs' & fin' & sb' & lb' & rb' & P' & ->)%verifier_proof_Ok Hh.
  apply (f_equal (option_map (fun v => match v with VStr s => s | _ => "" end))) in Hh.
  change (Some (sha256_hex rb) = Some (sha256_hex rb')) in Hh. apply Some_eq_inj in Hh.
  destruct (sha256_binds _ _ Hh) as [Hr|Hr].
  2: { right; left. exact (collision_intro _ _ _ _ (proved_preimage _ _ _ _ _ _ _ _ _ P) (proved_preimage _ _ _ _ _ _ _ _ _ P') Hr). }
  pose proof (pv_result P) as R. pose proof (pv_result P') as R'.
  rewrite <- Hr in R'.
  assert (is_digest (hex fin) /\ is_digest (hex fin')) as [D D'].
  { split; eexists; (split; [|reflexivity]); [exact (kernel_final_length _ _ _ _ (pv_kernel P))|
      exact (kernel_final_length _ _ _ _ (pv_kernel P'))]. }
  destruct (result_bytes_inj _ _ _ _ _ _ _ _ _ _ _ _ _
    (sha256_hex_digest mb) D (sha256_hex_digest sb) (sha256_hex_digest lb)
    (sha256_hex_digest mb') D' (sha256_hex_digest sb') (sha256_hex_digest lb') R R') as (Es & Em & Ef & Est & El & Er). apply hex_inj in Ef.
  destruct (sha256_binds _ _ Em) as [Em'|Em']; [|right; right; left; exact (collision_intro _ _ _ _ (pv_manifest P) (pv_manifest P') Em')].
  destruct (sha256_binds _ _ Est) as [Est'|Est']; [|do 4 right; left; exact (collision_intro _ _ _ _ (pv_states P) (pv_states P') Est')].
  destruct (sha256_binds _ _ El) as [El'|El']; [|do 5 right; exact (collision_intro _ _ _ _ (pv_ledger P) (pv_ledger P') El')].
  destruct (proved_binding _ _ _ _ _ _ _ _ _ _ _ _ _ _ _ _ _ _ M M' P P' Em' Ef Est' El') as [(? & ? & ? & ?)|?];
    [by left|by do 3 right; left].
Qed.

(** ** Examples *)

Module Demo.

Definition sha_a : string := sha256_hex (utf8 "a").
Definition demo_input : CanonicalInput := mk_canonical_input "session-1" 0 0 1000 "BAR_UPDATE" "00ff".
Definition fee (l : list LedgerPostingEvidence) : LedgerTransactionEvidence := mk_transaction 0 "tx-1" l.
Definition postings : list LedgerPostingEvidence :=
  [mk_posting "cash" (-250) "USD"; mk_posting "fees" 250 "USD"; mk_posting "cash" 3 "BTC"; mk_posting "coins" (-3) "BTC"].
Definition run (l : list LedgerPostingEvidence) : ResultEvidence :=
  mk_evidence [mk_metadata "cmd-1" 1000 0] [demo_input] [mk_state_hash 0 sha_a] [fee l] (mk_metrics true 10 (-20) 30 40) [].
Definition proof_of (e : ResultEvidence) : pydict :=
  match verifier_proof "session-1" sha_a e with Ok d => d | Raise _ => [] end.

End Demo.

#[local] Transparent be_bytes utf8.

Lemma demo_run_made l : evidence_made (Demo.run l).
Proof. split; repeat constructor; vm_compute; reflexivity. Qed.

Lemma demo_proof l : is_ok (verifier_proof "session-1" Demo.sha_a (Demo.run l)) = true ->
  verifier_proof "session-1" Demo.sha_a (Demo.run l) = Ok (Demo.proof_of (Demo.run l)).
Proof. unfold Demo.proof_of. by destruct (verifier_proof _ _ _). Qed.

Lemma result_commitment_binds_witness :
  let e := Demo.run Demo.postings in let e' := Demo.run (rev Demo.postings) in
  dict_get "result_hash" (Demo.proof_of e) = dict_get "result_hash" (Demo.proof_of e') /\
  ((ledger_transactions e <> ledger_transactions e' /\
    Forall2 same_transaction (ledger_transactions e) (ledger_transactions e')) \/
   collision (result_preimage "session-1" Demo.sha_a e) (result_preimage "session-1" Demo.sha_a e') \/
   collision (manifest_set_bytes [Demo.sha_a]) (manifest_set_bytes [Demo.sha_a]) \/
   kernel_collision "session-1" (inputs e) "session-1" (inputs e') \/
   collision (state_hash_bytes (state_hashes e)) (state_hash_bytes (state_hashes e')) \/
   collision (ledger_proof_bytes (ledger_transactions e)) (ledger_proof_bytes (ledger_transactions e'))).
Proof.
  intros e e'.
  assert (dict_get "result_hash" (Demo.proof_of e) = dict_get "result_hash" (Demo.proof_of e')) as Hh
    by (vm_compute; reflexivity).
  split; [exact Hh|].
  destruct (result_commitment_binds _ _ _ _ _ _ _ _ (demo_run_made _) (demo_run_made _)
    (demo_proof Demo.postings ltac:(vm_compute; reflexivity))
    (demo_proof (rev Demo.postings) ltac:(vm_compute; reflexivity)) Hh) as [(_ & _ & _ & _ & H & _)|H];
    [left; split; [discriminate|exact H]|right; exact H].
Defined.

Lemma ledger_commitment_exact_witness :
  is_ok (ledger_commitment [Demo.fee Demo.postings]) = true /\ balanced (Demo.fee Demo.postings).
Proof.
  assert (is_ok (ledger_commitment [Demo.fee Demo.postings]) = true) as H by (vm_compute; reflexivity).
  split; [exact H|].
  assert (Forall transaction_made [Demo.fee Demo.postings]) as Hm.
  { repeat constructor; vm_compute; reflexivity. }
  destruct (proj1 (ledger_commitment_exact [Demo.fee Demo.postings] Hm eq_refl) H) as (_ & _ & Hb).
  exact (Forall_inv Hb).
Defined.
