(* ===== verification/Results.v ===== *)
(** * Results: the store and the service ([apps/api/.../results/store.py], [service.py], [router.py])

    [authoritative] reads the persisted facts of a session, [finalize] checks them against the
    completion evidence and freezes one result per session, [get] rereads it after checking its
    hashes. *)

From S2P Require Import Prelude Sort PyStr Bytes PyJson JsonParse Catalog Db SessionModel Session Commands CommitmentModel Commitment ResultModel.
From Stdlib Require Import Ascii Strings.Byte.
From Stdlib Require String.

(** ** [str] of a stored value

    [str(value)] is the text itself for a string and [repr(value)] for the other JSON values. *)

Definition printable (c : ascii) : bool :=
  negb ((code c <? 32) || ((127 <=? code c) && (code c <=? 160)) || (code c =? 173)).

Definition repr_char (quote c : ascii) : string :=
  if (code c =? code quote) || (code c =? 92) then String "092" (String c EmptyString)
  else if code c =? 9 then "\t" else if code c =? 10 then "\n" else if code c =? 13 then "\r"
  else if printable c then String c EmptyString
  else "\x" +:+ String (hex_digit (code c / 16)) (String (hex_digit (code c mod 16)) EmptyString).

Fixpoint repr_chars (quote : ascii) (s : string) : string :=
  match s with EmptyString => EmptyString | String c s' => repr_char quote c +:+ repr_chars quote s' end.

(** The quote is an apostrophe unless the text holds one and no double quote. *)
Definition py_repr_str (s : string) : string :=
  let quote := if any_char (in_chars [39]) s && negb (any_char (in_chars [34]) s) then "034"%char else "039"%char in
  String quote (repr_chars quote s +:+ String quote EmptyString).

Fixpoint py_repr (v : pyval) : string :=
  match v with
  | VNone => "None"
  | VBool b => if b then "True" else "False"
  | VInt z => str_Z z
  | VFloat r => r
  | VStr s => py_repr_str s
  | VList l => "[" +:+ join ", " (map py_repr l) +:+ "]"
  | VDict d =>
      "{" +:+ join ", " (map (fun p => match fst p with KStr k => py_repr_str k | KOther z => str_Z z end
                                       +:+ ": " +:+ py_repr (snd p)) d) +:+ "}"
  | VOther => ""                       (* not a JSON value: [canonical_hash] rejects it before *)
  end.

Definition py_str (v : pyval) : string := match v with VStr s => s | _ => py_repr v end.

(** ** Authoritative reads *)

Record AuthoritativeResultData := mk_authoritative {
  au_ruleset : pydict;
  au_commands : list pydict;
  au_domain_events : list pydict;
  au_commitments : list pydict;
}.

Definition require_principal (sid principal : string) : ST Db unit := fun db =>
  (match sessions db !! sid with
   | Some row => raise_if (negb (String.eqb (s_principal_id row) principal)) (result_error RS_SESSION_UNAVAILABLE)
   | None => Raise (result_error RS_SESSION_UNAVAILABLE)
   end, db).

Definition ruleset_value (rid : string) (db : Db) : result pydict :=
  let! row := of_option persisted_conflict (rulesets db !! rid) in
  let! body := mapping (rs_body row) in
  Ok (obj [("ruleset_id", VStr rid); ("ruleset_version", VStr (rs_version row)); ("ruleset_hash", VStr (rs_hash row));
           ("body", VDict body)]).

(** [... ORDER BY expected_session_version, command_id]. *)
Definition result_command_rows (sid : string) (db : Db) : list command_row :=
  py_sorted (fun r => (c_expected_session_version r, c_command_id r))
    (List.filter (fun r => String.eqb (c_session_id r) sid) (commands db)).

Definition command_value (r : command_row) : result pydict :=
  let! payload := mapping (c_payload r) in
  Ok (obj [("command_id", VStr (c_command_id r)); ("idempotency_key", VStr (c_idempotency_key r));
           ("payload_hash", VStr (c_payload_hash r)); ("expected_session_version", VInt (c_expected_session_version r));
           ("accepted_at_ns", VInt (c_accepted_at_ns r)); ("payload", VDict payload)]).

Definition event_value (r : event_row) : result pydict :=
  let! payload := mapping (e_payload r) in
  Ok (obj [("event_seq", VInt (e_event_seq r)); ("logical_ts_ns", VInt (e_logical_ts_ns r));
           ("event_type", VStr (e_event_type r)); ("causation_id", VStr (e_causation_id r));
           ("correlation_id", VStr (e_correlation_id r)); ("payload", VDict payload);
           ("prior_event_hash", VStr (e_prior_event_hash r)); ("current_event_hash", VStr (e_current_event_hash r))]).

(** [... ORDER BY kind, commitment_id]. *)
Definition result_commitment_rows (sid : string) (db : Db) : list (string * commitment_row) :=
  py_sorted (fun p => (cm_kind (snd p), fst p))
    (List.filter (fun p => String.eqb (cm_session_id (snd p)) sid) (map_to_list (commitments db))).

Definition commitment_value (p : string * commitment_row) : result pydict :=
  let r := snd p in
  let! metadata := mapping (cm_metadata r) in
  Ok (obj [("commitment_id", VStr (fst p)); ("kind", VStr (cm_kind r)); ("algorithm_version", VStr (cm_algorithm_version r));
           ("commitment_hash", VStr (cm_commitment_hash r)); ("setup_hash", VStr (cm_setup_hash r));
           ("eligible_set_hash", VStr (cm_eligible_set_hash r)); ("metadata", VDict metadata);
           ("revealed_secret", match cm_revealed_secret r with None => VNone | Some s => VStr s end)]).

Definition authoritative (sid principal rid : string) : ST Db AuthoritativeResultData :=
  require_principal sid principal ;;;
  fun db =>
    (let! ruleset := ruleset_value rid db in
     let! cs := rmap command_value (result_command_rows sid db) in
     let! es := rmap event_value (session_events sid db) in
     let! ms := rmap commitment_value (result_commitment_rows sid db) in
     Ok (mk_authoritative ruleset cs es ms), db).

(** ** Stored results *)

Record FrozenResult := mk_frozen {
  fr_session_id : string;
  fr_result_hash : string;
  fr_bundle_hash : string;
  fr_proof_hash : string;
  fr_export_hash : string;
  fr_created_at_ns : Z;
  fr_bundle : pydict;
  fr_proof : pydict;
  fr_export : pydict;
  fr_replayed : bool;
}.

Definition materialize_result (sid : string) (row : result_row) (replayed : bool) : result FrozenResult :=
  let! bundle := mapping (rb_bundle row) in
  let! proof := mapping (rb_proof row) in
  let! export := mapping (rb_export row) in
  let! bundle_hash := canonical_hash (VDict bundle) in
  let! _ := raise_if (negb (String.eqb bundle_hash (rb_bundle_hash row))) persisted_conflict in
  let! proof_hash := canonical_hash (VDict proof) in
  let! _ := raise_if (negb (String.eqb proof_hash (rb_proof_hash row))) persisted_conflict in
  let! export_hash := canonical_hash (VDict export) in
  let! _ := raise_if (negb (String.eqb export_hash (rb_export_hash row))) persisted_conflict in
  let! _ := raise_if (negb (String.eqb (rb_result_hash row) (py_str (default VNone (dict_get "result_hash" bundle)))))
              persisted_conflict in
  Ok (mk_frozen sid (rb_result_hash row) (rb_bundle_hash row) (rb_proof_hash row) (rb_export_hash row)
        (rb_created_at_ns row) bundle proof export replayed).

Definition result_database_error (e : exn) : exn :=
  match e with IntegrityError => result_error RS_DATABASE_CONFLICT | e => e end.

Definition frozen_row (r : FrozenResult) : result_row :=
  mk_result_row (fr_result_hash r) (fr_bundle_hash r) (fr_proof_hash r) (fr_export_hash r) (fr_created_at_ns r)
    (VDict (fr_bundle r)) (VDict (fr_proof r)) (VDict (fr_export r)).

Definition freeze (r : FrozenResult) (principal : string) : ST Db FrozenResult :=
  reraise result_database_error (transaction (
    require_principal (fr_session_id r) principal ;;;
    existing <- gets (fun db => result_bundles db !! fr_session_id r) ;;
    match existing with
    | Some row =>
        materialized <- lift (materialize_result (fr_session_id r) row true) ;;
        lift (raise_if (negb (String.eqb (fr_export_hash materialized) (fr_export_hash r)))
                (result_error RS_RESULT_CONFLICT)) ;;;
        sret materialized
    | None => insert_result (fr_session_id r) (frozen_row r) ;;; sret r
    end)).

Definition get_result (sid principal : string) : ST Db FrozenResult :=
  require_principal sid principal ;;;
  row <- gets (fun db => result_bundles db !! sid) ;;
  match row with
  | None => sraise (result_error RS_RESULT_NOT_FOUND)
  | Some row => lift (materialize_result sid row false)
  end.

(** ** Stored fields *)

Definition rs_string_field (fields : pydict) (name : string) : result string :=
  match dict_get name fields with
  | Some (VStr s) => if is_empty s then Raise persisted_conflict else Ok s
  | _ => Raise persisted_conflict
  end.
Definition rs_int_field (fields : pydict) (name : string) : result Z :=
  match dict_get name fields with Some (VInt z) => Ok z | _ => Raise persisted_conflict end.
Definition sha_error (e : exn) : exn := match e with ResultServiceError _ => persisted_conflict | e => e end.
Definition rs_sha_field (fields : pydict) (name : string) : result string :=
  let! value := rs_string_field fields name in catch_res sha_error (validated_sha value).
Definition rs_metadata_string (fields : pydict) (name : string) : result string :=
  match dict_get name fields with Some (VStr s) => Ok s | _ => Raise persisted_conflict end.
Definition rs_metadata_sha (fields : pydict) (name : string) : result string :=
  let! value := rs_metadata_string fields name in catch_res sha_error (validated_sha value).
Definition rs_metadata_int (fields : pydict) (name : string) : result Z :=
  let! value := rs_metadata_string fields name in
  let! _ := raise_if (is_empty value || starts_with "+" value || leading_zero value) persisted_conflict in
  let! _ := raise_if (negb (py_isascii value) || negb (py_isdigit value)) persisted_conflict in
  let! parsed := py_int value in
  let! _ := raise_if (U64_MAX <? parsed) persisted_conflict in
  Ok parsed.

Definition object_field (row : pydict) (name : string) : result pydict :=
  mapping (default VNone (dict_get name row)).

(** ** The service *)

Fixpoint unique_metadata (ids : list string) (arrivals : list Z) (metadata : list CommandReplayMetadata) : result unit :=
  match metadata with
  | [] => Ok tt
  | m :: ms =>
      let! _ := raise_if (bool_decide (mt_command_id m ∈ ids) || bool_decide (mt_arrival_seq m ∈ arrivals)) invalid in
      unique_metadata (mt_command_id m :: ids) (mt_arrival_seq m :: arrivals) ms
  end.

(** [set(a) == set(b)]. *)
Definition same_set (a b : list string) : bool := bool_decide (list_to_set a =@{gset string} list_to_set b).

Definition project_command (sid principal : string) (metadata : list CommandReplayMetadata) (row : pydict)
    : result (Z * pydict) :=
  let! command_id := rs_string_field row "command_id" in
  let! item := of_option KeyError (List.find (fun m => String.eqb (mt_command_id m) command_id) metadata) in
  let! payload := object_field row "payload" in
  let! key := rs_string_field row "idempotency_key" in
  let! accepted := rs_int_field row "accepted_at_ns" in
  let! expected := rs_int_field row "expected_session_version" in
  let! payload_hash := rs_sha_field row "payload_hash" in
  Ok (mt_arrival_seq item,
      obj [("schema_version", VStr SCHEMA_VERSION); ("command_id", VStr command_id); ("idempotency_key", VStr key);
           ("session_id", VStr sid); ("principal_id", VStr principal); ("accepted_at_ns", VStr (str_Z accepted));
           ("logical_ts_ns", VStr (str_Z (mt_logical_ts_ns item))); ("arrival_seq", VStr (str_Z (mt_arrival_seq item)));
           ("expected_session_version", VStr (str_Z expected)); ("payload", VDict payload);
           ("payload_hash", VStr payload_hash)]).

Definition result_commands (sid principal : string) (rows : list pydict) (metadata : list CommandReplayMetadata)
    : result (list pydict) :=
  let! _ := unique_metadata [] [] metadata in
  let! row_ids := rmap (fun row => rs_string_field row "command_id") rows in
  let! _ := raise_if (negb (same_set row_ids (map mt_command_id metadata))) invalid in
  let! projected := rmap (project_command sid principal metadata) rows in
  Ok (map snd (py_sorted fst projected)).

Fixpoint result_events (sid : string) (prior_seq : option Z) (prior_hash : option string) (rows : list pydict)
    : result (list pydict) :=
  match rows with
  | [] => Ok []
  | row :: rows' =>
      let! event_seq := rs_int_field row "event_seq" in
      let! current_hash := rs_sha_field row "current_event_hash" in
      let! declared_prior := rs_sha_field row "prior_event_hash" in
      let! _ := raise_if (match prior_seq with Some p => event_seq <=? p | None => false end) persisted_conflict in
      let! _ := raise_if (match prior_hash with Some h => negb (String.eqb declared_prior h) | None => false end)
                  persisted_conflict in
      let! payload := object_field row "payload" in
      let! logical := rs_int_field row "logical_ts_ns" in
      let! event_type := rs_string_field row "event_type" in
      let! causation := rs_string_field row "causation_id" in
      let! correlation := rs_string_field row "correlation_id" in
      let! rest := result_events sid (Some event_seq) (Some current_hash) rows' in
      Ok (obj [("schema_version", VStr SCHEMA_VERSION); ("session_id", VStr sid); ("event_seq", VStr (str_Z event_seq));
               ("logical_ts_ns", VStr (str_Z logical)); ("event_type", VStr event_type); ("causation_id", VStr causation);
               ("correlation_id", VStr correlation); ("payload", VDict payload); ("prior_event_hash", VStr declared_prior);
               ("current_event_hash", VStr current_hash)] :: rest)
  end.

Definition selection_setup (s : CommittedSetup) : result SelectionSetup :=
  let setup := mk_selection_setup (cs_instrument_id s) (cs_ruleset_hash s) (tier_value (cs_execution_tier s))
    (cs_warmup_ns s) (cs_duration_ns s) (visibility_value (cs_visibility_mode s))
    (sorted_values capability_value (cs_required_capabilities s))
    (sorted_values redistribution_value (cs_allowed_redistribution s)) (cs_allow_degraded s) in
  let! _ := SelectionSetup_post_init setup in
  Ok setup.

(** [except (ValueError, RuntimeError)]; [CommitmentVerificationError] is a [RuntimeError]. *)
Definition verify_error (e : exn) : exn :=
  match e with ValueError | RuntimeError | CommitmentVerificationError => invalid | e => e end.

(** The completion proof rebuilt from a stored commitment, and its player nonce. *)
Definition stored_proof (row : pydict) (commitment_hash : string) : result (CompletionProof * string) :=
  let! algorithm := rs_string_field row "algorithm_version" in
  let! _ := raise_if (negb (String.eqb algorithm ALGORITHM_VERSION)) persisted_conflict in
  let! secret := match dict_get "revealed_secret" row with
                 | Some (VStr s) => if py_len s =? 64 then Ok s else Raise invalid
                 | _ => Raise invalid
                 end in
  let! metadata := match dict_get "metadata" row with Some (VDict d) => Ok d | _ => Raise persisted_conflict end in
  let! nonce := rs_metadata_string metadata "player_nonce_hex" in
  let! setup_hash := rs_sha_field row "setup_hash" in
  let! eligible := rs_sha_field row "eligible_set_hash" in
  let! index := rs_metadata_int metadata "selected_index" in
  let! counter := rs_metadata_int metadata "draw_counter" in
  let! eid := rs_metadata_string metadata "selected_episode_id" in
  let! manifest := rs_metadata_sha metadata "selected_manifest_hash" in
  let! play_start := rs_metadata_int metadata "selected_play_start_ns" in
  let! play_end := rs_metadata_int metadata "selected_play_end_ns" in
  let episode := mk_episode eid manifest play_start play_end in
  let! _ := EligibleEpisode_post_init episode in
  Ok (mk_proof ALGORITHM_VERSION commitment_hash setup_hash eligible secret nonce index counter episode, nonce).

Fixpoint commitment_exports (setup : CommittedSetup) (episodes : list EligibleEpisode) (rows : list pydict)
    : result (list string * list string) :=
  match rows with
  | [] => Ok ([], [])
  | row :: rows' =>
      let! commitment_hash := rs_sha_field row "commitment_hash" in
      let! kind := rs_string_field row "kind" in
      if String.eqb kind "EPISODE_SELECTION" then
        let! proof := stored_proof row commitment_hash in
        let! _ := raise_if (match episodes with [] => true | _ => false end) invalid in
        let! _ := catch_res verify_error
          (let! s := selection_setup setup in verify_completion_proof s episodes (fst proof)) in
        let! rest := commitment_exports setup episodes rows' in
        Ok (commitment_hash :: fst rest, snd proof :: snd rest)
      else
        let! rest := commitment_exports setup episodes rows' in
        Ok (commitment_hash :: fst rest, snd rest)
  end.

Definition unavailable (e : exn) : exn :=
  match e with SessionLifecycleError _ => result_error RS_SESSION_UNAVAILABLE | e => e end.

Definition completed_session (sid principal : string) : ST Db SessionRecord :=
  s <- reraise unavailable (get_session sid principal) ;;
  lift (raise_if (negb (bool_decide (ss_status s = COMPLETED))) (result_error RS_SESSION_NOT_COMPLETED)) ;;;
  sret s.

Definition validate_ruleset (au : AuthoritativeResultData) (version hash : string) : result unit :=
  raise_if (negb (py_eq (default VNone (dict_get "ruleset_version" (au_ruleset au))) (VStr version))
            || negb (py_eq (default VNone (dict_get "ruleset_hash" (au_ruleset au))) (VStr hash))) persisted_conflict.

(** The bundle of [finalize]. *)
Definition result_bundle (sid : string) (setup : CommittedSetup) (au : AuthoritativeResultData)
    (commitments nonces : list string) (commands events : list pydict) (evidence : ResultEvidence) (result_hash : string)
    : pydict := obj [
  ("schema_version", VStr SCHEMA_VERSION); ("session_id", VStr sid); ("setup", VDict (to_payload setup));
  ("ruleset", VDict (au_ruleset au)); ("commitments", VList (map VStr commitments));
  ("revealed_nonces", VList (map VStr nonces)); ("manifest_hashes", VList [VStr (cs_manifest_hash setup)]);
  ("commands", VList (map VDict commands)); ("domain_events", VList (map VDict events));
  ("state_hashes", state_hash_json (state_hashes evidence)); ("metrics", metrics_json (metrics evidence));
  ("result_hash", VStr result_hash)].

(** The part of [finalize] after the reads and before [freeze]. *)
Definition build_result (sid principal : string) (setup : CommittedSetup) (au : AuthoritativeResultData)
    (evidence : ResultEvidence) (created_at_ns : Z) : result FrozenResult :=
  let! _ := validate_ruleset au (cs_ruleset_version setup) (cs_ruleset_hash setup) in
  let! commands := result_commands sid principal (au_commands au) (command_metadata evidence) in
  let! events := result_events sid None None (au_domain_events au) in
  let! exports := commitment_exports setup (eligible_episodes evidence) (au_commitments au) in
  let! proof := verifier_proof sid (cs_manifest_hash setup) evidence in
  let! result_hash := rs_string_field proof "result_hash" in
  let bundle := result_bundle sid setup au (fst exports) (snd exports) commands events evidence result_hash in
  let! bundle_hash := canonical_hash (VDict bundle) in
  let! proof_hash := canonical_hash (VDict proof) in
  let export := obj [("export_version", VStr EXPORT_VERSION); ("session_id", VStr sid); ("result_hash", VStr result_hash);
                     ("bundle_hash", VStr bundle_hash); ("proof_hash", VStr proof_hash); ("result_bundle", VDict bundle);
                     ("verifier_proof", VDict proof)] in
  let! export_hash := canonical_hash (VDict export) in
  Ok (mk_frozen sid result_hash bundle_hash proof_hash export_hash created_at_ns bundle proof export false).

Definition finalize (sid principal : string) (evidence : ResultEvidence) (created_at_ns : Z) : ST Db FrozenResult :=
  lift (rs_i64 created_at_ns) ;;;
  session <- completed_session sid principal ;;
  setup <- lift (of_option persisted_conflict (ss_setup session)) ;;
  au <- authoritative sid principal (cs_ruleset_id setup) ;;
  frozen <- lift (build_result sid principal setup au evidence created_at_ns) ;;
  freeze frozen principal.

(** ** HTTP *)

Definition http_status (c : ResultErrorCode) : Z :=
  match c with
  | RS_SESSION_UNAVAILABLE => 404
  | RS_SESSION_NOT_COMPLETED => 409
  | RS_INVALID_EVIDENCE => 422
  | RS_PERSISTED_CONFLICT => 409
  | RS_RESULT_CONFLICT => 409
  | RS_RESULT_NOT_FOUND => 404
  | RS_DATABASE_CONFLICT => 409
  end.

(** ** Examples *)

Example py_repr_dict :
  py_str (VDict (obj [("a", VStr "it's"); ("b", VList [VInt (-3); VNone; VBool true])]))
  = "{'a': " +:+ String "034" ("it's" +:+ String "034" ", 'b': [-3, None, True]}").
Proof. vm_compute. reflexivity. Qed.

(** ** What a frozen result satisfies *)

#[local] Opaque sha256.

Lemma mapping_Ok v d : mapping v = Ok d <-> v = VDict d /\ str_keys d = true.
Proof.
  destruct v; cbn; try (split; [discriminate|by intros [? _]]). destruct (str_keys _) eqn:E.
  - split; [by intros [= <-]|by intros [[= <-] _]].
  - split; [discriminate|intros [[= <-] ?]; congruence].
Qed.

Record frozen_made (f : FrozenResult) : Prop := mk_frozen_made {
  fm_keys : str_keys (fr_bundle f) = true /\ str_keys (fr_proof f) = true /\ str_keys (fr_export f) = true;
  fm_bundle : canonical_hash (VDict (fr_bundle f)) = Ok (fr_bundle_hash f);
  fm_proof : canonical_hash (VDict (fr_proof f)) = Ok (fr_proof_hash f);
  fm_export : canonical_hash (VDict (fr_export f)) = Ok (fr_export_hash f);
  fm_result : dict_get "result_hash" (fr_bundle f) = Some (VStr (fr_result_hash f));
}.

Definition with_replayed (b : bool) (f : FrozenResult) : FrozenResult :=
  mk_frozen (fr_session_id f) (fr_result_hash f) (fr_bundle_hash f) (fr_proof_hash f) (fr_export_hash f)
    (fr_created_at_ns f) (fr_bundle f) (fr_proof f) (fr_export f) b.

Lemma materialize_frozen f b :
  frozen_made f -> materialize_result (fr_session_id f) (frozen_row f) b = Ok (with_replayed b f).
Proof.
  intros [(K1 & K2 & K3) H1 H2 H3 H4]. unfold materialize_result, frozen_row.
  cbn [rb_bundle rb_proof rb_export rb_bundle_hash rb_proof_hash rb_export_hash rb_result_hash rb_created_at_ns mapping].
  rewrite K1, K2, K3. cbn [rbind]. rewrite H1. cbn [rbind]. rewrite String.eqb_refl. cbn [negb raise_if rbind].
  rewrite H2. cbn [rbind]. rewrite String.eqb_refl. cbn [negb raise_if rbind].
  rewrite H3. cbn [rbind]. rewrite String.eqb_refl. cbn [negb raise_if rbind].
  rewrite H4. cbn [default py_str]. by rewrite String.eqb_refl.
Qed.

Lemma verifier_proof_keys sid mh e d : verifier_proof sid mh e = Ok d -> str_keys d = true.
Proof. intros (? & ? & ? & ? & ? & ? & _ & ->)%verifier_proof_Ok. reflexivity. Qed.

(** What [build_result] went through. *)
Record built (sid p : string) (s : CommittedSetup) (au : AuthoritativeResultData) (e : ResultEvidence) (t : Z)
    (f : FrozenResult) : Prop := mk_built {
  bl_made : frozen_made f;
  bl_ruleset : validate_ruleset au (cs_ruleset_version s) (cs_ruleset_hash s) = Ok tt;
  bl_fields : fr_session_id f = sid /\ fr_created_at_ns f = t /\ fr_replayed f = false;
  bl_proof : verifier_proof sid (cs_manifest_hash s) e = Ok (fr_proof f);
  bl_hash : rs_string_field (fr_proof f) "result_hash" = Ok (fr_result_hash f);
  bl_bundle : exists commands events exports,
    result_commands sid p (au_commands au) (command_metadata e) = Ok commands /\
    result_events sid None None (au_domain_events au) = Ok events /\
    commitment_exports s (eligible_episodes e) (au_commitments au) = Ok exports /\
    fr_bundle f = result_bundle sid s au (fst exports) (snd exports) commands events e (fr_result_hash f);
}.

Lemma build_result_Ok sid p s au e t f : build_result sid p s au e t = Ok f -> built sid p s au e t f.
Proof.
  unfold build_result. intros H. repeat step_ok. subst f. repeat match goal with x : unit |- _ => destruct x end.
  constructor; cbn [fr_session_id fr_created_at_ns fr_replayed fr_proof fr_bundle fr_result_hash]; try done.
  - constructor; cbn [fr_session_id fr_created_at_ns fr_bundle fr_proof fr_export fr_bundle_hash fr_proof_hash fr_export_hash fr_result_hash];
      try done. split_and!; [reflexivity|by eapply verifier_proof_keys|reflexivity].
  - by do 3 eexists.
Qed.

Lemma build_result_created sid p s au e t t' f :
  build_result sid p s au e t = Ok f ->
  exists f', build_result sid p s au e t' = Ok f' /\ fr_export_hash f' = fr_export_hash f /\ fr_session_id f' = fr_session_id f.
Proof.
  unfold build_result. intros H. repeat step_ok. subst f.
  repeat match goal with E : ?m = Ok _ |- context [rbind ?m _] => rewrite E; cbn [rbind] end. by eexists.
Qed.

(** ** Storing and rereading *)

Lemma require_owner_Ok sid p db u db' :
  require_principal sid p db = (Ok u, db') <->
  db' = db /\ exists row, sessions db !! sid = Some row /\ s_principal_id row = p.
Proof.
  unfold require_principal. destruct (sessions db !! sid) as [row|] eqn:E.
  - split.
    + intros [= H <-]. apply raise_if_Ok in H. bools. apply String.eqb_eq in H. split; [done|]. by exists row.
    + intros (-> & ? & [= <-] & <-). rewrite String.eqb_refl. by destruct u.
  - split; [discriminate|by intros (_ & ? & ? & _)].
Qed.

Definition owns (sid p : string) (db : Db) : Prop := exists row, sessions db !! sid = Some row /\ s_principal_id row = p.

Lemma require_principal_run sid p db : owns sid p db -> require_principal sid p db = (Ok tt, db).
Proof. intros H. by apply require_owner_Ok. Qed.

Lemma freeze_new f p db r db' :
  result_bundles db !! fr_session_id f = None -> freeze f p db = (Ok r, db') ->
  r = f /\ owns (fr_session_id f) p db /\
  db' = set_result_bundles (<[fr_session_id f := frozen_row f]> (result_bundles db)) db.
Proof.
  intros Hn H. unfold freeze in H. repeat step_ok. subst.
  match goal with H : require_principal _ _ _ = _ |- _ => apply require_owner_Ok in H as [-> Ho] end.
  rewrite Hn in *. repeat step_ok. simplify_eq.
  match goal with H : insert_result _ _ _ = _ |- _ => apply insert_result_Ok in H as (_ & _ & H) end. by subst.
Qed.

(** A second freeze returns the stored result or fails, and leaves the store as it is. *)
Lemma freeze_again f g p db :
  frozen_made f -> fr_session_id g = fr_session_id f -> owns (fr_session_id f) p db ->
  result_bundles db !! fr_session_id f = Some (frozen_row f) ->
  freeze g p db =
    (if String.eqb (fr_export_hash f) (fr_export_hash g) then Ok (with_replayed true f)
     else Raise (result_error RS_RESULT_CONFLICT), db).
Proof.
  intros Hm Es Ho Hr. unfold freeze, reraise, transaction. rewrite Es. unfold sbind at 1. rewrite require_principal_run by done.
  cbv beta iota. unfold sbind at 1, gets at 1. cbv beta iota. rewrite Hr. cbv beta iota. unfold sbind at 1, lift at 1.
  rewrite materialize_frozen by done. cbv beta iota.
  unfold sbind, lift. cbn [fr_export_hash with_replayed].
  destruct (String.eqb (fr_export_hash f) (fr_export_hash g)); cbn [negb raise_if]; [done|].
  reflexivity.
Qed.

Lemma get_result_frozen f p db :
  frozen_made f -> owns (fr_session_id f) p db -> result_bundles db !! fr_session_id f = Some (frozen_row f) ->
  get_result (fr_session_id f) p db = (Ok (with_replayed false f), db).
Proof.
  intros Hm Ho Hr. unfold get_result. unfold sbind at 1. rewrite require_principal_run by done.
  unfold sbind, gets. rewrite Hr. unfold lift. by rewrite materialize_frozen.
Qed.

(** What a successful [finalize] reads and builds. *)
Record finalized (sid p : string) (e : ResultEvidence) (t : Z) (db : Db) (s : CommittedSetup) (rec : SessionRecord)
    (au : AuthoritativeResultData) (f : FrozenResult) : Prop := mk_finalized {
  fz_time : rs_i64 t = Ok tt;
  fz_session : completed_session sid p db = (Ok rec, db);
  fz_setup : ss_setup rec = Some s;
  fz_read : authoritative sid p (cs_ruleset_id s) db = (Ok au, db);
  fz_build : build_result sid p s au e t = Ok f;
}.

Lemma get_session_same sid p db x db' : get_session sid p db = (x, db') -> db' = db.
Proof. unfold get_session, materialize. by intros [= _ <-]. Qed.

Lemma completed_session_Ok sid p db rec db' :
  completed_session sid p db = (Ok rec, db') -> db' = db /\ get_session sid p db = (Ok rec, db) /\ ss_status rec = COMPLETED.
Proof.
  unfold completed_session. intros H. repeat step_ok. subst.
  match goal with H : get_session _ _ _ = _ |- _ => pose proof (get_session_same _ _ _ _ _ H); subst end. bools. done.
Qed.

Lemma authoritative_Ok sid p rid db au db' :
  authoritative sid p rid db = (Ok au, db') ->
  db' = db /\ owns sid p db /\ ruleset_value rid db = Ok (au_ruleset au) /\
  rmap command_value (result_command_rows sid db) = Ok (au_commands au) /\
  rmap event_value (session_events sid db) = Ok (au_domain_events au) /\
  rmap commitment_value (result_commitment_rows sid db) = Ok (au_commitments au).
Proof.
  unfold authoritative. intros H. repeat step_ok.
  match goal with H : require_principal _ _ _ = _ |- _ => apply require_owner_Ok in H as [-> Ho] end.
  match goal with H : (_, _) = (Ok _, _) |- _ => injection H as H <- end. repeat step_ok. subst. done.
Qed.

Lemma finalize_Ok sid p e t db r db' :
  finalize sid p e t db = (Ok r, db') ->
  exists s rec au f, finalized sid p e t db s rec au f /\ freeze f p db = (Ok r, db').
Proof.
  unfold finalize. intros H. repeat step_ok.
  match goal with H : completed_session _ _ _ = _ |- _ =>
    pose proof (completed_session_Ok _ _ _ _ _ H) as (-> & _ & _) end.
  match goal with H : authoritative _ _ _ _ = _ |- _ => pose proof (authoritative_Ok _ _ _ _ _ _ H) as (-> & _) end.
  repeat match goal with x : unit |- _ => destruct x end.
  match goal with H : of_option _ ?o = Ok _ |- _ => destruct o as [s|] eqn:Es; [injection H as <-|discriminate] end.
  do 4 eexists. split; [by constructor|done].
Qed.

Lemma finalized_run sid p e t db s rec au f :
  finalized sid p e t db s rec au f -> finalize sid p e t db = freeze f p db.
Proof.
  intros [H1 H2 H3 H4 H5]. unfold finalize. unfold sbind at 1, lift at 1. rewrite H1. cbv beta iota.
  unfold sbind at 1. rewrite H2. cbv beta iota. unfold sbind at 1, lift at 1. rewrite H3. cbn [of_option].
  unfold sbind at 1. rewrite H4. cbv beta iota. unfold sbind at 1, lift at 1. by rewrite H5.
Qed.

(** The reads do not look at the stored results. *)
Lemma finalized_frame sid p e t db s rec au f tbl :
  finalized sid p e t db s rec au f -> finalized sid p e t (set_result_bundles tbl db) s rec au f.
Proof.
  intros [H1 H2 H3 H4 H5]. constructor; [done| |done| |done].
  - apply completed_session_Ok in H2 as (_ & Hg & Hs). unfold completed_session, get_session, materialize in *.
    injection Hg as Hg. unfold sbind, reraise, lift, sret. cbv beta.
    change (sessions (set_result_bundles tbl db)) with (sessions db).
    destruct (sessions db !! sid) as [row|]; [|discriminate].
    change (materialize_from_row (set_result_bundles tbl db) sid row p) with (materialize_from_row db sid row p).
    rewrite Hg. cbv iota. by rewrite Hs.
  - apply authoritative_Ok in H4 as (_ & Ho & Hr & Hc & He & Hm). unfold authoritative, sbind.
    rewrite require_principal_run by exact Ho. cbv beta iota.
    change (ruleset_value (cs_ruleset_id s) (set_result_bundles tbl db)) with (ruleset_value (cs_ruleset_id s) db).
    change (result_command_rows sid (set_result_bundles tbl db)) with (result_command_rows sid db).
    change (session_events sid (set_result_bundles tbl db)) with (session_events sid db).
    change (result_commitment_rows sid (set_result_bundles tbl db)) with (result_commitment_rows sid db).
    rewrite Hr, Hc, He, Hm. cbn [rbind]. by destruct au.
Qed.

Lemma completed_session_same sid p db x db' : completed_session sid p db = (x, db') -> db' = db.
Proof.
  unfold completed_session, sbind, reraise, lift, sret, get_session, materialize. cbv beta iota.
  destruct (match sessions db !! sid with Some row => _ | None => _ end) as [rec|y]; cbv iota; [|by intros [= _ <-]].
  destruct (raise_if _ _); by intros [= _ <-].
Qed.

Lemma authoritative_same sid p rid db x db' : authoritative sid p rid db = (x, db') -> db' = db.
Proof.
  unfold authoritative, sbind. destruct (require_principal sid p db) as [y d] eqn:E.
  assert (d = db) as -> by (unfold require_principal in E; congruence).
  destruct y; by intros [= _ <-].
Qed.

(** [finalize] either stops before [freeze], changing nothing, or ends with it. *)
Lemma finalize_cases sid p e t db r db' :
  finalize sid p e t db = (r, db') ->
  ((exists x, r = Raise x) /\ db' = db) \/
  exists s rec au f, finalized sid p e t db s rec au f /\ freeze f p db = (r, db').
Proof.
  unfold finalize. unfold sbind at 1, lift at 1. intros H.
  destruct (rs_i64 t) as [[]|x] eqn:Ht; [|left; injection H as <- <-; split; [by eexists|done]].
  unfold sbind at 1 in H. destruct (completed_session sid p db) as [[rec|x] d] eqn:Hs;
    pose proof (completed_session_same _ _ _ _ _ Hs); subst d; [|left; injection H as <- <-; split; [by eexists|done]].
  unfold sbind at 1, lift at 1 in H.
  destruct (ss_setup rec) as [s|] eqn:Es; cbn [of_option] in H; [|left; injection H as <- <-; split; [by eexists|done]].
  unfold sbind at 1 in H. destruct (authoritative sid p (cs_ruleset_id s) db) as [[au|x] d] eqn:Ha;
    pose proof (authoritative_same _ _ _ _ _ _ Ha); subst d; [|left; injection H as <- <-; split; [by eexists|done]].
  unfold sbind at 1, lift at 1 in H.
  destruct (build_result sid p s au e t) as [f|x] eqn:Hb; [|left; injection H as <- <-; split; [by eexists|done]].
  right. exists s, rec, au, f. split; [by constructor|done].
Qed.

Lemma with_replayed_fresh f : fr_replayed f = false -> with_replayed false f = f.
Proof. destruct f; cbn. by intros ->. Qed.

Lemma finalized_made sid p e t db s rec au f :
  finalized sid p e t db s rec au f -> frozen_made f /\ fr_session_id f = sid /\ fr_replayed f = false.
Proof. intros [_ _ _ _ [? ? (? & ? & ?) ? ? ?]%build_result_Ok]. done. Qed.

Lemma finalized_retry sid p e t t' db s rec au f :
  finalized sid p e t db s rec au f -> rs_i64 t' = Ok tt ->
  exists f', finalized sid p e t' db s rec au f' /\ fr_export_hash f' = fr_export_hash f.
Proof.
  intros [H1 H2 H3 H4 H5] Ht. destruct (build_result_created _ _ _ _ _ _ t' _ H5) as (f' & Hf & He & _).
  exists f'. split; [by constructor|done].
Qed.

(** A result is frozen once.  When a session has no stored result and [finalize] succeeds, it only
    adds that session's row and returns the result it stores.  From then on, in every state that still
    has the row and the owner: [get] returns exactly that result; [finalize] on any evidence either
    fails or returns the stored result marked as a replay, and changes nothing.  An immediate retry with
    the same evidence returns it at any clock reading, with the first creation time. *)
Theorem finalize_write_once sid p e t db f db1 :
  finalize sid p e t db = (Ok f, db1) -> result_bundles db !! sid = None ->
  db1 = set_result_bundles (<[sid := frozen_row f]> (result_bundles db)) db /\
  (forall db2, owns sid p db2 -> result_bundles db2 !! sid = result_bundles db1 !! sid ->
     get_result sid p db2 = (Ok f, db2) /\
     forall e' t' r db3, finalize sid p e' t' db2 = (r, db3) ->
       db3 = db2 /\ (r = Ok (with_replayed true f) \/ exists x, r = Raise x)) /\
  (forall t', rs_i64 t' = Ok tt -> finalize sid p e t' db1 = (Ok (with_replayed true f), db1)).
Proof.
  intros (s & rec & au & f' & Z & Hf)%finalize_Ok Hn.
  destruct (finalized_made _ _ _ _ _ _ _ _ _ Z) as (Hm & Es & Er). rewrite <- Es in Hn.
  destruct (freeze_new _ _ _ _ _ Hn Hf) as (-> & Ho & ->). rewrite Es. split; [done|].
  assert (result_bundles (set_result_bundles (<[sid := frozen_row f']> (result_bundles db)) db) !! sid
          = Some (frozen_row f')) as Hrow by apply lookup_insert_eq.
  rewrite Es in Ho. split.
  - intros db2 Ho2 Hrow2. rewrite Hrow, <- Es in Hrow2. rewrite <- Es in Ho2. split.
    + pose proof (get_result_frozen f' p db2 Hm Ho2 Hrow2) as G. by rewrite with_replayed_fresh, Es in G.
    + intros e' t' r db3 [[Hx ->]|(s' & rec' & au' & g & Z' & Hg)]%finalize_cases; [by split; [|right]|].
      destruct (finalized_made _ _ _ _ _ _ _ _ _ Z') as (_ & Eg & _). rewrite <- Es in Eg.
      rewrite (freeze_again f') in Hg by done.
      destruct (String.eqb _ _); injection Hg as <- <-; (split; [done|]); [by left|right; by eexists].
  - intros t' Ht. apply (finalized_frame _ _ _ _ _ _ _ _ _ (<[sid := frozen_row f']> (result_bundles db))) in Z.
    destruct (finalized_retry _ _ _ _ _ _ _ _ _ _ Z Ht) as (g & Z' & Hg).
    destruct (finalized_made _ _ _ _ _ _ _ _ _ Z') as (_ & Eg & _).
    rewrite (finalized_run _ _ _ _ _ _ _ _ _ Z'), (freeze_again f'); [|done|congruence|by rewrite Es|by rewrite Es].
    by rewrite Hg, String.eqb_refl.
Qed.

(** ** What is exported *)

Definition command_json (sid p : string) (q : CommandReplayMetadata * command_row) : pyval :=
  let '(m, r) := q in
  VDict (obj [("schema_version", VStr SCHEMA_VERSION); ("command_id", VStr (c_command_id r));
    ("idempotency_key", VStr (c_idempotency_key r)); ("session_id", VStr sid); ("principal_id", VStr p);
    ("accepted_at_ns", VStr (str_Z (c_accepted_at_ns r))); ("logical_ts_ns", VStr (str_Z (mt_logical_ts_ns m)));
    ("arrival_seq", VStr (str_Z (mt_arrival_seq m)));
    ("expected_session_version", VStr (str_Z (c_expected_session_version r))); ("payload", c_payload r);
    ("payload_hash", VStr (c_payload_hash r))]).

Definition event_json (sid : string) (r : event_row) : pyval :=
  VDict (obj [("schema_version", VStr SCHEMA_VERSION); ("session_id", VStr sid); ("event_seq", VStr (str_Z (e_event_seq r)));
    ("logical_ts_ns", VStr (str_Z (e_logical_ts_ns r))); ("event_type", VStr (e_event_type r));
    ("causation_id", VStr (e_causation_id r)); ("correlation_id", VStr (e_correlation_id r)); ("payload", e_payload r);
    ("prior_event_hash", VStr (e_prior_event_hash r)); ("current_event_hash", VStr (e_current_event_hash r))]).

Lemma Zkle_le (x y : Z) : kle x y <-> x <= y.
Proof. unfold kle, cmp, Z_cmp. apply Z.compare_le_iff. Qed.

Lemma py_sorted_strict {A} (key : A -> Z) l :
  NoDup (map key l) -> StronglySorted Z.lt (map key (py_sorted key l)).
Proof.
  intros Hn. assert (NoDup (map key (py_sorted key l))) as Hd.
  { by rewrite (Permutation_map key (py_sorted_perm key l)). }
  pose proof (py_sorted_sorted key l) as Hs. induction Hs as [|x xs Hs IH Hx]; [constructor|].
  cbn [map] in *. apply NoDup_cons in Hd as [Hni Hd]. constructor; [by apply IH|].
  apply Forall_forall. intros k (y & -> & Hy)%elem_of_mapl. rewrite Forall_forall in Hx.
  specialize (Hx y Hy). apply (proj1 (Zkle_le _ _)) in Hx.
  assert (key x <> key y); [|lia]. intros E. apply Hni. rewrite E. apply elem_of_mapl. by exists y.
Qed.

Lemma unique_metadata_Ok ids arrivals l :
  unique_metadata ids arrivals l = Ok tt ->
  NoDup (map mt_command_id l) /\ NoDup (map mt_arrival_seq l) /\
  (forall m, m ∈ l -> (mt_command_id m ∉ ids) /\ (mt_arrival_seq m ∉ arrivals)).
Proof.
  revert ids arrivals. induction l as [|m l IH]; intros ids arrivals H.
  { split_and!; [constructor|constructor|by intros ? ?%elem_of_nil]. }
  cbn [unique_metadata] in H. repeat step_ok. bools.
  match goal with H : unique_metadata _ _ _ = _ |- _ => destruct (IH _ _ H) as (U1 & U2 & U3) end.
  cbn [map]. rewrite !NoDup_cons. split_and!; [|done| |done|].
  - intros (x & E & Hx)%elem_of_mapl. destruct (U3 x Hx) as [U4 _]. apply U4. rewrite E. apply list_elem_of_here.
  - intros (x & E & Hx)%elem_of_mapl. destruct (U3 x Hx) as [_ U4]. apply U4. rewrite E. apply list_elem_of_here.
  - intros x [->|Hx]%elem_of_cons; [done|]. destruct (U3 x Hx) as [U4 U5].
    split; intros Hin; [apply U4|apply U5]; by apply list_elem_of_further.
Qed.

Lemma rs_string_field_Ok fields name s : rs_string_field fields name = Ok s -> dict_get name fields = Some (VStr s).
Proof. unfold rs_string_field. destruct (dict_get name fields) as [[]|]; try discriminate. destruct (is_empty _); congruence. Qed.
Lemma rs_int_field_Ok fields name z : rs_int_field fields name = Ok z -> dict_get name fields = Some (VInt z).
Proof. unfold rs_int_field. destruct (dict_get name fields) as [[]|]; congruence. Qed.
Lemma rs_sha_field_Ok fields name s : rs_sha_field fields name = Ok s -> dict_get name fields = Some (VStr s).
Proof.
  unfold rs_sha_field, validated_sha. intros H. repeat step_ok. apply rs_string_field_Ok.
  match goal with H : (if ?b then _ else _) = _ |- _ => destruct b; [|discriminate] end. congruence.
Qed.
Lemma object_field_Ok row name d : object_field row name = Ok d -> dict_get name row = Some (VDict d).
Proof. unfold object_field. intros [H _]%mapping_Ok. destruct (dict_get name row); cbn in H; congruence. Qed.

(** Turns the reads of a literal dictionary into equations. *)
Ltac read_fields :=
  repeat match goal with
  | H : rs_string_field (obj _) _ = Ok _ |- _ => apply rs_string_field_Ok in H
  | H : rs_int_field (obj _) _ = Ok _ |- _ => apply rs_int_field_Ok in H
  | H : rs_sha_field (obj _) _ = Ok _ |- _ => apply rs_sha_field_Ok in H
  | H : object_field (obj _) _ = Ok _ |- _ => apply object_field_Ok in H
  | H : dict_get _ (obj _) = Some _ |- _ => rewrite dict_get_obj in H; cbn [assoc String.eqb Ascii.eqb Bool.eqb] in H; simplify_eq H; clear H; try intros <-; try intros ?
  end.

Lemma command_value_Ok r d :
  command_value r = Ok d -> str_keys (match c_payload r with VDict x => x | _ => [] end) = true /\
  d = obj [("command_id", VStr (c_command_id r)); ("idempotency_key", VStr (c_idempotency_key r));
           ("payload_hash", VStr (c_payload_hash r)); ("expected_session_version", VInt (c_expected_session_version r));
           ("accepted_at_ns", VInt (c_accepted_at_ns r)); ("payload", c_payload r)].
Proof.
  unfold command_value. intros H. repeat step_ok. subst.
  match goal with H : mapping _ = Ok _ |- _ => apply mapping_Ok in H as [E K] end. by rewrite E.
Qed.

Lemma project_command_Ok sid p metadata r d a x :
  command_value r = Ok d -> project_command sid p metadata d = Ok (a, x) ->
  exists m, m ∈ metadata /\ mt_command_id m = c_command_id r /\ a = mt_arrival_seq m /\ VDict x = command_json sid p (m, r).
Proof.
  intros [_ ->]%command_value_Ok H. unfold project_command in H. repeat step_ok. read_fields.
  match goal with H : of_option _ ?o = Ok ?m |- _ =>
    destruct o as [m'|] eqn:E; [injection H as <-; exists m'|discriminate] end.
  apply find_elem_of in E as [Hin Hid%String.eqb_eq]. subst. split_and!; [done..|].
  unfold command_json. match goal with H : c_payload r = _ |- _ => by rewrite H end.
Qed.

(** The commands of a bundle: every stored command of the session once, with its own metadata, in
    strictly increasing arrival order, and no metadata left over. *)
Definition commands_exported (sid p : string) (metadata : list CommandReplayMetadata) (rows : list command_row)
    (v : option pyval) : Prop :=
  exists pairs, v = Some (VList (map (command_json sid p) pairs)) /\
    map fst pairs ≡ₚ metadata /\ map snd pairs ≡ₚ rows /\
    Forall (fun q => mt_command_id (fst q) = c_command_id (snd q)) pairs /\
    StronglySorted Z.lt (map (fun q => mt_arrival_seq (fst q)) pairs).

Lemma project_all sid p metadata rows ds out :
  rmap command_value rows = Ok ds -> rmap (project_command sid p metadata) ds = Ok out ->
  exists pairs, map snd pairs = rows /\ Forall (fun q => fst q ∈ metadata /\ mt_command_id (fst q) = c_command_id (snd q)) pairs /\
    map fst out = map (fun q => mt_arrival_seq (fst q)) pairs /\
    map (fun y => VDict (snd y)) out = map (command_json sid p) pairs.
Proof.
  intros Hd%rmap_Ok. revert out. induction Hd as [|r d rows ds Hr _ IH]; intros out Ho.
  { injection Ho as <-. exists []. split_and!; constructor. }
  cbn [rmap] in Ho. repeat step_ok. subst.
  match goal with H : rmap _ _ = Ok _ |- _ => destruct (IH _ H) as (pairs & <- & Hf & E1 & E2) end.
  match goal with H : project_command _ _ _ _ = Ok ?y |- _ => destruct y as [a x];
    destruct (project_command_Ok _ _ _ _ _ _ _ Hr H) as (m & Hm & Hid & -> & Hx) end.
  exists ((m, r) :: pairs). cbn [map fst snd]. split_and!; [done|by constructor|by rewrite E1|by rewrite E2, Hx].
Qed.

Lemma pairs_sorted (out : list (Z * pydict)) (pairs : list (CommandReplayMetadata * command_row)) sid p :
  map fst out = map (fun q => mt_arrival_seq (fst q)) pairs ->
  map (fun y => VDict (snd y)) out = map (command_json sid p) pairs ->
  map (fun y => VDict (snd y)) (py_sorted fst out) =
  map (command_json sid p) (py_sorted (fun q => mt_arrival_seq (fst q)) pairs).
Proof.
  intros E1 E2.
  assert (map (fun y => (fst y, VDict (snd y))) out = map (fun q => (mt_arrival_seq (fst q), command_json sid p q)) pairs) as E.
  { revert pairs E1 E2. induction out as [|y out IH]; intros [|q pairs] E1 E2; try discriminate; [done|].
    cbn [map] in *. injection E1 as H1 E1. injection E2 as H2 E2. rewrite (IH pairs) by done. by rewrite H1, H2. }
  transitivity (map snd (py_sorted fst (map (fun y => (fst y, VDict (snd y))) out))).
  - rewrite py_sorted_map, map_map. reflexivity.
  - rewrite E, py_sorted_map, map_map. reflexivity.
Qed.

Lemma row_ids_of rows ds ids :
  rmap command_value rows = Ok ds -> rmap (fun row => rs_string_field row "command_id") ds = Ok ids ->
  ids = map c_command_id rows.
Proof.
  intros Hd%rmap_Ok. revert ids. induction Hd as [|r d rows ds Hr _ IH]; intros ids H.
  { by injection H as <-. }
  cbn [rmap] in H. repeat step_ok. subst. apply command_value_Ok in Hr as [_ ->]. read_fields.
  cbn [map]. f_equal. by apply IH.
Qed.

Lemma result_commands_exported sid p metadata rows ds out :
  NoDup (map c_command_id rows) ->
  rmap command_value rows = Ok ds -> result_commands sid p ds metadata = Ok out ->
  commands_exported sid p metadata rows (Some (VList (map VDict out))).
Proof.
  intros Hn Hd H. unfold result_commands in H. repeat step_ok. subst.
  repeat match goal with x : unit |- _ => destruct x end.
  match goal with H : unique_metadata _ _ _ = _ |- _ => destruct (unique_metadata_Ok _ _ _ H) as (U1 & U2 & _) end.
  match goal with H : rmap (project_command _ _ _) _ = Ok ?y |- _ =>
    destruct (project_all _ _ _ _ _ _ Hd H) as (pairs & E & Hf & E1 & E2) end.
  rewrite Forall_forall in Hf.
  assert (map mt_command_id (map fst pairs) = map c_command_id rows) as Hids.
  { rewrite <- E, !map_map. apply map_ext_in. intros q Hq%list_elem_of_In. by apply Hf. }
  assert (map fst pairs ≡ₚ metadata) as Hp.
  { match goal with H : negb (same_set ?ids _) = false, Hi : rmap _ ds = Ok ?ids |- _ =>
      apply negb_false_iff, bool_decide_eq_true in H; rewrite (row_ids_of _ _ _ Hd Hi) in H; rename H into Hset end.
    apply NoDup_Permutation; [eapply NoDup_of_map; by rewrite Hids|by eapply NoDup_of_map|]. intros m. split.
    - intros (q & -> & Hq)%elem_of_mapl. by apply Hf.
    - intros Hm.
      assert (mt_command_id m ∈ map c_command_id rows) as Hin.
      { rewrite <- (elem_of_list_to_set (C := gset string)), Hset, elem_of_list_to_set. apply elem_of_mapl. by exists m. }
      rewrite <- Hids in Hin. apply elem_of_mapl in Hin as (m' & Em & Hm'). apply elem_of_mapl in Hm' as (q & -> & Hq).
      apply elem_of_mapl. exists q. split; [|done].
      apply (NoDup_map_inj mt_command_id metadata); [done|done|by apply Hf|done]. }
  exists (py_sorted (fun q => mt_arrival_seq (fst q)) pairs). split_and!.
  - rewrite map_map. by rewrite (pairs_sorted _ pairs sid p E1 E2).
  - by rewrite (Permutation_map fst (py_sorted_perm _ pairs)).
  - by rewrite (Permutation_map snd (py_sorted_perm _ pairs)), E.
  - apply Forall_forall. intros q Hq%elem_of_py_sorted. by apply Hf.
  - apply py_sorted_strict. rewrite <- (map_map fst mt_arrival_seq). by rewrite (Permutation_map mt_arrival_seq Hp).
Qed.

(** ** Exported events and selections *)

(** Consecutive events have increasing sequence numbers and linked hashes. *)
Fixpoint events_linked (prior_seq : option Z) (prior_hash : option string) (rows : list event_row) : Prop :=
  match rows with
  | [] => True
  | r :: rows' =>
      (forall n, prior_seq = Some n -> n < e_event_seq r) /\ (forall h, prior_hash = Some h -> e_prior_event_hash r = h) /\
      events_linked (Some (e_event_seq r)) (Some (e_current_event_hash r)) rows'
  end.

Lemma event_value_Ok r d :
  event_value r = Ok d ->
  d = obj [("event_seq", VInt (e_event_seq r)); ("logical_ts_ns", VInt (e_logical_ts_ns r));
           ("event_type", VStr (e_event_type r)); ("causation_id", VStr (e_causation_id r));
           ("correlation_id", VStr (e_correlation_id r)); ("payload", e_payload r);
           ("prior_event_hash", VStr (e_prior_event_hash r)); ("current_event_hash", VStr (e_current_event_hash r))].
Proof.
  unfold event_value. intros H. repeat step_ok. subst.
  match goal with H : mapping _ = Ok _ |- _ => apply mapping_Ok in H as [E K] end. by rewrite E.
Qed.

Lemma result_events_exported sid rows : forall ds n h out,
  rmap event_value rows = Ok ds -> result_events sid n h ds = Ok out ->
  map VDict out = map (event_json sid) rows /\ events_linked n h rows.
Proof.
  induction rows as [|r rows IH]; intros ds n h out Hd Ho.
  { injection Hd as <-. by injection Ho as <-. }
  cbn [rmap] in Hd. repeat step_ok. subst ds.
  match goal with H : event_value r = _ |- _ => apply event_value_Ok in H as -> end.
  cbn [result_events] in Ho. repeat step_ok. read_fields.
  match goal with Hr : result_events _ _ _ _ = Ok _, Hd : rmap _ rows = Ok _ |- _ => destruct (IH _ _ _ _ Hd Hr) as [E L] end.
  subst out. cbn [map events_linked]. split_and!; [|intros k ->|intros k ->|exact L].
  - rewrite E. f_equal. unfold event_json. match goal with H : e_payload r = _ |- _ => by rewrite H end.
  - match goal with H : (_ <=? _) = false |- _ => apply Z.leb_gt in H; exact H end.
  - match goal with H : negb (String.eqb _ _) = false |- _ => by apply negb_false_iff, String.eqb_eq in H end.
Qed.

(** The stored selection of a row verifies against its commitment hash and its revealed secret. *)
Definition selection_verified (s : CommittedSetup) (eps : list EligibleEpisode) (r : commitment_row) : Prop :=
  exists setup proof, selection_setup s = Ok setup /\
    pf_commitment_hash proof = cm_commitment_hash r /\ cm_revealed_secret r = Some (pf_secret_hex proof) /\
    pf_setup_hash proof = cm_setup_hash r /\ pf_eligible_set_hash proof = cm_eligible_set_hash r /\
    exists ep, verify_completion_proof setup eps proof = Ok ep.

Lemma commitment_value_Ok q d :
  commitment_value q = Ok d ->
  d = obj [("commitment_id", VStr (fst q)); ("kind", VStr (cm_kind (snd q)));
           ("algorithm_version", VStr (cm_algorithm_version (snd q)));
           ("commitment_hash", VStr (cm_commitment_hash (snd q))); ("setup_hash", VStr (cm_setup_hash (snd q)));
           ("eligible_set_hash", VStr (cm_eligible_set_hash (snd q))); ("metadata", cm_metadata (snd q));
           ("revealed_secret", match cm_revealed_secret (snd q) with None => VNone | Some s => VStr s end)].
Proof.
  unfold commitment_value. intros H. repeat step_ok. subst.
  match goal with H : mapping _ = Ok _ |- _ => apply mapping_Ok in H as [E K] end. by rewrite E.
Qed.

Lemma stored_proof_Ok q d h x :
  commitment_value q = Ok d -> stored_proof d h = Ok x ->
  pf_commitment_hash (fst x) = h /\ cm_revealed_secret (snd q) = Some (pf_secret_hex (fst x)) /\
  pf_setup_hash (fst x) = cm_setup_hash (snd q) /\ pf_eligible_set_hash (fst x) = cm_eligible_set_hash (snd q).
Proof.
  intros ->%commitment_value_Ok H. unfold stored_proof in H. repeat step_ok. read_fields. subst x. cbn [fst pf_commitment_hash pf_secret_hex pf_setup_hash pf_eligible_set_hash].
  match goal with H : (match dict_get "revealed_secret" _ with _ => _ end) = Ok ?x |- _ =>
    destruct (cm_revealed_secret (snd q)) as [secret|]; [|discriminate H];
    change ((if py_len secret =? 64 then Ok secret else Raise invalid) = Ok x) in H;
    destruct (py_len secret =? 64); [injection H as <-|discriminate H] end.
  done.
Qed.

Lemma commitment_exports_Ok s eps rows : forall ds out,
  rmap commitment_value rows = Ok ds -> commitment_exports s eps ds = Ok out ->
  fst out = map (fun q => cm_commitment_hash (snd q)) rows /\
  Forall (fun q => cm_kind (snd q) = "EPISODE_SELECTION" -> selection_verified s eps (snd q)) rows.
Proof.
  induction rows as [|q rows IH]; intros ds out Hd Ho.
  { injection Hd as <-. injection Ho as <-. by split. }
  cbn [rmap] in Hd. repeat step_ok. subst ds. cbn [commitment_exports] in Ho. repeat step_ok.
  match goal with H : commitment_value q = _ |- _ => pose proof H as Hq; apply commitment_value_Ok in H as -> end. read_fields.
  match goal with H : rmap _ rows = Ok _ |- _ => rename H into Hrows end.
  match goal with H : (if String.eqb ?a ?b then _ else _) = _ |- _ => destruct (String.eqb_spec a b) as [Hk|Hk] end; repeat step_ok; subst out; cbn [fst snd map].
  - match goal with H : commitment_exports _ _ _ = Ok _ |- _ => destruct (IH _ _ Hrows H) as [-> Hf] end.
    split; [done|]. constructor; [|exact Hf]. intros _.
    match goal with H : stored_proof _ _ = Ok ?pr |- _ => destruct (stored_proof_Ok _ _ _ _ Hq H) as (E1 & E2 & E3 & E4);
      eexists _, (fst pr) end.
    split_and!; [eassumption|done..|by eexists].
  - match goal with H : commitment_exports _ _ _ = Ok _ |- _ => destruct (IH _ _ Hrows H) as [-> Hf] end.
    split; [done|]. by constructor.
Qed.

(** ** Soundness of [finalize] *)

(** The persisted facts and the evidence agree with the frozen result. *)
Record export_sound (sid p : string) (e : ResultEvidence) (db : Db) (s : CommittedSetup) (f : FrozenResult) : Prop :=
mk_export_sound {
  xs_ruleset : exists rs, rulesets db !! cs_ruleset_id s = Some rs /\ rs_version rs = cs_ruleset_version s /\
                          rs_hash rs = cs_ruleset_hash s;
  xs_commands : commands_exported sid p (command_metadata e) (result_command_rows sid db)
                  (dict_get "commands" (fr_bundle f));
  xs_events : dict_get "domain_events" (fr_bundle f) = Some (VList (map (event_json sid) (session_events sid db))) /\
              events_linked None None (session_events sid db);
  xs_commitments : dict_get "commitments" (fr_bundle f) =
                     Some (VList (map (fun q => VStr (cm_commitment_hash (snd q))) (result_commitment_rows sid db))) /\
                   Forall (fun q => cm_kind (snd q) = "EPISODE_SELECTION" ->
                                    selection_verified s (eligible_episodes e) (snd q)) (result_commitment_rows sid db);
  xs_ledger : ledger_valid (ledger_transactions e);
  xs_proof : verifier_proof sid (cs_manifest_hash s) e = Ok (fr_proof f);
  xs_hash : dict_get "result_hash" (fr_bundle f) = Some (VStr (fr_result_hash f)) /\
            dict_get "result_hash" (fr_proof f) = Some (VStr (fr_result_hash f));
}.

Lemma result_command_rows_NoDup sid db :
  NoDup (map c_command_id (commands db)) -> NoDup (map c_command_id (result_command_rows sid db)).
Proof.
  intros H. unfold result_command_rows. rewrite (Permutation_map c_command_id (py_sorted_perm _ _)).
  induction (commands db) as [|r l IH]; [done|]. cbn [map] in H. apply NoDup_cons in H as [Hr H]. cbn [List.filter].
  destruct (String.eqb _ _); [|by apply IH]. cbn [map]. apply NoDup_cons. split; [|by apply IH].
  intros (x & E & [Hx _]%elem_of_filterb)%elem_of_mapl. apply Hr. rewrite E. apply elem_of_mapl. by exists x.
Qed.

Lemma proof_ledger sid mh e d : verifier_proof sid mh e = Ok d -> ledger_valid (ledger_transactions e).
Proof. unfold verifier_proof. intros H. repeat step_ok. by eapply ledger_commitment_sound. Qed.

Lemma validated_ruleset rid db au version hash :
  ruleset_value rid db = Ok (au_ruleset au) -> validate_ruleset au version hash = Ok tt ->
  exists rs, rulesets db !! rid = Some rs /\ rs_version rs = version /\ rs_hash rs = hash.
Proof.
  unfold ruleset_value. intros H Hv. repeat step_ok.
  match goal with H : of_option _ ?o = Ok _ |- _ => destruct o as [rs|] eqn:E; [injection H as <-|discriminate] end.
  exists rs. split; [done|]. unfold validate_ruleset in Hv.
  match goal with H : _ = au_ruleset au |- _ => rewrite <- H in Hv end. apply raise_if_Ok, orb_false_iff in Hv as [V1 V2].
  change (negb (String.eqb (rs_version rs) version) = false) in V1.
  change (negb (String.eqb (rs_hash rs) hash) = false) in V2.
  apply negb_false_iff, String.eqb_eq in V1. apply negb_false_iff, String.eqb_eq in V2. done.
Qed.

Lemma finalized_sound sid p e t db s rec au f :
  NoDup (map c_command_id (commands db)) -> finalized sid p e t db s rec au f -> export_sound sid p e db s f.
Proof.
  intros Hn [_ _ _ Ha Hb]. apply build_result_Ok in Hb as [Hm Hr _ Hp Hh (cs & es & xs & Hc & He & Hx & Eb)].
  apply authoritative_Ok in Ha as (_ & _ & Ar & Ac & Ae & Am).
  destruct (result_events_exported _ _ _ _ _ _ Ae He) as [Ee Le].
  destruct (commitment_exports_Ok _ _ _ _ _ Am Hx) as [Ec Hf].
  constructor; [by eapply validated_ruleset| | | |by eapply proof_ledger|exact Hp|].
  - rewrite Eb. eapply result_commands_exported; [by apply result_command_rows_NoDup|exact Ac|exact Hc].
  - rewrite Eb. split; [|exact Le].
    change (Some (VList (map VDict es)) = Some (VList (map (event_json sid) (session_events sid db)))). by rewrite Ee.
  - rewrite Eb. split; [|exact Hf].
    change (Some (VList (map VStr (fst xs))) = Some (VList (map (fun q => VStr (cm_commitment_hash (snd q))) (result_commitment_rows sid db)))).
    by rewrite Ec, map_map.
  - split; [apply Hm|by apply rs_string_field_Ok].
Qed.

(** C23. A frozen result is sound.  If [finalize] succeeds on a session without a stored result, then the
    session is completed with a committed setup, and the frozen package agrees with what is persisted
    and with the evidence: the ruleset row has the version and hash of the setup; the exported commands
    are exactly the stored ones, each with its own metadata, in strictly increasing arrival order; the
    exported events are the stored ones in order, with linked hashes; every stored episode selection
    verifies against its commitment hash and revealed secret; the ledger has distinct transaction ids,
    ordered sequences and balances in every currency; and the proof is the verifier proof of the
    evidence, whose result hash the bundle carries. *)
Theorem finalize_sound sid p e t db f db1 :
  NoDup (map c_command_id (commands db)) -> result_bundles db !! sid = None ->
  finalize sid p e t db = (Ok f, db1) ->
  exists rec s, get_session sid p db = (Ok rec, db) /\ ss_status rec = COMPLETED /\ ss_setup rec = Some s /\
    fr_session_id f = sid /\ fr_created_at_ns f = t /\ export_sound sid p e db s f.
Proof.
  intros Hn Hr (s & rec & au & f' & Z & Hf)%finalize_Ok.
  pose proof (build_result_Ok _ _ _ _ _ _ _ (fz_build _ _ _ _ _ _ _ _ _ Z)) as B.
  destruct (bl_fields _ _ _ _ _ _ _ B) as (Es & Et & _). rewrite <- Es in Hr.
  destruct (freeze_new _ _ _ _ _ Hr Hf) as (-> & _ & _).
  destruct (completed_session_Ok _ _ _ _ _ (fz_session _ _ _ _ _ _ _ _ _ Z)) as (_ & Hg & Hs).
  exists rec, s. split_and!; [done|done|apply Z|done|done|]. by eapply finalized_sound.
Qed.

(** ** A concrete result

    A session is created, its episode is drawn and sealed, two orders are accepted while it runs, it
    completes and the selection is revealed; then the result is frozen. *)

#[local] Transparent sha256.

Module Demo.

Definition no_setup : SelectionSetup := mk_selection_setup "" "" "" 0 0 "" [] [] false.
Definition selection_of (r : option SessionRecord) : SelectionSetup :=
  match r with
  | Some r => match ss_setup r with
              | Some s => match selection_setup s with Ok x => x | Raise _ => no_setup end
              | None => no_setup
              end
  | None => no_setup
  end.
(** The selection setup of the setup that the session commits. *)
Definition selection : SelectionSetup := selection_of (state (demo_sessions 2) "s1").
Definition episodes : list EligibleEpisode :=
  [mk_episode "ep-1" demo_digest 200 500; mk_episode "ep-2" demo_digest 300 600].

Definition sealed_db : Db :=
  snd (prepare_episode_selection Commitment.Demo.key "c1" "s1" "alice" selection episodes [x05] demo_secret
         (be_bytes 12 3) (demo_sessions 1)).
Definition running_db : Db :=
  run_calls [Session.Commit demo_catalog "s1" "alice" 0 demo_request; Start "s1" "alice" 1] sealed_db.
Definition order (key : string) (expected : Z) (db : Db) : Db :=
  snd (submit_order (Some demo_quote) 50 "s1" "alice" key expected demo_order db).
Definition completed_db : Db :=
  run_calls [Session.Advance "s1" "alice" 4 500; Complete "s1" "alice" 5] (order "key-2" 3 (order "key-1" 2 running_db)).
Definition demo_db : Db := snd (reveal_completed Commitment.Demo.key "s1" "alice" completed_db).

(** The second order arrived first. *)
Definition metadata_for (ids : list string) : list CommandReplayMetadata :=
  match ids with
  | [a; b] => [mk_metadata a 300 9; mk_metadata b 250 3]
  | _ => []
  end.
Definition demo_metadata : list CommandReplayMetadata := metadata_for (map c_command_id (commands demo_db)).
Definition demo_evidence : ResultEvidence :=
  mk_evidence demo_metadata [mk_canonical_input "s1" 0 0 1000 "BAR_UPDATE" "00ff"]
    [mk_state_hash 0 ResultModel.Demo.sha_a] [ResultModel.Demo.fee ResultModel.Demo.postings]
    (mk_metrics true 10 (-20) 30 40) episodes.
Definition no_result : FrozenResult := mk_frozen "" "" "" "" "" 0 [] [] [] false.
Definition frozen_of (r : result FrozenResult) : FrozenResult := match r with Ok f => f | Raise _ => no_result end.
Definition frozen : FrozenResult := frozen_of (fst (finalize "s1" "alice" demo_evidence 77 demo_db)).
Definition frozen_db : Db := snd (finalize "s1" "alice" demo_evidence 77 demo_db).

Lemma finalize_eq : finalize "s1" "alice" demo_evidence 77 demo_db = (Ok frozen, frozen_db).
Proof.
  assert (is_ok (fst (finalize "s1" "alice" demo_evidence 77 demo_db)) = true) as H by (vm_compute; reflexivity).
  unfold frozen, frozen_db. destruct (finalize _ _ _ _ _) as [[f|x] d]; [reflexivity|discriminate H].
Qed.

End Demo.

Lemma finalize_write_once_witness :
  get_result "s1" "alice" Demo.frozen_db = (Ok Demo.frozen, Demo.frozen_db) /\
  finalize "s1" "alice" Demo.demo_evidence 99 Demo.frozen_db = (Ok (with_replayed true Demo.frozen), Demo.frozen_db).
Proof.
  assert (result_bundles Demo.demo_db !! "s1" = None) as Hn by (vm_compute; reflexivity).
  destruct (finalize_write_once _ _ _ _ _ _ _ Demo.finalize_eq Hn) as (_ & Hg & Hr).
  split; [|apply Hr; reflexivity].
  destruct (Hg Demo.frozen_db) as [G _]; [|reflexivity|exact G].
  eexists. split; [vm_compute; reflexivity|reflexivity].
Defined.

Lemma finalize_sound_witness :
  exists rec s, get_session "s1" "alice" Demo.demo_db = (Ok rec, Demo.demo_db) /\ ss_status rec = COMPLETED /\
    ss_setup rec = Some s /\ fr_session_id Demo.frozen = "s1" /\ fr_created_at_ns Demo.frozen = 77 /\
    export_sound "s1" "alice" Demo.demo_evidence Demo.demo_db s Demo.frozen.
Proof.
  apply (finalize_sound "s1" "alice" Demo.demo_evidence 77 Demo.demo_db Demo.frozen Demo.frozen_db).
  - apply (bool_decide_eq_true_1 (NoDup (map c_command_id (commands Demo.demo_db)))). vm_compute. reflexivity.
  - vm_compute. reflexivity.
  - exact Demo.finalize_eq.
Defined.
