(* ===== verification/System.v ===== *)
(** * The whole service: every writer over one database

    [api_step] is one call of any operation of the API that writes, successful or not: session
    operations, trading commands, appends to the event store, coordinated replay advances, episode
    commitments and result finalization.  The theorems compose the components: what one of them
    promised still holds after any interleaving of the others. *)

From S2P Require Import Prelude Sort PyStr Bytes PyJson JsonParse Catalog Db EventStore SessionModel Session Frame Commands ReplayModel ReplayRun Replay CommitmentModel Commitment ResultModel Results.
From Stdlib Require String.

(** ** What every operation keeps *)

Record api_le (db db' : Db) : Prop := mk_api_le {
  al_commands : commands_ok db -> commands_ok db';
  al_grow : commands_grow db db';
  al_results : forall sid r, result_bundles db !! sid = Some r -> result_bundles db' !! sid = Some r;
}.

#[export] Instance api_le_preorder : PreOrder api_le.
Proof.
  split.
  - intros db. by split.
  - intros a b c [A1 A2 A3] [B1 B2 B3]. split; [auto|by etransitivity|auto].
Qed.

Lemma owners_has_session sid db db' : owners_kept db db' -> has_session sid db = true -> has_session sid db' = true.
Proof.
  unfold has_session. intros Ho. destruct (sessions db !! sid) as [row|] eqn:E; [|done]. intros _.
  destruct (Ho _ _ E) as (row' & -> & _). done.
Qed.

(** Keeping the commands, the owners and the stored results. *)
Lemma api_le_of db db' :
  commands db' = commands db -> owners_kept db db' ->
  (forall sid r, result_bundles db !! sid = Some r -> result_bundles db' !! sid = Some r) -> api_le db db'.
Proof.
  intros Hc Ho Hr. split; [| |done].
  - intros [K1 K2 K3 K4]. split; rewrite Hc; [done..| |done]. intros r Hin. eapply owners_has_session; eauto.
  - split; [by rewrite Hc|exact Ho].
Qed.

Lemma session_frame_api db db' : session_frame db db' -> api_le db db'.
Proof. intros [Hc _ _ Hb Ho]. apply api_le_of; [done|done|]. by rewrite Hb. Qed.

Lemma keeps_mono {S A} (R R' : S -> S -> Prop) (m : ST S A) :
  (forall s s', R s s' -> R' s s') -> keeps R m -> keeps R' m.
Proof. intros HR Hm s r s' H. eapply HR, Hm, H. Qed.

Lemma keeps_same_tables {A} (m : ST Db A) :
  keeps (fun db db' => commands db' = commands db /\ sessions db' = sessions db /\
                       forall sid r, result_bundles db !! sid = Some r -> result_bundles db' !! sid = Some r) m ->
  keeps api_le m.
Proof.
  apply keeps_mono. intros db db' (Hc & Hs & Hr). apply api_le_of; [done| |done].
  intros sid row Hrow. exists row. by rewrite Hs.
Qed.

Lemma api_insert_event r : keeps api_le (insert_event r).
Proof. eapply keeps_mono; [apply session_frame_api|apply keeps_insert_event]. Qed.
Lemma api_insert_events rs : keeps api_le (insert_events rs).
Proof. induction rs as [|r rs IH]; cbn [insert_events]; [apply keeps_ret, _|]. apply keeps_bind; [apply _|apply api_insert_event|done]. Qed.
Lemma api_update_session sid cond f :
  (forall row, s_principal_id (f row) = s_principal_id row) -> keeps api_le (update_session sid cond f).
Proof. intros Hf. eapply keeps_mono; [apply session_frame_api|by apply keeps_update_session]. Qed.
Lemma api_insert_snapshot r : keeps api_le (insert_snapshot r).
Proof. apply keeps_same_tables. intros db x db'. unfold insert_snapshot. case_match; by intros [= _ <-]. Qed.
Lemma api_insert_commitment cid r : keeps api_le (insert_commitment cid r).
Proof. apply keeps_same_tables. intros db x db'. unfold insert_commitment. case_match; by intros [= _ <-]. Qed.
Lemma api_update_revealed cid s : keeps api_le (update_revealed cid s).
Proof. apply keeps_same_tables. intros db x db'. unfold update_revealed. by intros [= _ <-]. Qed.
Lemma api_insert_result sid r : keeps api_le (insert_result sid r).
Proof.
  apply keeps_same_tables. intros db x db'. unfold insert_result.
  destruct (result_bundles db !! sid) eqn:E; [by intros [= _ <-]|]. cbn [orb].
  destruct (negb _); intros [= _ <-]; [done|]. split_and!; [done|done|]. intros o row Ho. cbn.
  rewrite lookup_insert_ne; [done|congruence].
Qed.

Lemma api_insert_command r : (exists p, command_mapping (c_payload r) = Ok p) -> keeps api_le (insert_command r).
Proof.
  intros Hp db x db' H. destruct x as [u|e].
  2: { unfold insert_command in H. revert H. case_match; [by intros [= _ <-]|discriminate]. }
  apply insert_command_Ok in H as (Hk & Hid & Hs & ->). split; [|split|done].
  - intros [K1 K2 K3 K4]. split; cbn.
    + rewrite map_app. apply NoDup_app. split_and!; [done| |apply NoDup_singleton].
      intros y Hy Hy2. apply list_elem_of_singleton in Hy2 as ->. apply elem_of_mapl in Hy as (q & E & Hq).
      assert (q ∈ commands_of (c_session_id r) (c_idempotency_key r) db) as Hn by by apply elem_of_commands_of.
      rewrite Hk in Hn. by apply not_elem_of_nil in Hn.
    + rewrite map_app. apply NoDup_app. split_and!; [done| |apply NoDup_singleton].
      intros y Hy Hy2. apply list_elem_of_singleton in Hy2 as ->. apply elem_of_mapl in Hy as (q & E & Hq). by apply (Hid q).
    + intros y [Hy|Hy]%elem_of_app; [by apply K3|]. apply list_elem_of_singleton in Hy as ->. exact Hs.
    + intros y [Hy|Hy]%elem_of_app; [by apply K4|]. apply list_elem_of_singleton in Hy as ->. exact Hp.
  - intros y Hy. apply elem_of_app. by left.
  - intros sid row Hrow. by exists row.
Qed.

#[export] Hint Resolve api_insert_event api_insert_events api_insert_snapshot api_insert_commitment
  api_update_revealed api_insert_result : frame.
#[export] Hint Extern 2 (keeps api_le (update_session _ _ _)) => apply api_update_session; done : frame.
#[export] Hint Extern 2 (keeps _ (fun s => (_, s))) => apply keeps_read, _ : frame.

(** ** The operations *)

Lemma api_session c : keeps api_le (run_call c).
Proof. eapply keeps_mono; [apply session_frame_api|apply run_call_frame]. Qed.

Lemma api_read {A} (m : ST Db A) : (forall db r db', m db = (r, db') -> db' = db) -> keeps api_le m.
Proof. intros Hm db r db' ->%Hm. done. Qed.

Lemma api_append c events :
  (exists p, command_mapping (cmd_payload c) = Ok p) -> keeps api_le (append_command c events).
Proof.
  intros Hp. unfold append_command. apply keeps_reraise, keeps_transaction; [apply _|].
  apply keeps_bind; [apply _| |].
  - apply api_read. intros db r db'. unfold idempotent_retry. repeat case_match; by intros [= _ <-].
  - intros [r|]; [apply keeps_ret, _|]. unfold append_fresh. frame. by apply api_insert_command.
Qed.

Lemma api_accept sid p key expected now pc :
  str_keys (pc_payload pc) = true -> keeps api_le (accept sid p key expected now pc).
Proof.
  intros Hk. unfold accept, command_session, accept_new. frame. apply api_insert_command. exists (pc_payload pc). cbn. by rewrite Hk.
Qed.

Lemma api_prepare `{AEAD} mk cid sid p setup eps nonce e32 e12 :
  keeps api_le (prepare_episode_selection mk cid sid p setup eps nonce e32 e12).
Proof. unfold prepare_episode_selection, Commitment.require_session. frame. Qed.

Lemma api_reveal `{AEAD} mk sid p : keeps api_le (reveal_completed mk sid p).
Proof. unfold reveal_completed, Commitment.require_session, commitment_row_of. frame. Qed.

Lemma api_freeze f p : keeps api_le (freeze f p).
Proof.
  unfold freeze, Results.require_principal. frame.
Qed.

Lemma api_finalize sid p e t : keeps api_le (finalize sid p e t).
Proof.
  intros db r db' [[_ ->]|(s & rec & au & f & _ & Hf)]%finalize_cases; [done|]. by eapply api_freeze.
Qed.

Lemma api_save sid p v c : keeps api_le (save sid p v c).
Proof.
  unfold save, ReplayModel.require_principal. frame.
Qed.

Section Advance.
Context {Sim : Type} `{SimulatorPort Sim} `{ReplaySource}.

(** The store before and after a computation over the store and the simulator. *)
Definition fst_le (w w' : Db * Sim) : Prop := api_le (fst w) (fst w').

#[local] Instance fst_le_preorder : PreOrder fst_le.
Proof. split; [by intros [db x]|]. intros a b c H1 H2. unfold fst_le in *. by etransitivity. Qed.

Lemma keeps_on_db {A} (m : ST Db A) : keeps api_le m -> keeps fst_le (on_db m).
Proof.
  intros Hm [db x] r w'. unfold on_db. cbn. destruct (m db) as [y db'] eqn:E. intros [= <- <-]. by eapply Hm.
Qed.
Lemma keeps_on_sim {A} (m : ST Sim A) : keeps fst_le (on_sim m).
Proof. intros [db x] r w'. unfold on_sim. cbn. destruct (m x) as [y x']. by intros [= <- <-]. Qed.

Lemma api_advance_to fuel sid p v target b : keeps fst_le (advance_to fuel sid p v target b).
Proof.
  unfold advance_to. frame; try apply keeps_on_sim; apply keeps_on_db.
  - apply api_read. intros db r db' Hr. by eapply get_session_same.
  - unfold load_latest, ReplayModel.require_principal. frame.
  - apply api_save.
  - eapply (api_session (Advance sid p _ target)).
  - apply api_save.
Qed.
End Advance.

(** ** Histories *)

(** What [_prepare] gives [accept]: a payload with its canonical hash. *)
Definition prepared_made (pc : PreparedCommand) : Prop := canonical_payload_hash (pc_payload pc) = Ok (pc_payload_hash pc).

Lemma prepared_str_keys pc : prepared_made pc -> str_keys (pc_payload pc) = true.
Proof. intros (text & Hr & _)%canonical_payload_hash_Ok. by apply str_keys_reject. Qed.

Section History.
Context {Sim : Type} `{SimulatorPort Sim} `{ReplaySource} `{AEAD} (master_key : bytes).

Inductive api_step (db db' : Db) : Prop :=
| api_session_call c r : run_call c db = (r, db') -> api_step db db'
| api_append_command c events r :
    (exists p, command_mapping (cmd_payload c) = Ok p) -> append_command c events db = (r, db') -> api_step db db'
| api_accept_command sid p key expected now pc r :
    prepared_made pc -> accept sid p key expected now pc db = (r, db') -> api_step db db'
| api_advance fuel sid p v target batch x r x' :
    advance_to fuel sid p v target batch (db, x) = (r, (db', x')) -> api_step db db'
| api_prepare_selection cid sid p setup eps nonce e32 e12 r :
    prepare_episode_selection master_key cid sid p setup eps nonce e32 e12 db = (r, db') -> api_step db db'
| api_reveal_selection sid p r : reveal_completed master_key sid p db = (r, db') -> api_step db db'
| api_finalize_result sid p e t r : finalize sid p e t db = (r, db') -> api_step db db'.

Lemma api_step_le db db' : api_step db db' -> api_le db db'.
Proof.
  intros [c r Hs|c ev r Hp Hs|sid p key expected now pc r Hp Hs|fuel sid p v target b x r x' Hs
    |cid sid p setup eps nonce e32 e12 r Hs|sid p r Hs|sid p e t r Hs].
  - by eapply api_session.
  - by eapply api_append.
  - by eapply api_accept; [apply prepared_str_keys|].
  - by eapply (api_advance_to fuel sid p v target b (db, x) r (db', x')).
  - by eapply api_prepare.
  - by eapply api_reveal.
  - by eapply api_finalize.
Qed.

Lemma api_history_le db db' : rtc api_step db db' -> api_le db db'.
Proof. induction 1 as [|a b c Hs _ IH]; [done|]. etransitivity; [by apply api_step_le|done]. Qed.

Lemma empty_commands_ok : commands_ok empty_db.
Proof. split; cbn; [apply NoDup_nil_2|apply NoDup_nil_2| |]; by intros r ?%not_elem_of_nil. Qed.

Lemma reachable_commands_ok db : rtc api_step empty_db db -> commands_ok db.
Proof. intros Hh%api_history_le. apply Hh, empty_commands_ok. Qed.

(** ** Commands *)

Definition as_replayed (r : AcceptedCommand) : AcceptedCommand :=
  mk_accepted (ac_command_id r) (ac_session_id r) (ac_idempotency_key r) (ac_payload_hash r)
    (ac_expected_session_version r) (ac_resulting_session_version r) (ac_accepted_at_ns r) (ac_payload r) true.

Lemma accept_owner sid p key expected now pc db r db' :
  accept sid p key expected now pc db = (Ok r, db') -> owns sid p db.
Proof.
  intros Ha. unfold accept in Ha.
  do 5 (apply sbind_Ok in Ha as (? & ? & Hl & Ha); apply lift_Ok in Hl as [_ ->]).
  apply reraise_inv, transaction_inv, sbind_Ok in Ha as (row & ? & Hs & _).
  apply command_session_Ok in Hs as (-> & Hs & Hp). by exists row.
Qed.

(** A successful [accept] leaves a row of the command it returned. *)
Lemma accept_stored sid p key expected now pc db r db' :
  commands_ok db -> str_keys (pc_payload pc) = true -> accept sid p key expected now pc db = (Ok r, db') ->
  exists row, row ∈ commands db' /\ command_key row = (sid, key) /\ materialize_command row true = Ok (as_replayed r) /\
    c_payload_hash row = pc_payload_hash pc /\ ac_payload_hash r = pc_payload_hash pc.
Proof.
  intros Hok Hk [(-> & row & _ & Hc & Hh & Hm)|(srow & cid & _ & _ & _ & _ & _ & _ & _ & _ & -> & ->)]%accept_Ok.
  - assert (row ∈ commands_of sid key db) as [Hin Hkey]%elem_of_commands_of by (rewrite Hc; apply list_elem_of_here).
    exists row. split_and!; [done|done| |done|].
    + unfold materialize_command in *. repeat step_ok. subst r.
      match goal with E : command_mapping _ = Ok _ |- _ => by rewrite E end.
    + unfold materialize_command in Hm. repeat step_ok. by subst r.
  - exists (mk_command_row cid sid key (pc_payload_hash pc) expected now (VDict (pc_payload pc))).
    split_and!; [apply elem_of_app; right; apply list_elem_of_here|done| |done|done].
    unfold materialize_command. cbn. by rewrite Hk.
Qed.

(** C24. A command takes effect exactly once.  In any history of the service, after an accepted command
    and any further operations by anyone, sending its idempotency key again never changes the store:
    with the same payload hash it returns the original command, its id, versions, time and payload,
    marked as a replay; with another it is refused as a conflict. *)
Theorem accept_exactly_once db sid p key expected now pc r db1 db2 expected' now' pc' :
  rtc api_step empty_db db -> prepared_made pc ->
  accept sid p key expected now pc db = (Ok r, db1) -> rtc api_step db1 db2 ->
  accept_args_ok sid p key expected' now' = true ->
  accept sid p key expected' now' pc' db2 =
    (if String.eqb (ac_payload_hash r) (pc_payload_hash pc') then Ok (as_replayed r)
     else Raise (command_error C_IDEMPOTENCY_CONFLICT), db2).
Proof.
  intros Hh Hpc Ha Hrest Hargs. pose proof (reachable_commands_ok _ Hh) as Hok.
  pose proof (prepared_str_keys _ Hpc) as Hk. destruct (accept_owner _ _ _ _ _ _ _ _ _ Ha) as (srow & Hs & Hp).
  destruct (accept_stored _ _ _ _ _ _ _ _ _ Hok Hk Ha) as (row & Hin & Hkey & Hm & Eh & Er).
  pose proof (api_accept _ _ _ _ _ _ Hk _ _ _ Ha) as L1. pose proof (api_history_le _ _ Hrest) as L2.
  assert (api_le db db2) as L by by etransitivity.
  destruct (proj2 (al_grow _ _ L) _ _ Hs) as (srow2 & Hs2 & Hp2). apply (proj1 (al_grow _ _ L2)) in Hin.
  pose proof Hm as Hm'. unfold materialize_command in Hm'. apply rbind_Ok in Hm' as (payload & Hpay & _).
  rewrite (accept_used sid p key expected' now' pc' db2 row srow2 payload); [|by apply L|done|done|congruence|done|done|done].
  rewrite Er, Eh. destruct (String.eqb _ _); [|done]. f_equal. f_equal.
  unfold materialize_command in Hm. rewrite Hpay in Hm. cbn [rbind] in Hm. injection Hkey as <- <-. congruence.
Qed.

(** ** Results *)

(** C25. A published result is sound and permanent.  In any history of the service, when [finalize]
    freezes a result, the result agrees with everything persisted and with the evidence, and after any
    further operations by anyone its owner reads exactly the same result. *)
Theorem published_result_permanent db sid p e t f db1 db2 :
  rtc api_step empty_db db -> result_bundles db !! sid = None ->
  finalize sid p e t db = (Ok f, db1) -> rtc api_step db1 db2 ->
  (exists s, export_sound sid p e db s f) /\ get_result sid p db2 = (Ok f, db2).
Proof.
  intros Hh Hn (s & rec & au & f' & Z & Hf)%finalize_Ok Hrest.
  destruct (finalized_made _ _ _ _ _ _ _ _ _ Z) as (Hm & Es & Er). rewrite <- Es in Hn.
  destruct (freeze_new _ _ _ _ _ Hn Hf) as (-> & (row & Hrow & Hp) & ->). split.
  - exists s. eapply finalized_sound; [|exact Z]. apply ko_ids. by apply reachable_commands_ok.
  - pose proof (api_history_le _ _ Hrest) as [_ [_ Ho] Hr].
    destruct (Ho (fr_session_id f') row) as (row' & Hrow' & Hp'); [exact Hrow|].
    rewrite <- (with_replayed_fresh _ Er), <- Es. apply get_result_frozen; [done|exists row'; split; [done|congruence]|].
    apply Hr. apply lookup_insert_eq.
Qed.
End History.

(** ** A concrete history

    The history of [Results.Demo]: a sealed selection, two orders, completion, reveal, result. *)

Module Demo.

Abbreviation step := (api_step (Sim := SimulatorState) Commitment.Demo.key).

Lemma run_calls_api cs : forall db, rtc step db (run_calls cs db).
Proof.
  induction cs as [|c cs IH]; intros db; [constructor|]. eapply rtc_l; [|apply IH].
  by apply (api_session_call _ _ _ c (fst (run_call c db))), surjective_pairing.
Qed.

Definition first_order : PreparedCommand := demo_prepared demo_quote.

Lemma first_order_made : prepared_made first_order.
Proof. vm_compute. reflexivity. Qed.

Lemma order_accept key v db :
  Results.Demo.order key v db = snd (accept "s1" "alice" key v 50 first_order db).
Proof.
  unfold Results.Demo.order, submit_order, sbind, lift.
  assert (prepare_order (Some demo_quote) demo_order = Ok first_order) as -> by (vm_compute; reflexivity). done.
Qed.

Lemma order_api key v db : step db (Results.Demo.order key v db).
Proof.
  rewrite order_accept.
  by apply (api_accept_command _ _ _ "s1" "alice" key v 50 first_order (fst (accept "s1" "alice" key v 50 first_order db))
    first_order_made), surjective_pairing.
Qed.

Lemma prepare_api cid sid p setup eps nonce e32 e12 db :
  step db (snd (prepare_episode_selection Commitment.Demo.key cid sid p setup eps nonce e32 e12 db)).
Proof. eapply api_prepare_selection, surjective_pairing. Qed.

Lemma reveal_api sid p db : step db (snd (reveal_completed Commitment.Demo.key sid p db)).
Proof. eapply api_reveal_selection, surjective_pairing. Qed.

Lemma sealed_history : rtc step empty_db Results.Demo.sealed_db.
Proof.
  eapply rtc_r; [apply (run_calls_api (take 1 demo_calls))|]. apply prepare_api.
Qed.

Lemma running_history : rtc step empty_db Results.Demo.running_db.
Proof. etransitivity; [apply sealed_history|apply run_calls_api]. Qed.

Definition ordered_db : Db := Results.Demo.order "key-1" 2 Results.Demo.running_db.

#[local] Opaque run_calls reveal_completed Results.Demo.order.

Lemma later_history : rtc step ordered_db Results.Demo.demo_db.
Proof.
  unfold Results.Demo.demo_db, Results.Demo.completed_db, ordered_db.
  eapply rtc_l; [apply (order_api "key-2" 3)|]. eapply rtc_r; [apply run_calls_api|apply reveal_api].
Qed.

Lemma full_history : rtc step empty_db Results.Demo.demo_db.
Proof. etransitivity; [apply running_history|]. eapply rtc_l; [apply (order_api "key-1" 2)|apply later_history]. Qed.

#[local] Transparent run_calls reveal_completed Results.Demo.order.

Lemma frozen_later : rtc step Results.Demo.frozen_db (run_calls demo_calls Results.Demo.frozen_db).
Proof. apply run_calls_api. Qed.

Definition no_command : AcceptedCommand := mk_accepted "" "" "" "" 0 0 0 [] false.
Definition accepted_of (r : result AcceptedCommand) : AcceptedCommand := match r with Ok a => a | Raise _ => no_command end.
Definition first_result : AcceptedCommand :=
  accepted_of (fst (accept "s1" "alice" "key-1" 2 50 first_order Results.Demo.running_db)).

Lemma first_accepted :
  accept "s1" "alice" "key-1" 2 50 first_order Results.Demo.running_db = (Ok first_result, ordered_db).
Proof.
  assert (is_ok (fst (accept "s1" "alice" "key-1" 2 50 first_order Results.Demo.running_db)) = true) as H
    by (vm_compute; reflexivity).
  unfold first_result, ordered_db. rewrite order_accept.
  destruct (accept _ _ _ _ _ _ _) as [[a|e] d]; [reflexivity|discriminate H].
Qed.

End Demo.

Lemma accept_exactly_once_witness :
  accept "s1" "alice" "key-1" 5 999 Demo.first_order Results.Demo.demo_db =
    (Ok (as_replayed Demo.first_result), Results.Demo.demo_db).
Proof.
  rewrite (accept_exactly_once (Sim := SimulatorState) Commitment.Demo.key Results.Demo.running_db "s1" "alice" "key-1" 2 50
    Demo.first_order Demo.first_result Demo.ordered_db Results.Demo.demo_db 5 999 Demo.first_order
    Demo.running_history Demo.first_order_made Demo.first_accepted Demo.later_history eq_refl).
  assert (String.eqb (ac_payload_hash Demo.first_result) (pc_payload_hash Demo.first_order) = true) as E
    by (vm_compute; reflexivity).
  rewrite E. reflexivity.
Defined.

Lemma published_result_permanent_witness :
  let later := run_calls demo_calls Results.Demo.frozen_db in
  (exists s, export_sound "s1" "alice" Results.Demo.demo_evidence Results.Demo.demo_db s Results.Demo.frozen) /\
  get_result "s1" "alice" later = (Ok Results.Demo.frozen, later).
Proof.
  intros later.
  apply (published_result_permanent (Sim := SimulatorState) Commitment.Demo.key Results.Demo.demo_db "s1" "alice" Results.Demo.demo_evidence 77
    Results.Demo.frozen Results.Demo.frozen_db later).
  - exact Demo.full_history.
  - vm_compute. reflexivity.
  - exact Results.Demo.finalize_eq.
  - exact Demo.frozen_later.
Defined.
