(* ===== verification/MarketModel.v ===== *)
(** * Market data ([apps/api/.../market/model.py], [service.py], [router.py])

    Canonical trades, quotes and depth snapshots, the source boundary, and the service that reads
    them only through the replay frontier of a session, with its page cache.  The data source is a
    port ([MarketDataSource]); what the code relies on it for is stated where it is used. *)

From S2P Require Import Prelude Sort PyStr Bytes PyJson Catalog Db SessionModel Session.
From S2P Require Commands.
From Stdlib Require Import Ascii Strings.Byte.
From Stdlib Require String.

Definition market_error (c : MarketErrorCode) : exn := MarketServiceError c.

(** ** Events *)

Record Trade := mk_trade {
  tr_source_event_id : string;
  tr_source_sequence : Z;
  tr_ts_ns : Z;
  tr_price_atoms : Z;
  tr_quantity_atoms : Z;
}.

Record Bbo := mk_bbo {
  bb_source_event_id : string;
  bb_source_sequence : Z;
  bb_ts_ns : Z;
  bb_bid_price_atoms : Z;
  bb_bid_quantity_atoms : Z;
  bb_ask_price_atoms : Z;
  bb_ask_quantity_atoms : Z;
}.

Record DepthLevel := mk_level {
  dl_price_atoms : Z;
  dl_quantity_atoms : Z;
}.

Record DepthSnapshot := mk_depth {
  dp_source_event_id : string;
  dp_source_sequence : Z;
  dp_ts_ns : Z;
  dp_bids : list DepthLevel;
  dp_asks : list DepthLevel;
}.

Definition market_identity (v : string) : result unit := raise_if (is_empty v || has_control v) ValueError.
Definition market_i64 (v : Z) : result unit := raise_if ((v <? I64_MIN) || (I64_MAX <? v)) ValueError.
Definition market_u64 (v : Z) : result unit := raise_if ((v <? 0) || (U64_MAX <? v)) ValueError.
Definition positive_i64 (v : Z) : result unit := let! _ := market_i64 v in raise_if (v <=? 0) ValueError.
Definition positive_u64 (v : Z) : result unit := let! _ := market_u64 v in raise_if (v =? 0) ValueError.

Definition Trade_post_init (t : Trade) : result unit :=
  let! _ := market_identity (tr_source_event_id t) in
  let! _ := market_u64 (tr_source_sequence t) in
  let! _ := market_i64 (tr_ts_ns t) in
  let! _ := positive_i64 (tr_price_atoms t) in
  positive_u64 (tr_quantity_atoms t).

Definition Bbo_post_init (q : Bbo) : result unit :=
  let! _ := market_identity (bb_source_event_id q) in
  let! _ := market_u64 (bb_source_sequence q) in
  let! _ := market_i64 (bb_ts_ns q) in
  let! _ := positive_i64 (bb_bid_price_atoms q) in
  let! _ := positive_i64 (bb_ask_price_atoms q) in
  let! _ := positive_u64 (bb_bid_quantity_atoms q) in
  let! _ := positive_u64 (bb_ask_quantity_atoms q) in
  raise_if (bb_ask_price_atoms q <=? bb_bid_price_atoms q) ValueError.

Definition DepthLevel_post_init (l : DepthLevel) : result unit :=
  let! _ := positive_i64 (dl_price_atoms l) in positive_u64 (dl_quantity_atoms l).

(** [max(...)] and [min(...)] of the prices of a nonempty sequence. *)
Definition py_max (l : list Z) : Z := match l with [] => 0 | x :: l' => fold_left Z.max l' x end.
Definition py_min (l : list Z) : Z := match l with [] => 0 | x :: l' => fold_left Z.min l' x end.

Definition DepthSnapshot_post_init (d : DepthSnapshot) : result unit :=
  let! _ := market_identity (dp_source_event_id d) in
  let! _ := market_u64 (dp_source_sequence d) in
  let! _ := market_i64 (dp_ts_ns d) in
  let! _ := raise_if (match dp_bids d, dp_asks d with _ :: _, _ :: _ => false | _, _ => true end) ValueError in
  raise_if (py_min (map dl_price_atoms (dp_asks d)) <=? py_max (map dl_price_atoms (dp_bids d))) ValueError.

(** What the three event types share ([T = TypeVar("T", Trade, Bbo, DepthSnapshot)]). *)
Class MarketEvent (T : Type) := {
  source_event_id : T -> string;
  source_sequence : T -> Z;
  ts_ns : T -> Z;
}.
#[export] Instance Trade_event : MarketEvent Trade :=
  {| source_event_id := tr_source_event_id; source_sequence := tr_source_sequence; ts_ns := tr_ts_ns |}.
#[export] Instance Bbo_event : MarketEvent Bbo :=
  {| source_event_id := bb_source_event_id; source_sequence := bb_source_sequence; ts_ns := bb_ts_ns |}.
#[export] Instance DepthSnapshot_event : MarketEvent DepthSnapshot :=
  {| source_event_id := dp_source_event_id; source_sequence := dp_source_sequence; ts_ns := dp_ts_ns |}.

(** One query of a source: manifest, instrument, start, through, after, limit. *)
Definition Query (T : Type) : Type := string -> string -> Z -> Z -> option Z -> Z -> result (list T).

Class MarketDataSource := {
  src_trades : Query Trade;
  src_bbo : Query Bbo;
  src_depth : Query DepthSnapshot;
  src_latest_bbo : string -> string -> Z -> Z -> result (option Bbo);
}.

(** ** The service *)

Definition SUPPORTED_INTERVALS_NS : list Z :=
  [1000000000; 5000000000; 15000000000; 60000000000; 300000000000; 900000000000; 3600000000000; 86400000000000].
Definition MAX_PAGE_SIZE : Z := 1000.

Record MarketPage := mk_page {
  pg_items : list pydict;
  pg_next_cursor : option string;
  pg_frontier : pydict;
}.

Record Context := mk_context {
  cx_session : SessionRecord;
  cx_frontier_ns : option Z;
  cx_start_ns : Z;
}.

Definition validate_query (start_offset_ns : Z) (after : option Z) (limit : Z) : result unit :=
  let! _ := raise_if (start_offset_ns <? 0) (market_error M_INVALID_QUERY) in
  let! _ := raise_if (match after with Some a => a <? 0 | None => false end) (market_error M_INVALID_QUERY) in
  raise_if (negb ((1 <=? limit) && (limit <=? MAX_PAGE_SIZE))) (market_error M_INVALID_QUERY).

Definition cx_setup (c : Context) : result CommittedSetup := of_option RuntimeError (ss_setup (cx_session c)).

Definition session_unavailable (e : exn) : exn :=
  match e with SessionLifecycleError _ => market_error M_SESSION_UNAVAILABLE | e => e end.

Definition frontier_of (s : CommittedSetup) (logical_time : option Z) : option Z :=
  match logical_time with
  | None => None
  | Some t =>
      let frontier := Z.min t (play_end_ns s - 1) in
      if frontier <? cs_play_start_ns s then None else Some frontier
  end.

Definition context (db : Db) (sid principal : string) (start_offset_ns : Z) : result Context :=
  let! _ := validate_query start_offset_ns None 1 in
  let! session := catch_res session_unavailable (fst (get_session sid principal db)) in
  let! s := of_option (market_error M_SESSION_NOT_COMMITTED) (ss_setup session) in
  let start_ns := cs_play_start_ns s + start_offset_ns in
  let! _ := raise_if ((start_ns <? cs_play_start_ns s) || (play_end_ns s <=? start_ns)) (market_error M_INVALID_QUERY) in
  Ok (mk_context session (frontier_of s (ss_logical_time_ns session)) start_ns).

(** [_validate_source_order]. *)
Fixpoint source_order {T} `{MarketEvent T} (prior_sequence prior_ts : option Z) (events : list T) : result unit :=
  match events with
  | [] => Ok tt
  | e :: events' =>
      let! _ := raise_if (match prior_sequence with Some p => source_sequence e <=? p | None => false end)
                  (market_error M_SOURCE_ORDER) in
      let! _ := raise_if (match prior_ts with Some p => ts_ns e <? p | None => false end) (market_error M_SOURCE_ORDER) in
      source_order (Some (source_sequence e)) (Some (ts_ns e)) events'
  end.
Definition validate_source_order {T} `{MarketEvent T} (events : list T) (after : option Z) : result unit :=
  source_order after None events.

Definition is_visible {T} `{MarketEvent T} (c : Context) (frontier : Z) (after : option Z) (e : T) : bool :=
  (cx_start_ns c <=? ts_ns e) && (ts_ns e <=? frontier)
  && match after with None => true | Some a => a <? source_sequence e end.

Definition visible {T} `{MarketEvent T} (events : list T) (c : Context) (after : option Z) (limit : Z) : result (list T) :=
  let! _ := validate_query 0 after limit in
  match cx_frontier_ns c with
  | None => Ok []
  | Some frontier =>
      let vis := List.filter (is_visible c frontier after) events in
      let! _ := validate_source_order vis after in
      Ok (take (Z.to_nat limit) vis)
  end.

Definition next_cursor {T} `{MarketEvent T} (events : list T) (limit : Z) : option string :=
  if Z.of_nat (length events) <? limit then None
  else match last events with None => None | Some e => Some (str_Z (source_sequence e)) end.

(** ** Projections *)

Definition event_id_bytes (sid source_id : string) : bytes :=
  utf8 "TRL-VISIBLE-EVENT-v1" ++ [x00] ++ utf8 sid ++ [x00] ++ utf8 source_id.
Definition visible_event_id (sid source_id : string) : string := "evt_" +:+ sha256_hex (event_id_bytes sid source_id).

Definition time_payload (c : Context) (t : Z) : result (list (string * pyval)) :=
  let! s := cx_setup c in
  if bool_decide (cs_visibility_mode s = ABSOLUTE) then Ok [("ts_ns", VStr (str_Z t))]
  else Ok [("offset_ns", VStr (str_Z (t - cs_play_start_ns s)))].

Definition frontier_payload (c : Context) : result pydict :=
  match cx_frontier_ns c with
  | None => Ok (obj [("offset_ns", VStr "-1")])
  | Some f => let! p := time_payload c f in Ok (obj p)
  end.

(** [{"event_id": ..., **time, ...rest}]: the keys are distinct. *)
Definition project {T} `{MarketEvent T} (c : Context) (e : T) (rest : list (string * pyval)) : result pydict :=
  let! p := time_payload c (ts_ns e) in
  Ok (obj (("event_id", VStr (visible_event_id (ss_session_id (cx_session c)) (source_event_id e))) :: p ++ rest)).

Definition project_trade (c : Context) (t : Trade) : result pydict :=
  project c t [("price_atoms", VStr (str_Z (tr_price_atoms t))); ("quantity_atoms", VStr (str_Z (tr_quantity_atoms t)))].

Definition project_bbo (c : Context) (q : Bbo) : result pydict :=
  project c q [("bid_price_atoms", VStr (str_Z (bb_bid_price_atoms q)));
               ("bid_quantity_atoms", VStr (str_Z (bb_bid_quantity_atoms q)));
               ("ask_price_atoms", VStr (str_Z (bb_ask_price_atoms q)));
               ("ask_quantity_atoms", VStr (str_Z (bb_ask_quantity_atoms q)))].

Definition project_level (l : DepthLevel) : pyval :=
  VDict (obj [("price_atoms", VStr (str_Z (dl_price_atoms l))); ("quantity_atoms", VStr (str_Z (dl_quantity_atoms l)))]).
Definition project_depth (c : Context) (d : DepthSnapshot) : result pydict :=
  project c d [("bids", VList (map project_level (dp_bids d))); ("asks", VList (map project_level (dp_asks d)))].

Definition project_candle (c : Context) (bucket interval_ns : Z) (trades : list Trade) : result pydict :=
  let prices := map tr_price_atoms trades in
  let volume := fold_left Z.add (map tr_quantity_atoms trades) 0 in
  let! s := cx_setup c in
  let! p := time_payload c (cs_play_start_ns s + bucket * interval_ns) in
  Ok (obj (p ++ [("open_atoms", VStr (str_Z (hd 0 prices))); ("high_atoms", VStr (str_Z (py_max prices)));
                 ("low_atoms", VStr (str_Z (py_min prices))); ("close_atoms", VStr (str_Z (List.last prices 0)));
                 ("base_volume_atoms", VStr (str_Z volume));
                 ("trade_count", VStr (str_Z (Z.of_nat (length trades))))])).

(** ** The cache *)

Definition CacheKey : Type := string * string * Z * option Z * string * Z * option Z * Z * option Z.
Abbreviation Cache := (gmap CacheKey MarketPage).

Definition cache_key (channel : string) (c : Context) (principal : string) (after : option Z) (limit : Z)
    (interval_ns : option Z) : result CacheKey :=
  let! _ := validate_query 0 after limit in
  Ok (principal, ss_session_id (cx_session c), ss_version (cx_session c), cx_frontier_ns c, channel, cx_start_ns c,
      after, limit, interval_ns).

Definition cache_put (k : CacheKey) (page : MarketPage) : ST Cache MarketPage := fun cache => (Ok page, <[k := page]> cache).

Definition cache_empty (k : CacheKey) (c : Context) : ST Cache MarketPage :=
  f <- lift (frontier_payload c) ;;
  cache_put k (mk_page [] None f).

(** [if cache_key in self._cache: return ...; if frontier is None: ...; fresh]. *)
Definition cached (k : CacheKey) (c : Context) (fresh : result MarketPage) : ST Cache MarketPage :=
  hit <- gets (fun cache : Cache => cache !! k) ;;
  match hit with
  | Some page => sret page
  | None =>
      match cx_frontier_ns c with
      | None => cache_empty k c
      | Some _ => page <- lift fresh ;; cache_put k page
      end
  end.

(** ** Reads *)

Definition read_page {T} `{MarketEvent T} (fetch : Query T) (project : Context -> T -> result pydict) (c : Context)
    (after : option Z) (limit : Z) : result MarketPage :=
  let! s := cx_setup c in
  let! frontier := of_option RuntimeError (cx_frontier_ns c) in
  let! events := fetch (cs_manifest_hash s) (cs_instrument_id s) (cx_start_ns c) frontier after limit in
  let! vis := visible events c after limit in
  let! items := rmap (project c) vis in
  let! f := frontier_payload c in
  Ok (mk_page items (next_cursor vis limit) f).

Section Service.
Context `{MarketDataSource}.

Definition trades (db : Db) (sid principal : string) (start_offset_ns : Z) (after : option Z) (limit : Z) : ST Cache MarketPage :=
  c <- lift (context db sid principal start_offset_ns) ;;
  k <- lift (cache_key "TRADES" c principal after limit None) ;;
  cached k c (read_page src_trades project_trade c after limit).

Definition bbo (db : Db) (sid principal : string) (start_offset_ns : Z) (after : option Z) (limit : Z) : ST Cache MarketPage :=
  c <- lift (context db sid principal start_offset_ns) ;;
  k <- lift (cache_key "BBO" c principal after limit None) ;;
  cached k c (read_page src_bbo project_bbo c after limit).

Definition depth (db : Db) (sid principal : string) (start_offset_ns : Z) (after : option Z) (limit : Z) : ST Cache MarketPage :=
  c <- lift (context db sid principal start_offset_ns) ;;
  k <- lift (cache_key "DEPTH" c principal after limit None) ;;
  cached k c (read_page src_depth project_depth c after limit).

(** [buckets.setdefault(bucket, []).append(trade)]. *)
Fixpoint bucket_add (b : Z) (t : Trade) (buckets : list (Z * list Trade)) : list (Z * list Trade) :=
  match buckets with
  | [] => [(b, [t])]
  | (b', ts) :: rest => if b =? b' then (b', ts ++ [t]) :: rest else (b', ts) :: bucket_add b t rest
  end.

(** The inner [for] loop. *)
Definition add_visible (c : Context) (play_start frontier interval_ns : Z) (buckets : list (Z * list Trade))
    (raw : list Trade) : list (Z * list Trade) :=
  fold_left (fun acc t =>
    if (cx_start_ns c <=? tr_ts_ns t) && (tr_ts_ns t <=? frontier)
    then bucket_add ((tr_ts_ns t - play_start) / interval_ns) t acc else acc) raw buckets.

Definition CandleState : Type := list (Z * list Trade) * option Z.

(** One iteration of the [while] loop. *)
Definition candle_step (c : Context) (s : CommittedSetup) (frontier interval_ns limit : Z) (st : CandleState)
    : CandleState + result (list (Z * list Trade)) :=
  let '(buckets, after) := st in
  if limit <? Z.of_nat (length buckets) then inr (Ok buckets)
  else match src_trades (cs_manifest_hash s) (cs_instrument_id s) (cx_start_ns c) frontier after MAX_PAGE_SIZE with
       | Raise e => inr (Raise e)
       | Ok raw =>
           match last raw with
           | None => inr (Ok buckets)
           | Some l =>
               match validate_source_order raw after with
               | Raise e => inr (Raise e)
               | Ok _ =>
                   let buckets' := add_visible c (cs_play_start_ns s) frontier interval_ns buckets raw in
                   if match after with Some a => source_sequence l <=? a | None => false end
                   then inr (Raise (market_error M_SOURCE_ORDER))
                   else if Z.of_nat (length raw) <? MAX_PAGE_SIZE then inr (Ok buckets')
                   else inl (buckets', Some (source_sequence l))
               end
           end
       end.

(** [2^64 + 1] iterations are never needed: [candles_terminate]. *)
Definition candle_buckets (c : Context) (interval_ns limit : Z) : result (list (Z * list Trade)) :=
  let! s := cx_setup c in
  match cx_frontier_ns c with
  | None => Ok []
  | Some frontier =>
      match iter_until 18446744073709551617 (candle_step c s frontier interval_ns limit) ([], None) with
      | inr r => r
      | inl _ => Raise OutOfFuel
      end
  end.

Definition candle_page (c : Context) (interval_ns limit : Z) : result MarketPage :=
  let! buckets := candle_buckets c interval_ns limit in
  let! items := rmap (fun p => project_candle c (fst p) interval_ns (snd p))
                  (take (Z.to_nat limit) (py_sorted fst buckets)) in
  let! f := frontier_payload c in
  Ok (mk_page items None f).

Definition candles (db : Db) (sid principal : string) (interval_ns start_offset_ns limit : Z) : ST Cache MarketPage :=
  lift (raise_if (negb (bool_decide (interval_ns ∈ SUPPORTED_INTERVALS_NS))) (market_error M_UNSUPPORTED_INTERVAL)) ;;;
  c <- lift (context db sid principal start_offset_ns) ;;
  k <- lift (cache_key "CANDLES" c principal None limit (Some interval_ns)) ;;
  cached k c (candle_page c interval_ns limit).

Definition current_quote (db : Db) (sid principal : string) : result (option Commands.VisibleQuote) :=
  let! c := context db sid principal 0 in
  match cx_frontier_ns c with
  | None => Ok None
  | Some frontier =>
      let! s := cx_setup c in
      let warmup_start := cs_play_start_ns s - cs_warmup_ns s in
      let! quote := src_latest_bbo (cs_manifest_hash s) (cs_instrument_id s) warmup_start frontier in
      match quote with
      | None => Ok None
      | Some q =>
          if frontier <? bb_ts_ns q then Ok None
          else if bb_ts_ns q <? warmup_start then Ok None
          else
            let v := Commands.mk_quote (visible_event_id (ss_session_id (cx_session c)) (bb_source_event_id q))
                       (bb_bid_price_atoms q) (bb_ask_price_atoms q) in
            let! _ := Commands.VisibleQuote_post_init v in
            Ok (Some v)
      end
  end.
End Service.

(** ** The routes *)

Definition market_status (c : MarketErrorCode) : Z :=
  match c with
  | M_SESSION_UNAVAILABLE => 404
  | M_SESSION_NOT_COMMITTED => 409
  | M_INVALID_QUERY | M_UNSUPPORTED_INTERVAL => 422
  | M_SOURCE_ORDER => 500
  end.

Definition page_payload (p : MarketPage) : pydict :=
  obj [("items", VList (map VDict (pg_items p)));
       ("next_cursor", match pg_next_cursor p with None => VNone | Some s => VStr s end);
       ("frontier", VDict (pg_frontier p))].

(** [_nonnegative_decimal]: [None] is the 422 response. *)
Definition nonnegative_decimal (v : string) : result (option Z) :=
  if is_empty v || starts_with "+"%char v || starts_with "-"%char v || leading_zero v || negb (py_isascii v)
     || negb (py_isdigit v)
  then Ok None
  else let! parsed := py_int v in Ok (if U64_MAX <? parsed then None else Some parsed).

Definition positive_decimal (v : string) : result (option Z) :=
  let! parsed := nonnegative_decimal v in
  Ok match parsed with Some n => if n =? 0 then None else Some n | None => None end.
