(* ===== verification/Market.v ===== *)
(** * Market data: what a player can see

    The reads of [MarketModel] against sources that are not trusted (nothing beyond the replay
    frontier is shown, the candle loop ends) and against canonical sources (pages are complete,
    candles are the aggregation of the visible trades), and the page cache. *)

From S2P Require Import Prelude Sort PyStr Bytes PyJson Catalog Db JsonParse SessionModel Session Frame MarketModel.
From S2P Require Commands.
From Stdlib Require Import Ascii.
From Stdlib Require String.

(** ** The context of a read *)

Lemma context_Ok db sid p off c :
  context db sid p off = Ok c ->
  exists r s, state db sid = Some r /\ ss_principal_id r = p /\ ss_session_id r = sid /\ ss_setup r = Some s /\
    0 <= off /\ cs_play_start_ns s + off < play_end_ns s /\
    c = mk_context r (frontier_of s (ss_logical_time_ns r)) (cs_play_start_ns s + off).
Proof.
  unfold context, validate_query. intros H. repeat step_ok. subst c. bools.
  match goal with Hg : fst (get_session sid p db) = Ok ?r |- _ =>
    destruct (get_session sid p db) as [x db'] eqn:E; cbn in Hg; subst x;
    apply get_session_Ok in E as (_ & Hs & Hp & Hid) end.
  match goal with Hx : of_option _ ?o = Ok ?s |- _ => destruct o eqn:Eo; [|discriminate Hx]; injection Hx as -> end.
  do 2 eexists. split_and!; try done; lia.
Qed.

Lemma frontier_bounds s o f :
  frontier_of s o = Some f ->
  exists t, o = Some t /\ f <= t /\ cs_play_start_ns s <= f < play_end_ns s.
Proof.
  unfold frontier_of. destruct o as [t|]; [|done]. destruct (_ <? _) eqn:E; [done|]. intros [= <-]. bools.
  exists t. split; [done|]. lia.
Qed.

(** ** Nothing beyond the frontier

    [hide f S] is the source [S] without the events later than [f]. *)
Definition hide_query {T} `{MarketEvent T} (f : Z) (q : Query T) : Query T :=
  fun m i start through after limit =>
    let! events := q m i start through after limit in Ok (List.filter (fun e => ts_ns e <=? f) events).

Definition hide (f : Z) (S : MarketDataSource) : MarketDataSource := {|
  src_trades := hide_query f src_trades;
  src_bbo := hide_query f src_bbo;
  src_depth := hide_query f src_depth;
  src_latest_bbo m i start through :=
    let! q := src_latest_bbo m i start through in
    Ok (match q with Some b => if bb_ts_ns b <=? f then Some b else None | None => None end);
|}.

Lemma filter_hide {T} `{MarketEvent T} c f g after (l : list T) :
  g <= f ->
  List.filter (is_visible c g after) (List.filter (fun e => ts_ns e <=? f) l) = List.filter (is_visible c g after) l.
Proof.
  intros Hg. induction l as [|e l IH]; cbn; [done|]. destruct (ts_ns e <=? f) eqn:E; cbn; [by rewrite IH|].
  rewrite IH. assert (is_visible c g after e = false) as ->; [|done].
  bools. unfold is_visible. rewrite (proj2 (Z.leb_gt (ts_ns e) g)) by lia. by rewrite andb_false_r.
Qed.

Lemma read_page_hide {T} `{MarketEvent T} (q : Query T) project c after limit f :
  (forall g, cx_frontier_ns c = Some g -> g <= f) ->
  read_page (hide_query f q) project c after limit = read_page q project c after limit.
Proof.
  intros Hg. unfold read_page. destruct (cx_setup c) as [s|]; [|done]. cbn [rbind].
  destruct (cx_frontier_ns c) as [g|] eqn:E; [|done]. cbn [of_option rbind]. unfold hide_query.
  destruct (q _ _ _ _ _ _) as [events|]; [|done]. cbn [rbind].
  assert (visible (List.filter (fun e => ts_ns e <=? f) events) c after limit = visible events c after limit) as ->;
    [|done]. unfold visible. rewrite E, filter_hide by auto. done.
Qed.

(** Whether a read can see past the session's logical time. *)
Definition seen_through (db : Db) (sid : string) (f : Z) : Prop :=
  forall r t, state db sid = Some r -> ss_logical_time_ns r = Some t -> t <= f.

Lemma seen_frontier db sid p off f c :
  seen_through db sid f -> context db sid p off = Ok c -> forall g, cx_frontier_ns c = Some g -> g <= f.
Proof.
  intros Hf (r & s & Hr & _ & _ & _ & _ & _ & ->)%context_Ok g Hg. cbn in Hg.
  apply frontier_bounds in Hg as (t & Ht & Hgt & _). specialize (Hf _ _ Hr Ht). lia.
Qed.

Lemma lift_context_eq {S A} (m : result Context) (k k' : Context -> ST S A) s :
  (forall c, m = Ok c -> k c s = k' c s) -> (c <- lift m ;; k c) s = (c <- lift m ;; k' c) s.
Proof. unfold sbind, lift. destruct m; auto. Qed.

Lemma read_hide {T} `{MarketEvent T} (q : Query T) project db sid p off after limit ch f cache :
  seen_through db sid f ->
  (c <- lift (context db sid p off) ;;
   k <- lift (cache_key ch c p after limit None) ;;
   cached k c (read_page (hide_query f q) project c after limit)) cache
  = (c <- lift (context db sid p off) ;;
     k <- lift (cache_key ch c p after limit None) ;;
     cached k c (read_page q project c after limit)) cache.
Proof.
  intros Hf. apply lift_context_eq. intros c Hc. rewrite read_page_hide; [done|]. by eapply seen_frontier.
Qed.

(** ** Canonical sources

    [serves q m i events]: the query [q] answers from [events], the canonical list of a manifest and
    instrument, in increasing sequence and non-decreasing time. *)

Section Canonical.
Context {T : Type} `{MarketEvent T}.

Definition event_before (a b : T) : Prop := source_sequence a < source_sequence b /\ ts_ns a <= ts_ns b.

Definition in_window (start through : Z) (after : option Z) (e : T) : bool :=
  (start <=? ts_ns e) && (ts_ns e <=? through) && match after with None => true | Some a => a <? source_sequence e end.

Record serves (q : Query T) (m i : string) (events : list T) : Prop := mk_serves {
  sv_order : StronglySorted event_before events;
  sv_sequence : Forall (fun e => 0 <= source_sequence e < 2 ^ 64) events;
  sv_query : forall start through after limit,
    q m i start through after limit = Ok (take (Z.to_nat limit) (List.filter (in_window start through after) events));
}.

(** The events a context can see. *)
Definition seen (c : Context) (after : option Z) (events : list T) : list T :=
  match cx_frontier_ns c with
  | None => []
  | Some f => List.filter (in_window (cx_start_ns c) f after) events
  end.

Lemma sorted_source_order events prior_seq prior_ts :
  StronglySorted event_before events ->
  (forall p, prior_seq = Some p -> Forall (fun e => p < source_sequence e) events) ->
  (forall p, prior_ts = Some p -> Forall (fun e => p <= ts_ns e) events) ->
  source_order prior_seq prior_ts events = Ok tt.
Proof.
  intros Hs. revert prior_seq prior_ts. induction Hs as [|e l Hs IH Hall]; intros ps pt Hps Hpt; cbn [source_order]; [done|].
  assert (match ps with Some p => source_sequence e <=? p | None => false end = false) as ->.
  { destruct ps as [p|]; [|done]. specialize (Hps _ eq_refl). apply Forall_cons in Hps as [? _]. lia. }
  assert (match pt with Some p => ts_ns e <? p | None => false end = false) as ->.
  { destruct pt as [p|]; [|done]. specialize (Hpt _ eq_refl). apply Forall_cons in Hpt as [? _]. lia. }
  cbn [raise_if rbind]. apply IH; intros p [= <-]; eapply Forall_impl; try exact Hall; by intros x [? ?].
Qed.

Lemma after_filter start through a (events : list T) :
  Forall (fun e => a < source_sequence e) (List.filter (in_window start through (Some a)) events).
Proof.
  rewrite Forall_forall. intros e [_ He]%elem_of_filterb. unfold in_window in He. bools. lia.
Qed.

Lemma StronglySorted_take (R : T -> T -> Prop) n l : StronglySorted R l -> StronglySorted R (take n l).
Proof.
  intros Hs. revert n. induction Hs as [|x l Hs IH Hall]; intros [|n]; cbn; constructor; [apply IH|by apply Forall_take].
Qed.

Lemma filter_take_all (p : T -> bool) n l : Forall (fun x => p x = true) l -> List.filter p (take n l) = take n l.
Proof.
  intros Hl. apply filter_all. intros x Hx. rewrite Forall_forall in Hl. apply Hl.
  rewrite <- (take_drop n l). apply elem_of_app. by left.
Qed.

(** A page of a canonical source: the first [limit] events that can be seen, with nothing filtered out. *)
Lemma read_page_canonical (q : Query T) project c s after limit events :
  ss_setup (cx_session c) = Some s -> serves q (cs_manifest_hash s) (cs_instrument_id s) events ->
  is_Some (cx_frontier_ns c) -> validate_query 0 after limit = Ok tt ->
  read_page q project c after limit
  = (let vis := take (Z.to_nat limit) (seen c after events) in
     let! items := rmap (project c) vis in
     let! f := frontier_payload c in
     Ok (mk_page items (next_cursor vis limit) f)).
Proof.
  intros Hs Hq [f Hf] Hv. unfold read_page, cx_setup, seen. rewrite Hs, Hf. cbn [of_option rbind].
  rewrite (sv_query _ _ _ _ Hq). cbn [rbind]. set (w := List.filter _ events).
  assert (visible (take (Z.to_nat limit) w) c after limit = Ok (take (Z.to_nat limit) w)) as ->; [|done].
  unfold visible. rewrite Hv, Hf. cbn [rbind].
  assert (Forall (fun e => in_window (cx_start_ns c) f after e = true) w) as Hw
    by (rewrite Forall_forall; by intros e [_ He]%elem_of_filterb).
  rewrite (filter_take_all (is_visible c f after)) by exact Hw.
  unfold validate_source_order. rewrite sorted_source_order.
  - cbn [rbind]. by rewrite take_take, Nat.min_id.
  - apply StronglySorted_take. by apply StronglySorted_filterb, (sv_order _ _ _ _ Hq).
  - intros a ->. apply Forall_take, after_filter.
  - done.
Qed.

(** A client that follows the cursors, with fuel for the number of pages. *)
Fixpoint read_all (fuel : nat) (q : Query T) (project : Context -> T -> result pydict) (c : Context)
    (after : option Z) (limit : Z) : result (list pydict) :=
  match fuel with
  | O => Raise OutOfFuel
  | S fuel' =>
      let! page := read_page q project c after limit in
      match pg_next_cursor page with
      | None => Ok (pg_items page)
      | Some cursor =>
          let! after' := nonnegative_decimal cursor in
          match after' with
          | None => Raise ValueError
          | Some a => let! rest := read_all fuel' q project c (Some a) limit in Ok (pg_items page ++ rest)
          end
      end
  end.

Lemma filter_after_drop n l e :
  StronglySorted event_before l -> l !! n = Some e ->
  List.filter (fun x => source_sequence e <? source_sequence x) l = drop (S n) l.
Proof.
  revert n. induction l as [|x l IH]; intros n Hs Hn; [done|].
  apply StronglySorted_inv in Hs as [Hs Hx]. destruct n as [|n]; cbn in Hn.
  - injection Hn as ->. cbn. rewrite (proj2 (Z.ltb_ge _ _)) by lia. apply filter_all.
    intros y Hy. rewrite Forall_forall in Hx. destruct (Hx y Hy). by apply Z.ltb_lt.
  - cbn. assert (e ∈ l) as He by by eapply list_elem_of_lookup_2.
    rewrite Forall_forall in Hx. destruct (Hx e He). rewrite (proj2 (Z.ltb_ge _ _)) by lia. by apply IH.
Qed.

Lemma filter_and (p p' : T -> bool) l : List.filter p' (List.filter p l) = List.filter (fun x => p x && p' x) l.
Proof.
  induction l as [|x l IH]; cbn; [done|]. destruct (p x); cbn; [|done]. by rewrite IH.
Qed.

Lemma filter_ext_in (p p' : T -> bool) l : (forall x, x ∈ l -> p x = p' x) -> List.filter p l = List.filter p' l.
Proof.
  induction l as [|x l IH]; intros Hl; cbn; [done|]. rewrite (Hl x) by left. rewrite IH; [done|].
  intros y Hy. apply Hl. by right.
Qed.

(** What the next page sees: what is left after the last event of this one. *)
Lemma seen_next c after events n e :
  StronglySorted event_before events -> seen c after events !! n = Some e ->
  seen c (Some (source_sequence e)) events = drop (S n) (seen c after events).
Proof.
  intros Hs Hn. unfold seen in *. destruct (cx_frontier_ns c) as [f|]; [|done].
  rewrite <- (filter_after_drop n _ e) by (try done; by apply StronglySorted_filterb).
  rewrite filter_and. apply filter_ext_in. intros x Hx.
  assert (e ∈ List.filter (in_window (cx_start_ns c) f after) events) as He by by eapply list_elem_of_lookup_2.
  apply elem_of_filterb in He as [_ He]. unfold in_window in *. destruct after as [a|]; bools.
  - destruct (source_sequence e <? source_sequence x) eqn:E; bools; [|by rewrite !andb_false_r].
    rewrite (proj2 (Z.ltb_lt a (source_sequence x))) by lia. by rewrite !andb_true_r.
  - by rewrite andb_true_r.
Qed.

Lemma cursor_text n : 0 <= n < 2 ^ 64 -> nonnegative_decimal (str_Z n) = Ok (Some n).
Proof.
  intros Hn. unfold nonnegative_decimal. assert (str_Z n = str_N n) as E by (unfold str_Z; by rewrite (proj2 (Z.ltb_ge _ _)) by lia).
  rewrite E. pose proof (str_N_all n) as Ha. rewrite str_N_no_leading_zero, (digits_ascii _ Ha) by lia.
  assert (py_isdigit (str_N n) = true) as ->.
  { unfold py_isdigit. rewrite (digits_isdigit _ Ha). by destruct (str_N_nonempty n) as (c & s & ->). }
  destruct (str_N_nonempty n) as (c & s & Ec). rewrite Ec. rewrite Ec in Ha. cbn in Ha.
  apply andb_true_iff in Ha as [Hc _]. destruct (starts_with_digit c s Hc) as [-> ->]. cbn [is_empty orb negb].
  rewrite <- Ec, <- E, py_int_str_Z by lia. cbn [rbind]. by rewrite (proj2 (Z.ltb_ge _ _)) by (unfold U64_MAX; lia).
Qed.

Lemma rmap_split {A B} (f : A -> result B) n l items :
  rmap f l = Ok items -> rmap f (take n l) = Ok (take n items) /\ rmap f (drop n l) = Ok (drop n items).
Proof. rewrite !rmap_Ok. intros Hl. split; [by apply Forall2_take|by apply Forall2_drop]. Qed.

Lemma last_take_lookup (l : list T) n : (0 < n <= length l)%nat -> last (take n l) = l !! (n - 1)%nat.
Proof.
  intros Hn. rewrite last_lookup, length_take, Nat.min_l by lia.
  replace (Nat.pred n) with (n - 1)%nat by lia. by rewrite lookup_take_lt by lia.
Qed.

Lemma read_all_spec (q : Query T) project c s limit events :
  ss_setup (cx_session c) = Some s -> serves q (cs_manifest_hash s) (cs_instrument_id s) events ->
  is_Some (cx_frontier_ns c) -> 1 <= limit <= MAX_PAGE_SIZE ->
  forall fuel after items,
  (forall a, after = Some a -> 0 <= a) ->
  (length (seen c after events) < fuel)%nat -> rmap (project c) (seen c after events) = Ok items ->
  read_all fuel q project c after limit = Ok items.
Proof.
  intros Hs Hq Hf Hl. induction fuel as [|fuel IH]; intros after items Ha Hfuel Hitems; [lia|]. cbn [read_all].
  assert (validate_query 0 after limit = Ok tt) as Hv.
  { unfold validate_query. cbn [raise_if rbind Z.ltb Z.compare].
    assert (match after with Some a => a <? 0 | None => false end = false) as ->.
    { destruct after as [a|]; [|done]. specialize (Ha _ eq_refl). lia. }
    cbn [raise_if rbind]. by rewrite (proj2 (Z.leb_le 1 limit)), (proj2 (Z.leb_le limit MAX_PAGE_SIZE)) by lia. }
  rewrite (read_page_canonical _ _ _ _ _ _ _ Hs Hq Hf Hv). cbv zeta.
  destruct (rmap_split _ (Z.to_nat limit) _ _ Hitems) as [H1 H2]. rewrite H1. cbn [rbind].
  assert (exists d, frontier_payload c = Ok d) as [d ->].
  { unfold frontier_payload, time_payload, cx_setup. destruct Hf as [f ->]. rewrite Hs. cbn [of_option rbind].
    destruct (bool_decide _); cbn [rbind]; eauto. }
  cbn [rbind pg_next_cursor pg_items]. set (vis := seen c after events) in *.
  pose proof (length_take vis (Z.to_nat limit)) as Hlen. unfold next_cursor.
  destruct (_ <? limit) eqn:Eshort; bools.
  { rewrite take_ge; [done|]. pose proof (Forall2_length _ _ _ (proj1 (rmap_Ok _ _ _) Hitems)). lia. }
  assert ((0 < Z.to_nat limit <= length vis)%nat) as Hn by lia.
  rewrite last_take_lookup by done. destruct (lookup_lt_is_Some_2 vis (Z.to_nat limit - 1)) as [e He]; [lia|].
  rewrite He. assert (0 <= source_sequence e < 2 ^ 64) as Hseq.
  { pose proof (sv_sequence _ _ _ _ Hq) as Hsq. rewrite Forall_forall in Hsq. apply Hsq.
    assert (e ∈ vis) as Hev by by eapply list_elem_of_lookup_2. unfold vis, seen in Hev.
    destruct (cx_frontier_ns c); [|by apply not_elem_of_nil in Hev]. by apply elem_of_filterb in Hev as [? _]. }
  rewrite cursor_text by done. cbn [rbind].
  assert (seen c (Some (source_sequence e)) events = drop (Z.to_nat limit) vis) as Hnext.
  { unfold vis. rewrite (seen_next c after events (Z.to_nat limit - 1) e); [|apply Hq|exact He]. f_equal. lia. }
  rewrite (IH (Some (source_sequence e)) (drop (Z.to_nat limit) items)).
  - cbn [rbind]. by rewrite take_drop.
  - intros a [= <-]. lia.
  - rewrite Hnext, length_drop. lia.
  - by rewrite Hnext.
Qed.
End Canonical.

(** Following the cursors of a canonical source shows every visible event exactly once, in order, and
    ends: with any page size the pages concatenate to the projections of the events between the
    requested start and the frontier. *)
Theorem market_pages_complete {T} `{MarketEvent T} (q : Query T) project db sid p off c s f limit events items :
  context db sid p off = Ok c -> ss_setup (cx_session c) = Some s -> cx_frontier_ns c = Some f ->
  serves q (cs_manifest_hash s) (cs_instrument_id s) events -> 1 <= limit <= MAX_PAGE_SIZE ->
  rmap (project c) (List.filter (fun e => (cx_start_ns c <=? ts_ns e) && (ts_ns e <=? f)) events) = Ok items ->
  read_all (S (length items)) q project c None limit = Ok items.
Proof.
  intros _ Hs Hf Hq Hl Hitems.
  assert (seen c None events = List.filter (fun e => (cx_start_ns c <=? ts_ns e) && (ts_ns e <=? f)) events) as E.
  { unfold seen. rewrite Hf. apply filter_ext_in. intros e _. unfold in_window. by rewrite andb_true_r. }
  apply (read_all_spec q project c s limit events Hs Hq); [by exists f|done|discriminate| |by rewrite E].
  rewrite E. pose proof (Forall2_length _ _ _ (proj1 (rmap_Ok _ _ _) Hitems)). lia.
Qed.

(** ** Loops *)

Lemma iter_nat_inv {St R} (step : St -> St + R) (P : St -> Prop) (Q : R -> Prop) :
  (forall s, P s -> match step s with inl s' => P s' | inr r => Q r end) ->
  forall n s, P s -> match iter_nat n step s with inl s' => P s' | inr r => Q r end.
Proof.
  intros Hstep. induction n as [|n IH]; intros s Hs; cbn [iter_nat]; [done|].
  specialize (Hstep s Hs). destruct (step s); [by apply IH|done].
Qed.

Lemma iter_nat_measure {St R} (step : St -> St + R) (m : St -> Z) :
  (forall s s', step s = inl s' -> m s + 1 <= m s') ->
  forall n s s', iter_nat n step s = inl s' -> m s + Z.of_nat n <= m s'.
Proof.
  intros Hstep. induction n as [|n IH]; intros s s' Hs; cbn [iter_nat] in Hs; [injection Hs as <-; lia|].
  destruct (step s) as [s1|r] eqn:E; [|done]. specialize (Hstep _ _ E). specialize (IH _ _ Hs). lia.
Qed.

(** ** Buckets *)

Lemma bucket_add_keys b t g : map fst (bucket_add b t g) = if bool_decide (b ∈ map fst g) then map fst g else map fst g ++ [b].
Proof.
  induction g as [|[b' ts] g IH]; cbn; [done|]. destruct (Z.eqb_spec b b') as [->|Hne]; cbn.
  - rewrite bool_decide_eq_true_2 by left. done.
  - rewrite IH. destruct (decide (b ∈ map fst g)) as [Hb|Hb].
    + rewrite !bool_decide_eq_true_2; [done|by right|done].
    + rewrite !bool_decide_eq_false_2; [done| |done]. intros [?|?]%elem_of_cons; done.
Qed.

Lemma bucket_add_NoDup b t g : NoDup (map fst g) -> NoDup (map fst (bucket_add b t g)).
Proof.
  intros Hg. rewrite bucket_add_keys. case_bool_decide; [done|]. apply NoDup_app. split_and!; [done| |apply NoDup_singleton].
  intros x Hx ->%list_elem_of_singleton. done.
Qed.

Lemma bucket_add_elem b t g b' ts' :
  NoDup (map fst g) ->
  (b', ts') ∈ bucket_add b t g <->
  (b' <> b /\ (b', ts') ∈ g) \/
  (b' = b /\ (((b ∉ map fst g) /\ ts' = [t]) \/ exists ts, (b, ts) ∈ g /\ ts' = ts ++ [t])).
Proof.
  induction g as [|[b0 ts0] g IH]; cbn [bucket_add map fst]; intros Hnd.
  - rewrite list_elem_of_singleton. split.
    + intros [= -> ->]. right. split; [done|]. left. split; [apply not_elem_of_nil|done].
    + intros [[_ ?%not_elem_of_nil]|(-> & [[_ ->]|(ts & ?%not_elem_of_nil & _)])]; done.
  - apply NoDup_cons in Hnd as [Hb0 Hnd].
    assert (forall ts, (b0, ts) ∈ g -> False) as Hno by (intros ts Hts; apply Hb0, elem_of_mapl; by exists (b0, ts)).
    destruct (Z.eqb_spec b b0) as [->|Hne].
    + setoid_rewrite elem_of_cons. split.
      * intros [[= -> ->]|Hin].
        -- right. split; [done|]. right. exists ts0. auto.
        -- destruct (decide (b' = b0)) as [->|]; [by destruct (Hno ts')|]. left. split; [done|by right].
      * intros [[Hne [[= -> ->]|Hin]]|[-> [[Hb _]|(ts & [[= ->]|Hin] & ->)]]]; [done|by right|exfalso; apply Hb; by left|by left|].
        by destruct (Hno ts).
    + rewrite elem_of_cons, IH by done. setoid_rewrite elem_of_cons. split.
      * intros [[= -> ->]|[[Hb Hin]|[-> [[Hb ->]|(ts & Hin & ->)]]]].
        -- left. split; [done|by left].
        -- left. split; [done|by right].
        -- right. split; [done|]. left. split; [|done]. intros [?|?]; [by apply Hne|by apply Hb].
        -- right. split; [done|]. right. exists ts. split; [by right|done].
      * intros [[Hb [[= -> ->]|Hin]]|[-> [[Hb ->]|(ts & [[= <- _]|Hin] & ->)]]]; [by left|right; left; done| | |].
        -- right; right. split; [done|]. left. split; [|done]. intros ?. apply Hb. by right.
        -- done.
        -- right; right. split; [done|]. right. by exists ts.
Qed.

Section Buckets.
Context (key : Trade -> Z).

(** The buckets of a list of trades, added one by one. *)
Definition group (l : list Trade) : list (Z * list Trade) := fold_left (fun g t => bucket_add (key t) t g) l [].

Definition bucket_of (b : Z) (l : list Trade) : list Trade := List.filter (fun t => key t =? b) l.

Lemma group_snoc l t : group (l ++ [t]) = bucket_add (key t) t (group l).
Proof. unfold group. by rewrite fold_left_app. Qed.

Lemma bucket_of_app b l l' : bucket_of b (l ++ l') = bucket_of b l ++ bucket_of b l'.
Proof. apply List.filter_app. Qed.

Lemma group_spec l :
  NoDup (map fst (group l)) /\ (forall b, b ∈ map fst (group l) <-> b ∈ map key l) /\
  (forall b ts, (b, ts) ∈ group l -> ts = bucket_of b l).
Proof.
  induction l as [|t l (Hnd & Hk & Hts)] using rev_ind.
  { split_and!; [constructor|done|by intros b ts ?%not_elem_of_nil]. }
  rewrite group_snoc. split_and!; [by apply bucket_add_NoDup| |].
  - intros b. rewrite bucket_add_keys, map_app, elem_of_app. cbn [map]. rewrite list_elem_of_singleton, <- Hk.
    case_bool_decide; [naive_solver|]. by rewrite elem_of_app, list_elem_of_singleton.
  - intros b ts. rewrite bucket_add_elem by done. rewrite bucket_of_app. unfold bucket_of at 2. cbn [List.filter].
    intros [[Hne Hin]|[-> [[Hb ->]|(ts0 & Hin & ->)]]].
    + rewrite (proj2 (Z.eqb_neq _ _)) by congruence. rewrite app_nil_r. by apply Hts.
    + rewrite Z.eqb_refl. assert (bucket_of (key t) l = []) as ->; [|done]. apply filter_none.
      intros x Hx. apply Z.eqb_neq. intros E. apply Hb, Hk, elem_of_mapl. by exists x.
    + rewrite Z.eqb_refl. by rewrite (Hts _ _ Hin).
Qed.

(** The reference: the bucket numbers in increasing order, and for each the trades of that bucket. *)
Definition bucket_numbers (l : list Trade) : list Z := py_sorted id (remove_dups (map key l)).
Definition reference_buckets (l : list Trade) : list (Z * list Trade) :=
  map (fun b => (b, bucket_of b l)) (bucket_numbers l).

Lemma bucket_numbers_elem l b : b ∈ bucket_numbers l <-> b ∈ map key l.
Proof. unfold bucket_numbers. by rewrite elem_of_py_sorted, elem_of_remove_dups. Qed.

Lemma bucket_numbers_NoDup l : NoDup (bucket_numbers l).
Proof. unfold bucket_numbers. rewrite py_sorted_perm. apply NoDup_remove_dups. Qed.

Lemma bucket_numbers_unique l l' :
  NoDup l' -> StronglySorted (key_le id) l' -> (forall b, b ∈ l' <-> b ∈ map key l) -> bucket_numbers l = l'.
Proof.
  intros Hnd Hs He. rewrite <- (py_sorted_id id l') by done. unfold bucket_numbers.
  apply (py_sorted_unique id); [done|]. apply NoDup_Permutation; [apply NoDup_remove_dups|done|].
  intros b. by rewrite elem_of_remove_dups, He.
Qed.

(** The code's buckets, sorted, are the reference's. *)
Lemma group_reference l : py_sorted fst (group l) = reference_buckets l.
Proof.
  destruct (group_spec l) as (Hnd & Hk & Hts). unfold reference_buckets.
  assert (group l = map (fun b => (b, bucket_of b l)) (map fst (group l))) as E.
  { rewrite map_map. rewrite <- (map_id (group l)) at 1. apply map_ext_in. intros [b ts] Hin.
    apply list_elem_of_In in Hin. cbn. by rewrite <- (Hts _ _ Hin). }
  rewrite E, py_sorted_map. f_equal. cbn [fst].
  rewrite <- (py_sorted_id id (bucket_numbers l)) by apply py_sorted_sorted.
  apply (py_sorted_unique id); [done|]. apply NoDup_Permutation; [done|apply bucket_numbers_NoDup|].
  intros b. by rewrite bucket_numbers_elem.
Qed.

Lemma length_group l : length (group l) = length (bucket_numbers l).
Proof. rewrite <- (length_py_sorted fst), group_reference. unfold reference_buckets. by rewrite length_map. Qed.

Lemma sorted_last_max l b m : StronglySorted (key_le id) l -> last l = Some m -> b ∈ l -> b <= m.
Proof.
  intros Hs. induction Hs as [|x l Hs IH Hx]; [done|]. destruct l as [|y l].
  - cbn. intros [= ->] ->%list_elem_of_singleton. lia.
  - change (last (x :: y :: l)) with (last (y :: l)). intros Hm [->|Hb]%elem_of_cons; [|by apply IH].
    apply last_Some in Hm as [l0 Hm]. rewrite Forall_forall in Hx.
    assert (m ∈ y :: l) as Hin by (rewrite Hm; apply elem_of_app; right; left).
    specialize (Hx _ Hin). unfold key_le, kle, cmp, Z_cmp in Hx. by apply Z.compare_le_iff in Hx.
Qed.

Lemma sorted_app_le l1 l2 :
  StronglySorted (key_le id) l1 -> StronglySorted (key_le id) l2 ->
  (forall x y, x ∈ l1 -> y ∈ l2 -> x <= y) -> StronglySorted (key_le id) (l1 ++ l2).
Proof.
  intros H1 H2 Hle. induction H1 as [|x l1 H1 IH Hx]; cbn; [done|]. constructor.
  - apply IH. intros a b Ha Hb. apply Hle; [by right|done].
  - apply Forall_app. split; [done|]. rewrite Forall_forall. intros y Hy.
    unfold key_le, kle, cmp, Z_cmp. apply Z.compare_le_iff, Hle; [by left|done].
Qed.

Lemma sorted_lookup {A} (R : A -> A -> Prop) l i j x y :
  StronglySorted R l -> l !! i = Some x -> l !! j = Some y -> (i < j)%nat -> R x y.
Proof.
  intros Hs. revert i j. induction Hs as [|a l Hs IH Ha]; intros i j Hi Hj Hij; [done|].
  destruct j as [|j]; [lia|]. destruct i as [|i]; cbn in *; [|eapply IH; [done..|lia]].
  injection Hi as ->. rewrite Forall_forall in Ha. apply Ha. by eapply list_elem_of_lookup_2.
Qed.

(** Later trades whose buckets are not smaller leave the first [n] buckets as they are, once there are
    more than [n] of them. *)
Lemma reference_stable l1 l2 n :
  (forall t1 t2, t1 ∈ l1 -> t2 ∈ l2 -> key t1 <= key t2) -> (n < length (bucket_numbers l1))%nat ->
  take n (reference_buckets (l1 ++ l2)) = take n (reference_buckets l1).
Proof.
  intros Hle Hn. set (fresh := filter (.∉ map key l1) (remove_dups (map key l2))).
  assert (bucket_numbers (l1 ++ l2) = bucket_numbers l1 ++ py_sorted id fresh) as E.
  { assert (forall b, b ∈ py_sorted id fresh <-> (b ∉ map key l1) /\ b ∈ map key l2) as Hf
      by (intros b; unfold fresh; by rewrite elem_of_py_sorted, list_elem_of_filter, elem_of_remove_dups).
    apply bucket_numbers_unique.
    - apply NoDup_app. split_and!; [apply bucket_numbers_NoDup| |].
      + intros b Hb [Hnb _]%Hf. by apply Hnb, bucket_numbers_elem.
      + rewrite py_sorted_perm. apply NoDup_filter, NoDup_remove_dups.
    - apply sorted_app_le; [apply py_sorted_sorted..|]. intros x y Hx [_ Hy]%Hf.
      apply bucket_numbers_elem in Hx. apply elem_of_mapl in Hx as (t1 & -> & H1), Hy as (t2 & -> & H2). by apply Hle.
    - intros b. rewrite elem_of_app, Hf, bucket_numbers_elem, map_app, elem_of_app.
      destruct (decide (b ∈ map key l1)); tauto. }
  unfold reference_buckets. rewrite E, !firstn_map, take_app_le by lia.
  apply map_ext_in. intros b Hb%list_elem_of_In. f_equal. rewrite bucket_of_app.
  assert (bucket_of b l2 = []) as ->; [|by rewrite app_nil_r].
  apply filter_none. intros t2 Ht2. apply Z.eqb_neq. intros Eb.
  (* a bucket among the first [n] is below the last one of [l1] *)
  destruct (lookup_lt_is_Some_2 (bucket_numbers l1) n Hn) as [m Hm].
  assert (b < m) as Hlt.
  { apply list_elem_of_lookup_1 in Hb as [i Hi]. pose proof (lookup_lt_Some _ _ _ Hi) as Hlen. rewrite length_take in Hlen.
    rewrite lookup_take_lt in Hi by lia.
    assert (b <= m) as Hbm.
    { pose proof (sorted_lookup _ _ i n b m (py_sorted_sorted id (remove_dups (map key l1))) Hi Hm ltac:(lia)) as Hk.
      unfold key_le, kle, cmp, Z_cmp in Hk. by apply Z.compare_le_iff in Hk. }
    assert (b <> m); [|lia]. intros ->. pose proof (NoDup_lookup _ _ _ _ (bucket_numbers_NoDup l1) Hi Hm). lia. }
  assert (m ∈ map key l1) as Hml by (apply bucket_numbers_elem; by eapply list_elem_of_lookup_2).
  apply elem_of_mapl in Hml as (t1 & -> & Ht1). specialize (Hle _ _ Ht1 Ht2). lia.
Qed.
End Buckets.

(** ** The candle loop *)

Section Candles.
Context `{MarketDataSource} (c : Context) (s : CommittedSetup) (f interval_ns limit : Z).

Definition bucket_key (t : Trade) : Z := (tr_ts_ns t - cs_play_start_ns s) / interval_ns.

Lemma add_visible_all g raw :
  Forall (fun t => (cx_start_ns c <=? tr_ts_ns t) && (tr_ts_ns t <=? f) = true) raw ->
  add_visible c (cs_play_start_ns s) f interval_ns g raw
  = fold_left (fun g t => bucket_add (bucket_key t) t g) raw g.
Proof.
  intros Hraw. revert g. unfold add_visible. induction Hraw as [|t raw Ht _ IH]; intros g; cbn [fold_left]; [done|].
  rewrite Ht. apply IH.
Qed.

Lemma group_app key l l' : group key (l ++ l') = fold_left (fun g t => bucket_add (key t) t g) l' (group key l).
Proof. unfold group. by rewrite fold_left_app. Qed.

(** With a canonical source: after some iterations the buckets are those of a prefix of the visible trades. *)
Context (events : list Trade).
Context (Hf : cx_frontier_ns c = Some f).
Context (Hsrc : serves src_trades (cs_manifest_hash s) (cs_instrument_id s) events).
Abbreviation vis := (seen c None events).

Definition candle_inv (st : CandleState) : Prop :=
  exists j, (j <= length vis)%nat /\ st = (group bucket_key (take j vis), source_sequence <$> last (take j vis)).

Definition candle_done (r : result (list (Z * list Trade))) : Prop :=
  exists j, r = Ok (group bucket_key (take j vis)) /\
    ((length vis <= j)%nat \/ limit < Z.of_nat (length (group bucket_key (take j vis)))).

Lemma candle_query j :
  (j <= length vis)%nat ->
  List.filter (in_window (cx_start_ns c) f (source_sequence <$> last (take j vis))) events = drop j vis.
Proof.
  intros Hj. destruct j as [|j]; [unfold seen; by rewrite Hf|].
  rewrite last_take_lookup by lia. replace (S j - 1)%nat with j by lia.
  destruct (lookup_lt_is_Some_2 vis j) as [e He]; [lia|]. rewrite He. cbn [fmap option_fmap option_map].
  rewrite <- (seen_next c None events j e (sv_order _ _ _ _ Hsrc) He). unfold seen. by rewrite Hf.
Qed.

Lemma vis_window : Forall (fun t => (cx_start_ns c <=? tr_ts_ns t) && (tr_ts_ns t <=? f) = true) vis.
Proof.
  unfold seen. rewrite Hf, Forall_forall. intros t [_ Ht]%elem_of_filterb. unfold in_window in Ht.
  by apply andb_true_iff in Ht as [? _].
Qed.

Lemma vis_sorted : StronglySorted event_before vis.
Proof. unfold seen. rewrite Hf. by apply StronglySorted_filterb, (sv_order _ _ _ _ Hsrc). Qed.

Lemma candle_raw_order j raw :
  (j <= length vis)%nat -> raw = take (Z.to_nat MAX_PAGE_SIZE) (drop j vis) ->
  validate_source_order raw (source_sequence <$> last (take j vis)) = Ok tt /\
  (forall l a, last raw = Some l -> source_sequence <$> last (take j vis) = Some a -> a < source_sequence l).
Proof.
  intros Hj ->. assert (forall a, source_sequence <$> last (take j vis) = Some a ->
    Forall (fun e => a < source_sequence e) (take (Z.to_nat MAX_PAGE_SIZE) (drop j vis))) as Hafter.
  { intros a Ha. rewrite <- (candle_query j Hj), Ha. apply Forall_take, after_filter. }
  split.
  - apply sorted_source_order; [|exact Hafter|done]. apply StronglySorted_take.
    rewrite <- (candle_query j Hj). apply StronglySorted_filterb, (sv_order _ _ _ _ Hsrc).
  - intros l a Hl Ha. specialize (Hafter _ Ha). rewrite Forall_forall in Hafter. apply Hafter.
    apply last_Some in Hl as [l0 ->]. apply elem_of_app. right. left.
Qed.

Lemma candle_step_canonical st :
  candle_inv st ->
  match candle_step c s f interval_ns limit st with inl st' => candle_inv st' | inr r => candle_done r end.
Proof.
  intros (j & Hj & ->). unfold candle_step. destruct (limit <? _) eqn:El.
  { bools. exists j. split; [done|by right]. }
  rewrite (sv_query _ _ _ _ Hsrc), candle_query by done.
  set (raw := take (Z.to_nat MAX_PAGE_SIZE) (drop j vis)).
  destruct (candle_raw_order j raw Hj eq_refl) as [Hord Hlast].
  assert (take j vis ++ raw = take (j + length raw) vis) as Eapp.
  { unfold raw. rewrite length_take, length_drop, <- take_take_drop. f_equal.
    destruct (Nat.min_spec (Z.to_nat MAX_PAGE_SIZE) (length vis - j)) as [[_ ->]|[Hle ->]]; [done|].
    rewrite !take_ge; [done|..]; rewrite ?length_drop; lia. }
  assert (length raw = Nat.min (Z.to_nat MAX_PAGE_SIZE) (length vis - j)) as Hlen
    by (unfold raw; by rewrite length_take, length_drop).
  destruct (last raw) as [l|] eqn:El2.
  - rewrite Hord. assert (match source_sequence <$> last (take j vis) with Some a => source_sequence l <=? a | None => false end = false) as ->.
    { destruct (source_sequence <$> last (take j vis)) as [a|] eqn:Ea; [|done]. specialize (Hlast _ _ eq_refl eq_refl). lia. }
    rewrite add_visible_all, <- group_app, Eapp.
    2: { unfold raw. apply Forall_take, Forall_drop, vis_window. }
    destruct (_ <? MAX_PAGE_SIZE) eqn:Eshort; bools.
    + exists (j + length raw)%nat. split; [done|]. left. unfold MAX_PAGE_SIZE in *. lia.
    + exists (j + length raw)%nat. split; [lia|]. f_equal. rewrite <- Eapp, last_app, El2. done.
  - apply last_None in El2. exists j. split; [done|]. left. rewrite El2 in Hlen. cbn in Hlen. unfold MAX_PAGE_SIZE in *. lia.
Qed.

Lemma candle_inv_start : candle_inv ([], None).
Proof. exists O. split; [lia|reflexivity]. Qed.

(** The first [limit] buckets do not depend on where the loop stopped. *)
Lemma candle_done_reference bs :
  0 < interval_ns -> 0 <= limit -> candle_done (Ok bs) ->
  take (Z.to_nat limit) (py_sorted fst bs) = take (Z.to_nat limit) (reference_buckets bucket_key vis).
Proof.
  intros Hi Hl (j & Hb & Hend). apply Ok_inj in Hb as ->. rewrite group_reference.
  destruct Hend as [Hend|Hend]; [by rewrite (take_ge vis j)|].
  rewrite <- (take_drop j vis) at 2. symmetry. apply reference_stable.
  - intros t1 t2 H1 H2. unfold bucket_key. apply Z.div_le_mono; [lia|].
    pose proof vis_sorted as Hs. rewrite <- (take_drop j vis) in Hs.
    destruct (StronglySorted_app_1_elem_of _ _ _ _ _ Hs H1 H2) as [_ Ht]. cbn in Ht. lia.
  - rewrite length_group in Hend. lia.
Qed.
End Candles.

(** *** Termination, for any source *)

(** The source's trades are [Trade] objects. *)
Definition trades_made (S : MarketDataSource) : Prop :=
  forall m i start through after limit raw,
    src_trades m i start through after limit = Ok raw -> Forall (fun t => Trade_post_init t = Ok tt) raw.

Lemma trade_sequence t : Trade_post_init t = Ok tt -> 0 <= tr_source_sequence t < 2 ^ 64.
Proof. unfold Trade_post_init, market_u64, U64_MAX. intros Ht. repeat step_ok. bools. lia. Qed.

Definition candle_progress (st : CandleState) : Z := match snd st with None => -1 | Some a => a end.

Section Termination.
Context (S : MarketDataSource) (c : Context) (s : CommittedSetup) (f interval_ns limit : Z) (Hmade : trades_made S).

Lemma raw_sequence after raw l :
  src_trades (cs_manifest_hash s) (cs_instrument_id s) (cx_start_ns c) f after MAX_PAGE_SIZE = Ok raw ->
  last raw = Some l -> 0 <= tr_source_sequence l < 2 ^ 64.
Proof.
  intros Hr Hl. specialize (Hmade _ _ _ _ _ _ _ Hr). apply last_Some in Hl as [l0 ->].
  apply Forall_app in Hmade as [_ Hl]. apply Forall_cons in Hl as [Hl _]. by apply trade_sequence.
Qed.

Lemma candle_step_progress st st' :
  candle_step c s f interval_ns limit st = inl st' ->
  candle_progress st + 1 <= candle_progress st' /\ candle_progress st' < 2 ^ 64.
Proof.
  unfold candle_step. destruct st as [g after]. destruct (limit <? _); [done|].
  destruct (src_trades _ _ _ _ _ _) as [raw|e] eqn:Hr; [|done].
  destruct (last raw) as [l|] eqn:Hl; [|done]. pose proof (raw_sequence _ _ _ Hr Hl) as Hseq.
  destruct (validate_source_order raw after); [|done].
  destruct after as [a0|]; cbv beta iota; [destruct (source_sequence l <=? a0) eqn:Ha; [done|]|];
    (destruct (_ <? MAX_PAGE_SIZE); [done|]); intros [= <-]; unfold candle_progress; cbn in *; bools; lia.
Qed.

Lemma candle_loop_ends :
  exists r, iter_until 18446744073709551617 (candle_step c s f interval_ns limit) ([], None) = inr r.
Proof.
  rewrite iter_until_nat. destruct (iter_nat _ _ _) as [st'|r] eqn:E; [exfalso|eauto].
  pose proof (iter_nat_measure _ candle_progress (fun s s' Hs => proj1 (candle_step_progress s s' Hs)) _ _ _ E) as Hm.
  rewrite positive_nat_Z in Hm.
  pose proof (iter_nat_inv (candle_step c s f interval_ns limit) (fun st => candle_progress st < 2 ^ 64) (fun _ => True)) as Hi.
  specialize (Hi ltac:(intros s0 _; destruct (candle_step c s f interval_ns limit s0) eqn:Es; [exact (proj2 (candle_step_progress _ _ Es))|done])).
  specialize (Hi (Pos.to_nat 18446744073709551617) ([], None)). rewrite E in Hi. cbn [candle_progress snd] in Hi, Hm. lia.
Qed.

(** What an arbitrary source can put into a bucket. *)
Definition bucket_sound (p : Z * list Trade) : Prop :=
  snd p <> [] /\ Forall (fun t =>
    cx_start_ns c <= tr_ts_ns t <= f /\ bucket_key s interval_ns t = fst p /\
    exists after raw, src_trades (cs_manifest_hash s) (cs_instrument_id s) (cx_start_ns c) f after MAX_PAGE_SIZE = Ok raw /\
      t ∈ raw) (snd p).

Lemma bucket_add_sound t g :
  Forall bucket_sound g -> bucket_sound (bucket_key s interval_ns t, [t]) ->
  Forall bucket_sound (bucket_add (bucket_key s interval_ns t) t g).
Proof.
  intros Hg [_ Ht]. cbn [fst snd] in Ht. apply Forall_cons in Ht as [Ht _]. induction Hg as [|[b ts] g [Hne Hts] Hg IH]; cbn [bucket_add].
  - constructor; [|constructor]. split; [done|]. constructor; [exact Ht|constructor].
  - destruct (Z.eqb_spec (bucket_key s interval_ns t) b) as [<-|]; constructor; [|done|by split|done].
    split; [by destruct ts|]. cbn [fst snd] in *. apply Forall_app. split; [done|]. constructor; [exact Ht|constructor].
Qed.

Lemma add_visible_sound after raw g :
  src_trades (cs_manifest_hash s) (cs_instrument_id s) (cx_start_ns c) f after MAX_PAGE_SIZE = Ok raw ->
  Forall bucket_sound g -> Forall bucket_sound (add_visible c (cs_play_start_ns s) f interval_ns g raw).
Proof.
  intros Hr. unfold add_visible. assert (forall t, t ∈ raw -> t ∈ raw) as Hin by done. revert Hin.
  generalize raw at 1 3 as l. intros l Hin. revert g. induction l as [|t l IH]; intros g Hg; cbn [fold_left]; [done|].
  apply IH; [intros x Hx; apply Hin; by right|]. destruct (_ && _) eqn:E; [|done]. bools.
  apply bucket_add_sound; [done|]. split; [done|]. constructor; [|constructor]. cbn [fst]. split_and!; [lia|lia|done|].
  exists after, raw. split; [done|]. apply Hin. left.
Qed.

Lemma candle_step_sound st :
  Forall bucket_sound (fst st) ->
  match candle_step c s f interval_ns limit st with
  | inl st' => Forall bucket_sound (fst st')
  | inr (Ok g) => Forall bucket_sound g
  | inr (Raise e) => e = market_error M_SOURCE_ORDER \/
      exists after, src_trades (cs_manifest_hash s) (cs_instrument_id s) (cx_start_ns c) f after MAX_PAGE_SIZE = Raise e
  end.
Proof.
  intros Hg. unfold candle_step. destruct st as [g after]. cbn [fst] in Hg. destruct (limit <? _); [done|].
  destruct (src_trades _ _ _ _ _ _) as [raw|e] eqn:Hr; [|right; by exists after].
  destruct (last raw) as [l|]; [|done]. destruct (validate_source_order raw after) as [|e] eqn:Hv.
  - destruct (match after with Some _ => _ | None => _ end); [by left|].
    destruct (_ <? MAX_PAGE_SIZE); cbn [fst]; by eapply add_visible_sound.
  - left. unfold validate_source_order in Hv. generalize after, (@None Z), Hv. clear.
    induction raw as [|x raw IH]; intros ps pt Hv; cbn [source_order] in Hv; [done|].
    unfold raise_if in Hv. destruct (match ps with Some _ => _ | None => _ end); cbn [rbind] in Hv; [congruence|].
    destruct (match pt with Some _ => _ | None => _ end); cbn [rbind] in Hv; [congruence|]. by eapply IH.
Qed.
End Termination.

(** The candle loop ends whatever the source answers, after at most [2^64] full pages, and aggregates
    only what may be seen: it fails only with a source error or [SOURCE_ORDER], and every bucket is a
    nonempty list of trades that the source returned, inside the window from the requested start to
    the frontier and inside the bucket's interval. *)
Theorem candles_terminate (S : MarketDataSource) c s f interval_ns limit :
  trades_made S -> ss_setup (cx_session c) = Some s -> cx_frontier_ns c = Some f ->
  match candle_buckets c interval_ns limit with
  | Ok buckets => forall b ts, (b, ts) ∈ buckets -> ts <> [] /\ forall t, t ∈ ts ->
      cx_start_ns c <= tr_ts_ns t <= f /\ (tr_ts_ns t - cs_play_start_ns s) / interval_ns = b /\
      exists after raw, src_trades (cs_manifest_hash s) (cs_instrument_id s) (cx_start_ns c) f after MAX_PAGE_SIZE = Ok raw
        /\ t ∈ raw
  | Raise e => e = market_error M_SOURCE_ORDER \/
      exists after, src_trades (cs_manifest_hash s) (cs_instrument_id s) (cx_start_ns c) f after MAX_PAGE_SIZE = Raise e
  end.
Proof.
  intros Hmade Hs Hf. unfold candle_buckets, cx_setup. rewrite Hs, Hf. cbn [of_option rbind].
  destruct (candle_loop_ends S c s f interval_ns limit Hmade) as [r Hr]. rewrite Hr.
  rewrite iter_until_nat in Hr.
  pose proof (iter_nat_inv (candle_step c s f interval_ns limit) (fun st : CandleState => Forall (bucket_sound S c s f interval_ns) (fst st)) (fun r => match r with
    | Ok g => Forall (bucket_sound S c s f interval_ns) g
    | Raise e => e = market_error M_SOURCE_ORDER \/
      exists after, src_trades (cs_manifest_hash s) (cs_instrument_id s) (cx_start_ns c) f after MAX_PAGE_SIZE = Raise e end)
    (fun st Hst => candle_step_sound S c s f interval_ns limit st Hst) (Pos.to_nat 18446744073709551617) ([], None)
    (Forall_nil_2 _)) as Hi.
  rewrite Hr in Hi. destruct r as [g|e]; [|done]. intros b ts Hin. rewrite Forall_forall in Hi.
  destruct (Hi _ Hin) as [Hne Hts]. split; [done|]. by rewrite Forall_forall in Hts.
Qed.

(** C20. Over a canonical source the candles are the aggregation of the visible trades: for every supported
    interval and page size, the page holds the first [limit] nonempty intervals in time order, each
    computed from all visible trades of that interval in source order. *)
Theorem candles_reference (S : MarketDataSource) c s f interval_ns limit events :
  trades_made S -> ss_setup (cx_session c) = Some s -> cx_frontier_ns c = Some f ->
  serves src_trades (cs_manifest_hash s) (cs_instrument_id s) events ->
  interval_ns ∈ SUPPORTED_INTERVALS_NS -> 1 <= limit <= MAX_PAGE_SIZE ->
  let visible_trades := List.filter (in_window (cx_start_ns c) f None) events in
  candle_page c interval_ns limit
  = (let! items := rmap (fun p => project_candle c (fst p) interval_ns (snd p))
       (take (Z.to_nat limit) (reference_buckets (bucket_key s interval_ns) visible_trades)) in
     let! front := frontier_payload c in
     Ok (mk_page items None front)).
Proof.
  intros Hmade Hs Hf Hsrc Hint Hl visible_trades.
  assert (0 < interval_ns) as Hpos.
  { assert (Forall (fun x => 0 < x) SUPPORTED_INTERVALS_NS) as Hall by (repeat constructor).
    rewrite Forall_forall in Hall. by apply Hall. } unfold candle_page, candle_buckets, cx_setup. rewrite Hs, Hf.
  cbn [of_option rbind]. destruct (candle_loop_ends S c s f interval_ns limit Hmade) as [r Hr]. rewrite Hr.
  rewrite iter_until_nat in Hr.
  pose proof (iter_nat_inv (candle_step c s f interval_ns limit) (candle_inv c s interval_ns events) (candle_done c s interval_ns limit events)
    (candle_step_canonical c s f interval_ns limit events Hf Hsrc) (Pos.to_nat 18446744073709551617) ([], None)
    (candle_inv_start c s interval_ns events)) as Hi.
  rewrite Hr in Hi. destruct r as [g|e]; [|by destruct Hi as (j & Hj & _)]. cbn [rbind].
  rewrite (candle_done_reference c s f interval_ns limit events Hf Hsrc g Hpos ltac:(lia) Hi).
  assert (seen c None events = visible_trades) as -> by (unfold seen; by rewrite Hf). done.
Qed.

(** ** The page cache

    A history interleaves reads with writes to the store that keep the setup of every committed
    session, as the session operations do. *)

Inductive channel := CTrades | CBbo | CDepth | CCandles (interval_ns : Z).

Definition channel_name (ch : channel) : string :=
  match ch with CTrades => "TRADES" | CBbo => "BBO" | CDepth => "DEPTH" | CCandles _ => "CANDLES" end.
Definition channel_interval (ch : channel) : option Z := match ch with CCandles i => Some i | _ => None end.
Definition channel_after (ch : channel) (after : option Z) : option Z := match ch with CCandles _ => None | _ => after end.

Section Caching.
Context `{MarketDataSource}.

Definition run_read (ch : channel) (db : Db) (sid p : string) (off : Z) (after : option Z) (limit : Z) : ST Cache MarketPage :=
  match ch with
  | CTrades => trades db sid p off after limit
  | CBbo => bbo db sid p off after limit
  | CDepth => depth db sid p off after limit
  | CCandles i => candles db sid p i off limit
  end.

Inductive market_step : Db * Cache -> Db * Cache -> Prop :=
| ms_read ch db sid p off after limit cache r cache' :
    run_read ch db sid p off after limit cache = (r, cache') -> market_step (db, cache) (db, cache')
| ms_write db db' cache :
    (forall sid r s, state db sid = Some r -> ss_setup r = Some s ->
       exists r', state db' sid = Some r' /\ ss_setup r' = Some s) ->
    market_step (db, cache) (db', cache).

(** The page of a channel, computed from the source. *)
Definition fresh_page (ch : channel) (c : Context) (after : option Z) (limit : Z) : result MarketPage :=
  match cx_frontier_ns c with
  | None => let! f := frontier_payload c in Ok (mk_page [] None f)
  | Some _ =>
      match ch with
      | CTrades => read_page src_trades project_trade c after limit
      | CBbo => read_page src_bbo project_bbo c after limit
      | CDepth => read_page src_depth project_depth c after limit
      | CCandles i => candle_page c i limit
      end
  end.

(** What a read does before it looks at the cache. *)
Definition read_key (ch : channel) (db : Db) (sid p : string) (off : Z) (after : option Z) (limit : Z) : result (Context * CacheKey) :=
  let! _ := match ch with
            | CCandles i => raise_if (negb (bool_decide (i ∈ SUPPORTED_INTERVALS_NS))) (market_error M_UNSUPPORTED_INTERVAL)
            | _ => Ok tt
            end in
  let! c := context db sid p off in
  let! k := cache_key (channel_name ch) c p (channel_after ch after) limit (channel_interval ch) in
  Ok (c, k).

Lemma cached_eq k c fresh cache :
  cached k c fresh cache
  = match cache !! k with
    | Some page => (Ok page, cache)
    | None =>
        match match cx_frontier_ns c with
              | None => let! f := frontier_payload c in Ok (mk_page [] None f)
              | Some _ => fresh
              end with
        | Ok page => (Ok page, <[k := page]> cache)
        | Raise e => (Raise e, cache)
        end
    end.
Proof.
  unfold cached, sbind, gets, cache_empty, cache_put, lift, sret. destruct (cache !! k); [done|].
  destruct (cx_frontier_ns c); [by destruct fresh|]. unfold sbind. by destruct (frontier_payload c).
Qed.

Lemma run_read_eq ch db sid p off after limit cache :
  run_read ch db sid p off after limit cache
  = match read_key ch db sid p off after limit with
    | Raise e => (Raise e, cache)
    | Ok (c, k) =>
        match cache !! k with
        | Some page => (Ok page, cache)
        | None => match fresh_page ch c after limit with
                  | Ok page => (Ok page, <[k := page]> cache)
                  | Raise e => (Raise e, cache)
                  end
        end
    end.
Proof.
  unfold run_read, read_key, fresh_page.
  destruct ch; unfold trades, bbo, depth, candles; cbn [rbind channel_name channel_after channel_interval].
  4: destruct (raise_if _ _) as [[]|]; [rewrite sbind_lift|done]; cbn [rbind].
  all: destruct (context db sid p off) as [c|]; [rewrite sbind_lift|done]; cbn [rbind];
    (destruct (cache_key _ _ _ _ _ _) as [k|]; [rewrite sbind_lift|done]); cbn [rbind]; apply cached_eq.
Qed.

Lemma rmap_ext {A B} (f g : A -> result B) l : (forall x, f x = g x) -> rmap f l = rmap g l.
Proof. intros E. induction l as [|x l IH]; cbn; [done|]. by rewrite E, IH. Qed.

(** A page depends on the session only through its identifier and its setup. *)
Lemma fresh_page_agree ch r r' f start after limit :
  ss_session_id r = ss_session_id r' -> ss_setup r = ss_setup r' ->
  fresh_page ch (mk_context r f start) after limit = fresh_page ch (mk_context r' f start) after limit.
Proof.
  intros Hid Hs.
  assert (cx_setup (mk_context r f start) = cx_setup (mk_context r' f start)) as Es by (unfold cx_setup; cbn; by rewrite Hs).
  assert (forall t, time_payload (mk_context r f start) t = time_payload (mk_context r' f start) t) as Et
    by (intros t; unfold time_payload; by rewrite Es).
  assert (frontier_payload (mk_context r f start) = frontier_payload (mk_context r' f start)) as Ef
    by (unfold frontier_payload; cbn; destruct f; [by rewrite Et|done]).
  assert (forall T (E : MarketEvent T) (e : T) rest,
    project (mk_context r f start) e rest = project (mk_context r' f start) e rest) as Ep
    by (intros; unfold project; rewrite Et; cbn; by rewrite Hid).
  unfold fresh_page. cbn [cx_frontier_ns]. destruct f as [f|]; [|by rewrite Ef].
  destruct ch; unfold read_page, candle_page, candle_buckets; rewrite Es, Ef;
    (destruct (cx_setup (mk_context r' (Some f) start)) as [s|e] eqn:Es'; [|reflexivity]); cbn [rbind cx_frontier_ns of_option cx_start_ns].
  - destruct (src_trades _ _ _ _ _ _); cbn [rbind]; [|done]. change (visible ?l (mk_context r (Some f) start)) with (visible l (mk_context r' (Some f) start)).
    destruct (visible _ _ _ _); cbn [rbind]; [|done]. by rewrite (rmap_ext _ (project_trade (mk_context r' (Some f) start))) by (intros; apply Ep).
  - destruct (src_bbo _ _ _ _ _ _); cbn [rbind]; [|done]. change (visible ?l (mk_context r (Some f) start)) with (visible l (mk_context r' (Some f) start)).
    destruct (visible _ _ _ _); cbn [rbind]; [|done]. by rewrite (rmap_ext _ (project_bbo (mk_context r' (Some f) start))) by (intros; apply Ep).
  - destruct (src_depth _ _ _ _ _ _); cbn [rbind]; [|done]. change (visible ?l (mk_context r (Some f) start)) with (visible l (mk_context r' (Some f) start)).
    destruct (visible _ _ _ _); cbn [rbind]; [|done]. by rewrite (rmap_ext _ (project_depth (mk_context r' (Some f) start))) by (intros; apply Ep).
  - change (candle_step (mk_context r (Some f) start)) with (candle_step (mk_context r' (Some f) start)).
    destruct (iter_until _ _ _) as [|res]; [done|]. destruct res as [g|]; cbn [rbind]; [|done].
    rewrite (rmap_ext _ (fun p => project_candle (mk_context r' (Some f) start) (fst p) interval_ns (snd p))); [done|].
    intros [b ts]. unfold project_candle. rewrite Es, Es'. cbn [rbind]. by rewrite Et.
Qed.

(** Every cached page is what the source answers for the session's setup. *)
Definition cache_ok (db : Db) (cache : Cache) : Prop :=
  forall k page, cache !! k = Some page ->
    exists ch r f start p after limit s r',
      cache_key (channel_name ch) (mk_context r f start) p (channel_after ch after) limit (channel_interval ch) = Ok k /\
      fresh_page ch (mk_context r f start) after limit = Ok page /\
      ss_setup r = Some s /\ state db (ss_session_id r) = Some r' /\ ss_setup r' = Some s.

Lemma channel_eq ch ch' :
  channel_name ch = channel_name ch' -> channel_interval ch = channel_interval ch' -> ch = ch'.
Proof. destruct ch, ch'; cbn; congruence. Qed.

Lemma fresh_page_after ch c after after' limit :
  channel_after ch after = channel_after ch after' -> fresh_page ch c after limit = fresh_page ch c after' limit.
Proof. destruct ch; cbn; intros E; [by subst..|done]. Qed.

Lemma read_key_Ok ch db sid p off after limit c k :
  read_key ch db sid p off after limit = Ok (c, k) ->
  context db sid p off = Ok c /\
  cache_key (channel_name ch) c p (channel_after ch after) limit (channel_interval ch) = Ok k.
Proof. unfold read_key. intros Hk. repeat step_ok. by simplify_eq. Qed.

(** A hit is the page that would be computed now. *)
Lemma cache_hit ch db sid p off after limit cache c k page :
  cache_ok db cache -> read_key ch db sid p off after limit = Ok (c, k) -> cache !! k = Some page ->
  fresh_page ch c after limit = Ok page.
Proof.
  intros Hok (Hc & Hk)%read_key_Ok Hhit. destruct (Hok _ _ Hhit) as (ch' & r & f & start & p' & after' & limit' & s & r' & Hk' & Hp & Hs & Hr' & Hs').
  apply context_Ok in Hc as (r2 & s2 & Hr2 & _ & Hid2 & Hs2 & _ & _ & ->).
  unfold cache_key in Hk, Hk'. repeat step_ok. cbn in *. simplify_eq.
  assert (ch' = ch) as -> by (by apply channel_eq).
  rewrite <- Hp. rewrite (fresh_page_after ch _ after after') by congruence.
  match goal with Hss : ss_session_id r = _ |- _ => rewrite Hss in Hr' | Hss : _ = ss_session_id r |- _ => rewrite <- Hss in Hr' end.
  apply fresh_page_agree; congruence.
Qed.

Lemma market_step_ok db cache db' cache' :
  market_step (db, cache) (db', cache') -> cache_ok db cache -> cache_ok db' cache'.
Proof.
  intros Hs Hok. inversion Hs as [ch d sid p off after limit ca r ca' Hr|d d' ca Hkept]; subst.
  - rewrite run_read_eq in Hr. destruct (read_key _ _ _ _ _ _ _) as [[c k]|e] eqn:Hk; [|by injection Hr as _ <-].
    destruct (cache !! k) as [page|]; [by injection Hr as _ <-|].
    destruct (fresh_page ch c after limit) as [page|e] eqn:Hp; [|by injection Hr as _ <-]. injection Hr as _ <-.
    intros k' page'. rewrite lookup_insert_Some. intros [[<- <-]|[_ Hk']]; [|by apply Hok].
    apply read_key_Ok in Hk as [Hc Hk]. apply context_Ok in Hc as (r2 & s2 & Hr2 & _ & Hid & Hs2 & _ & _ & ->).
    exists ch, r2, (frontier_of s2 (ss_logical_time_ns r2)), (cs_play_start_ns s2 + off), p, after, limit, s2, r2.
    rewrite Hid. done.
  - intros k page Hk. destruct (Hok _ _ Hk) as (ch & r & f & start & p & after & limit & s & r' & H1 & H2 & H3 & H4 & H5).
    destruct (Hkept _ _ _ H4 H5) as (r'' & H6 & H7). exists ch, r, f, start, p, after, limit, s, r''. done.
Qed.

Lemma market_history_ok w w' : rtc market_step w w' -> cache_ok (fst w) (snd w) -> cache_ok (fst w') (snd w').
Proof.
  induction 1 as [|[db cache] [db1 cache1] w' Hs _ IH]; [done|]. intros Hok. apply IH. by eapply market_step_ok.
Qed.

(** C21. The page cache is transparent: in every history of reads and writes, a read returns what it would
    return with an empty cache, page or exception, although sessions advance and pages are kept for
    ever. *)
Theorem cache_transparent db0 db cache ch sid p off after limit :
  rtc market_step (db0, ∅) (db, cache) ->
  fst (run_read ch db sid p off after limit cache) = fst (run_read ch db sid p off after limit ∅).
Proof.
  intros Hh%market_history_ok; [|by intros k page; cbn; rewrite lookup_empty]. cbn in Hh.
  rewrite !run_read_eq, lookup_empty || rewrite !run_read_eq.
  destruct (read_key _ _ _ _ _ _ _) as [[c k]|e] eqn:Hk; [|done]. rewrite lookup_empty.
  destruct (cache !! k) as [page|] eqn:Hhit.
  - by rewrite (cache_hit _ _ _ _ _ _ _ _ _ _ _ Hh Hk Hhit).
  - by destruct (fresh_page ch c after limit).
Qed.

Lemma session_step_market db db' cache : db_ok db -> session_step db db' -> market_step (db, cache) (db', cache).
Proof.
  intros Hok Hs. apply ms_write. intros sid r s Hr Hset.
  destruct (session_step_le _ _ _ _ Hok Hs Hr) as (r' & Hr' & (_ & _ & _ & _ & _ & Hk & _)).
  exists r'. split; [done|]. by apply Hk.
Qed.
End Caching.

Lemma session_history_market `{MarketDataSource} db db' cache :
  db_ok db -> rtc session_step db db' -> rtc market_step (db, cache) (db', cache).
Proof.
  intros Hok Hh. induction Hh as [db|db db1 db' Hs _ IH]; [constructor|].
  eapply rtc_l; [by apply session_step_market|]. apply IH. apply (session_history_ok db); [by apply rtc_once|done].
Qed.

(** ** The future is hidden *)

(** Where [c] is a context of the session, both sources answer trades from the canonical lists [events] and
    [events'], which are the same up to [f]. *)
Definition same_past (S S' : MarketDataSource) (db : Db) (sid : string) (f : Z) : Prop :=
  forall r s, state db sid = Some r -> ss_setup r = Some s ->
    exists events events',
      serves (@src_trades S) (cs_manifest_hash s) (cs_instrument_id s) events
      /\ serves (@src_trades S') (cs_manifest_hash s) (cs_instrument_id s) events'
      /\ List.filter (fun e => ts_ns e <=? f) events = List.filter (fun e => ts_ns e <=? f) events'.

Lemma window_of_past {T} `{MarketEvent T} start g f (l l' : list T) :
  g <= f -> List.filter (fun e => ts_ns e <=? f) l = List.filter (fun e => ts_ns e <=? f) l' ->
  List.filter (in_window start g None) l = List.filter (in_window start g None) l'.
Proof.
  intros Hg E. assert (forall m : list T, List.filter (in_window start g None) m
    = List.filter (in_window start g None) (List.filter (fun e => ts_ns e <=? f) m)) as Hw.
  { intros m. rewrite filter_and. apply filter_ext_in. intros e _. unfold in_window.
    destruct (Z.leb_spec (ts_ns e) f); cbn [andb]; [done|]. rewrite (proj2 (Z.leb_gt (ts_ns e) g)) by lia. by rewrite andb_false_r. }
  by rewrite (Hw l), (Hw l'), E.
Qed.

Lemma candles_past (S S' : MarketDataSource) db sid p interval_ns off limit f cache :
  trades_made S -> trades_made S' -> seen_through db sid f -> same_past S S' db sid f ->
  @candles S' db sid p interval_ns off limit cache = @candles S db sid p interval_ns off limit cache.
Proof.
  intros Hm Hm' Hf Hp. pose proof (run_read_eq (H := S) (CCandles interval_ns) db sid p off None limit cache) as E.
  pose proof (run_read_eq (H := S') (CCandles interval_ns) db sid p off None limit cache) as E'. cbn [run_read] in E, E'.
  rewrite E, E'. clear E E'. destruct (read_key _ _ _ _ _ _ _) as [[c k]|e] eqn:Hk; [|done]. destruct (cache !! k); [done|].
  assert (@fresh_page S' (CCandles interval_ns) c None limit = @fresh_page S (CCandles interval_ns) c None limit) as ->; [|done].
  unfold read_key in Hk. repeat step_ok. simplify_eq.
  match goal with Hc : MarketModel.context _ _ _ _ = Ok _ |- _ =>
    pose proof (seen_frontier _ _ _ _ _ _ Hf Hc) as Hseen; apply context_Ok in Hc as (r & s & Hr & _ & _ & Hs & _ & _ & ->) end.
  unfold fresh_page. cbn [cx_frontier_ns] in *. destruct (frontier_of s (ss_logical_time_ns r)) as [g|] eqn:Hg; [|done].
  destruct (Hp _ _ Hr Hs) as (events & events' & Hsrv & Hsrv' & Hpast).
  match goal with Hc : cache_key _ _ _ _ _ _ = Ok _ |- _ => unfold cache_key, validate_query in Hc end. repeat step_ok. bools.
  match goal with Hi : bool_decide _ = true |- _ => apply bool_decide_eq_true in Hi | Hi : _ ∈ SUPPORTED_INTERVALS_NS |- _ => idtac end.
  rewrite (candles_reference S' _ s g interval_ns limit events') by (done || lia).
  rewrite (candles_reference S _ s g interval_ns limit events) by (done || lia). cbn [cx_start_ns].
  by rewrite (window_of_past _ g f events events') by (done || by apply Hseen).
Qed.

(** C19. The player cannot learn the future.  For a session whose logical time is at most [f], every page
    of trades, quotes or depth, the cache it leaves and the quote that price shortcuts resolve to are
    the same as if the source had no event later than [f], whatever the source answers.  Every page of
    candles, and the cache it leaves, is the same for all sources that answer with well-formed trades, those
    of the session from canonical lists which agree up to [f], whatever the lists hold later. *)
Theorem frontier_noninterference (S : MarketDataSource) db sid p f :
  seen_through db sid f ->
  (forall off after limit cache, @trades (hide f S) db sid p off after limit cache = @trades S db sid p off after limit cache) /\
  (forall off after limit cache, @bbo (hide f S) db sid p off after limit cache = @bbo S db sid p off after limit cache) /\
  (forall off after limit cache, @depth (hide f S) db sid p off after limit cache = @depth S db sid p off after limit cache) /\
  @current_quote (hide f S) db sid p = @current_quote S db sid p /\
  (forall S' interval_ns off limit cache, trades_made S -> trades_made S' -> same_past S S' db sid f ->
     @candles S' db sid p interval_ns off limit cache = @candles S db sid p interval_ns off limit cache).
Proof.
  intros Hf. split_and!; [intros; by apply read_hide..| |intros; by apply (candles_past _ _ _ _ _ _ _ _ f)].
  unfold current_quote. destruct (context db sid p 0) as [c|] eqn:Hc; [|done]. cbn [rbind].
  pose proof (seen_frontier _ _ _ _ _ _ Hf Hc) as Hg. destruct (cx_frontier_ns c) as [g|] eqn:E; [|done].
  destruct (cx_setup c) as [s|]; [|done]. cbn [rbind src_latest_bbo hide].
  destruct (@src_latest_bbo S _ _ _ _) as [[q|]|]; [|done|done]. cbn [rbind].
  destruct (bb_ts_ns q <=? f) eqn:Eq; [done|]. bools. specialize (Hg _ eq_refl).
  rewrite (proj2 (Z.ltb_lt g (bb_ts_ns q))) by lia. done.
Qed.

(** ** A concrete source *)

Module Demo.
Definition trades_list : list Trade :=
  [mk_trade "t0" 0 150 100 5; mk_trade "t1" 1 205 101 5; mk_trade "t2" 3 230 99 2; mk_trade "t3" 4 250 105 1;
   mk_trade "t4" 9 260 110 4].
Definition bbo_list : list Bbo := [mk_bbo "q0" 0 150 99 10 101 10; mk_bbo "q1" 2 240 100 10 103 7; mk_bbo "q2" 5 300 104 1 105 2].
Definition depth_list : list DepthSnapshot := [mk_depth "d0" 0 210 [mk_level 99 5; mk_level 98 7] [mk_level 101 3]].

Definition serve {T} `{MarketEvent T} (events : list T) : Query T :=
  fun _ _ start through after limit => Ok (take (Z.to_nat limit) (List.filter (in_window start through after) events)).

#[global] Instance source : MarketDataSource := {|
  src_trades := serve trades_list;
  src_bbo := serve bbo_list;
  src_depth := serve depth_list;
  src_latest_bbo _ _ start through := Ok (last (List.filter (fun q => (start <=? bb_ts_ns q) && (bb_ts_ns q <=? through)) bbo_list));
|}.

Lemma trades_served m i : serves src_trades m i trades_list.
Proof.
  split; [| |done].
  - repeat (constructor; [|repeat (constructor; [split; vm_compute; congruence|]); constructor]). constructor.
  - repeat (constructor; [split; vm_compute; congruence|]). constructor.
Qed.

Lemma source_trades_made : trades_made source.
Proof.
  intros m i start through after limit raw Hr. apply Ok_inj in Hr. subst raw. apply Forall_take.
  rewrite Forall_forall. intros t [Ht _]%elem_of_filterb. revert t Ht. rewrite <- Forall_forall.
  repeat (constructor; [vm_compute; reflexivity|]). constructor.
Qed.

Definition ctx : Context := match context (demo_sessions 4) "s1" "alice" 0 with Ok c => c | Raise _ => mk_context (mk_session "" "" SETUP 0 0 None None None) None 0 end.
Definition ctx_setup : CommittedSetup :=
  default (mk_committed "" "" "" 0 0 0 F0 ∅ ∅ false ABSOLUTE "" "" "") (ss_setup (cx_session ctx)).

Lemma ctx_facts : context (demo_sessions 4) "s1" "alice" 0 = Ok ctx /\ ss_setup (cx_session ctx) = Some ctx_setup /\
  cx_frontier_ns ctx = Some 250.
Proof. split_and!; vm_compute; reflexivity. Qed.

Lemma time_250 : option_map ss_logical_time_ns (state (demo_sessions 4) "s1") = Some (Some 250).
Proof. vm_compute. reflexivity. Qed.

(** The same trades up to [250], and another future. *)
Definition other_list : list Trade := take 4 trades_list ++ [mk_trade "x" 7 251 500 1; mk_trade "y" 8 400 1 1].
Definition other_source : MarketDataSource := {|
  src_trades := serve other_list; src_bbo := serve bbo_list; src_depth := serve depth_list;
  src_latest_bbo _ _ _ _ := Ok None;
|}.

Lemma other_served m i : serves (@src_trades other_source) m i other_list.
Proof.
  split; [| |done].
  - repeat (constructor; [|repeat (constructor; [split; vm_compute; congruence|]); constructor]). constructor.
  - repeat (constructor; [split; vm_compute; congruence|]). constructor.
Qed.

Lemma other_trades_made : trades_made other_source.
Proof.
  intros m i start through after limit raw Hr. apply Ok_inj in Hr. subst raw. apply Forall_take.
  rewrite Forall_forall. intros t [Ht _]%elem_of_filterb. revert t Ht. rewrite <- Forall_forall.
  repeat (constructor; [vm_compute; reflexivity|]). constructor.
Qed.

Lemma seen_250 : seen_through (demo_sessions 4) "s1" 250.
Proof.
  intros r t Hr Ht. pose proof time_250 as E. rewrite Hr in E. cbn [option_map] in E. injection E as E.
  rewrite Ht in E. injection E as ->. apply Z.le_refl.
Qed.

Lemma past_250 : same_past source other_source (demo_sessions 4) "s1" 250.
Proof.
  intros r s _ _. exists trades_list, other_list. split; [apply trades_served|]. split; [apply other_served|]. reflexivity.
Qed.
End Demo.

Lemma frontier_noninterference_witness :
  @current_quote (hide 250 Demo.source) (demo_sessions 4) "s1" "alice"
  = @current_quote Demo.source (demo_sessions 4) "s1" "alice"
  /\ @candles Demo.other_source (demo_sessions 4) "s1" "alice" 1000000000 0 10 ∅
     = @candles Demo.source (demo_sessions 4) "s1" "alice" 1000000000 0 10 ∅
  /\ match fst (@candles Demo.source (demo_sessions 4) "s1" "alice" 1000000000 0 10 ∅) with
     | Ok page => length (pg_items page) = 1%nat
     | Raise _ => False
     end.
Proof.
  destruct (frontier_noninterference Demo.source (demo_sessions 4) "s1" "alice" 250 Demo.seen_250) as (_ & _ & _ & Hq & Hc).
  split; [exact Hq|]. split; [|vm_compute; reflexivity].
  exact (Hc Demo.other_source 1000000000 0 10 ∅ Demo.source_trades_made Demo.other_trades_made Demo.past_250).
Defined.

Lemma market_pages_complete_witness :
  exists items, length items = 3%nat /\ read_all 4 src_trades project_trade Demo.ctx None 2 = Ok items.
Proof.
  destruct Demo.ctx_facts as (H1 & H2 & H3).
  destruct (rmap (project_trade Demo.ctx)
    (List.filter (fun e => (cx_start_ns Demo.ctx <=? ts_ns e) && (ts_ns e <=? 250)) Demo.trades_list)) as [items|] eqn:E;
    [|vm_compute in E; discriminate E].
  assert (length items = 3%nat) as Hl by (vm_compute in E; injection E as <-; reflexivity).
  exists items. split; [exact Hl|]. pattern 4%nat. rewrite <- (f_equal S Hl).
  apply (market_pages_complete src_trades project_trade (demo_sessions 4) "s1" "alice" 0 Demo.ctx Demo.ctx_setup 250 2
    Demo.trades_list items H1 H2 H3 (Demo.trades_served _ _)); [split; discriminate|exact E].
Defined.

Lemma candles_terminate_witness :
  match candle_buckets Demo.ctx 1000000000 10 with Ok buckets => length buckets = 1%nat | Raise _ => False end.
Proof.
  destruct Demo.ctx_facts as (_ & H2 & H3).
  pose proof (candles_terminate Demo.source Demo.ctx Demo.ctx_setup 250 1000000000 10 Demo.source_trades_made H2 H3) as H.
  destruct (candle_buckets Demo.ctx 1000000000 10) as [buckets|e] eqn:E; [|vm_compute in E; discriminate E].
  clear H. vm_compute in E. injection E as <-. reflexivity.
Defined.

Lemma candles_reference_witness :
  exists items front, candle_page Demo.ctx 1000000000 10 = Ok (mk_page items None front) /\ length items = 1%nat.
Proof.
  destruct Demo.ctx_facts as (_ & H2 & H3).
  rewrite (candles_reference Demo.source Demo.ctx Demo.ctx_setup 250 1000000000 10 Demo.trades_list Demo.source_trades_made
    H2 H3 (Demo.trades_served _ _)); [|by left|split; discriminate].
  eexists _, _. split; [vm_compute; reflexivity|reflexivity].
Defined.

Lemma cache_transparent_witness :
  let cache := snd (run_read CTrades (demo_sessions 4) "s1" "alice" 0 None 2 ∅) in
  fst (run_read CTrades (demo_sessions 8) "s1" "alice" 0 None 2 cache)
  = fst (run_read CTrades (demo_sessions 8) "s1" "alice" 0 None 2 ∅).
Proof.
  intros cache. apply (cache_transparent (demo_sessions 4) (demo_sessions 8)).
  eapply (rtc_l _ _ (demo_sessions 4, cache)).
  - apply (ms_read CTrades (demo_sessions 4) "s1" "alice" 0 None 2 ∅
      (fst (run_read CTrades (demo_sessions 4) "s1" "alice" 0 None 2 ∅)) cache). unfold cache.
    apply surjective_pairing.
  - apply session_history_market; [|apply demo_between; lia].
    eapply session_history_ok; [apply demo_reachable|apply empty_db_ok].
Defined.
