(* ===== verification/IngestModel.v ===== *)
(** * The ingestion runner ([workers/ingest/.../core])

    Budget, content-addressed cache, job checkpoints, canonical writer and the resumable runner over
    them.  A provider is an interface; files are maps from paths to contents, replaced atomically as the
    code does with a temporary file, and every write may fail ([disk]).  A run that stops early, by an
    exception or by the death of the process, leaves the files it has written. *)

From S2P Require Import Prelude Sort PyStr Bytes PyJson JsonParse.
From Stdlib Require Import Ascii Strings.Byte.
From Stdlib Require String.

Definition nl : string := String "010" EmptyString.

(** ** Canonical values ([canonical.py]) *)

(** [require_json_value] returns an equal value or raises [TypeError]. *)
Fixpoint json_value (v : pyval) : bool :=
  match v with
  | VNone | VBool _ | VInt _ | VStr _ => true
  | VFloat _ | VOther => false
  | VList l => forallb json_value l
  | VDict d => forallb (fun '(k, x) => match k with KStr _ => json_value x | KOther _ => false end) d
  end.
Definition require_json_value (v : pyval) : result pyval := if json_value v then Ok v else Raise TypeError.

Definition canonical_bytes (v : pyval) : result bytes :=
  let! normalized := require_json_value v in
  let! text := json_dumps false normalized in
  Ok (utf8 text).

(** ** Plans ([model.py]) *)

Record FetchRequest := mk_fetch_request {
  fq_provider : string;
  fq_dataset : string;
  fq_instrument_id : string;
  fq_start_ns : Z;
  fq_end_ns : Z;
  fq_options : list (string * string);
}.

Definition request_canonical (r : FetchRequest) : pyval := VDict (obj [
  ("provider", VStr (fq_provider r)); ("dataset", VStr (fq_dataset r)); ("instrument_id", VStr (fq_instrument_id r));
  ("start_ns", VStr (str_Z (fq_start_ns r))); ("end_ns", VStr (str_Z (fq_end_ns r)));
  ("options", VList (map (fun p => VList [VStr (fst p); VStr (snd p)]) (py_sorted id (fq_options r))))]).

Definition job_id (r : FetchRequest) : result string :=
  let! b := canonical_bytes (request_canonical r) in Ok (sha256_hex b).

Record FetchChunk := mk_chunk {
  ch_key : string;
  ch_source_ref : string;
  ch_expected_bytes : option Z;
  ch_estimated_cost_minor : Z;
}.

Definition FetchPlan := list FetchChunk.
Definition estimated_cost_minor (p : FetchPlan) : Z := fold_right Z.add 0 (map ch_estimated_cost_minor p).

(** ** The budget ([budget.py]) *)

Record BudgetGuard := mk_budget {
  max_requests : Z;
  max_bytes : Z;
  max_cost_minor : Z;
  bg_requests : Z;
  bg_bytes : Z;
  bg_cost_minor : Z;
}.

Definition preflight (requests cost_minor : Z) (g : BudgetGuard) : result unit :=
  let! _ := raise_if ((requests <? 0) || (cost_minor <? 0)) ValueError in
  let! _ := raise_if (max_requests g <? bg_requests g + requests) BudgetExceeded in
  raise_if (max_cost_minor g <? bg_cost_minor g + cost_minor) BudgetExceeded.

Definition consume (bytes_count cost_minor : Z) : ST BudgetGuard unit := fun g =>
  let next_requests := bg_requests g + 1 in
  let next_bytes := bg_bytes g + bytes_count in
  let next_cost := bg_cost_minor g + cost_minor in
  if (bytes_count <? 0) || (cost_minor <? 0) then (Raise ValueError, g)
  else if max_requests g <? next_requests then (Raise BudgetExceeded, g)
  else if max_bytes g <? next_bytes then (Raise BudgetExceeded, g)
  else if max_cost_minor g <? next_cost then (Raise BudgetExceeded, g)
  else (Ok tt, mk_budget (max_requests g) (max_bytes g) (max_cost_minor g) next_requests next_bytes next_cost).

(** ** Files *)

Record Files := mk_files {
  cache_files : gmap (string * string) bytes;          (* root / digest[:2] / digest[2:] *)
  job_files : gmap string string;                      (* root / job_id.json *)
  out_files : gmap string bytes;
}.
Definition set_cache t (f : Files) : Files := mk_files t (job_files f) (out_files f).
Definition set_jobs t (f : Files) : Files := mk_files (cache_files f) t (out_files f).
Definition set_out t (f : Files) : Files := mk_files (cache_files f) (job_files f) t.

(** A provider and the disk: what a run calls and does not control. *)
Class Provider (Net : Type) := {
  ad_plan : FetchRequest -> ST Net FetchPlan;
  ad_fetch : FetchChunk -> ST Net bytes;
  ad_normalize : FetchChunk -> bytes -> result (list pyval);
  disk : ST Net unit;
}.

Record World (Net : Type) := mk_world { wd_files : Files; wd_guard : BudgetGuard; wd_net : Net }.
Arguments mk_world {Net}.
Arguments wd_files {Net}.
Arguments wd_guard {Net}.
Arguments wd_net {Net}.

Definition on_guard {Net A} (m : ST BudgetGuard A) : ST (World Net) A := fun w =>
  let '(r, g) := m (wd_guard w) in (r, mk_world (wd_files w) g (wd_net w)).
Definition on_net {Net A} (m : ST Net A) : ST (World Net) A := fun w =>
  let '(r, n) := m (wd_net w) in (r, mk_world (wd_files w) (wd_guard w) n).
Definition read_files {Net A} (f : Files -> result A) : ST (World Net) A := fun w => (f (wd_files w), w).
(** One atomic replacement of a file. *)
Definition write_files {Net} `{Provider Net} (f : Files -> Files) : ST (World Net) unit :=
  on_net disk ;;; (fun w => (Ok tt, mk_world (f (wd_files w)) (wd_guard w) (wd_net w))).

(** ** The cache ([cache.py]) *)

Definition cache_path (digest : string) : string * string :=
  (String.substring 0 2 digest, String.substring 2 (String.length digest - 2) digest).

Definition cache_get (digest : string) (f : Files) : result bytes :=
  let! payload := of_option FileNotFoundError (cache_files f !! cache_path digest) in
  let! _ := raise_if (negb (String.eqb (sha256_hex payload) digest)) CacheCorruption in
  Ok payload.

Section Runner.
Context {Net : Type} `{Provider Net}.

Definition cache_put (payload : bytes) : ST (World Net) string :=
  let digest := sha256_hex payload in
  existing <- read_files (fun f => Ok (cache_files f !! cache_path digest)) ;;
  match existing with
  | Some _ =>
      stored <- read_files (cache_get digest) ;;
      lift (raise_if (negb (bool_decide (stored = payload))) CacheCorruption) ;;;
      sret digest
  | None => write_files (fun f => set_cache (<[cache_path digest := payload]> (cache_files f)) f) ;;; sret digest
  end.

(** ** Checkpoints ([state.py]) *)

Fixpoint completed_entries (d : pydict) (acc : gmap string string) : result (gmap string string) :=
  match d with
  | [] => Ok acc
  | (KStr k, VStr v) :: d' => completed_entries d' (<[k := v]> acc)
  | _ :: _ => Raise ValueError
  end.

Definition load_checkpoint (j : string) (f : Files) : result (gmap string string) :=
  match job_files f !! j with
  | None => Ok ∅
  | Some text =>
      let! value := json_loads text in
      match value with
      | VDict d =>
          let! _ := raise_if (negb (py_eq (default VNone (dict_get "job_id" d)) (VStr j))) ValueError in
          match dict_get "completed" d with
          | Some (VDict completed) => completed_entries completed ∅
          | _ => Raise ValueError
          end
      | _ => Raise ValueError
      end
  end.

Definition str_item (p : string * string) : pykey * pyval := (KStr (fst p), VStr (snd p)).

Definition checkpoint_json (j : string) (completed : gmap string string) : pyval :=
  VDict (obj [("completed", VDict (map str_item (map_to_list completed))); ("job_id", VStr j)]).

Definition save_checkpoint (j : string) (completed : gmap string string) : ST (World Net) unit :=
  payload <- lift (json_dumps true (checkpoint_json j completed)) ;;
  write_files (fun f => set_jobs (<[j := payload +:+ nl]> (job_files f)) f).

(** ** The writer ([writer.py]) *)

Definition event_field (name : string) (missing : pyval) (event : pydict) : result string :=
  match default missing (dict_get name event) with VStr s => Ok s | _ => Raise ValueError end.

(** [_event_sort_key]. *)
Definition event_sort_key (event : pydict) : result (Z * Z * Z) :=
  let! timestamp := event_field "ts_event_ns" VNone event in
  let! sequence := event_field "source_sequence" (VStr "0") event in
  let! tie := event_field "canonical_tie_breaker" (VStr "0") event in
  let! a := py_int timestamp in
  let! b := py_int sequence in
  let! c := py_int tie in
  Ok (a, b, c).

Definition normalized_event (v : pyval) : result pydict :=
  let! n := require_json_value v in
  match n with VDict d => Ok d | _ => Raise TypeError end.

Definition keyed_event (d : pydict) : result (Z * Z * Z * pydict) := let! k := event_sort_key d in Ok (k, d).

(** The content of the output file. *)
Definition canonical_body (events : list pyval) : result bytes :=
  let! normalized := rmap normalized_event events in
  let! keyed := rmap keyed_event normalized in
  let! lines := rmap (fun p => canonical_bytes (VDict (snd p))) (py_sorted fst keyed) in
  Ok (concat (map (fun l => l ++ [x0a]) lines)).

(** [json.dumps(..., sort_keys=True, indent=2)] of the manifest: a dictionary of texts, a number and a
    list of pairs of texts. *)
Definition indented_pair (p : string * string) : string :=
  "    [" +:+ nl +:+ "      " +:+ quote true (fst p) +:+ "," +:+ nl +:+ "      " +:+ quote true (snd p) +:+ nl +:+ "    ]".
Definition indented_pairs (l : list (string * string)) : string :=
  match l with
  | [] => "[]"
  | _ => "[" +:+ nl +:+ join ("," +:+ nl) (map indented_pair l) +:+ nl +:+ "  ]"
  end.
Definition manifest_text (content_hash : string) (chunks : list (string * string)) (j : string) (rows : Z) : string :=
  "{" +:+ nl +:+ "  " +:+ quote true "canonical_content_sha256" +:+ ": " +:+ quote true content_hash +:+ "," +:+ nl
  +:+ "  " +:+ quote true "chunks" +:+ ": " +:+ indented_pairs chunks +:+ "," +:+ nl
  +:+ "  " +:+ quote true "job_id" +:+ ": " +:+ quote true j +:+ "," +:+ nl
  +:+ "  " +:+ quote true "row_count" +:+ ": " +:+ str_Z rows +:+ nl +:+ "}" +:+ nl.

Definition write_canonical (output manifest j : string) (events : list pyval) (hashes : list (string * string))
    : ST (World Net) string :=
  body <- lift (canonical_body events) ;;
  let content_hash := sha256_hex body in
  write_files (fun f => set_out (<[output := body]> (out_files f)) f) ;;;
  let text := manifest_text content_hash hashes j (Z.of_nat (length events)) in
  write_files (fun f => set_out (<[manifest := utf8 text]> (out_files f)) f) ;;;
  sret content_hash.

(** ** The runner ([runner.py]) *)

Record RunResult := mk_run {
  rn_job_id : string;
  rn_content_sha256 : string;
  rn_row_count : Z;
}.

(** The digest and the bytes of one chunk: from the cache if its digest is checkpointed. *)
Definition obtain_chunk (j : string) (c : FetchChunk) (completed : gmap string string)
    : ST (World Net) (string * bytes * gmap string string) :=
  match completed !! ch_key c with
  | None =>
      raw <- on_net (ad_fetch c) ;;
      on_guard (consume (Z.of_nat (length raw)) (ch_estimated_cost_minor c)) ;;;
      digest <- cache_put raw ;;
      let completed' := <[ch_key c := digest]> completed in
      save_checkpoint j completed' ;;;
      sret (digest, raw, completed')
  | Some digest =>
      raw <- read_files (cache_get digest) ;;
      sret (digest, raw, completed)
  end.

Fixpoint run_chunks (j : string) (chunks : list FetchChunk) (completed : gmap string string)
    (events : list pyval) (hashes : list (string * string)) : ST (World Net) (list pyval * list (string * string)) :=
  match chunks with
  | [] => sret (events, hashes)
  | c :: chunks' =>
      got <- obtain_chunk j c completed ;;
      let '(digest, raw, completed') := got in
      batch <- lift (ad_normalize c raw) ;;
      run_chunks j chunks' completed' (events ++ batch) (hashes ++ [(ch_key c, digest)])
  end.

Definition run_job (request : FetchRequest) (output manifest : string) : ST (World Net) RunResult :=
  plan <- on_net (ad_plan request) ;;
  (fun w => (preflight (Z.of_nat (length plan)) (estimated_cost_minor plan) (wd_guard w), w)) ;;;
  j <- lift (job_id request) ;;
  completed <- read_files (load_checkpoint j) ;;
  loop <- run_chunks j plan completed [] [] ;;
  content_hash <- write_canonical output manifest j (fst loop) (snd loop) ;;
  sret (mk_run j content_hash (Z.of_nat (length (fst loop)))).

End Runner.
