(* ===== verification/Ingest.v ===== *)
(** * Ingestion: resumption and progress

    Checkpoints are read back as they were saved; a job's checkpoint never promises a chunk that the
    cache does not hold.  With these, a run that returns after any history of failed attempts returns
    what an undisturbed run would ([ingest_resume_exact]), and a healthy run returns and fetches only
    what is missing ([ingest_progress]). *)

From S2P Require Import Prelude Sort PyStr Bytes PyJson JsonParse IngestModel.
From Stdlib Require Import Ascii.
From Stdlib Require String.

(** ** Checkpoints can be read back *)

Lemma completed_entries_fold l acc :
  completed_entries (map str_item l) acc = Ok (fold_left (fun a p => <[fst p := snd p]> a) l acc).
Proof. revert acc. induction l as [|[k v] l IH]; intros acc; [done|]. cbn. apply IH. Qed.

Lemma fold_insert (l : list (string * string)) (acc : gmap string string) :
  NoDup (map fst l) -> fold_left (fun a p => <[fst p := snd p]> a) l acc = (list_to_map l : gmap string string) ∪ acc.
Proof.
  revert acc. induction l as [|[k v] l IH]; intros acc Hn.
  { cbn [fold_left]. by rewrite list_to_map_nil, (left_id_L ∅ (∪)). }
  cbn [map fst] in Hn. apply NoDup_cons in Hn as [Hk Hn]. cbn [fold_left fst snd]. rewrite IH by done.
  rewrite list_to_map_cons, <- insert_union_l. symmetry. apply insert_union_r. by apply not_elem_of_list_to_map_1.
Qed.

Lemma canon_str_items l :
  canon (VDict (map str_item l)) = VDict (map str_item (py_sorted fst l)).
Proof.
  rewrite canon_dict, map_map. rewrite (map_ext _ str_item) by by intros []. by rewrite py_sorted_map.
Qed.

Lemma str_items_ok l : NoDup (map fst l) -> json_ok (VDict (map str_item l)) = true.
Proof.
  intros Hn. apply json_ok_dict. split; [apply Forall_map, Forall_true; by intros []|].
  rewrite map_map. change (fun x => fst (str_item x)) with (fun x : string * string => KStr (fst x)).
  rewrite <- (map_map fst KStr). apply NoDup_fmap_2; [by intros ? ? [= ->]|done].
Qed.

Lemma sorted_entries_nodup (m : gmap string string) : NoDup (map fst (py_sorted fst (map_to_list m))).
Proof. rewrite py_sorted_perm. apply NoDup_fst_map_to_list. Qed.

Lemma checkpoint_json_ok j m : json_ok (checkpoint_json j m) = true.
Proof.
  unfold checkpoint_json. apply json_ok_dict. split.
  - apply Forall_cons. split; [split; [done|]|by apply Forall_singleton].
    apply (str_items_ok (map_to_list m)), NoDup_fst_map_to_list.
  - apply (bool_decide_eq_true_1 (NoDup [KStr "completed"; KStr "job_id"])). reflexivity.
Qed.

Lemma sorted_two_keys (a b : pyval) :
  py_sorted item_name [(KStr "completed", a); (KStr "job_id", b)] = [(KStr "completed", a); (KStr "job_id", b)].
Proof. reflexivity. Qed.

Lemma checkpoint_canon j m :
  canon (checkpoint_json j m)
  = VDict (obj [("completed", VDict (map str_item (py_sorted fst (map_to_list m)))); ("job_id", VStr j)]).
Proof.
  unfold checkpoint_json. rewrite canon_dict.
  change (map canon_item (obj [("completed", VDict (map str_item (map_to_list m))); ("job_id", VStr j)]))
    with [(KStr "completed", canon (VDict (map str_item (map_to_list m)))); (KStr "job_id", VStr j)].
  by rewrite canon_str_items, sorted_two_keys.
Qed.

Lemma checkpoint_fields a b :
  dict_get "completed" (obj [("completed", a); ("job_id", b)]) = Some a
  /\ dict_get "job_id" (obj [("completed", a); ("job_id", b)]) = Some b.
Proof. by split. Qed.

Lemma py_eq_str s : py_eq (VStr s) (VStr s) = true.
Proof. exact (String.eqb_refl s). Qed.

Definition saved_text (j : string) (m : gmap string string) (text : string) : Prop :=
  exists t, json_dumps true (checkpoint_json j m) = Ok t /\ text = t +:+ nl.

Lemma load_saved j m text f :
  saved_text j m text -> job_files f !! j = Some text -> load_checkpoint j f = Ok m.
Proof.
  intros (t & Ht & ->) Hf. unfold load_checkpoint. rewrite Hf.
  pose proof (loads_dumps_nl _ _ _ (checkpoint_json_ok j m) Ht) as Hl. fold (checkpoint_json j m) in Hl.
  rewrite checkpoint_canon in Hl. unfold nl. rewrite Hl. cbn [rbind].
  destruct (checkpoint_fields (VDict (map str_item (py_sorted fst (map_to_list m)))) (VStr j)) as [-> ->].
  cbn [default id].
  rewrite py_eq_str. cbn [negb raise_if rbind].
  rewrite completed_entries_fold, fold_insert by apply sorted_entries_nodup.
  rewrite (right_id_L ∅ (∪)). f_equal.
  rewrite (list_to_map_proper _ (map_to_list m)); [apply list_to_map_to_list|apply sorted_entries_nodup|].
  apply py_sorted_perm.
Qed.

Lemma job_id_total r : exists j, job_id r = Ok j.
Proof.
  unfold job_id, canonical_bytes, require_json_value.
  assert (json_value (request_canonical r) = true) as ->.
  { cbn. rewrite andb_true_r. apply forallb_forall. intros v Hv. by apply in_map_iff in Hv as (p & <- & _). }
  cbn [rbind]. destruct (dumps_total false (request_canonical r)) as (t & ->); [|eauto].
  unfold request_canonical. apply json_ok_dict. split.
  - repeat (apply Forall_cons; split; [split; [done|]|]); try done.
    cbn. apply forallb_forall. intros v Hv. by apply in_map_iff in Hv as (p & <- & _).
  - apply (bool_decide_eq_true_1 (NoDup [KStr "provider"; KStr "dataset"; KStr "instrument_id"; KStr "start_ns"; KStr "end_ns"; KStr "options"])).
    reflexivity.
Qed.

(** ** What a job should produce *)

(** A provider whose plan and content for a request do not change from one attempt to the next. *)
Class ProviderLaws (Net : Type) `{Provider Net} := {
  plan_of : FetchRequest -> FetchPlan;
  source_of : FetchChunk -> bytes;
  plan_stable : forall r n p n', ad_plan r n = (Ok p, n') -> p = plan_of r;
  fetch_stable : forall c n b n', ad_fetch c n = (Ok b, n') -> b = source_of c;
  plan_keys : forall r, NoDup (map ch_key (plan_of r));
}.

Section Jobs.
Context {Net : Type} `{ProviderLaws Net}.
Implicit Types (f : Files) (w : World Net) (r : FetchRequest).

(** The events and the provenance of a run that fetches everything at once and never fails. *)
Definition normalized_chunk (c : FetchChunk) : result (list pyval) := ad_normalize c (source_of c).
Definition chunk_hash (c : FetchChunk) : string * string := (ch_key c, sha256_hex (source_of c)).
Definition reference_events (r : FetchRequest) : result (list pyval) :=
  let! batches := rmap normalized_chunk (plan_of r) in Ok (concat batches).
Definition reference_hashes (r : FetchRequest) : list (string * string) := map chunk_hash (plan_of r).

Definition cached f (c : FetchChunk) : Prop :=
  cache_files f !! cache_path (sha256_hex (source_of c)) = Some (source_of c).

(** Every checkpointed chunk of the plan has the provider's bytes in the cache. *)
Definition entries_good r (m : gmap string string) f : Prop :=
  forall c d, c ∈ plan_of r -> m !! ch_key c = Some d -> d = sha256_hex (source_of c) /\ cached f c.

Definition job_good r j f : Prop :=
  forall text, job_files f !! j = Some text -> exists m, saved_text j m text /\ entries_good r m f.

Definition cache_grow f f' : Prop := cache_files f ⊆ cache_files f'.

Lemma entries_grow r m f f' : cache_grow f f' -> entries_good r m f -> entries_good r m f'.
Proof.
  intros Hg He c d Hc Hd. destruct (He c d Hc Hd) as [E Hl]. split; [done|]. by eapply lookup_weaken.
Qed.

Lemma job_grow r j f f' :
  cache_grow f f' -> job_files f' !! j = job_files f !! j -> job_good r j f -> job_good r j f'.
Proof.
  intros Hg Hj Hf text Ht. rewrite Hj in Ht. destruct (Hf text Ht) as (m & Hm & He). exists m.
  split; [done|]. by eapply entries_grow.
Qed.

Lemma entries_insert r m f c :
  c ∈ plan_of r -> cached f c -> entries_good r m f ->
  entries_good r (<[ch_key c := sha256_hex (source_of c)]> m) f.
Proof.
  intros Hc Hs He c' d Hc'. destruct (decide (ch_key c' = ch_key c)) as [E|Hne].
  - rewrite E, lookup_insert_eq. intros [= <-]. assert (c' = c) as ->; [|done].
    by apply (NoDup_map_inj ch_key (plan_of r)); [apply plan_keys|..].
  - rewrite lookup_insert_ne by done. by apply He.
Qed.

(** *** The operations of a run, on every outcome *)

Definition files_ok (P : Files -> Prop) (w : World Net) : Prop := P (wd_files w).

Section Leaves.
Variables P G : Files -> Prop.
Hypothesis HPG : forall f, P f -> G f.

Lemma triple_net {A} (m : ST Net A) (Q : A -> Prop) :
  (forall n a n', m n = (Ok a, n') -> Q a) ->
  triple (files_ok P) (on_net m) (fun a w => Q a /\ files_ok P w) (files_ok G).
Proof.
  intros Hm w x w' Hw. unfold on_net. destruct (m (wd_net w)) as [[a|e] n'] eqn:E; intros [= <- <-].
  - split; [by eapply Hm|exact Hw].
  - apply HPG, Hw.
Qed.

Lemma triple_guard {A} (m : ST BudgetGuard A) :
  triple (files_ok P) (on_guard m) (fun _ => files_ok P) (files_ok G).
Proof.
  intros w x w' Hw. unfold on_guard. destruct (m (wd_guard w)) as [[a|e] g'] eqn:E; intros [= <- <-]; [exact Hw|].
  apply HPG, Hw.
Qed.

Lemma triple_write (g : Files -> Files) (Q : Files -> Prop) :
  (forall f, P f -> Q (g f)) -> triple (files_ok P) (write_files g) (fun _ => files_ok Q) (files_ok G).
Proof.
  intros Hg. eapply triple_bind; [by apply (triple_net disk (fun _ => True))|].
  intros [] w x w' [_ Hw] [= <- <-]. by apply Hg.
Qed.

Lemma triple_files {A} (q : Files -> result A) (Q : A -> Files -> Prop) :
  (forall f a, P f -> q f = Ok a -> Q a f) ->
  triple (files_ok P) (read_files q) (fun a => files_ok (Q a)) (files_ok G).
Proof. intros Hq. apply triple_read; [|intros w; apply HPG]. intros w a Hw E. by apply Hq. Qed.
End Leaves.

(** The state between two operations of a run of [r]: [m] is the checkpoint in memory. *)
Definition running r j m f : Prop := job_good r j f /\ entries_good r m f.

Lemma cache_insert_grow f b :
  cache_files f !! cache_path (sha256_hex b) = None ->
  cache_grow f (set_cache (<[cache_path (sha256_hex b) := b]> (cache_files f)) f).
Proof. apply insert_subseteq. Qed.

Lemma running_grow r j m f f' :
  cache_grow f f' -> job_files f' !! j = job_files f !! j -> running r j m f -> running r j m f'.
Proof. intros Hg Hj [Hf Hm]. split; [by eapply job_grow|by eapply entries_grow]. Qed.

Lemma cache_get_Ok digest f b :
  cache_get digest f = Ok b -> cache_files f !! cache_path digest = Some b /\ sha256_hex b = digest.
Proof.
  unfold cache_get. destruct (cache_files f !! cache_path digest) as [p|]; [|discriminate]. cbn [of_option rbind].
  destruct (String.eqb_spec (sha256_hex p) digest) as [E|]; [|discriminate]. intros [= <-]. done.
Qed.

(** [put] leaves the object in the cache, whatever was there. *)
Lemma triple_put r j m c :
  triple (files_ok (running r j m)) (cache_put (source_of c))
    (fun d w => d = sha256_hex (source_of c) /\ files_ok (fun f => running r j m f /\ cached f c) w)
    (files_ok (job_good r j)).
Proof.
  assert (forall f, running r j m f -> job_good r j f) as HG by by intros f [].
  unfold cache_put. eapply triple_bind.
  { apply (triple_files _ _ HG _ (fun o f => running r j m f /\ o = cache_files f !! cache_path (sha256_hex (source_of c)))).
    intros f a Hf [= <-]. done. }
  intros [stored|].
  - eapply triple_bind.
    { eapply (triple_files _ _ _ _ (fun b f => running r j m f /\ cache_files f !! cache_path (sha256_hex (source_of c)) = Some b)).
      intros f b [Hf _] [Hb _]%cache_get_Ok. done. }
    intros b. eapply triple_bind.
    { apply (triple_lift _ _ (fun _ w => files_ok (fun f => running r j m f /\ cached f c) w)).
      - intros w [] [Hf Hb] Eb. apply raise_if_Ok in Eb. apply negb_false_iff, bool_decide_eq_true in Eb as ->. done.
      - intros w [[Hf _] _]. exact Hf. }
    intros []. by apply triple_ret.
  - eapply triple_bind.
    { apply (triple_write _ (job_good r j)) with (Q := fun f => running r j m f /\ cached f c); [by intros f [[Hj _] _]|].
      intros f [Hf Hn]. split; [by apply (running_grow r j m f); [apply cache_insert_grow| |]|].
      unfold cached. cbn. by rewrite lookup_insert_eq. }
    intros []. by apply triple_ret.
  Unshelve. by intros f [[Hj _] _].
Qed.

Lemma triple_save r j m :
  triple (files_ok (running r j m)) (save_checkpoint j m) (fun _ => files_ok (running r j m)) (files_ok (job_good r j)).
Proof.
  assert (forall f, running r j m f -> job_good r j f) as HG by by intros f [].
  unfold save_checkpoint. eapply triple_bind.
  { apply (triple_lift _ _ (fun t w => json_dumps true (checkpoint_json j m) = Ok t /\ files_ok (running r j m) w)); [done|].
    intros w. apply HG. }
  intros t. apply triple_pure. intros Ht. apply triple_write; [done|]. intros f [_ Hm]. split; [|exact Hm].
  intros text. cbn. rewrite lookup_insert_eq. intros [= <-]. exists m. split; [by exists t|exact Hm].
Qed.

(** One chunk: the provider's bytes and their digest, with the checkpoint and the cache extended. *)
Lemma triple_obtain r j m c :
  c ∈ plan_of r ->
  triple (files_ok (running r j m)) (obtain_chunk j c m)
    (fun got w => fst (fst got) = sha256_hex (source_of c) /\ snd (fst got) = source_of c
                  /\ files_ok (running r j (snd got)) w)
    (files_ok (job_good r j)).
Proof.
  intros Hc. assert (forall f, running r j m f -> job_good r j f) as HG by by intros f [].
  unfold obtain_chunk. destruct (m !! ch_key c) as [d|] eqn:Hd.
  - eapply triple_bind.
    { apply (triple_files _ _ HG _ (fun b f => (d = sha256_hex (source_of c) /\ b = source_of c) /\ running r j m f)).
      intros f b Hf [Hb _]%cache_get_Ok. destruct (proj2 Hf c d Hc Hd) as [Ed Hs]. split; [|done].
      split; [done|]. unfold cached in Hs. rewrite <- Ed in Hs. congruence. }
    intros b. apply triple_ret. intros w [[-> ->] Hf]. done.
  - eapply triple_bind; [apply (triple_net _ _ HG _ (fun b => b = source_of c)), fetch_stable|].
    intros b. apply triple_pure. intros ->. eapply triple_bind; [by apply triple_guard|]. intros ?.
    eapply triple_bind; [apply triple_put|]. intros d. apply triple_pure. intros ->.
    eapply triple_bind.
    { eapply triple_pre; [apply triple_save|]. intros w [[Hj Hm] Hs]. split; [done|]. by apply entries_insert. }
    intros ?. apply triple_ret. intros w Hw. done.
Qed.

Lemma triple_chunks r j cs : forall m events hashes,
  cs ⊆ plan_of r ->
  triple (files_ok (running r j m)) (run_chunks j cs m events hashes)
    (fun loop w => (exists batches, rmap normalized_chunk cs = Ok batches /\ fst loop = events ++ concat batches
                    /\ snd loop = hashes ++ map chunk_hash cs) /\ files_ok (job_good r j) w)
    (files_ok (job_good r j)).
Proof.
  induction cs as [|c cs IH]; intros m events hashes Hcs.
  { apply triple_ret. intros w [Hw _]. split; [|done]. exists []. cbn. by rewrite !app_nil_r. }
  cbn [run_chunks]. eapply triple_bind; [apply triple_obtain, Hcs, list_elem_of_here|].
  intros [[d b] m']. cbn [fst snd]. apply triple_pure. intros ->. apply triple_pure. intros ->.
  eapply triple_bind.
  { apply (triple_lift _ _ (fun batch w => normalized_chunk c = Ok batch /\ files_ok (running r j m') w)); [done|].
    by intros w []. }
  intros batch. apply triple_pure. intros Hb. intros w x w' Hw Hx.
  assert (cs ⊆ plan_of r) as Hcs' by by intros y Hy; apply Hcs, list_elem_of_further.
  specialize (IH m' (events ++ batch) (hashes ++ [(ch_key c, sha256_hex (source_of c))]) Hcs' w x w' Hw Hx).
  destruct x as [loop|e]; [|done]. destruct IH as [(bs & Hbs & E1 & E2) Hf]. split; [|done].
  exists (batch :: bs). cbn [rmap]. rewrite Hb. cbn [rbind]. rewrite Hbs. cbn [rbind concat map].
  split; [done|]. split; [by rewrite E1, <- app_assoc|by rewrite E2, <- app_assoc].
Qed.

(** *** A whole run *)

Lemma triple_canonical r j output manifest events hashes :
  triple (files_ok (job_good r j)) (write_canonical output manifest j events hashes)
    (fun h w => exists body, canonical_body events = Ok body /\ h = sha256_hex body
      /\ files_ok (fun f => out_files f !! manifest
                            = Some (utf8 (manifest_text h hashes j (Z.of_nat (length events))))
                            /\ (output <> manifest -> out_files f !! output = Some body) /\ job_good r j f) w)
    (files_ok (job_good r j)).
Proof.
  unfold write_canonical. eapply triple_bind.
  { by apply (triple_lift _ _ (fun body w => canonical_body events = Ok body /\ files_ok (job_good r j) w)). }
  intros body. apply triple_pure. intros Hb. eapply triple_bind.
  { by apply (triple_write _ (job_good r j)) with (Q := fun f => job_good r j f /\ out_files f !! output = Some body);
      [|intros f Hf; split; [exact Hf|apply lookup_insert_eq]]. }
  intros ?. eapply triple_bind.
  { apply (triple_write _ (job_good r j)) with (Q := fun f => out_files f !! manifest
        = Some (utf8 (manifest_text (sha256_hex body) hashes j (Z.of_nat (length events))))
        /\ (output <> manifest -> out_files f !! output = Some body) /\ job_good r j f); [by intros f []|].
    intros f [Hf Ho]. split; [apply lookup_insert_eq|]. split; [|exact Hf].
    intros Hne. cbn. rewrite lookup_insert_ne by congruence. exact Ho. }
  intros ?. apply triple_ret. intros w Hw. by exists body.
Qed.

Lemma load_good r j f m : job_good r j f -> load_checkpoint j f = Ok m -> running r j m f.
Proof.
  intros Hg Hm. split; [exact Hg|]. destruct (job_files f !! j) as [text|] eqn:Ht.
  - destruct (Hg text Ht) as (m' & Hs & He). rewrite (load_saved _ _ _ _ Hs Ht) in Hm. by injection Hm as <-.
  - unfold load_checkpoint in Hm. rewrite Ht in Hm. injection Hm as <-. intros c d _. by rewrite lookup_empty.
Qed.

(** What a successful run of [r] returns, and the two files it leaves. *)
Definition produced r (j output manifest : string) (res : RunResult) f : Prop :=
  exists events body,
    reference_events r = Ok events /\ canonical_body events = Ok body
    /\ res = mk_run j (sha256_hex body) (Z.of_nat (length events))
    /\ out_files f !! output = Some body
    /\ out_files f !! manifest
       = Some (utf8 (manifest_text (sha256_hex body) (reference_hashes r) j (Z.of_nat (length events)))).

Lemma triple_run r j output manifest :
  job_id r = Ok j -> output <> manifest ->
  triple (files_ok (job_good r j)) (run_job r output manifest)
    (fun res => files_ok (fun f => produced r j output manifest res f /\ job_good r j f))
    (files_ok (job_good r j)).
Proof.
  intros Hj Hne. unfold run_job. eapply triple_bind; [apply (triple_net _ (job_good r j) (fun _ H => H) _ (fun p => p = plan_of r)), plan_stable|].
  intros p. apply triple_pure. intros ->. eapply triple_bind.
  { by apply (triple_read _ _ (fun _ => files_ok (job_good r j))). }
  intros ?. rewrite Hj. eapply triple_bind.
  { apply (triple_lift _ (Ok j) (fun j' w => j' = j /\ files_ok (job_good r j) w)); [|done]. intros w j' Hw [= <-]. done. }
  intros j'. apply triple_pure. intros ->. eapply triple_bind.
  { apply (triple_files _ (job_good r j) (fun _ H => H)), load_good. }
  intros m. eapply triple_bind; [by apply triple_chunks|]. intros [events hashes]. cbn [fst snd].
  apply triple_pure. intros (bs & Hbs & -> & ->). cbn [app].
  eapply triple_bind; [apply triple_canonical|]. intros h. apply triple_ret.
  intros w (body & Hb & -> & Hm & Ho & Hg). split; [|exact Hg]. exists (concat bs), body.
  split_and!; [|done|done|by apply Ho|exact Hm]. unfold reference_events. by rewrite Hbs.
Qed.

(** *** Other jobs *)

(** Only the checkpoint of [j] may change; the cache only grows. *)
Definition others_kept (j : string) w w' : Prop :=
  cache_grow (wd_files w) (wd_files w')
  /\ forall i, i <> j -> job_files (wd_files w') !! i = job_files (wd_files w) !! i.

#[export] Instance others_kept_preorder j : PreOrder (others_kept j).
Proof.
  split.
  - intros w. split; [unfold cache_grow; done|done].
  - intros a b c [G1 J1] [G2 J2]. split; [unfold cache_grow in *; by etransitivity|].
    intros i Hi. by rewrite J2, J1.
Qed.

Lemma keeps_net j {A} (m : ST Net A) : keeps (others_kept j) (on_net m).
Proof.
  intros w x w'. unfold on_net. destruct (m (wd_net w)). intros [= _ <-]. split; [unfold cache_grow|]; done.
Qed.
Lemma keeps_guard j {A} (m : ST BudgetGuard A) : keeps (others_kept j) (on_guard m).
Proof.
  intros w x w'. unfold on_guard. destruct (m (wd_guard w)). intros [= _ <-]. split; [unfold cache_grow|]; done.
Qed.
Lemma keeps_files j {A} (q : Files -> result A) : keeps (others_kept j) (read_files q).
Proof. apply keeps_read, _. Qed.

Lemma write_run (g : Files -> Files) w x w' :
  write_files g w = (x, w') -> wd_files w' = wd_files w \/ wd_files w' = g (wd_files w).
Proof.
  unfold write_files, sbind, on_net. destruct (disk (wd_net w)) as [[[]|e] n]; intros [= <- <-]; auto.
Qed.

Lemma keeps_out j g : keeps (others_kept j) (write_files (fun f => set_out (g f) f)).
Proof.
  intros w x w' Hx. apply write_run in Hx. split; [unfold cache_grow|intros i _]; by destruct Hx as [-> | ->].
Qed.
Lemma keeps_job j text : keeps (others_kept j) (write_files (fun f => set_jobs (<[j := text]> (job_files f)) f)).
Proof.
  intros w x w' Hx. apply write_run in Hx. split; [unfold cache_grow; by destruct Hx as [-> | ->]|].
  intros i Hi. destruct Hx as [-> | ->]; [done|]. cbn. by rewrite lookup_insert_ne.
Qed.
Hint Resolve keeps_net keeps_guard keeps_files keeps_out keeps_job : frame.

Lemma keeps_put j b : keeps (others_kept j) (cache_put b).
Proof.
  intros w x w'. unfold cache_put, sbind at 1, read_files at 1.
  destruct (cache_files (wd_files w) !! cache_path (sha256_hex b)) as [s|] eqn:E.
  - revert w x w' E. intros w x w' _. generalize w x w'. change (keeps (others_kept j)
      (stored <- read_files (cache_get (sha256_hex b)) ;;
       lift (raise_if (negb (bool_decide (stored = b))) CacheCorruption) ;;; sret (sha256_hex b))). frame.
  - unfold sbind. destruct (write_files _ w) as [[u|e] w1] eqn:Ew; intros [= <- <-].
    all: apply write_run in Ew; split; [|intros i _; by destruct Ew as [-> | ->]].
    all: destruct Ew as [-> | ->]; [unfold cache_grow; done|by apply cache_insert_grow].
Qed.
Hint Resolve keeps_put : frame.

Lemma keeps_obtain j c m : keeps (others_kept j) (obtain_chunk j c m).
Proof. unfold obtain_chunk, save_checkpoint. frame. Qed.
Hint Resolve keeps_obtain : frame.

Lemma keeps_chunks j cs : forall m events hashes, keeps (others_kept j) (run_chunks j cs m events hashes).
Proof. induction cs as [|c cs IH]; intros m events hashes; cbn [run_chunks]; frame. Qed.
Hint Resolve keeps_chunks : frame.

Lemma keeps_run r j output manifest : job_id r = Ok j -> keeps (others_kept j) (run_job r output manifest).
Proof.
  intros Hj. unfold run_job, write_canonical. rewrite Hj. apply keeps_bind; [apply _|frame|]. intros p.
  apply keeps_bind; [apply _|frame|]. intros _. intros w. unfold sbind at 1. cbn [lift]. revert w.
  change (keeps (others_kept j) (completed <- read_files (load_checkpoint j) ;;
    loop <- run_chunks j p completed [] [] ;;
    content_hash <- write_canonical output manifest j loop.1 loop.2 ;;
    sret (mk_run j content_hash (Z.of_nat (length loop.1))))).
  unfold write_canonical. frame.
Qed.

(** *** Histories *)

(** One attempt, from any state of the provider and any budget: at [r] itself or at another job; it may
    return, or stop with an exception at any call. *)
Inductive ingest_step r : Files -> Files -> Prop :=
| step_attempt r' output manifest f g n x w' :
    (r' = r \/ job_id r' <> job_id r) -> output <> manifest ->
    run_job r' output manifest (mk_world f g n) = (x, w') -> ingest_step r f (wd_files w').

Lemma ingest_step_good r j f f' : job_id r = Ok j -> ingest_step r f f' -> job_good r j f -> job_good r j f'.
Proof.
  intros Hj [r' output manifest f1 g n x w' Hr Hne Hx] Hf. destruct (decide (job_id r' = job_id r)) as [E|Hd].
  - destruct Hr as [->|]; [|done]. pose proof (triple_run r j output manifest Hj Hne _ _ _ (Hf : files_ok _ (mk_world f1 g n)) Hx) as Ht.
    destruct x; [apply Ht|exact Ht].
  - destruct (job_id_total r') as [j' Hj']. destruct (keeps_run _ _ _ _ Hj' _ _ _ Hx) as [Hg Hk].
    eapply job_grow; [exact Hg|apply Hk; congruence|exact Hf].
Qed.

Lemma history_good r j f0 f :
  job_id r = Ok j -> job_files f0 !! j = None -> rtc (ingest_step r) f0 f -> job_good r j f.
Proof.
  intros Hj Hempty Hr. assert (job_good r j f0) as Hf by (intros text Ht; congruence). clear Hempty.
  induction Hr as [|f0 f1 f2 Hs _ IH]; [done|]. apply IH. by eapply ingest_step_good.
Qed.

(** C26. Resuming is exact.  Take any history of attempts, in this and other jobs, that failed or were
    killed at any point, with any budgets.  If an attempt then returns, it returns what one run that
    fetches every chunk and never fails would return, and its two files hold that run's canonical events
    and provenance. *)
Theorem ingest_resume_exact r j f0 f output manifest g n res w' :
  job_id r = Ok j -> job_files f0 !! j = None -> rtc (ingest_step r) f0 f -> output <> manifest ->
  run_job r output manifest (mk_world f g n) = (Ok res, w') ->
  produced r j output manifest res (wd_files w').
Proof.
  intros Hj Hempty Hr Hne Hx.
  exact (proj1 (triple_run r j output manifest Hj Hne (mk_world f g n) _ _ (history_good r j f0 f Hj Hempty Hr) Hx)).
Qed.

(** *** Progress *)

(** While [P] holds of the provider and the disk, no call of them fails. *)
Record healthy (P : Net -> Prop) : Prop := mk_healthy {
  hl_plan : forall r n, P n -> exists n', ad_plan r n = (Ok (plan_of r), n') /\ P n';
  hl_fetch : forall c n, P n -> exists n', ad_fetch c n = (Ok (source_of c), n') /\ P n';
  hl_disk : forall n, P n -> exists n', disk n = (Ok tt, n') /\ P n';
}.

Definition to_fetch (m : gmap string string) (cs : list FetchChunk) : list FetchChunk :=
  List.filter (fun c => bool_decide (m !! ch_key c = None)) cs.

(** The chunks of the plan that the checkpoint on disk does not list. *)
Definition unfetched r j f : list FetchChunk :=
  match load_checkpoint j f with Ok m => to_fetch m (plan_of r) | Raise _ => plan_of r end.

Definition total_bytes (cs : list FetchChunk) : Z :=
  fold_right Z.add 0 (map (fun c => Z.of_nat (length (source_of c))) cs).

(** The chunks can be fetched within the budget. *)
Record fits (cs : list FetchChunk) (g : BudgetGuard) : Prop := mk_fits {
  ft_costs : Forall (fun c => 0 <= ch_estimated_cost_minor c) cs;
  ft_requests : bg_requests g + Z.of_nat (length cs) <= max_requests g;
  ft_bytes : bg_bytes g + total_bytes cs <= max_bytes g;
  ft_cost : bg_cost_minor g + estimated_cost_minor cs <= max_cost_minor g;
}.

(** No other object stands where an object of the plan belongs. *)
Record unobstructed r f : Prop := mk_unobstructed {
  un_cache : forall c b, c ∈ plan_of r -> cache_files f !! cache_path (sha256_hex (source_of c)) = Some b -> b = source_of c;
  un_plan : forall c c', c ∈ plan_of r -> c' ∈ plan_of r ->
    cache_path (sha256_hex (source_of c)) = cache_path (sha256_hex (source_of c')) -> source_of c = source_of c';
}.

Lemma consume_fits c cs g :
  fits (c :: cs) g ->
  exists g', consume (Z.of_nat (length (source_of c))) (ch_estimated_cost_minor c) g = (Ok tt, g')
    /\ fits cs g' /\ bg_requests g' = bg_requests g + 1.
Proof.
  intros [Hc Hr Hb Hm]. apply Forall_cons in Hc as [H1 Hc].
  unfold total_bytes, estimated_cost_minor in *. cbn [map fold_right length] in *. rewrite Nat2Z.inj_succ in Hr.
  assert (0 <= fold_right Z.add 0 (map ch_estimated_cost_minor cs)).
  { clear -Hc. induction Hc; cbn; lia. }
  assert (0 <= fold_right Z.add 0 (map (fun c => Z.of_nat (length (source_of c))) cs)).
  { clear. induction cs; cbn; lia. }
  exists (mk_budget (max_requests g) (max_bytes g) (max_cost_minor g) (bg_requests g + 1)
            (bg_bytes g + Z.of_nat (length (source_of c))) (bg_cost_minor g + ch_estimated_cost_minor c)).
  split; [|split; [|reflexivity]].
  - unfold consume. rewrite (proj2 (Z.ltb_ge _ 0)), (proj2 (Z.ltb_ge _ 0)), !(proj2 (Z.ltb_ge _ _)) by lia. reflexivity.
  - split; unfold total_bytes, estimated_cost_minor;
      cbn [max_requests max_bytes max_cost_minor bg_requests bg_bytes bg_cost_minor]; [done|lia..].
Qed.

Section Healthy.
Variable P : Net -> Prop.
Hypothesis HP : healthy P.

Lemma write_healthy (g : Files -> Files) w :
  P (wd_net w) -> exists n', write_files g w = (Ok tt, mk_world (g (wd_files w)) (wd_guard w) n') /\ P n'.
Proof.
  intros Hn. destruct (hl_disk _ HP _ Hn) as (n' & Hd & Hn'). exists n'. split; [|done].
  unfold write_files, sbind, on_net. by rewrite Hd.
Qed.

Lemma put_healthy r c w :
  P (wd_net w) -> c ∈ plan_of r -> unobstructed r (wd_files w) ->
  exists w', cache_put (source_of c) w = (Ok (sha256_hex (source_of c)), w') /\ P (wd_net w')
    /\ wd_guard w' = wd_guard w /\ unobstructed r (wd_files w') /\ job_files (wd_files w') = job_files (wd_files w).
Proof.
  intros Hn Hc Hu. unfold cache_put, sbind at 1, read_files at 1.
  destruct (cache_files (wd_files w) !! cache_path (sha256_hex (source_of c))) as [b|] eqn:E.
  - pose proof (un_cache _ _ Hu _ _ Hc E) as ->. exists w. split; [|done].
    unfold sbind, read_files, cache_get. rewrite E. cbn [of_option rbind]. rewrite String.eqb_refl. cbn [negb raise_if rbind lift].
    by rewrite bool_decide_eq_true_2.
  - destruct (write_healthy (fun f => set_cache (<[cache_path (sha256_hex (source_of c)) := source_of c]> (cache_files f)) f) w Hn)
      as (n' & Hw & Hn').
    exists (mk_world (set_cache (<[cache_path (sha256_hex (source_of c)) := source_of c]> (cache_files (wd_files w))) (wd_files w)) (wd_guard w) n').
    split; [unfold sbind; by rewrite Hw|]. split_and!; try done. split; [|apply Hu].
    intros c' b Hc'. cbn [wd_files set_cache cache_files]. rewrite lookup_insert_Some. intros [[Ep <-]|[_ Hl]].
    + symmetry. by apply (un_plan _ _ Hu _ _ Hc' Hc).
    + by apply (un_cache _ _ Hu _ _ Hc').
Qed.

Lemma save_healthy j m w :
  P (wd_net w) ->
  exists w', save_checkpoint j m w = (Ok tt, w') /\ P (wd_net w') /\ wd_guard w' = wd_guard w
    /\ cache_files (wd_files w') = cache_files (wd_files w) /\ load_checkpoint j (wd_files w') = Ok m.
Proof.
  intros Hn. destruct (dumps_total true _ (checkpoint_json_ok j m)) as (t & Ht).
  destruct (write_healthy (fun f => set_jobs (<[j := t +:+ nl]> (job_files f)) f) w Hn) as (n' & Hw & Hn').
  eexists. split; [unfold save_checkpoint, sbind, lift; by rewrite Ht, Hw|]. split_and!; try done.
  eapply load_saved; [by exists t|]. apply lookup_insert_eq.
Qed.

(** The world of a run in progress. *)
Definition going r j m w : Prop :=
  P (wd_net w) /\ unobstructed r (wd_files w) /\ running r j m (wd_files w) /\ load_checkpoint j (wd_files w) = Ok m.

Lemma unobstructed_cache r f f' : cache_files f' = cache_files f -> unobstructed r f -> unobstructed r f'.
Proof. intros E [Hu Hp]. split; [by rewrite E|exact Hp]. Qed.

Lemma obtain_healthy r j m c cs w :
  going r j m w -> c ∈ plan_of r -> fits (to_fetch m (c :: cs)) (wd_guard w) ->
  exists m' w', obtain_chunk j c m w = (Ok (sha256_hex (source_of c), source_of c, m'), w')
    /\ going r j m' w' /\ m' = <[ch_key c := sha256_hex (source_of c)]> m
    /\ (if decide (m !! ch_key c = None) then fits (to_fetch m cs) (wd_guard w') else wd_guard w' = wd_guard w)
    /\ bg_requests (wd_guard w') = bg_requests (wd_guard w) + Z.of_nat (length (to_fetch m [c])).
Proof.
  intros (Hn & Hu & Hr & Hl) Hc Hf. pose proof (triple_obtain r j m c Hc w) as Ht. unfold to_fetch in *. cbn [List.filter] in *.
  unfold obtain_chunk in *. destruct (m !! ch_key c) as [d|] eqn:Hd.
  - destruct (proj2 Hr c d Hc Hd) as [-> Hs]. exists m, w. split.
    + unfold sbind, read_files, cache_get. rewrite Hs. cbn [of_option rbind]. by rewrite String.eqb_refl.
    + split; [done|]. split; [by rewrite insert_id|]. by rewrite Z.add_0_r.
  - rewrite bool_decide_eq_true_2 in * by done. destruct (hl_fetch _ HP c _ Hn) as (n1 & Hfetch & Hn1).
    destruct (consume_fits _ _ _ Hf) as (g' & Hcons & Hf' & Hreq).
    destruct (put_healthy r c (mk_world (wd_files w) g' n1) Hn1 Hc Hu) as (w2 & Hput & Hn2 & Hg2 & Hu2 & Hj2).
    destruct (save_healthy j (<[ch_key c := sha256_hex (source_of c)]> m) w2 Hn2) as (w3 & Hsave & Hn3 & Hg3 & Hc3 & Hl3).
    assert ((raw <- on_net (ad_fetch c) ;; on_guard (consume (Z.of_nat (length raw)) (ch_estimated_cost_minor c)) ;;;
      digest <- cache_put raw ;; save_checkpoint j (<[ch_key c := digest]> m) ;;; sret (digest, raw, <[ch_key c := digest]> m)) w
      = (Ok (sha256_hex (source_of c), source_of c, <[ch_key c := sha256_hex (source_of c)]> m), w3)) as Hrun.
    { unfold sbind at 1, on_net. rewrite Hfetch. unfold sbind at 1, on_guard. cbn [wd_guard]. rewrite Hcons. cbn [wd_files wd_net].
      unfold sbind at 1. rewrite Hput. unfold sbind. by rewrite Hsave. }
    specialize (Ht _ _ Hr Hrun) as (_ & _ & Hr3). cbn [snd] in Hr3.
    exists (<[ch_key c := sha256_hex (source_of c)]> m), w3. split; [exact Hrun|].
    split; [|split; [done|split; [by rewrite Hg3, Hg2|by rewrite Hg3, Hg2]]].
    split; [done|]. split; [by eapply unobstructed_cache|]. by split.
Qed.

Lemma to_fetch_insert m c d cs : ch_key c ∉ map ch_key cs -> to_fetch (<[ch_key c := d]> m) cs = to_fetch m cs.
Proof.
  intros Hn. apply filter_ext_in. intros x Hx. apply list_elem_of_In in Hx. rewrite lookup_insert_ne; [done|].
  intros E. apply Hn. apply elem_of_mapl. eauto.
Qed.

Lemma to_fetch_app m cs cs' : to_fetch m (cs ++ cs') = to_fetch m cs ++ to_fetch m cs'.
Proof. apply List.filter_app. Qed.

Lemma chunks_healthy r j cs : forall m events hashes w,
  going r j m w -> cs ⊆ plan_of r -> NoDup (map ch_key cs) -> Forall (fun c => is_ok (normalized_chunk c) = true) cs ->
  fits (to_fetch m cs) (wd_guard w) ->
  exists loop m' w', run_chunks j cs m events hashes w = (Ok loop, w') /\ going r j m' w'
    /\ (forall c, c ∈ cs \/ is_Some (m !! ch_key c) -> is_Some (m' !! ch_key c))
    /\ bg_requests (wd_guard w') = bg_requests (wd_guard w) + Z.of_nat (length (to_fetch m cs)).
Proof.
  induction cs as [|c cs IH]; intros m events hashes w Hg Hcs Hk Hok Hf.
  { exists (events, hashes), m, w. split_and!; [done|done| |cbn; lia]. intros c [Hc|]; [|done]. by apply not_elem_of_nil in Hc. }
  cbn [map] in Hk. apply NoDup_cons in Hk as [Hx Hk]. apply Forall_cons in Hok as [Hb Hok].
  destruct (obtain_healthy r j m c cs w Hg (Hcs _ (list_elem_of_here _ _)) Hf) as (m1 & w1 & Ho & Hg1 & -> & Hf1 & Hq1).
  unfold normalized_chunk in Hb. destruct (ad_normalize c (source_of c)) as [batch|e] eqn:Eb; [|discriminate].
  assert (cs ⊆ plan_of r) as Hcs' by by intros y Hy; apply Hcs, list_elem_of_further.
  assert (fits (to_fetch m cs) (wd_guard w1)) as Hf2.
  { destruct (decide (m !! ch_key c = None)) as [|Hs]; [done|]. rewrite Hf1. unfold to_fetch in *. cbn [List.filter] in Hf.
    by rewrite bool_decide_eq_false_2 in Hf. }
  destruct (IH (<[ch_key c := sha256_hex (source_of c)]> m) (events ++ batch) (hashes ++ [(ch_key c, sha256_hex (source_of c))]) w1
    Hg1 Hcs' Hk Hok) as (loop & m2 & w2 & Hr2 & Hg2 & Hm2 & Hq2); [by rewrite to_fetch_insert|].
  exists loop, m2, w2. split_and!; [|done| |].
  - cbn [run_chunks]. unfold sbind at 1. rewrite Ho. unfold sbind, lift. by rewrite Eb.
  - intros c' Hc'. apply Hm2. destruct (decide (ch_key c' = ch_key c)) as [E|Hne].
    + right. rewrite E, lookup_insert_eq. eauto.
    + rewrite lookup_insert_ne by done. destruct Hc' as [[->|Hc']%elem_of_cons|]; [done|by left|by right].
  - rewrite Hq2, Hq1, to_fetch_insert by done. change (c :: cs) with ([c] ++ cs). rewrite to_fetch_app, length_app. lia.
Qed.

Lemma canonical_healthy j output manifest events hashes body w :
  P (wd_net w) -> canonical_body events = Ok body ->
  exists w', write_canonical output manifest j events hashes w = (Ok (sha256_hex body), w')
    /\ wd_guard w' = wd_guard w /\ job_files (wd_files w') = job_files (wd_files w).
Proof.
  intros Hn Hb. unfold write_canonical. unfold sbind at 1, lift. rewrite Hb.
  destruct (write_healthy (fun f => set_out (<[output := body]> (out_files f)) f) w Hn) as (n1 & H1 & Hn1).
  unfold sbind at 1. rewrite H1.
  destruct (write_healthy (fun f => set_out (<[manifest := utf8 (manifest_text (sha256_hex body) hashes j (Z.of_nat (length events)))]> (out_files f)) f)
    (mk_world (set_out (<[output := body]> (out_files (wd_files w))) (wd_files w)) (wd_guard w) n1) Hn1) as (n2 & H2 & _).
  eexists. split; [unfold sbind; by rewrite H2|]. done.
Qed.

Lemma fits_to_fetch m cs g :
  Forall (fun c => 0 <= ch_estimated_cost_minor c) cs ->
  preflight (Z.of_nat (length cs)) (estimated_cost_minor cs) g = Ok tt ->
  bg_bytes g + total_bytes (to_fetch m cs) <= max_bytes g -> fits (to_fetch m cs) g.
Proof.
  intros Hc Hp Hb. unfold preflight in Hp. repeat step_ok. bools.
  assert (estimated_cost_minor (to_fetch m cs) <= estimated_cost_minor cs /\ Z.of_nat (length (to_fetch m cs)) <= Z.of_nat (length cs)).
  { clear -Hc. unfold to_fetch, estimated_cost_minor. induction Hc as [|c cs H1 _ IH]; [done|]. cbn [List.filter].
    destruct (bool_decide _); cbn [map fold_right length]; lia. }
  split; [|lia..]. apply Forall_forall. intros c [Hin _]%elem_of_filterb. rewrite Forall_forall in Hc. by apply Hc.
Qed.

Lemma job_healthy r j f g n output manifest events body :
  job_id r = Ok j -> job_good r j f -> P n -> unobstructed r f ->
  reference_events r = Ok events -> canonical_body events = Ok body ->
  Forall (fun c => 0 <= ch_estimated_cost_minor c) (plan_of r) ->
  preflight (Z.of_nat (length (plan_of r))) (estimated_cost_minor (plan_of r)) g = Ok tt ->
  bg_bytes g + total_bytes (unfetched r j f) <= max_bytes g -> output <> manifest ->
  exists res w', run_job r output manifest (mk_world f g n) = (Ok res, w')
    /\ bg_requests (wd_guard w') = bg_requests g + Z.of_nat (length (unfetched r j f))
    /\ unfetched r j (wd_files w') = [].
Proof.
  intros Hj Hg Hn Hu He Hb Hc Hp Hbytes Hne. destruct (hl_plan _ HP r n Hn) as (n1 & Hplan & Hn1).
  assert (exists m, load_checkpoint j f = Ok m) as (m & Hm).
  { destruct (job_files f !! j) as [text|] eqn:Ht.
    - destruct (Hg text Ht) as (m & Hs & _). exists m. by eapply load_saved.
    - exists ∅. unfold load_checkpoint. by rewrite Ht. }
  unfold unfetched in Hbytes |- *. rewrite Hm in *.
  unfold reference_events in He. apply rbind_Ok in He as (bs & Hbs & [= <-]).
  destruct (chunks_healthy r j (plan_of r) m [] [] (mk_world f g n1)) as ([ev hs] & m' & w1 & Hr & Hg1 & Hm1 & Hq).
  { split; [done|]. split; [done|]. split; [by apply load_good|done]. }
  { done. } { apply plan_keys. }
  { apply rmap_Ok in Hbs. clear -Hbs. induction Hbs as [|c b cs bs E _ IH]; constructor; [by rewrite E|done]. }
  { by apply fits_to_fetch. }
  pose proof (triple_chunks r j (plan_of r) m [] [] (fun x Hx => Hx) (mk_world f g n1) _ _ (load_good _ _ _ _ Hg Hm) Hr) as [(bs' & Hbs' & E1 & E2) _].
  cbn [fst snd app] in E1, E2. assert (bs' = bs) as -> by congruence. subst ev.
  destruct (canonical_healthy j output manifest (concat bs) hs body w1 (proj1 Hg1) Hb) as (w2 & Hw & Hgd & Hjf).
  exists (mk_run j (sha256_hex body) (Z.of_nat (length (concat bs)))), w2. split_and!.
  - unfold run_job, sbind at 1, on_net. cbn [wd_net wd_files wd_guard]. rewrite Hplan. unfold sbind at 1. cbn [wd_guard].
    rewrite Hp, Hj. unfold sbind at 1, lift. unfold sbind at 1, read_files. cbn [wd_files]. rewrite Hm.
    unfold sbind at 1. rewrite Hr. cbn [fst snd]. unfold sbind. by rewrite Hw.
  - by rewrite Hgd, Hq.
  - assert (load_checkpoint j (wd_files w2) = Ok m') as ->.
    { destruct Hg1 as (_ & _ & _ & Hl). unfold load_checkpoint in *. by rewrite Hjf. }
    apply filter_none. intros c Hin. apply bool_decide_eq_false_2. intros E. destruct (Hm1 c (or_introl Hin)) as [d Hd]. congruence.
Qed.
End Healthy.

(** C27. Progress and economy.  After any history of attempts, a run in which the provider and the disk do
    not fail, within the budget and with no foreign object in the way, returns; it makes exactly one
    request for each chunk that is not checkpointed, and leaves none unfetched. *)
Theorem ingest_progress P r j f0 f g n output manifest events body :
  healthy P -> job_id r = Ok j -> job_files f0 !! j = None -> rtc (ingest_step r) f0 f -> P n ->
  unobstructed r f -> reference_events r = Ok events -> canonical_body events = Ok body ->
  Forall (fun c => 0 <= ch_estimated_cost_minor c) (plan_of r) ->
  preflight (Z.of_nat (length (plan_of r))) (estimated_cost_minor (plan_of r)) g = Ok tt ->
  bg_bytes g + total_bytes (unfetched r j f) <= max_bytes g -> output <> manifest ->
  exists res w', run_job r output manifest (mk_world f g n) = (Ok res, w')
    /\ bg_requests (wd_guard w') = bg_requests g + Z.of_nat (length (unfetched r j f))
    /\ unfetched r j (wd_files w') = [].
Proof. intros HP Hj Hempty Hr. intros. eapply job_healthy; eauto using history_good. Qed.
End Jobs.

(** ** A provider that may fail

    The state counts the calls that still succeed ([None]: all do); the plan has two chunks. *)

Definition flaky := option nat.
Definition flaky_call {A} (a : A) : ST flaky A := fun n =>
  match n with
  | None => (Ok a, None)
  | Some (S k) => (Ok a, Some k)
  | Some O => (Raise OSError, Some O)
  end.
Definition demo_plan : FetchPlan := [mk_chunk "day-1" "file:a" None 3; mk_chunk "day-2" "file:b" (Some 7) 4].
Definition demo_source (c : FetchChunk) : bytes := utf8 (ch_key c +:+ ";" +:+ ch_source_ref c).
Definition demo_normalize (c : FetchChunk) (raw : bytes) : result (list pyval) :=
  if String.eqb (ch_key c) "day-1"
  then Ok [VDict (obj [("ts_event_ns", VStr "200"); ("price", VInt (Z.of_nat (length raw)))])]
  else Ok [VDict (obj [("ts_event_ns", VStr "100"); ("source_sequence", VStr "7")])].

#[export] Instance demo_provider : Provider flaky := {|
  ad_plan := fun _ => flaky_call demo_plan;
  ad_fetch := fun c => flaky_call (demo_source c);
  ad_normalize := demo_normalize;
  disk := flaky_call tt;
|}.

Lemma flaky_call_Ok {A} (a b : A) n n' : flaky_call a n = (Ok b, n') -> b = a.
Proof. destruct n as [[|k]|]; cbn; congruence. Qed.

#[export] Instance demo_laws : ProviderLaws flaky := {|
  plan_of := fun _ => demo_plan;
  source_of := demo_source;
  plan_stable := fun _ _ _ _ => flaky_call_Ok _ _ _ _;
  fetch_stable := fun _ _ _ _ => flaky_call_Ok _ _ _ _;
  plan_keys := fun _ => bool_decide_eq_true_1 (NoDup ["day-1"; "day-2"]) eq_refl;
|}.

Lemma demo_healthy : healthy (fun n : flaky => n = None).
Proof. split; intros; subst; eexists; (split; [reflexivity|done]). Qed.

Definition demo_request : FetchRequest := mk_fetch_request "demo" "trades" "XYZ" 0 86400 [("b", "2"); ("a", "1")].
Definition demo_job : string := match job_id demo_request with Ok j => j | Raise _ => "" end.
Definition demo_budget : BudgetGuard := mk_budget 3 100 10 0 0 0.
Definition no_files : Files := mk_files ∅ ∅ ∅.

(** The disk fails when the second chunk is written to the cache. *)
Definition demo_attempt : result RunResult * World flaky :=
  run_job demo_request "out.jsonl" "out.json" (mk_world no_files demo_budget (Some 5%nat)).
Definition demo_files : Files := wd_files (snd demo_attempt).
Definition demo_resume : result RunResult * World flaky :=
  run_job demo_request "out.jsonl" "out.json" (mk_world demo_files demo_budget None).

Example demo_attempt_fails : fst demo_attempt = Raise OSError.
Proof. vm_compute. reflexivity. Qed.

Lemma demo_job_id : job_id demo_request = Ok demo_job.
Proof. vm_compute. reflexivity. Qed.

Lemma demo_runs : rtc (ingest_step demo_request) no_files demo_files.
Proof.
  apply rtc_once, (step_attempt demo_request demo_request "out.jsonl" "out.json" no_files demo_budget (Some 5%nat)
    (fst demo_attempt) (snd demo_attempt)); [by left|done|apply surjective_pairing].
Qed.

Lemma ingest_resume_exact_witness :
  exists res w', demo_resume = (Ok res, w') /\ produced demo_request demo_job "out.jsonl" "out.json" res (wd_files w').
Proof.
  assert (is_ok (fst demo_resume) = true) as Hok by (vm_compute; reflexivity).
  destruct demo_resume as [[res|e] w'] eqn:E; [|discriminate Hok]. exists res, w'. split; [reflexivity|].
  apply (ingest_resume_exact demo_request demo_job no_files demo_files "out.jsonl" "out.json" demo_budget None res w'
    demo_job_id eq_refl demo_runs); [discriminate|exact E].
Defined.

(** Decides [unobstructed]. *)
Definition unobstructedb (r : FetchRequest) (f : Files) : bool :=
  forallb (fun c => match cache_files f !! cache_path (sha256_hex (demo_source c)) with
                    | Some b => bool_decide (b = demo_source c) | None => true end) demo_plan
  && bool_decide (NoDup (map (fun c => cache_path (sha256_hex (demo_source c))) demo_plan)).

Lemma unobstructedb_ok r f : unobstructedb r f = true -> unobstructed r f.
Proof.
  unfold unobstructedb. rewrite andb_true_iff, bool_decide_eq_true, forallb_forall. intros [Hc Hn]. split.
  - intros c b Hin. specialize (Hc c (proj1 (list_elem_of_In _ _) Hin)). change (source_of c) with (demo_source c).
    destruct (cache_files f !! _) as [b'|]; [|discriminate]. intros [= <-]. by apply bool_decide_eq_true in Hc.
  - intros c c' H1 H2 E. by rewrite (NoDup_map_inj _ _ c c' Hn H1 H2 E).
Qed.

Lemma ingest_progress_witness :
  exists res w', demo_resume = (Ok res, w') /\ bg_requests (wd_guard w') = 1 /\ unfetched demo_request demo_job (wd_files w') = [].
Proof.
  assert (exists events body, reference_events demo_request = Ok events /\ canonical_body events = Ok body) as (events & body & He & Hb).
  { eexists _, _. split; [vm_compute; reflexivity|vm_compute; reflexivity]. }
  destruct (ingest_progress (fun n => n = None) demo_request demo_job no_files demo_files demo_budget None "out.jsonl" "out.json" events body
    demo_healthy demo_job_id eq_refl demo_runs eq_refl) as (res & w' & Hr & Hq & Hu).
  - apply unobstructedb_ok. vm_compute. reflexivity.
  - exact He.
  - exact Hb.
  - repeat constructor; discriminate.
  - reflexivity.
  - vm_compute. discriminate.
  - discriminate.
  - exists res, w'. split; [exact Hr|]. split; [etransitivity; [exact Hq|vm_compute; reflexivity]|exact Hu].
Defined.
