(* ===== verification/Quality.v ===== *)
(** * Quality validation ([workers/ingest/.../quality])

    [validate_events] scans canonical events once, collects issues with a severity and derives a
    status.  The scan is one step per event over the code's local variables; the specification says of
    the whole list which events have nothing to report, and [quality_valid_iff] that these are exactly
    the lists with status VALID. *)

From S2P Require Import Prelude Sort PyStr PyText Bytes PyJson JsonParse.
From Stdlib Require Import Ascii.
From Stdlib Require String.

Inductive Severity := INFO | DEGRADED | QUARANTINED.
#[export] Instance Severity_eq_dec : EqDecision Severity.
Proof. solve_decision. Defined.
Definition severity_int (s : Severity) : Z := match s with INFO => 0 | DEGRADED => 1 | QUARANTINED => 2 end.

Record QualityIssue := mk_issue {
  is_code : string;
  is_severity : Severity;
  is_event_index : option Z;
  is_detail : string;
}.

Record QualityPolicy := mk_policy {
  tick_size_atoms : Z;
  qty_increment_atoms : Z;
  max_gap_ns : Z;
  max_quote_staleness_ns : Z;
}.
Definition QualityPolicy_post_init (p : QualityPolicy) : result QualityPolicy :=
  let! _ := raise_if ((tick_size_atoms p <=? 0) || (qty_increment_atoms p <=? 0)) ValueError in
  let! _ := raise_if ((max_gap_ns p <? 0) || (max_quote_staleness_ns p <? 0)) ValueError in
  Ok p.

Record QualityReport := mk_report {
  qr_status : string;
  qr_row_count : Z;
  qr_min_event_ts_ns : option Z;
  qr_max_event_ts_ns : option Z;
  qr_duplicates : Z;
  qr_issues : list QualityIssue;
  qr_decision_hash : string;
}.

(** ** Fields

    The text of a caught [ValueError] becomes the detail of an issue, so these functions return it. *)

Definition fallible (A : Type) : Type := string + A.

Definition wire_int (value : pyval) : fallible Z :=
  match value with
  | VStr s =>
      if is_empty s then inl "exact integer must be a canonical decimal string"
      else if String.eqb s "-0" || starts_with "+" s || ((1 <? py_len s) && starts_with "0" s)
      then inl "non-canonical decimal integer"
      else
        let digits := if starts_with "-" s then tail s else s in
        if starts_with "-" s && (is_empty digits || ((1 <? py_len digits) && starts_with "0" digits))
        then inl "non-canonical decimal integer"
        else if negb (py_isascii digits) || negb (py_isdigit digits) then inl "non-canonical decimal integer"
        else match py_int s with
             | Ok v => inr v
             | Raise _ => inl (digit_limit_message (count_digits digits))
             end
  | _ => inl "exact integer must be a canonical decimal string"
  end.

Definition field (name : string) (event : pydict) : pyval := default VNone (dict_get name event).

Definition payload_of (event : pydict) : fallible pydict :=
  match dict_get "payload" event with Some (VDict d) => inr d | _ => inl "payload must be an object" end.

Definition level_of (level : pyval) : fallible (Z * Z) :=
  match level with
  | VDict d =>
      match wire_int (field "price_atoms" d) with
      | inl m => inl m
      | inr price => match wire_int (field "qty_atoms" d) with inl m => inl m | inr qty => inr (price, qty) end
      end
  | _ => inl "book level must be an object"
  end.

Fixpoint collect {A B} (f : A -> fallible B) (l : list A) : fallible (list B) :=
  match l with
  | [] => inr []
  | x :: l' => match f x with
               | inl m => inl m
               | inr y => match collect f l' with inl m => inl m | inr ys => inr (y :: ys) end
               end
  end.

Definition levels (payload : pydict) (side : string) : fallible (list (Z * Z)) :=
  match dict_get side payload with
  | Some (VList raw) => collect level_of raw
  | _ => inl (side +:+ " must be an array")
  end.

(** ** Increments *)

Section Policy.
Variable policy : QualityPolicy.

Definition misaligned (key : string) (atoms increment : Z) : string :=
  key +:+ "=" +:+ str_Z atoms +:+ " is not aligned to " +:+ str_Z increment.

Definition price_issues (index : Z) (key : string) (item : pyval) : list QualityIssue :=
  match wire_int item with
  | inl m => [mk_issue "INVALID_INTEGER" QUARANTINED (Some index) m]
  | inr atoms =>
      if negb (Z.abs atoms mod tick_size_atoms policy =? 0)
      then [mk_issue "PRICE_INCREMENT" QUARANTINED (Some index) (misaligned key atoms (tick_size_atoms policy))]
      else []
  end.

Definition quantity_issues (index : Z) (key : string) (item : pyval) : list QualityIssue :=
  match wire_int item with
  | inl m => [mk_issue "INVALID_INTEGER" QUARANTINED (Some index) m]
  | inr atoms =>
      if (atoms <? 0) || negb (atoms mod qty_increment_atoms policy =? 0)
      then [mk_issue "QUANTITY_INCREMENT" QUARANTINED (Some index) (misaligned key atoms (qty_increment_atoms policy))]
      else []
  end.

Definition is_price_key (key : string) : bool := py_endswith "price_atoms" key.
Definition is_quantity_key (key : string) : bool := py_endswith "qty_atoms" key || py_endswith "volume_atoms" key.

(** [check_mapping]: dictionaries directly below, and inside lists directly below.  A key that is not
    a string has no [endswith]. *)
Fixpoint increment_issues (index : Z) (value : pyval) : result (list QualityIssue) :=
  match value with
  | VDict d =>
      (fix items (d : pydict) : result (list QualityIssue) :=
         match d with
         | [] => Ok []
         | (KOther _, _) :: _ => Raise AttributeError
         | (KStr key, item) :: d' =>
             let! a := (if is_price_key key then Ok (price_issues index key item)
                        else if is_quantity_key key then Ok (quantity_issues index key item)
                        else match item with
                             | VDict _ => increment_issues index item
                             | VList l =>
                                 (fix elements (l : list pyval) : result (list QualityIssue) :=
                                    match l with
                                    | [] => Ok []
                                    | x :: l' =>
                                        let! a := increment_issues index x in
                                        let! b := elements l' in Ok (a ++ b)
                                    end) l
                             | _ => Ok []
                             end) in
             let! b := items d' in
             Ok (a ++ b)
         end) d
  | _ => Ok []
  end.

(** ** The scan *)

(** The local variables of [validate_events]. *)
Record Scan := mk_scan {
  sc_issues : list QualityIssue;
  sc_seen : gset string;
  sc_duplicates : Z;
  sc_minimum : option Z;
  sc_maximum : option Z;
  sc_prior_ts : option Z;
  sc_prior_sequence : option Z;
  sc_prior_quote_ts : option Z;
  sc_book_ready : bool;
}.
Definition scan_start : Scan := mk_scan [] ∅ 0 None None None None None false.

Definition add_issues (l : list QualityIssue) (s : Scan) : Scan :=
  mk_scan (sc_issues s ++ l) (sc_seen s) (sc_duplicates s) (sc_minimum s) (sc_maximum s) (sc_prior_ts s)
    (sc_prior_sequence s) (sc_prior_quote_ts s) (sc_book_ready s).

Definition event_text (event : pydict) : result string := json_dumps false (VDict event).

(** Equal encodings are equal texts, UTF-8 being injective. *)
Definition scan_duplicate (index : Z) (text : string) (s : Scan) : Scan :=
  if decide (text ∈ sc_seen s)
  then mk_scan (sc_issues s ++ [mk_issue "DUPLICATE" DEGRADED (Some index) "exact duplicate event"]) (sc_seen s)
         (sc_duplicates s + 1) (sc_minimum s) (sc_maximum s) (sc_prior_ts s) (sc_prior_sequence s)
         (sc_prior_quote_ts s) (sc_book_ready s)
  else mk_scan (sc_issues s) ({[text]} ∪ sc_seen s) (sc_duplicates s) (sc_minimum s) (sc_maximum s) (sc_prior_ts s)
         (sc_prior_sequence s) (sc_prior_quote_ts s) (sc_book_ready s).

Definition time_issues (index ts : Z) (prior : option Z) : list QualityIssue :=
  match prior with
  | None => []
  | Some prior_ts =>
      if ts <? prior_ts then [mk_issue "OUT_OF_ORDER" QUARANTINED (Some index) "event timestamp regressed"]
      else if max_gap_ns policy <? ts - prior_ts
      then [mk_issue "TIME_GAP" DEGRADED (Some index)
              ("gap " +:+ str_Z (ts - prior_ts) +:+ "ns exceeds " +:+ str_Z (max_gap_ns policy) +:+ "ns")]
      else []
  end.

Definition scan_time (index ts : Z) (s : Scan) : Scan :=
  mk_scan (sc_issues s ++ time_issues index ts (sc_prior_ts s)) (sc_seen s) (sc_duplicates s)
    (Some (match sc_minimum s with None => ts | Some m => Z.min m ts end))
    (Some (match sc_maximum s with None => ts | Some m => Z.max m ts end))
    (Some ts) (sc_prior_sequence s) (sc_prior_quote_ts s) (sc_book_ready s).

(** [kind in {...}] hashes the kind. *)
Definition hashable (v : pyval) : bool := match v with VList _ | VDict _ => false | _ => true end.
Definition is_kind (name : string) (event : pydict) : bool := py_eq (field "kind" event) (VStr name).
Definition is_book_kind (event : pydict) : bool := is_kind "BOOK_DELTA_L2" event || is_kind "BOOK_SNAPSHOT_L2" event.

Definition sequence_issues (index sequence : Z) (event : pydict) (prior : option Z) : result (list QualityIssue) :=
  match prior with
  | None => Ok []
  | Some prior_sequence =>
      if sequence =? prior_sequence + 1 then Ok []
      else
        let! _ := raise_if (negb (hashable (field "kind" event))) TypeError in
        let severity := if is_book_kind event then QUARANTINED else DEGRADED in
        let code := if decide (severity = QUARANTINED) then "BOOK_SEQUENCE_GAP" else "SOURCE_SEQUENCE_GAP" in
        Ok [mk_issue code severity (Some index)
              ("expected " +:+ str_Z (prior_sequence + 1) +:+ ", received " +:+ str_Z sequence)]
  end.

Definition scan_sequence (index : Z) (event : pydict) (s : Scan) : result Scan :=
  match field "source_sequence" event with
  | VNone => Ok s
  | raw =>
      match wire_int raw with
      | inl m => Ok (add_issues [mk_issue "INVALID_SEQUENCE" QUARANTINED (Some index) m] s)
      | inr sequence =>
          let! issues := sequence_issues index sequence event (sc_prior_sequence s) in
          Ok (mk_scan (sc_issues s ++ issues) (sc_seen s) (sc_duplicates s) (sc_minimum s) (sc_maximum s) (sc_prior_ts s)
                (Some sequence) (sc_prior_quote_ts s) (sc_book_ready s))
      end
  end.

Definition set_book_ready (s : Scan) : Scan :=
  mk_scan (sc_issues s) (sc_seen s) (sc_duplicates s) (sc_minimum s) (sc_maximum s) (sc_prior_ts s)
    (sc_prior_sequence s) (sc_prior_quote_ts s) true.

(** [max(price for price, _ in bids) >= min(price for price, _ in asks)], when both have levels. *)
Definition crosses (bids asks : list (Z * Z)) : bool :=
  match bids, asks with
  | (b, _) :: bids', (a, _) :: asks' =>
      fold_left Z.min (map fst asks') a <=? fold_left Z.max (map fst bids') b
  | _, _ => false
  end.

Definition scan_snapshot (index : Z) (payload : pydict) (s : Scan) : Scan :=
  match levels payload "bids" with
  | inl m => add_issues [mk_issue "INVALID_BOOK" QUARANTINED (Some index) m] s
  | inr bids =>
      match levels payload "asks" with
      | inl m => add_issues [mk_issue "INVALID_BOOK" QUARANTINED (Some index) m] s
      | inr asks =>
          add_issues (if crosses bids asks then [mk_issue "CROSSED_BOOK" QUARANTINED (Some index) "snapshot bid crosses ask"] else [])
            (set_book_ready s)
      end
  end.

Definition bbo_issues (index : Z) (payload : pydict) : list QualityIssue :=
  match field "bid_price_atoms" payload, field "ask_price_atoms" payload with
  | VNone, _ => []
  | _, VNone => []
  | bid, ask =>
      match wire_int bid with
      | inl m => [mk_issue "INVALID_BBO" QUARANTINED (Some index) m]
      | inr b =>
          match wire_int ask with
          | inl m => [mk_issue "INVALID_BBO" QUARANTINED (Some index) m]
          | inr a => if a <=? b then [mk_issue "CROSSED_BBO" DEGRADED (Some index) "bid is not below ask"] else []
          end
      end
  end.

Definition stale_issues (index ts : Z) (prior : option Z) : list QualityIssue :=
  match prior with
  | Some prior_ts =>
      if max_quote_staleness_ns policy <? ts - prior_ts
      then [mk_issue "STALE_QUOTE_INTERVAL" DEGRADED (Some index) "BBO update interval exceeded threshold"] else []
  | None => []
  end.

Definition scan_bbo (index ts : Z) (payload : pydict) (s : Scan) : Scan :=
  mk_scan (sc_issues s ++ bbo_issues index payload ++ stale_issues index ts (sc_prior_quote_ts s)) (sc_seen s) (sc_duplicates s)
    (sc_minimum s) (sc_maximum s) (sc_prior_ts s) (sc_prior_sequence s) (Some ts) (sc_book_ready s).

Definition scan_kind (index ts : Z) (event payload : pydict) (s : Scan) : Scan :=
  if is_kind "BOOK_SNAPSHOT_L2" event then scan_snapshot index payload s
  else if is_kind "BOOK_DELTA_L2" event && negb (sc_book_ready s)
  then add_issues [mk_issue "DELTA_WITHOUT_SNAPSHOT" QUARANTINED (Some index) "L2 delta cannot be reconstructed"] s
  else if is_kind "BBO" event then scan_bbo index ts payload s
  else s.

(** The body of the loop. *)
Definition scan_event (index : Z) (event : pydict) (s : Scan) : result Scan :=
  let! text := event_text event in
  let s1 := scan_duplicate index text s in
  match wire_int (field "ts_event_ns" event) with
  | inl m => Ok (add_issues [mk_issue "INVALID_TIMESTAMP" QUARANTINED (Some index) m] s1)
  | inr ts =>
      let! s3 := scan_sequence index event (scan_time index ts s1) in
      match payload_of event with
      | inl m => Ok (add_issues [mk_issue "INVALID_PAYLOAD" QUARANTINED (Some index) m] s3)
      | inr payload =>
          let! issues := increment_issues index (VDict payload) in
          Ok (scan_kind index ts event payload (add_issues issues s3))
      end
  end.

Fixpoint scan_events (index : Z) (events : list pydict) (s : Scan) : result Scan :=
  match events with
  | [] => Ok s
  | event :: events' => let! s' := scan_event index event s in scan_events (index + 1) events' s'
  end.

(** ** The report *)

Definition highest (issues : list QualityIssue) : Z := fold_right Z.max 0 (map (fun i => severity_int (is_severity i)) issues).
Definition status_of (issues : list QualityIssue) : string :=
  if highest issues =? 2 then "QUARANTINED" else if highest issues =? 1 then "DEGRADED" else "VALID".

Definition option_int (o : option Z) : pyval := match o with Some z => VInt z | None => VNone end.
Definition issue_json (i : QualityIssue) : pyval :=
  VDict (obj [("code", VStr (is_code i)); ("detail", VStr (is_detail i)); ("event_index", option_int (is_event_index i));
              ("severity", VInt (severity_int (is_severity i)))]).
Definition decision_hash (status : string) (row_count : Z) (minimum maximum : option Z) (duplicates : Z)
    (issues : list QualityIssue) : result string :=
  let! text := json_dumps false (VDict (obj [("duplicates", VInt duplicates); ("issues", VList (map issue_json issues));
    ("max_event_ts_ns", option_int maximum); ("min_event_ts_ns", option_int minimum); ("row_count", VInt row_count);
    ("status", VStr status)])) in
  Ok (sha256_hex (utf8 text)).

Definition validate_events (events : list pydict) : result QualityReport :=
  let! s := scan_events 0 events scan_start in
  let status := status_of (sc_issues s) in
  let rows := Z.of_nat (length events) in
  let! hash := decision_hash status rows (sc_minimum s) (sc_maximum s) (sc_duplicates s) (sc_issues s) in
  Ok (mk_report status rows (sc_minimum s) (sc_maximum s) (sc_duplicates s) (sc_issues s) hash).
End Policy.

(** ** Specification: the events with nothing to report *)

Section Spec.
Variable policy : QualityPolicy.

Definition is_atom_key (key : string) : bool := is_price_key key || is_quantity_key key.

(** The dictionaries that hold a payload's atoms: itself, and those below its other entries. *)
Inductive within : pydict -> pydict -> Prop :=
| within_refl d : within d d
| within_dict d key d1 d2 :
    (KStr key, VDict d1) ∈ d -> is_atom_key key = false -> within d1 d2 -> within d d2
| within_list d key l d1 d2 :
    (KStr key, VList l) ∈ d -> is_atom_key key = false -> VDict d1 ∈ l -> within d1 d2 -> within d d2.

Definition atom_ok (key : string) (item : pyval) : Prop :=
  exists atoms, wire_int item = inr atoms /\
    if is_price_key key then (tick_size_atoms policy | atoms) else 0 <= atoms /\ (qty_increment_atoms policy | atoms).

Definition entry_ok (p : pykey * pyval) : Prop :=
  exists key, fst p = KStr key /\ (is_atom_key key = true -> atom_ok key (snd p)).
Definition aligned (d : pydict) : Prop := forall d', within d d' -> Forall entry_ok d'.

Definition book_ok (payload : pydict) : Prop :=
  exists bids asks, levels payload "bids" = inr bids /\ levels payload "asks" = inr asks /\
    forall b a, b ∈ map fst bids -> a ∈ map fst asks -> b < a.
Definition quote_ok (payload : pydict) : Prop :=
  field "bid_price_atoms" payload <> VNone -> field "ask_price_atoms" payload <> VNone ->
  exists b a, wire_int (field "bid_price_atoms" payload) = inr b
    /\ wire_int (field "ask_price_atoms" payload) = inr a /\ b < a.

Definition event_ok (e : pydict) : Prop :=
  exists payload, dict_get "payload" e = Some (VDict payload) /\ aligned payload
    /\ (is_kind "BOOK_SNAPSHOT_L2" e = true -> book_ok payload) /\ (is_kind "BBO" e = true -> quote_ok payload).

(** The values of the selected events exist, and each is related to the next. *)
Definition chained (sel : pydict -> bool) (value : pydict -> fallible Z) (R : Z -> Z -> Prop) (events : list pydict) : Prop :=
  exists zs, Forall2 (fun e z => value e = inr z) (List.filter sel events) zs /\ Sorted R zs.

Definition event_ts (e : pydict) : fallible Z := wire_int (field "ts_event_ns" e).
Definition event_sequence (e : pydict) : fallible Z := wire_int (field "source_sequence" e).
Definition has_sequence (e : pydict) : bool := match field "source_sequence" e with VNone => false | _ => true end.

Record valid_events (events : list pydict) : Prop := mk_valid {
  ve_texts : exists texts, rmap event_text events = Ok texts /\ NoDup texts;
  ve_times : chained (fun _ => true) event_ts (fun a b => a <= b <= a + max_gap_ns policy) events;
  ve_sequences : chained has_sequence event_sequence (fun a b => b = a + 1) events;
  ve_events : Forall event_ok events;
  ve_deltas : forall pre e post, events = pre ++ e :: post -> is_kind "BOOK_DELTA_L2" e = true ->
    exists e', e' ∈ pre /\ is_kind "BOOK_SNAPSHOT_L2" e' = true;
  ve_quotes : chained (is_kind "BBO") event_ts (fun a b => b - a <= max_quote_staleness_ns policy) events;
}.

(** *** Increments *)

Lemma mod_zero_divide a b : a mod b = 0 <-> (b | a).
Proof.
  destruct (decide (b = 0)) as [->|Hb]; [|by apply Z.mod_divide].
  rewrite Z.mod_0_r. split; [intros ->; by exists 0|]. intros [k ->]. lia.
Qed.

Lemma price_issues_nil i key item :
  price_issues policy i key item = [] <-> exists atoms, wire_int item = inr atoms /\ (tick_size_atoms policy | atoms).
Proof.
  unfold price_issues. destruct (wire_int item) as [m|z]; [naive_solver|].
  destruct (Z.eqb_spec (Z.abs z mod tick_size_atoms policy) 0) as [E|E]; cbn [negb]; rewrite mod_zero_divide, Z.divide_abs_r in E; naive_solver.
Qed.

Lemma quantity_issues_nil i key item :
  quantity_issues policy i key item = []
  <-> exists atoms, wire_int item = inr atoms /\ 0 <= atoms /\ (qty_increment_atoms policy | atoms).
Proof.
  unfold quantity_issues. destruct (wire_int item) as [m|z]; [naive_solver|].
  destruct (Z.ltb_spec z 0); cbn [orb]; [split; [done|]; intros (a & [= <-] & Ha & _); lia|].
  destruct (Z.eqb_spec (z mod qty_increment_atoms policy) 0) as [E|E]; cbn [negb]; rewrite mod_zero_divide in E; naive_solver.
Qed.

Lemma concat_rmap_nil {A B} (f : A -> result (list B)) l :
  (let! ls := rmap f l in Ok (concat ls)) = Ok [] <-> Forall (fun x => f x = Ok []) l.
Proof.
  induction l as [|x l IH]; [split; [constructor|done]|]. cbn [rmap]. destruct (f x) as [[|y ys]|e] eqn:E.
  - rewrite Forall_cons, <- IH. cbn [rbind]. destruct (rmap f l); cbn [rbind concat app]; (split; [intros H; split; [exact E || done|exact H]|intros [_ H]; exact H]).
  - rewrite Forall_cons. cbn [rbind]. split; [|intros [H _]; congruence]. by destruct (rmap f l).
  - rewrite Forall_cons. cbn [rbind]. split; [done|]. intros [H _]. congruence.
Qed.

Definition nested_issues (i : Z) (item : pyval) : result (list QualityIssue) :=
  match item with
  | VDict _ => increment_issues policy i item
  | VList l => let! ls := rmap (increment_issues policy i) l in Ok (concat ls)
  | _ => Ok []
  end.
Definition item_issues (i : Z) (p : pykey * pyval) : result (list QualityIssue) :=
  match fst p with
  | KOther _ => Raise AttributeError
  | KStr key =>
      if is_price_key key then Ok (price_issues policy i key (snd p))
      else if is_quantity_key key then Ok (quantity_issues policy i key (snd p))
      else nested_issues i (snd p)
  end.

Lemma elements_issues i l :
  (fix elements (l : list pyval) : result (list QualityIssue) :=
     match l with
     | [] => Ok []
     | x :: l' => let! a := increment_issues policy i x in let! b := elements l' in Ok (a ++ b)
     end) l = let! ls := rmap (increment_issues policy i) l in Ok (concat ls).
Proof.
  induction l as [|x l IH]; [done|]. cbn [rmap]. rewrite IH. destruct (increment_issues policy i x); [|done]. cbn [rbind].
  by destruct (rmap _ l).
Qed.

Lemma increment_issues_dict i d : increment_issues policy i (VDict d) = let! ls := rmap (item_issues i) d in Ok (concat ls).
Proof.
  cbn [increment_issues]. induction d as [|[[key|z] item] d IH]; [done| |done]. cbn [rmap]. rewrite IH.
  assert ((if is_price_key key then Ok (price_issues policy i key item)
           else if is_quantity_key key then Ok (quantity_issues policy i key item)
           else match item with
                | VDict _ => increment_issues policy i item
                | VList l =>
                    (fix elements (l : list pyval) : result (list QualityIssue) :=
                       match l with
                       | [] => Ok []
                       | x :: l' => let! a := increment_issues policy i x in let! b := elements l' in Ok (a ++ b)
                       end) l
                | _ => Ok []
                end) = item_issues i (KStr key, item)) as ->.
  { unfold item_issues, nested_issues. cbn [fst snd]. destruct item; try done. by rewrite elements_issues. }
  destruct (item_issues i (KStr key, item)); [|done]. cbn [rbind]. by destruct (rmap _ d).
Qed.

Lemma aligned_cons d :
  aligned d <->
  Forall entry_ok d
  /\ (forall key d1, (KStr key, VDict d1) ∈ d -> is_atom_key key = false -> aligned d1)
  /\ (forall key l d1, (KStr key, VList l) ∈ d -> is_atom_key key = false -> VDict d1 ∈ l -> aligned d1).
Proof.
  split.
  - intros H. split; [apply H; constructor|]. split.
    + intros key d1 H1 H2 d2 Hw. apply H. by eapply within_dict.
    + intros key l d1 H1 H2 H3 d2 Hw. apply H. by eapply within_list.
  - intros (H1 & H2 & H3) d' Hw. inversion Hw as [|? key d1 ? Hin Hk Hw1|? key l d1 ? Hin Hk Hd Hw1]; subst; [done| |].
    + by eapply H2.
    + by eapply H3.
Qed.

Lemma increment_issues_nil i v :
  (forall d, v = VDict d -> increment_issues policy i v = Ok [] <-> aligned d)
  /\ (forall l, v = VList l -> Forall (fun x => increment_issues policy i x = Ok []) l
      <-> forall d, VDict d ∈ l -> aligned d).
Proof.
  induction v as [| | | | |l IH|d IH|] using pyval_ind'; (split; [intros d' E|intros l' E]; try discriminate E); injection E as <-.
  - rewrite Forall_forall. rewrite Forall_forall in IH. split.
    + intros H d Hd. by apply (proj1 (IH _ Hd) d eq_refl), H.
    + intros H x Hx. destruct x as [| | | | | |d|]; try done. apply (proj1 (IH _ Hx) d eq_refl). by apply H.
  - rewrite increment_issues_dict, concat_rmap_nil, aligned_cons. rewrite Forall_forall in IH. split.
    + intros H. rewrite Forall_forall in H. split_and!.
      * apply Forall_forall. intros [[key|z] item] Hp; [|discriminate (H _ Hp)]. exists key. split; [done|].
        specialize (H _ Hp). unfold item_issues, is_atom_key, atom_ok in *. cbn [fst snd] in *.
        destruct (is_price_key key); [intros _; by apply price_issues_nil with i key; injection H|].
        destruct (is_quantity_key key); [intros _|done]. apply quantity_issues_nil with i key. by injection H.
      * intros key d1 Hp Hk. specialize (H _ Hp). apply orb_false_iff in Hk as [K1 K2].
        unfold item_issues in H. cbn [fst snd] in H. rewrite K1, K2 in H. by apply (proj1 (IH _ Hp) d1 eq_refl).
      * intros key l d1 Hp Hk. specialize (H _ Hp). apply orb_false_iff in Hk as [K1 K2].
        unfold item_issues in H. cbn [fst snd] in H. rewrite K1, K2 in H. cbn [nested_issues] in H.
        rewrite concat_rmap_nil in H. by apply (proj2 (IH _ Hp) l eq_refl).
    + intros (H1 & H2 & H3). apply Forall_forall. intros [k item] Hp.
      rewrite Forall_forall in H1. destruct (H1 _ Hp) as (key & Ek & Ha). cbn in Ek. subst k.
      unfold item_issues, is_atom_key, atom_ok in *. cbn [fst snd] in *.
      destruct (is_price_key key) eqn:K1; [f_equal; apply price_issues_nil; by apply Ha|].
      destruct (is_quantity_key key) eqn:K2; [f_equal; apply quantity_issues_nil; by apply Ha|].
      destruct item as [| | | | |l|d1|]; try done; cbn [nested_issues].
      * rewrite concat_rmap_nil. apply (proj2 (IH _ Hp) l eq_refl). intros d1 Hd. eapply H3; [exact Hp| |exact Hd]. by rewrite K1, K2.
      * apply (proj1 (IH _ Hp) d1 eq_refl). eapply H2; [exact Hp|]. by rewrite K1, K2.
Qed.

(** *** The specification, one event at a time *)

Fixpoint linked_from (sel : pydict -> bool) (value : pydict -> fallible Z) (R : Z -> Z -> Prop) (prior : option Z)
    (events : list pydict) : Prop :=
  match events with
  | [] => True
  | e :: l =>
      if sel e
      then exists z, value e = inr z /\ (forall p, prior = Some p -> R p z) /\ linked_from sel value R (Some z) l
      else linked_from sel value R prior l
  end.

Lemma linked_from_chain sel value R events : forall prior,
  linked_from sel value R prior events <->
  exists zs, Forall2 (fun e z => value e = inr z) (List.filter sel events) zs /\ Sorted R (option_list prior ++ zs).
Proof.
  induction events as [|e l IH]; intros prior; cbn [linked_from List.filter].
  { split; [intros _; exists []; split; [constructor|]; destruct prior; repeat constructor|done]. }
  destruct (sel e); [|apply IH]. split.
  - intros (z & Hz & Hp & Hl). apply IH in Hl as (zs & Hzs & Hs). exists (z :: zs). split; [by constructor|].
    destruct prior as [p|]; [|exact Hs]. cbn. constructor; [exact Hs|]. constructor. by apply Hp.
  - intros (zs & Hzs & Hs). inversion Hzs as [|? z ? zs' Hz Hzs']; subst. exists z. split; [done|]. split.
    + intros p ->. cbn in Hs. apply Sorted_inv in Hs as [_ Hh]. by inversion Hh.
    + apply IH. exists zs'. split; [done|]. destruct prior; cbn in Hs |- *; [by apply Sorted_inv in Hs as [Hs _]|exact Hs].
Qed.

Lemma chained_linked sel value R events : chained sel value R events <-> linked_from sel value R None events.
Proof. symmetry. apply (linked_from_chain sel value R events None). Qed.

Fixpoint texts_from (seen : gset string) (events : list pydict) : Prop :=
  match events with
  | [] => True
  | e :: l => exists text, event_text e = Ok text /\ (text ∉ seen) /\ texts_from ({[text]} ∪ seen) l
  end.

Lemma texts_from_nodup events : forall seen,
  texts_from seen events <-> exists texts, rmap event_text events = Ok texts /\ NoDup texts /\ forall t, t ∈ texts -> t ∉ seen.
Proof.
  induction events as [|e l IH]; intros seen; cbn [texts_from rmap].
  { split; [|done]. intros _. exists []. split; [done|]. split; [constructor|]. intros t Ht. by apply not_elem_of_nil in Ht. }
  split.
  - intros (t & Ht & Hs & Hl). apply IH in Hl as (ts & Hts & Hn & Hd). exists (t :: ts). rewrite Ht, Hts. split; [done|]. split.
    + constructor; [|done]. intros Hin. apply (Hd _ Hin). set_solver.
    + intros t' [->|Hin]%elem_of_cons; [done|]. specialize (Hd _ Hin). set_solver.
  - intros (ts & Hts & Hn & Hd). apply rbind_Ok in Hts as (t & Ht & Hts). apply rbind_Ok in Hts as (ts' & Hts & [= <-]).
    apply NoDup_cons in Hn as [Hx Hn]. exists t. split; [done|]. split; [apply Hd, list_elem_of_here|].
    apply IH. exists ts'. split; [done|]. split; [done|]. intros t' Hin. specialize (Hd t' (list_elem_of_further _ _ _ Hin)). set_solver.
Qed.

Fixpoint deltas_from (ready : bool) (events : list pydict) : Prop :=
  match events with
  | [] => True
  | e :: l => (is_kind "BOOK_DELTA_L2" e = true -> ready = true) /\ deltas_from (ready || is_kind "BOOK_SNAPSHOT_L2" e) l
  end.

Lemma is_kind_iff name e : is_kind name e = true <-> field "kind" e = VStr name.
Proof.
  unfold is_kind. destruct (field "kind" e); try (split; discriminate). change (py_eq (VStr s) (VStr name)) with (String.eqb s name).
  rewrite String.eqb_eq. split; [by intros ->|by intros [= ->]].
Qed.

Lemma is_kind_other a b e : is_kind a e = true -> a <> b -> is_kind b e = false.
Proof. intros H Hne. destruct (is_kind b e) eqn:E; [|done]. apply is_kind_iff in H, E. congruence. Qed.

Lemma deltas_from_spec events : forall ready,
  deltas_from ready events <->
  forall pre e post, events = pre ++ e :: post -> is_kind "BOOK_DELTA_L2" e = true ->
    ready = true \/ exists e', e' ∈ pre /\ is_kind "BOOK_SNAPSHOT_L2" e' = true.
Proof.
  induction events as [|x l IH]; intros ready; cbn [deltas_from]; [split; [|done]; by intros _ [|? ?]|]. rewrite IH. split.
  - intros [H1 H2] [|y pre] e post E He; cbn in E; injection E as <- El; [left; by apply H1|].
    destruct (H2 pre e post El He) as [[->|Hx]%orb_true_iff|(e' & He' & Hk)]; [by left| |].
    + right. exists x. split; [apply list_elem_of_here|exact Hx].
    + right. exists e'. split; [by apply list_elem_of_further|exact Hk].
  - intros H. split.
    + intros Hx. destruct (H [] x l eq_refl Hx) as [|(e' & He' & _)]; [done|by apply not_elem_of_nil in He'].
    + intros pre e post -> He. destruct (H (x :: pre) e post eq_refl He) as [->|(e' & [->|He']%elem_of_cons & Hk)].
      * by left.
      * left. rewrite Hk. apply orb_true_r.
      * right. eauto.
Qed.

(** *** The scan agrees, step by step *)

(** All that the specification asks of the remaining events, given what the scan remembers. *)
Definition clean_from (s : Scan) (events : list pydict) : Prop :=
  texts_from (sc_seen s) events
  /\ linked_from (fun _ => true) event_ts (fun a b => a <= b <= a + max_gap_ns policy) (sc_prior_ts s) events
  /\ linked_from has_sequence event_sequence (fun a b => b = a + 1) (sc_prior_sequence s) events
  /\ Forall event_ok events
  /\ deltas_from (sc_book_ready s) events
  /\ linked_from (is_kind "BBO") event_ts (fun a b => b - a <= max_quote_staleness_ns policy) (sc_prior_quote_ts s) events.

Lemma valid_clean events : valid_events events <-> clean_from scan_start events.
Proof.
  unfold clean_from. cbn [scan_start sc_seen sc_prior_ts sc_prior_sequence sc_book_ready sc_prior_quote_ts].
  rewrite texts_from_nodup, <- !chained_linked, deltas_from_spec. split.
  - intros [(ts & Hts & Hn) H2 H3 H4 H5 H6]. split_and!; try done.
    + exists ts. split_and!; [done..|]. intros t _. apply not_elem_of_empty.
    + intros pre e post E He. right. by eapply H5.
  - intros ((ts & Hts & Hn & _) & H2 & H3 & H4 & H5 & H6). split; try done; [eauto|].
    intros pre e post E He. destruct (H5 pre e post E He) as [|]; [done|done].
Qed.

(** The scan state after an event without issues. *)
Definition clean_next (text : string) (ts : Z) (e : pydict) (s : Scan) : Scan :=
  mk_scan (sc_issues s) ({[text]} ∪ sc_seen s) (sc_duplicates s)
    (Some (match sc_minimum s with None => ts | Some m => Z.min m ts end))
    (Some (match sc_maximum s with None => ts | Some m => Z.max m ts end)) (Some ts)
    (if has_sequence e then match event_sequence e with inr z => Some z | inl _ => None end else sc_prior_sequence s)
    (if is_kind "BBO" e then Some ts else sc_prior_quote_ts s)
    (sc_book_ready s || is_kind "BOOK_SNAPSHOT_L2" e).

(** What one event must satisfy. *)
Record clean_event (s : Scan) (text : string) (ts : Z) (e : pydict) : Prop := mk_clean {
  ce_text : event_text e = Ok text /\ text ∉ sc_seen s;
  ce_ts : event_ts e = inr ts /\ (forall p, sc_prior_ts s = Some p -> p <= ts <= p + max_gap_ns policy);
  ce_sequence : has_sequence e = true -> exists z, event_sequence e = inr z /\ (forall p, sc_prior_sequence s = Some p -> z = p + 1);
  ce_ok : event_ok e;
  ce_delta : is_kind "BOOK_DELTA_L2" e = true -> sc_book_ready s = true;
  ce_quote : is_kind "BBO" e = true -> forall p, sc_prior_quote_ts s = Some p -> ts - p <= max_quote_staleness_ns policy;
}.

Lemma clean_from_cons s e l :
  clean_from s (e :: l) <-> exists text ts, clean_event s text ts e /\ clean_from (clean_next text ts e s) l.
Proof.
  unfold clean_from, clean_next. cbn [texts_from linked_from deltas_from sc_seen sc_prior_ts sc_prior_sequence sc_book_ready sc_prior_quote_ts].
  rewrite Forall_cons. split.
  - intros ((t & Ht & Hs & Hl) & (ts & Hts & Hp & Hl2) & H3 & [H4 H4'] & [H5 H5'] & H6). exists t, ts. split.
    + split; try done.
      * intros Hq. rewrite Hq in H3. destruct H3 as (z & Hz & Hr & _). eauto.
      * intros Hq. rewrite Hq in H6. destruct H6 as (z & Hz & Hr & _). assert (z = ts) as -> by congruence. exact Hr.
    + split_and!; try done.
      * destruct (has_sequence e); [|done]. destruct H3 as (z & -> & _ & Hz). exact Hz.
      * destruct (is_kind "BBO" e); [|done]. destruct H6 as (z & Hz & _ & Hl6). assert (z = ts) as -> by congruence. exact Hl6.
  - intros (t & ts & [[Ht Hs] [Hts Hp] H3 H4 H5 H6] & (L1 & L2 & L3 & L4 & L5 & L6)). split_and!; try done; [eauto|eauto| |].
    + destruct (has_sequence e); [|done]. destruct (H3 eq_refl) as (z & Hz & Hr). rewrite Hz in L3. eauto.
    + destruct (is_kind "BBO" e); [|done]. exists ts. split; [done|]. split; [by apply H6|done].
Qed.

Definition adds (s s' : Scan) (new : list QualityIssue) : Prop := sc_issues s' = sc_issues s ++ new.

Lemma adds_trans s1 s2 s3 a b : adds s1 s2 a -> adds s2 s3 b -> adds s1 s3 (a ++ b).
Proof. unfold adds. intros -> ->. by rewrite <- app_assoc. Qed.
Lemma adds_refl s : adds s s [].
Proof. unfold adds. by rewrite app_nil_r. Qed.

Lemma time_issues_nil i ts prior :
  time_issues policy i ts prior = [] <-> forall p, prior = Some p -> p <= ts <= p + max_gap_ns policy.
Proof.
  unfold time_issues. destruct prior as [p|]; [|naive_solver]. destruct (Z.ltb_spec ts p).
  { split; [done|]. intros H1. specialize (H1 p eq_refl). lia. }
  destruct (Z.ltb_spec (max_gap_ns policy) (ts - p)).
  - split; [done|]. intros H1. specialize (H1 p eq_refl). lia.
  - split; [|done]. intros _ q [= <-]. lia.
Qed.

Lemma stale_issues_nil i ts prior :
  stale_issues policy i ts prior = [] <-> forall p, prior = Some p -> ts - p <= max_quote_staleness_ns policy.
Proof.
  unfold stale_issues. destruct prior as [p|]; [|naive_solver]. destruct (Z.ltb_spec (max_quote_staleness_ns policy) (ts - p)).
  - split; [done|]. intros H1. specialize (H1 p eq_refl). lia.
  - split; [|done]. by intros _ q [= <-].
Qed.

Lemma fold_max_ge l x y : x ∈ l \/ x = y -> x <= fold_left Z.max l y.
Proof.
  revert y. induction l as [|z l IH]; intros y; cbn; [intros [Hx| ->]; [by apply not_elem_of_nil in Hx|lia]|].
  assert (z <= fold_left Z.max l (Z.max y z) /\ y <= fold_left Z.max l (Z.max y z)) as [H1 H2].
  { specialize (IH (Z.max y z)). clear -IH. revert IH. intros IH.
    assert (Z.max y z <= fold_left Z.max l (Z.max y z)); [|lia].
    clear IH. generalize (Z.max y z). induction l as [|a l IH]; intros b; cbn; [lia|]. specialize (IH (Z.max b a)). lia. }
  intros [[->|Hx]%elem_of_cons| ->]; [done| |done]. apply IH. by left.
Qed.

Lemma fold_max_in l y : fold_left Z.max l y ∈ y :: l.
Proof.
  revert y. induction l as [|z l IH]; intros y; cbn; [by apply list_elem_of_singleton|].
  specialize (IH (Z.max y z)). apply elem_of_cons in IH as [->|IH]; [|set_solver].
  destruct (Z.max_spec y z) as [[_ ->]|[_ ->]]; set_solver.
Qed.

Lemma fold_min_max l y : fold_left Z.min l y = - fold_left Z.max (map Z.opp l) (- y).
Proof.
  revert y. induction l as [|z l IH]; intros y; cbn; [lia|]. rewrite IH. do 2 f_equal. lia.
Qed.

Lemma crosses_false bids asks :
  crosses bids asks = false <-> forall b a, b ∈ map fst bids -> a ∈ map fst asks -> b < a.
Proof.
  unfold crosses. destruct bids as [|[b q] bids]; [split; [|done]; by intros _ x a Hx%not_elem_of_nil|].
  destruct asks as [|[a q'] asks]; [split; [|done]; by intros _ x y _ Hy%not_elem_of_nil|]. cbn [map fst].
  rewrite fold_min_max, Z.leb_gt. set (M := fold_left Z.max (map fst bids) b). set (N := fold_left Z.max (map Z.opp (map fst asks)) (- a)).
  assert (forall x, x ∈ b :: map fst bids -> x <= M) as HM.
  { intros x Hx. apply fold_max_ge. apply elem_of_cons in Hx as [->|]; auto. }
  assert (forall y, y ∈ a :: map fst asks -> - N <= y) as HN.
  { intros y Hy. assert (- y <= N); [|lia]. apply fold_max_ge. apply elem_of_cons in Hy as [->|Hy]; [by right|left].
    apply elem_of_mapl. eauto. }
  split.
  - intros H x y Hx Hy. specialize (HM x Hx). specialize (HN y Hy). lia.
  - intros H. assert (M ∈ b :: map fst bids) as Mi by apply fold_max_in.
    assert (- N ∈ a :: map fst asks) as Ni.
    { pose proof (fold_max_in (map Z.opp (map fst asks)) (- a)) as Hn. fold N in Hn. apply elem_of_cons in Hn as [->|Hn].
      - rewrite Z.opp_involutive. apply list_elem_of_here.
      - apply elem_of_mapl in Hn as (y & E & Hy). rewrite E, Z.opp_involutive. by apply list_elem_of_further. }
    apply (H _ _ Mi Ni).
Qed.

Lemma bbo_issues_nil i payload : bbo_issues i payload = [] <-> quote_ok payload.
Proof.
  unfold bbo_issues, quote_ok. set (bid := field "bid_price_atoms" payload). set (ask := field "ask_price_atoms" payload).
  assert (forall m, (match wire_int bid with
      | inl m => [mk_issue "INVALID_BBO" QUARANTINED (Some i) m]
      | inr b => match wire_int ask with
                 | inl m => [mk_issue "INVALID_BBO" QUARANTINED (Some i) m]
                 | inr a => if a <=? b then [m] else []
                 end
      end = []) <-> exists b a, wire_int bid = inr b /\ wire_int ask = inr a /\ b < a) as Hgen.
  { intros m. destruct (wire_int bid) as [|b]; [naive_solver|]. destruct (wire_int ask) as [|a]; [naive_solver|].
    destruct (Z.leb_spec a b); [|naive_solver]. split; [done|]. intros (b' & a' & [= <-] & [= <-] & ?). lia. }
  specialize (Hgen (mk_issue "CROSSED_BBO" DEGRADED (Some i) "bid is not below ask")).
  destruct bid; [by split|..]; (destruct ask; [by split|..]);
    (rewrite Hgen; split; [by intros H _ _|intros H; by apply H]).
Qed.

Lemma scan_sequence_adds i e s s' :
  scan_sequence i e s = Ok s' ->
  exists new, adds s s' new /\
    (new = [] ->
      (has_sequence e = true -> exists z, event_sequence e = inr z /\ forall p, sc_prior_sequence s = Some p -> z = p + 1)
      /\ s' = mk_scan (sc_issues s) (sc_seen s) (sc_duplicates s) (sc_minimum s) (sc_maximum s) (sc_prior_ts s)
           (if has_sequence e then match event_sequence e with inr z => Some z | inl _ => None end else sc_prior_sequence s)
           (sc_prior_quote_ts s) (sc_book_ready s)).
Proof.
  unfold scan_sequence, has_sequence, event_sequence.
  assert (forall raw, match wire_int raw with
    | inl m => Ok (add_issues [mk_issue "INVALID_SEQUENCE" QUARANTINED (Some i) m] s)
    | inr sequence =>
        let! issues := sequence_issues i sequence e (sc_prior_sequence s) in
        Ok (mk_scan (sc_issues s ++ issues) (sc_seen s) (sc_duplicates s) (sc_minimum s) (sc_maximum s) (sc_prior_ts s)
              (Some sequence) (sc_prior_quote_ts s) (sc_book_ready s))
    end = Ok s' -> exists new, adds s s' new /\ (new = [] ->
      (exists z, wire_int raw = inr z /\ forall p, sc_prior_sequence s = Some p -> z = p + 1)
      /\ s' = mk_scan (sc_issues s) (sc_seen s) (sc_duplicates s) (sc_minimum s) (sc_maximum s) (sc_prior_ts s)
           (match wire_int raw with inr z => Some z | inl _ => None end) (sc_prior_quote_ts s) (sc_book_ready s))) as Hgen.
  { intros raw. destruct (wire_int raw) as [m|z].
    - intros [= <-]. exists [mk_issue "INVALID_SEQUENCE" QUARANTINED (Some i) m]. done.
    - intros (new & Hnew & [= <-])%rbind_Ok. exists new. split; [done|]. intros ->. rewrite app_nil_r. split; [|done].
      exists z. split; [done|]. intros p Hp. unfold sequence_issues in Hnew. rewrite Hp in Hnew.
      destruct (Z.eqb_spec z (p + 1)); [done|]. by apply rbind_Ok in Hnew as (_ & _ & ?). }
  destruct (field "source_sequence" e) eqn:E;
    [intros [= <-]; exists []; split; [apply adds_refl|]; intros _; split; [done|by destruct s]|..];
    (intros (new & Ha & Hn)%Hgen; exists new; split; [exact Ha|]; intros Hnil; destruct (Hn Hnil) as [Hz Hs']; split; [intros _; exact Hz|exact Hs']).
Qed.

Lemma scan_kind_adds i ts e payload s :
  exists new, adds s (scan_kind policy i ts e payload s) new /\
    (new = [] ->
      (is_kind "BOOK_SNAPSHOT_L2" e = true -> book_ok payload)
      /\ (is_kind "BBO" e = true -> quote_ok payload)
      /\ (is_kind "BOOK_DELTA_L2" e = true -> sc_book_ready s = true)
      /\ (is_kind "BBO" e = true -> forall p, sc_prior_quote_ts s = Some p -> ts - p <= max_quote_staleness_ns policy)
      /\ scan_kind policy i ts e payload s
         = mk_scan (sc_issues s) (sc_seen s) (sc_duplicates s) (sc_minimum s) (sc_maximum s) (sc_prior_ts s) (sc_prior_sequence s)
             (if is_kind "BBO" e then Some ts else sc_prior_quote_ts s) (sc_book_ready s || is_kind "BOOK_SNAPSHOT_L2" e)).
Proof.
  unfold scan_kind. destruct (is_kind "BOOK_SNAPSHOT_L2" e) eqn:Ks.
  { rewrite (is_kind_other _ "BBO" e Ks), (is_kind_other _ "BOOK_DELTA_L2" e Ks) by done. unfold scan_snapshot, book_ok.
    destruct (levels payload "bids") as [m|bids]; [by eexists [_]|].
    destruct (levels payload "asks") as [m|asks]; [by eexists [_]|].
    eexists. split; [reflexivity|]. destruct (crosses bids asks) eqn:Hc; [done|]. intros _. split_and!; try done.
    - intros _. exists bids, asks. split_and!; [done..|]. by apply crosses_false.
    - unfold add_issues, set_book_ready. cbn. by rewrite app_nil_r, orb_true_r. }
  rewrite orb_false_r. destruct (is_kind "BOOK_DELTA_L2" e) eqn:Kd; cbn [andb].
  { rewrite (is_kind_other _ "BBO" e Kd) by done. destruct (sc_book_ready s) eqn:Hr; cbn [negb].
    - exists []. split; [apply adds_refl|]. intros _. split_and!; try done. destruct s. cbn in *. by subst.
    - by eexists [_]. }
  destruct (is_kind "BBO" e); [|exists []; split; [apply adds_refl|]; intros _; by destruct s].
  eexists. split; [reflexivity|]. intros [H1 H2]%app_eq_nil. split_and!; try done.
  - intros _. by apply bbo_issues_nil with i.
  - intros _. by apply stale_issues_nil with i.
  - unfold scan_bbo. by rewrite H1, H2, app_nil_r.
Qed.

Lemma payload_of_inr e d : payload_of e = inr d <-> dict_get "payload" e = Some (VDict d).
Proof. unfold payload_of. destruct (dict_get "payload" e) as [[]|]; naive_solver. Qed.

Lemma scan_duplicate_adds i t s :
  exists new, adds s (scan_duplicate i t s) new /\
    (new = [] -> (t ∉ sc_seen s)
      /\ scan_duplicate i t s = mk_scan (sc_issues s) ({[t]} ∪ sc_seen s) (sc_duplicates s) (sc_minimum s) (sc_maximum s)
           (sc_prior_ts s) (sc_prior_sequence s) (sc_prior_quote_ts s) (sc_book_ready s)).
Proof. unfold scan_duplicate. destruct (decide (t ∈ sc_seen s)); [by eexists [_]|]. exists []. split; [unfold adds; by rewrite app_nil_r|done]. Qed.

(** An event adds issues; if it adds none, it is clean and the state is the clean one. *)
Lemma scan_event_adds i e s s' :
  scan_event policy i e s = Ok s' ->
  exists new, adds s s' new /\ (new = [] -> exists text ts, clean_event s text ts e /\ s' = clean_next text ts e s).
Proof.
  unfold scan_event. intros (t & Ht & H)%rbind_Ok. destruct (scan_duplicate_adds i t s) as (l1 & A1 & N1).
  fold (event_ts e) in H. destruct (event_ts e) as [m|ts] eqn:Hts.
  { injection H as <-. exists (l1 ++ [mk_issue "INVALID_TIMESTAMP" QUARANTINED (Some i) m]).
    split; [by eapply adds_trans; [exact A1|]|]. intros E. by apply app_eq_nil in E as [_ E]. }
  apply rbind_Ok in H as (s3 & H3 & H). destruct (scan_sequence_adds _ _ _ _ H3) as (l3 & A3 & N3).
  set (s1 := scan_duplicate i t s) in *. set (l2 := time_issues policy i ts (sc_prior_ts s1)) in *.
  assert (adds s s3 (l1 ++ l2 ++ l3)) as A13.
  { rewrite app_assoc. eapply adds_trans; [|exact A3]. by eapply adds_trans; [exact A1|]. }
  destruct (payload_of e) as [m|payload] eqn:Hp.
  { injection H as <-. eexists. split; [eapply adds_trans; [exact A13|]; reflexivity|]. intros E. by apply app_eq_nil in E as [_ E]. }
  apply rbind_Ok in H as (l4 & H4 & [= <-]).
  destruct (scan_kind_adds i ts e payload (add_issues l4 s3)) as (l5 & A5 & N5).
  exists ((l1 ++ l2 ++ l3) ++ l4 ++ l5). split; [eapply adds_trans; [exact A13|]; eapply adds_trans; [|exact A5]; reflexivity|].
  intros [(E1 & (E2 & E3)%app_eq_nil)%app_eq_nil (E4 & E5)%app_eq_nil]%app_eq_nil. subst l4.
  destruct (N1 E1) as [Hseen Es1]. destruct (N3 E3) as [Hseq Es3]. destruct (N5 E5) as (Hbook & Hquote & Hdelta & Hstale & Ek).
  subst l2. rewrite time_issues_nil in E2. rewrite Es1 in E2. cbn [sc_prior_ts] in E2.
  exists t, ts. rewrite Ek. clear Ek. rewrite Es3 in Hdelta, Hstale |- *. unfold scan_time in Hseq, Hdelta, Hstale |- *.
  rewrite Es1 in Hseq, Hdelta, Hstale |- *. cbn [sc_prior_sequence sc_prior_quote_ts sc_book_ready add_issues] in Hseq, Hdelta, Hstale.
  split.
  - split; try done. exists payload. split; [by apply payload_of_inr|]. split; [|done].
    by apply (proj1 (increment_issues_nil i (VDict payload)) payload eq_refl).
  - unfold clean_next, add_issues.
    cbn [sc_issues sc_seen sc_duplicates sc_minimum sc_maximum sc_prior_ts sc_prior_sequence sc_prior_quote_ts sc_book_ready].
    by rewrite (proj2 (time_issues_nil i ts (sc_prior_ts s)) E2), !app_nil_r.
Qed.

Lemma scan_sequence_clean i e s :
  (has_sequence e = true -> exists z, event_sequence e = inr z /\ forall p, sc_prior_sequence s = Some p -> z = p + 1) ->
  scan_sequence i e s = Ok (mk_scan (sc_issues s) (sc_seen s) (sc_duplicates s) (sc_minimum s) (sc_maximum s) (sc_prior_ts s)
    (if has_sequence e then match event_sequence e with inr z => Some z | inl _ => None end else sc_prior_sequence s)
    (sc_prior_quote_ts s) (sc_book_ready s)).
Proof.
  unfold scan_sequence, has_sequence, event_sequence. intros H.
  assert (forall z, (forall p, sc_prior_sequence s = Some p -> z = p + 1) ->
    sequence_issues i z e (sc_prior_sequence s) = Ok []) as Hz.
  { intros q Hq. unfold sequence_issues. destruct (sc_prior_sequence s) as [p|]; [|done]. by rewrite (Hq p eq_refl), Z.eqb_refl. }
  destruct (field "source_sequence" e); [by destruct s|..];
    (destruct (H eq_refl) as (y & -> & Hp); rewrite (Hz y Hp); cbn [rbind]; by rewrite app_nil_r).
Qed.

Lemma scan_event_clean i text ts e s :
  clean_event s text ts e -> scan_event policy i e s = Ok (clean_next text ts e s).
Proof.
  intros [[Ht Hs] [Hts Hp] Hseq (payload & Hpl & Ha & Hbook & Hquote) Hdelta Hstale].
  unfold scan_event. rewrite Ht. cbn [rbind]. fold (event_ts e). rewrite Hts.
  unfold scan_duplicate. rewrite decide_False by done.
  assert (scan_time policy i ts (mk_scan (sc_issues s) ({[text]} ∪ sc_seen s) (sc_duplicates s) (sc_minimum s) (sc_maximum s)
      (sc_prior_ts s) (sc_prior_sequence s) (sc_prior_quote_ts s) (sc_book_ready s))
    = mk_scan (sc_issues s) ({[text]} ∪ sc_seen s) (sc_duplicates s)
        (Some (match sc_minimum s with None => ts | Some m => Z.min m ts end))
        (Some (match sc_maximum s with None => ts | Some m => Z.max m ts end)) (Some ts) (sc_prior_sequence s)
        (sc_prior_quote_ts s) (sc_book_ready s)) as ->.
  { unfold scan_time. cbn. by rewrite (proj2 (time_issues_nil i ts (sc_prior_ts s)) Hp), app_nil_r. }
  rewrite scan_sequence_clean by exact Hseq. cbn [rbind]. rewrite (proj2 (payload_of_inr e payload) Hpl).
  rewrite (proj2 (proj1 (increment_issues_nil i (VDict payload)) payload eq_refl) Ha). cbn [rbind]. f_equal.
  unfold scan_kind, clean_next, add_issues.
  cbn [sc_issues sc_seen sc_duplicates sc_minimum sc_maximum sc_prior_ts sc_prior_sequence sc_prior_quote_ts sc_book_ready].
  rewrite app_nil_r. destruct (is_kind "BOOK_SNAPSHOT_L2" e) eqn:Ks.
  { rewrite (is_kind_other _ "BBO" e Ks) by done. destruct (Hbook eq_refl) as (bids & asks & Hb & Hk & Hc).
    unfold scan_snapshot, set_book_ready, add_issues. rewrite Hb, Hk, (proj2 (crosses_false bids asks) Hc).
    cbn [sc_issues sc_seen sc_duplicates sc_minimum sc_maximum sc_prior_ts sc_prior_sequence sc_prior_quote_ts sc_book_ready].
    by rewrite app_nil_r, orb_true_r. }
  rewrite orb_false_r. destruct (is_kind "BOOK_DELTA_L2" e) eqn:Kd; cbn [andb].
  { rewrite (is_kind_other _ "BBO" e Kd) by done. by rewrite (Hdelta eq_refl). }
  destruct (is_kind "BBO" e); [|done]. unfold scan_bbo.
  cbn [sc_issues sc_seen sc_duplicates sc_minimum sc_maximum sc_prior_ts sc_prior_sequence sc_prior_quote_ts sc_book_ready].
  rewrite (proj2 (bbo_issues_nil i payload) (Hquote eq_refl)), (proj2 (stale_issues_nil i ts _) (Hstale eq_refl)).
  by rewrite !app_nil_r.
Qed.

Lemma scan_events_adds events : forall i s s',
  scan_events policy i events s = Ok s' -> exists new, adds s s' new.
Proof.
  induction events as [|e l IH]; intros i s s' H; [injection H as <-; exists []; apply adds_refl|].
  apply rbind_Ok in H as (s1 & H1 & H). destruct (scan_event_adds _ _ _ _ H1) as (a & Ha & _).
  destruct (IH _ _ _ H) as (b & Hb). exists (a ++ b). by eapply adds_trans.
Qed.

Lemma scan_events_clean events : forall i s,
  (exists s', scan_events policy i events s = Ok s' /\ sc_issues s' = sc_issues s) <-> clean_from s events.
Proof.
  induction events as [|e l IH]; intros i s.
  { split; [|intros _; by exists s]. intros _. split_and!; done || constructor. }
  rewrite clean_from_cons. cbn [scan_events]. split.
  - intros (s' & H & Hi). apply rbind_Ok in H as (s1 & H1 & H). destruct (scan_event_adds _ _ _ _ H1) as (a & Ha & Hn).
    destruct (scan_events_adds _ _ _ _ H) as (b & Hb). pose proof (adds_trans _ _ _ _ _ Ha Hb) as Hab. unfold adds in Hab.
    assert (a ++ b = []) as [-> ->]%app_eq_nil.
    { apply (app_inv_head (sc_issues s)). by rewrite app_nil_r, <- Hab, Hi. }
    destruct (Hn eq_refl) as (text & ts & Hc & ->). exists text, ts. split; [exact Hc|]. apply (IH (i + 1)). exists s'. split; [exact H|].
    unfold adds in Hb. by rewrite app_nil_r in Hb.
  - intros (text & ts & Hc & Hl). rewrite (scan_event_clean i _ _ _ _ Hc). cbn [rbind]. apply (IH (i + 1)) in Hl as (s' & Hs' & Hi).
    exists s'. by split.
Qed.

Lemma status_valid issues :
  status_of issues = "VALID" <-> Forall (fun x => is_severity x = INFO) issues.
Proof.
  unfold status_of. assert (0 <= highest issues /\ (highest issues = 0 <-> Forall (fun x => is_severity x = INFO) issues)
    /\ highest issues <= 2) as (H0 & H1 & H2).
  { unfold highest. induction issues as [|x l IH]; cbn [map fold_right]; [split_and!; [lia|done|lia]|]. rewrite Forall_cons.
    destruct IH as (I0 & I1 & I2). rewrite <- I1. destruct (is_severity x); cbn [severity_int]; (split_and!; [lia| |lia]); (split; [intros; split; [congruence || lia|lia]|intros [E ?]; (discriminate E || lia)]). }
  rewrite <- H1. destruct (Z.eqb_spec (highest issues) 2); [split; [discriminate|lia]|].
  destruct (Z.eqb_spec (highest issues) 1); [split; [discriminate|lia]|]. split; [lia|done].
Qed.

(** *** Every issue lowers the status *)

Definition severe (l : list QualityIssue) : Prop := Forall (fun x => is_severity x <> INFO) l.

Ltac severe := repeat (case_match || apply Forall_cons || (split; [discriminate|]) || apply Forall_nil_2 || discriminate).

Lemma increment_issues_severe i v l : increment_issues policy i v = Ok l -> severe l.
Proof.
  revert l. assert ((forall l, increment_issues policy i v = Ok l -> severe l) /\
    (forall vs, v = VList vs -> Forall (fun x => forall l, increment_issues policy i x = Ok l -> severe l) vs)) as [H _]; [|exact H].
  induction v as [| | | | |vs IH|d IH|] using pyval_ind'; (split; [|intros vs' E; try discriminate E]);
    try (intros l [= <-]; constructor).
  - injection E as <-. eapply Forall_impl; [exact IH|]. by intros x [Hx _].
  - intros l. rewrite increment_issues_dict. intros (ls & Hls & [= <-])%rbind_Ok. apply rmap_Ok in Hls.
    apply Forall_concat. apply Forall_forall. intros l Hl. rewrite Forall_forall in IH.
    apply list_elem_of_lookup_1 in Hl as (n & Hn). destruct (Forall2_lookup_r _ _ _ _ _ Hls Hn) as ([k item] & Hp & Hi).
    apply list_elem_of_lookup_2 in Hp. specialize (IH _ Hp) as [I1 I2]. unfold item_issues in Hi. cbn [fst snd] in *.
    destruct k as [key|]; [|discriminate].
    destruct (is_price_key key); [injection Hi as <-; unfold price_issues; severe|].
    destruct (is_quantity_key key); [injection Hi as <-; unfold quantity_issues; severe|].
    destruct item as [| | | | |vs|d'|]; try (injection Hi as <-; constructor); [|by apply I1].
    cbn [nested_issues] in Hi. apply rbind_Ok in Hi as (ls' & Hls' & [= <-]). apply rmap_Ok in Hls'.
    specialize (I2 vs eq_refl). apply Forall_concat. clear -Hls' I2.
    induction Hls' as [|x y xs ys Hxy _ IH]; [constructor|]. apply Forall_cons in I2 as [Hx Hxs]. constructor; [by apply Hx|by apply IH].
Qed.

Lemma sequence_issues_severe i z e prior l : sequence_issues i z e prior = Ok l -> severe l.
Proof.
  unfold sequence_issues. destruct prior as [p|]; [|intros [= <-]; constructor].
  destruct (z =? p + 1); [intros [= <-]; constructor|]. intros (u & _ & [= <-])%rbind_Ok.
  apply Forall_cons. split; [by destruct (is_book_kind e)|constructor].
Qed.

Lemma scan_sequence_severe i e s s' : scan_sequence i e s = Ok s' -> severe (sc_issues s) -> severe (sc_issues s').
Proof.
  intros H Hs. unfold scan_sequence in H. destruct (field "source_sequence" e); [by injection H as <-|..];
    (match type of H with match ?w with _ => _ end = _ => destruct w as [m|q] end;
     [injection H as <-; apply Forall_app; split; [exact Hs|severe]|];
     apply rbind_Ok in H as (new & Hnew & [= <-]); apply Forall_app; split; [exact Hs|]; by eapply sequence_issues_severe).
Qed.

Lemma scan_event_severe i e s s' : scan_event policy i e s = Ok s' -> severe (sc_issues s) -> severe (sc_issues s').
Proof.
  unfold scan_event. intros (t & _ & H)%rbind_Ok Hs.
  assert (severe (sc_issues (scan_duplicate i t s))) as H1.
  { unfold scan_duplicate. destruct (decide _); [|exact Hs]. apply Forall_app. split; [exact Hs|severe]. }
  destruct (wire_int (field "ts_event_ns" e)) as [m|ts]; [injection H as <-; apply Forall_app; split; [exact H1|severe]|].
  apply rbind_Ok in H as (s3 & H3 & H).
  assert (severe (sc_issues s3)) as Hs3.
  { assert (severe (sc_issues (scan_time policy i ts (scan_duplicate i t s)))) as H2.
    { apply Forall_app. split; [exact H1|]. unfold time_issues. severe. }
    by eapply scan_sequence_severe. }
  destruct (payload_of e) as [m|payload]; [injection H as <-; apply Forall_app; split; [exact Hs3|severe]|].
  apply rbind_Ok in H as (l4 & H4 & [= <-]). apply increment_issues_severe in H4.
  assert (severe (sc_issues (add_issues l4 s3))) as Hs4 by by apply Forall_app.
  unfold scan_kind, scan_snapshot, scan_bbo.
  repeat (case_match; try exact Hs4); try (apply Forall_app; split; [exact Hs4|]); try severe.
  apply Forall_app. split; [unfold bbo_issues; severe|unfold stale_issues; severe].
Qed.

Lemma scan_events_severe events : forall i s s',
  scan_events policy i events s = Ok s' -> severe (sc_issues s) -> severe (sc_issues s').
Proof.
  induction events as [|e l IH]; intros i s s' H Hs; [by injection H as <-|].
  apply rbind_Ok in H as (s1 & H1 & H). eapply IH; [exact H|]. by eapply scan_event_severe.
Qed.

Lemma severe_info l : severe l -> Forall (fun x => is_severity x = INFO) l -> l = [].
Proof. destruct l; [done|]. intros [H _]%Forall_cons [E _]%Forall_cons. done. Qed.

Lemma decision_hash_total st rows mn mx dup : exists h, decision_hash st rows mn mx dup [] = Ok h.
Proof. destruct mn, mx; eexists; reflexivity. Qed.

(** C28. The status VALID is earned exactly by the lists that the specification describes: no event twice;
    times that never go back nor jump more than the gap; sequences without a hole; every price and
    quantity, at any depth of the payload, an exact multiple of its increment; books that do not cross
    and deltas only after a snapshot; quotes that do not cross and are never stale.  Otherwise the
    scan lowers the status or raises. *)
Theorem quality_valid_iff events :
  (exists report, validate_events policy events = Ok report /\ qr_status report = "VALID") <-> valid_events events.
Proof.
  rewrite valid_clean, <- (scan_events_clean events 0 scan_start). unfold validate_events. split.
  - intros (r & H & Hst). apply rbind_Ok in H as (s & Hs & H). exists s. split; [exact Hs|].
    apply rbind_Ok in H as (h & _ & [= <-]). cbn [qr_status] in Hst. apply status_valid in Hst.
    apply (severe_info _ (scan_events_severe _ _ _ _ Hs (Forall_nil_2 _)) Hst).
  - intros (s & Hs & Hi). cbn [scan_start sc_issues] in Hi.
    destruct (decision_hash_total (status_of []) (Z.of_nat (length events)) (sc_minimum s) (sc_maximum s) (sc_duplicates s)) as (h & Hh).
    eexists. rewrite Hs. cbn [rbind]. rewrite Hi, Hh. cbn [rbind]. split; reflexivity.
Qed.
End Spec.

(** ** Examples *)

Definition demo_policy : QualityPolicy := mk_policy 5 10 1000 500.
Definition demo_level (price qty : string) : pyval := VDict (obj [("price_atoms", VStr price); ("qty_atoms", VStr qty)]).
Definition demo_event (ts seq kind : string) (payload : list (string * pyval)) : pydict :=
  obj [("ts_event_ns", VStr ts); ("source_sequence", VStr seq); ("kind", VStr kind); ("payload", VDict (obj payload))].
Definition demo_book : pydict :=
  demo_event "100" "7" "BOOK_SNAPSHOT_L2" [("bids", VList [demo_level "95" "10"]); ("asks", VList [demo_level "100" "20"])].
Definition demo_delta : pydict := demo_event "150" "8" "BOOK_DELTA_L2" [("price_atoms", VStr "95"); ("new_qty_atoms", VStr "0")].
Definition demo_bbo : pydict := demo_event "150" "9" "BBO" [("bid_price_atoms", VStr "95"); ("ask_price_atoms", VStr "100")].

Definition report_codes (r : result QualityReport) : result (string * list string) :=
  let! x := r in Ok (qr_status x, map is_code (qr_issues x)).

Example quality_examples :
  report_codes (validate_events demo_policy [demo_book; demo_delta; demo_bbo]) = Ok ("VALID", [])
  /\ report_codes (validate_events demo_policy [demo_delta; demo_book; demo_book])
     = Ok ("QUARANTINED", ["DELTA_WITHOUT_SNAPSHOT"; "OUT_OF_ORDER"; "BOOK_SEQUENCE_GAP"; "DUPLICATE"; "BOOK_SEQUENCE_GAP"])
  /\ report_codes (validate_events demo_policy [demo_event "-5" "01" "BBO" [("bid_price_atoms", VStr "97"); ("ask_price_atoms", VStr "90")]])
     = Ok ("QUARANTINED", ["INVALID_SEQUENCE"; "PRICE_INCREMENT"; "CROSSED_BBO"]).
Proof. vm_compute. split_and!; reflexivity. Qed.
