(* ===== verification/Dates.v ===== *)
(** * The civil calendar (what the ingest worker uses of Python's [datetime])

    A [date] is its proleptic Gregorian ordinal, as [date.toordinal] gives it.  [ord2ymd] and [ymd2ord]
    are inverse, [date_isoformat] and [date_fromisoformat] round-trip. *)

From S2P Require Import Prelude Sort PyStr PyText.
From Stdlib Require Import Ascii.
From Stdlib Require String.

Definition is_leap (y : Z) : bool := (y mod 4 =? 0) && (negb (y mod 100 =? 0) || (y mod 400 =? 0)).
Definition days_before_year (y : Z) : Z := (y - 1) * 365 + (y - 1) / 4 - (y - 1) / 100 + (y - 1) / 400.
(** The days before a month, the thirteenth being the whole year. *)
Definition days_before_month (leap : bool) (m : Z) : Z :=
  nth (Z.to_nat (m - 1)) [0; 31; 59; 90; 120; 151; 181; 212; 243; 273; 304; 334; 365] 0
  + (if leap && (2 <? m) then 1 else 0).
Definition days_in_month (leap : bool) (m : Z) : Z := days_before_month leap (m + 1) - days_before_month leap m.

Definition ymd2ord (y m d : Z) : Z := days_before_year y + days_before_month (is_leap y) m + d.

(** The month that holds a day of the year, counted from 0. *)
Fixpoint month_at (fuel : nat) (leap : bool) (n m : Z) : Z :=
  match fuel with
  | O => m
  | S k => if n <? days_before_month leap (m + 1) then m else month_at k leap n (m + 1)
  end.

Definition ord2ymd (ordinal : Z) : Z * Z * Z :=
  let n := ordinal - 1 in
  let n400 := n / 146097 in let r400 := n mod 146097 in
  let n100 := r400 / 36524 in let r100 := r400 mod 36524 in
  let n4 := r100 / 1461 in let r4 := r100 mod 1461 in
  let n1 := r4 / 365 in let r1 := r4 mod 365 in
  let year := n400 * 400 + n100 * 100 + n4 * 4 + n1 + 1 in
  if (n1 =? 4) || (n100 =? 4) then (year - 1, 12, 31)
  else
    let leap := is_leap year in
    let month := month_at 11 leap r1 1 in
    (year, month, r1 - days_before_month leap month + 1).

Definition valid_ymd (y m d : Z) : bool :=
  (1 <=? m) && (m <=? 12) && (1 <=? d) && (d <=? days_in_month (is_leap y) m).

(** ** Dates *)

Definition date := Z.
Definition MIN_DATE : date := 1.
Definition MAX_DATE : date := 3652059.
Definition in_date_range (n : Z) : bool := (MIN_DATE <=? n) && (n <=? MAX_DATE).

Definition date_year (d : date) : Z := fst (fst (ord2ymd d)).
Definition date_month (d : date) : Z := snd (fst (ord2ymd d)).
Definition date_day (d : date) : Z := snd (ord2ymd d).
Definition date_weekday (d : date) : Z := (d + 6) mod 7.
Definition UNIX_EPOCH : date := 719163.

(** [date(y, m, d)]. *)
Definition date_new (y m d : Z) : result date :=
  if (1 <=? y) && (y <=? 9999) && valid_ymd y m d then Ok (ymd2ord y m d) else Raise ValueError.

(** [day + timedelta(days=n)]. *)
Definition date_add (day : date) (n : Z) : result date :=
  if 999999999 <? Z.abs n then Raise OverflowError
  else if in_date_range (day + n) then Ok (day + n) else Raise OverflowError.

Definition date_isoformat (d : date) : string :=
  pad 4 (date_year d) +:+ "-" +:+ pad 2 (date_month d) +:+ "-" +:+ pad 2 (date_day d).

(** The separator, when the date uses one. *)
Definition eat_dash (uses : bool) (s : string) : option string :=
  if uses then (if starts_with "-" s then Some (tail s) else None) else Some s.

Definition iso_week1_monday (y : Z) : Z :=
  let first := ymd2ord y 1 1 in
  let weekday := (first + 6) mod 7 in
  if 3 <? weekday then first - weekday + 7 else first - weekday.

Definition iso_week_date (y week day : Z) : option Z :=
  let first_weekday := (ymd2ord y 1 1 + 6) mod 7 in
  let long := (first_weekday =? 3) || ((first_weekday =? 2) && is_leap y) in
  if (1 <=? y) && (y <=? 9999) && (1 <=? week) && ((week <? 53) || ((week =? 53) && long)) && (1 <=? day) && (day <=? 7)
  then Some (iso_week1_monday y + (week - 1) * 7 + day - 1) else None.

(** [date.fromisoformat]: a calendar date or an ISO week date, with or without separators. *)
Definition date_fromisoformat (s : string) : result date :=
  if negb (existsb (Z.eqb (py_len s)) [7; 8; 10]) then Raise ValueError
  else of_option ValueError
    (match parse_digits 4 0 s with
     | None => None
     | Some (year, s1) =>
         let dash := starts_with "-" s1 in
         let s2 := if dash then tail s1 else s1 in
         if starts_with "W" s2 then
           match parse_digits 2 0 (tail s2) with
           | None => None
           | Some (week, s3) =>
               match (if is_empty s3 then Some 1
                      else match eat_dash dash s3 with
                           | None => None
                           | Some s4 => option_map fst (parse_digits 1 0 s4)
                           end) with
               | None => None
               | Some day =>
                   match iso_week_date year week day with
                   | Some n => if in_date_range n then Some n else None
                   | None => None
                   end
               end
           end
         else
           match parse_digits 2 0 s2 with
           | None => None
           | Some (month, s3) =>
               match eat_dash dash s3 with
               | None => None
               | Some s4 =>
                   match parse_digits 2 0 s4 with
                   | None => None
                   | Some (day, _) => match date_new year month day with Ok n => Some n | Raise _ => None end
                   end
               end
           end
     end).

Example date_examples :
  date_isoformat UNIX_EPOCH = "1970-01-01" /\ date_fromisoformat "2024-02-29" = Ok 738945
  /\ date_fromisoformat "2023-02-29" = Raise ValueError /\ date_isoformat 738945 = "2024-02-29"
  /\ date_fromisoformat "2020-W53-7" = date_fromisoformat "2021-01-03" /\ date_isoformat MAX_DATE = "9999-12-31"
  /\ date_isoformat MIN_DATE = "0001-01-01" /\ date_weekday UNIX_EPOCH = 3.
Proof. vm_compute. split_and!; reflexivity. Qed.

(** ** Ordinals and civil dates *)

Lemma leap_year_days y : days_before_year (y + 1) = days_before_year y + (if is_leap y then 366 else 365).
Proof.
  unfold days_before_year, is_leap. replace (y + 1 - 1) with y by lia.
  pose proof (Z.div_mod (y - 1) 4). pose proof (Z.div_mod (y - 1) 100). pose proof (Z.div_mod (y - 1) 400).
  destruct (Z.eqb_spec (y mod 4) 0), (Z.eqb_spec (y mod 100) 0), (Z.eqb_spec (y mod 400) 0); cbn [andb orb negb];
    Z.div_mod_to_equations; lia.
Qed.

Lemma month_cases (P : Z -> Prop) :
  P 1 -> P 2 -> P 3 -> P 4 -> P 5 -> P 6 -> P 7 -> P 8 -> P 9 -> P 10 -> P 11 -> P 12 -> forall m, 1 <= m <= 12 -> P m.
Proof.
  intros. assert (m = 1 \/ m = 2 \/ m = 3 \/ m = 4 \/ m = 5 \/ m = 6 \/ m = 7 \/ m = 8 \/ m = 9 \/ m = 10 \/ m = 11 \/ m = 12) as Hm by lia.
  destruct_or? Hm; by subst.
Qed.

Lemma month_at_spec (leap : bool) n :
  0 <= n < (if leap then 366 else 365) ->
  let m := month_at 11 leap n 1 in 1 <= m <= 12 /\ days_before_month leap m <= n < days_before_month leap (m + 1).
Proof.
  intros Hn. cbn [month_at]. destruct leap;
    repeat match goal with
    | |- context [n <? ?x] => let v := eval vm_compute in x in change x with v; destruct (Z.ltb_spec n v)
    end;
    cbn zeta;
    repeat match goal with |- context [days_before_month ?l ?m] => let v := eval vm_compute in (days_before_month l m) in change (days_before_month l m) with v end;
    lia.
Qed.

(** The quotients of a year number split as in [ord2ymd]. *)
Lemma year_quotients a b c d :
  0 <= b <= 3 -> 0 <= c <= 24 -> 0 <= d <= 3 ->
  let y := a * 400 + b * 100 + c * 4 + d in
  days_before_year (y + 1) = 146097 * a + 36524 * b + 1461 * c + 365 * d
  /\ is_leap (y + 1) = (d =? 3) && (negb (c =? 24) || (b =? 3)).
Proof.
  intros Hb Hc Hd y. assert (y / 4 = 100 * a + 25 * b + c) as E4 by (symmetry; apply (Z.div_unique_pos _ _ _ d); lia).
  assert (y / 100 = 4 * a + b) as E100 by (symmetry; apply (Z.div_unique_pos _ _ _ (4 * c + d)); lia).
  assert (y / 400 = a) as E400 by (symmetry; apply (Z.div_unique_pos _ _ _ (100 * b + 4 * c + d)); lia).
  split.
  - unfold days_before_year. replace (y + 1 - 1) with y by lia. rewrite E4, E100, E400. lia.
  - unfold is_leap.
    assert ((y + 1) mod 4 = (d + 1) mod 4) as -> by (Z.div_mod_to_equations; lia).
    assert ((y + 1) mod 100 = (4 * c + d + 1) mod 100) as -> by (Z.div_mod_to_equations; lia).
    assert ((y + 1) mod 400 = (100 * b + 4 * c + d + 1) mod 400) as -> by (Z.div_mod_to_equations; lia).
    clear -Hb Hc Hd. destruct (Z.eqb_spec d 3) as [->|].
    + replace ((3 + 1) mod 4 =? 0) with true by reflexivity. cbn [andb]. destruct (Z.eqb_spec c 24) as [->|].
      * replace ((4 * 24 + 3 + 1) mod 100 =? 0) with true by reflexivity. cbn [negb orb].
        assert (b = 0 \/ b = 1 \/ b = 2 \/ b = 3) as Hcases by lia. destruct_or! Hcases; by subst.
      * cbn [negb orb]. rewrite (Z.mod_small (4 * c + 3 + 1) 100) by lia.
        by rewrite (proj2 (Z.eqb_neq (4 * c + 3 + 1) 0)) by lia.
    + rewrite (Z.mod_small (d + 1) 4) by lia. by rewrite (proj2 (Z.eqb_neq (d + 1) 0)) by lia.
Qed.

Lemma ord2ymd_spec n :
  let '(y, m, d) := ord2ymd n in valid_ymd y m d = true /\ ymd2ord y m d = n.
Proof.
  unfold ord2ymd. set (a := (n - 1) / 146097). set (ra := (n - 1) mod 146097).
  set (b := ra / 36524). set (rb := ra mod 36524). set (c := rb / 1461). set (rc := rb mod 1461). set (d := rc / 365). set (rd := rc mod 365).
  assert (n - 1 = 146097 * a + ra /\ 0 <= ra < 146097) as [En Ha] by (unfold a, ra; split; [apply Z.div_mod|apply Z.mod_pos_bound]; lia).
  assert (ra = 36524 * b + rb /\ 0 <= rb < 36524) as [Ea Hb] by (unfold b, rb; split; [apply Z.div_mod|apply Z.mod_pos_bound]; lia).
  assert (rb = 1461 * c + rc /\ 0 <= rc < 1461) as [Eb Hc] by (unfold c, rc; split; [apply Z.div_mod|apply Z.mod_pos_bound]; lia).
  assert (rc = 365 * d + rd /\ 0 <= rd < 365) as [Ec Hd] by (unfold d, rd; split; [apply Z.div_mod|apply Z.mod_pos_bound]; lia).
  clearbody a ra b rb c rc d rd. assert (0 <= b <= 4 /\ 0 <= c <= 24 /\ 0 <= d <= 4) as (Bb & Bc & Bd) by lia.
  destruct (Z.eqb_spec d 4) as [->|Hd4]; cbn [orb].
  - (* the last day of a leap year *)
    destruct (year_quotients a b c 3) as [Hy Hl]; [lia..|]. cbn zeta in Hy, Hl.
    replace (a * 400 + b * 100 + c * 4 + 4 + 1 - 1) with (a * 400 + b * 100 + c * 4 + 3 + 1) by lia.
    assert (is_leap (a * 400 + b * 100 + c * 4 + 3 + 1) = true) as Hleap.
    { rewrite Hl. cbn [Z.eqb Pos.eqb andb]. destruct (Z.eqb_spec c 24); [lia|done]. }
    unfold valid_ymd, ymd2ord. rewrite Hleap. split; [reflexivity|].
    change (days_before_month true 12) with 335. rewrite Hy. lia.
  - destruct (Z.eqb_spec b 4) as [->|Hb4].
    + assert (c = 0 /\ d = 0 /\ rd = 0 /\ rb = 0) as (-> & -> & -> & ->) by lia.
      destruct (year_quotients a 3 24 3) as [Hy Hl]; [lia..|]. cbn zeta in Hy, Hl.
      replace (a * 400 + 4 * 100 + 0 * 4 + 0 + 1 - 1) with (a * 400 + 3 * 100 + 24 * 4 + 3 + 1) by lia.
      unfold valid_ymd, ymd2ord. rewrite Hl. split; [reflexivity|].
      change (days_before_month _ 12) with 335. rewrite Hy. lia.
    + destruct (year_quotients a b c d) as [Hy Hl]; [lia..|]. cbn zeta in Hy, Hl.
      set (y := a * 400 + b * 100 + c * 4 + d + 1) in *.
      pose proof (month_at_spec (is_leap y) rd) as Hm. cbn zeta in Hm. specialize (Hm ltac:(destruct (is_leap y); lia)).
      set (m := month_at 11 (is_leap y) rd 1) in *. destruct Hm as [Hm1 Hm2]. split.
      * unfold valid_ymd, days_in_month. repeat (apply andb_true_intro; split); apply Z.leb_le; lia.
      * unfold ymd2ord. rewrite Hy. lia.
Qed.

Lemma step_mono (f : Z -> Z) lo hi :
  (forall x, lo <= x < hi -> f x <= f (x + 1)) -> forall x y, lo <= x <= y -> y <= hi -> f x <= f y.
Proof.
  intros H x y Hxy Hy. replace y with (x + Z.of_nat (Z.to_nat (y - x))) in * by lia.
  induction (Z.to_nat (y - x)) as [|k IH]; [rewrite Z.add_0_r; lia|].
  etransitivity; [apply IH; lia|]. rewrite Nat2Z.inj_succ. replace (x + Z.succ (Z.of_nat k)) with (x + Z.of_nat k + 1) by lia.
  apply H. lia.
Qed.

Lemma days_before_year_mono y y' : y <= y' -> days_before_year y <= days_before_year y'.
Proof.
  intros H. apply (step_mono days_before_year y y'); [|lia..]. intros x _. rewrite leap_year_days. destruct (is_leap x); lia.
Qed.

Lemma days_before_month_mono leap m m' : 1 <= m <= m' -> m' <= 13 -> days_before_month leap m <= days_before_month leap m'.
Proof.
  intros H1 H2. apply (step_mono (days_before_month leap) 1 13); [|lia..]. intros x Hx. revert x Hx.
  assert (forall x, 1 <= x <= 12 -> days_before_month leap x <= days_before_month leap (x + 1)) as H; [|intros; apply H; lia].
  apply month_cases; destruct leap; vm_compute; discriminate.
Qed.

Lemma valid_ymd_iff y m d :
  valid_ymd y m d = true <->
  1 <= m <= 12 /\ days_before_month (is_leap y) m < days_before_month (is_leap y) m + d <= days_before_month (is_leap y) (m + 1).
Proof.
  unfold valid_ymd, days_in_month. rewrite !andb_true_iff, !Z.leb_le. lia.
Qed.

Lemma year_length y : days_before_month (is_leap y) 13 = if is_leap y then 366 else 365.
Proof. by destruct (is_leap y). Qed.

Lemma day_of_year_bounds y m d :
  valid_ymd y m d = true -> days_before_year y < ymd2ord y m d <= days_before_year (y + 1).
Proof.
  rewrite valid_ymd_iff. intros [Hm Hd]. rewrite leap_year_days, <- year_length. unfold ymd2ord.
  pose proof (days_before_month_mono (is_leap y) (m + 1) 13). pose proof (days_before_month_mono (is_leap y) 1 m).
  change (days_before_month (is_leap y) 1) with (0 + (if is_leap y && false then 1 else 0)) in *. rewrite andb_false_r in *. lia.
Qed.

Lemma ymd2ord_inj y m d y' m' d' :
  valid_ymd y m d = true -> valid_ymd y' m' d' = true -> ymd2ord y m d = ymd2ord y' m' d' -> (y, m, d) = (y', m', d').
Proof.
  intros H H' E. pose proof (day_of_year_bounds _ _ _ H) as B. pose proof (day_of_year_bounds _ _ _ H') as B'.
  assert (y = y') as <-.
  { destruct (Z.lt_trichotomy y y') as [Hl|[|Hl]]; [|done|].
    - pose proof (days_before_year_mono (y + 1) y'). lia.
    - pose proof (days_before_year_mono (y' + 1) y). lia. }
  apply valid_ymd_iff in H as [Hm Hd], H' as [Hm' Hd']. unfold ymd2ord in E. clear B B'.
  assert (m = m') as <-.
  { destruct (Z.lt_trichotomy m m') as [Hl|[|Hl]]; [|done|].
    - pose proof (days_before_month_mono (is_leap y) (m + 1) m'). lia.
    - pose proof (days_before_month_mono (is_leap y) (m' + 1) m). lia. }
  f_equal. lia.
Qed.

Lemma ord2ymd_ymd2ord y m d : valid_ymd y m d = true -> ord2ymd (ymd2ord y m d) = (y, m, d).
Proof.
  intros H. pose proof (ord2ymd_spec (ymd2ord y m d)) as Hs. destruct (ord2ymd (ymd2ord y m d)) as [[y' m'] d'].
  destruct Hs as [Hv E]. by apply ymd2ord_inj.
Qed.

(** The years of the representable dates. *)
Lemma date_year_range d : in_date_range d = true -> 1 <= date_year d <= 9999.
Proof.
  intros H. unfold in_date_range, MIN_DATE, MAX_DATE in H. bools. pose proof (ord2ymd_spec d) as Hs. unfold date_year.
  destruct (ord2ymd d) as [[y m] e]. destruct Hs as [Hv E]. cbn [fst]. apply day_of_year_bounds in Hv. rewrite E in Hv.
  destruct (Z.le_gt_cases y 0) as [Hl|Hl].
  - pose proof (days_before_year_mono (y + 1) 1 ltac:(lia)). change (days_before_year 1) with 0 in *. lia.
  - destruct (Z.le_gt_cases 10000 y) as [Hg|Hg]; [|lia].
    pose proof (days_before_year_mono 10000 y Hg). change (days_before_year 10000) with 3652059 in *. lia.
Qed.

Lemma date_parts d : valid_ymd (date_year d) (date_month d) (date_day d) = true /\ ymd2ord (date_year d) (date_month d) (date_day d) = d.
Proof.
  pose proof (ord2ymd_spec d) as Hs. unfold date_year, date_month, date_day. by destruct (ord2ymd d) as [[y m] e].
Qed.

Lemma date_month_day_range d : 1 <= date_month d <= 12 /\ 1 <= date_day d <= 31.
Proof.
  destruct (date_parts d) as [Hv _]. unfold valid_ymd in Hv. bools.
  assert (days_in_month (is_leap (date_year d)) (date_month d) <= 31) as Hm; [|lia].
  assert (1 <= date_month d <= 12) as Hr by lia. revert Hr. generalize (date_month d).
  destruct (is_leap (date_year d)); apply month_cases; vm_compute; discriminate.
Qed.

Lemma date_add_Ok d n x : date_add d n = Ok x <-> Z.abs n <= 999999999 /\ in_date_range x = true /\ x = d + n.
Proof.
  unfold date_add. destruct (Z.ltb_spec 999999999 (Z.abs n)); [split; [done|lia]|].
  destruct (in_date_range (d + n)) eqn:E; (split; [intros [= <-]; done || (split_and!; done)|intros (_ & Hx & ->); done || congruence]).
Qed.

(** ** Texts of dates *)

Lemma isoformat_length d : in_date_range d = true -> py_len (date_isoformat d) = 10.
Proof.
  intros H. pose proof (date_year_range d H) as Hy. destruct (date_parts d) as [Hv _]. unfold valid_ymd in Hv. bools.
  destruct (date_month_day_range d) as [Hm Hdd].
  unfold py_len, date_isoformat. rewrite !append_length.
  destruct (pad_spec 4 (date_year d)) as [-> _]; [lia|lia|]. destruct (pad_spec 2 (date_month d)) as [-> _]; [lia|lia|].
  destruct (pad_spec 2 (date_day d)) as [-> _]; [lia|lia|]. reflexivity.
Qed.

(** A date is read back from its ISO text. *)
Lemma fromisoformat_isoformat d : in_date_range d = true -> date_fromisoformat (date_isoformat d) = Ok d.
Proof.
  intros H. pose proof (isoformat_length d H) as Hlen. pose proof (date_year_range d H) as Hy. destruct (date_parts d) as [Hv Ho].
  pose proof Hv as Hv'. unfold valid_ymd in Hv'. bools.
  destruct (date_month_day_range d) as [Hm Hdd].
  unfold date_fromisoformat. rewrite Hlen. cbn [existsb Z.eqb Pos.eqb orb negb]. unfold date_isoformat.
  rewrite parse_pad by lia. cbn [String.append starts_with tail]. change (Ascii.eqb "-" "-") with true. cbn iota.
  destruct (pad_spec 2 (date_month d)) as (L2 & D2 & _); [lia|lia|].
  rewrite starts_with_digits; [|done|by destruct (pad 2 (date_month d))|reflexivity].
  rewrite parse_pad by lia. unfold eat_dash. cbn [starts_with tail]. change (Ascii.eqb "-" "-") with true. cbn iota.
  rewrite <- (append_nil_r (pad 2 (date_day d))), parse_pad by lia.
  unfold date_new. rewrite Hv, Ho. rewrite (proj2 (Z.leb_le 1 _)), (proj2 (Z.leb_le _ 9999)) by lia. reflexivity.
Qed.

Lemma isoformat_inj a b : in_date_range a = true -> in_date_range b = true -> date_isoformat a = date_isoformat b -> a = b.
Proof.
  intros Ha Hb E. assert (Ok a = Ok b) as H; [|congruence].
  by rewrite <- (fromisoformat_isoformat a Ha), <- (fromisoformat_isoformat b Hb), E.
Qed.

(** The characters of a date's text. *)
Lemma iso_text day :
  in_date_range day = true ->
  String.length (date_isoformat day) = 10%nat /\ all_chars (fun c => negb (Ascii.eqb c "/")) (date_isoformat day) = true.
Proof.
  intros H. split; [pose proof (isoformat_length day H) as L; unfold py_len in L; lia|].
  pose proof (date_year_range day H) as Hy. destruct (date_parts day) as [Hv _]. pose proof (date_month_day_range day) as (Hm & Hd).
  assert (forall t, all_chars is_ascii_digit t = true -> all_chars (fun c => negb (Ascii.eqb c "/")) t = true) as Hdig.
  { intros t. apply all_chars_impl. intros c Hc. apply negb_true_iff, Ascii.eqb_neq. intros ->. discriminate Hc. }
  unfold date_isoformat. rewrite !all_chars_app.
  rewrite (Hdig (pad 4 (date_year day))) by (apply pad_spec; lia). rewrite (Hdig (pad 2 (date_month day))) by (apply pad_spec; lia).
  rewrite (Hdig (pad 2 (date_day day))) by (apply pad_spec; lia). reflexivity.
Qed.

(** ** Days of nanoseconds *)

Definition DAY_NS : Z := 86400000000000.
(** The UTC day of an instant. *)
Definition day_of (t : Z) : date := t / DAY_NS + UNIX_EPOCH.

Lemma days_of_range a b d :
  0 <= a < b -> (a / DAY_NS + UNIX_EPOCH <= d < (b - 1) / DAY_NS + UNIX_EPOCH + 1 <-> exists t, a <= t < b /\ day_of t = d).
Proof.
  intros Hab. unfold day_of, DAY_NS. split.
  - intros Hd. exists (Z.max a ((d - UNIX_EPOCH) * 86400000000000)). Z.div_mod_to_equations. lia.
  - intros (t & Ht & <-). Z.div_mod_to_equations. lia.
Qed.
