(* ===== verification/Decimal.v ===== *)
(** * Decimal numbers (what the adapters use of Python's [decimal])

    A finite decimal is a sign, a coefficient and an exponent.  Operations round their result to the
    28 digits of the default context, half to even, and signal overflow; the constructor is exact. *)

From S2P Require Import Prelude PyStr PyText.
From Stdlib Require Import Ascii.
From Stdlib Require String.

Inductive decimal :=
| DFinite (negative : bool) (coefficient exponent : Z)
| DSpecial.                                                  (* infinities and NaNs *)

Definition DEC_PREC : Z := 28.
Definition DEC_EMAX : Z := 999999.
Definition DEC_ETINY : Z := -1000026.
Definition DEC_ETOP : Z := 999972.

(** ** The constructor *)

Fixpoint span_digits (s : string) : string * string :=
  match s with
  | String c s' => if is_ascii_digit c then let '(a, b) := span_digits s' in (String c a, b) else (EmptyString, s)
  | EmptyString => (EmptyString, EmptyString)
  end.

Definition parse_exponent (s : string) : option Z :=
  match s with
  | EmptyString => Some 0
  | String c s' =>
      if Ascii.eqb c "e" then
        let negative := starts_with "-" s' in
        let body := if negative || starts_with "+" s' then tail s' else s' in
        if negb (is_empty body) && all_chars is_ascii_digit body
        then Some (if negative then - dec_value 0 body else dec_value 0 body) else None
      else None
  end.

(** Numbers beyond these exponents cannot be represented exactly. *)
Definition dec_representable (c e : Z) : bool :=
  (if c =? 0 then e <=? 999999999999999999 else e + Z.of_nat (String.length (str_N c)) - 1 <=? 999999999999999999)
  && (-1999999999999999997 <=? e).

Definition is_special (s : string) : bool :=
  String.eqb s "inf" || String.eqb s "infinity"
  || (let t := if starts_with "s" s then tail s else s in
      py_startswith "nan" t && all_chars is_ascii_digit (drop_chars 3 t)).

(** [Decimal(text)]; [None] is [InvalidOperation]. *)
Definition decimal_of_text (text : string) : option decimal :=
  let t := py_lower (remove_char "_" (py_strip text)) in
  let negative := starts_with "-" t in
  let body := if negative || starts_with "+" t then tail t else t in
  if is_special body then Some DSpecial
  else
    let '(whole, rest) := span_digits body in
    let '(fraction, rest') := if starts_with "." rest then span_digits (tail rest) else (EmptyString, rest) in
    if is_empty (whole +:+ fraction) then None
    else match parse_exponent rest' with
         | None => None
         | Some e =>
             let c := dec_value 0 (whole +:+ fraction) in
             let e' := e - Z.of_nat (String.length fraction) in
             if dec_representable c e' then Some (DFinite negative c e') else None
         end.

(** ** Rounding *)

Definition half_even (c k : Z) : Z :=
  let q := c / 10 ^ k in
  let r := c mod 10 ^ k in
  if 2 * r <? 10 ^ k then q else if 10 ^ k <? 2 * r then q + 1 else if Z.even q then q else q + 1.

(** The result of an operation, in the default context. *)
Definition dec_fix (d : decimal) : result decimal :=
  match d with
  | DSpecial => Ok DSpecial
  | DFinite s c e =>
      if c =? 0 then Ok (DFinite s 0 (Z.min (Z.max e DEC_ETINY) DEC_EMAX))
      else
        let exp_min := Z.of_nat (String.length (str_N c)) + e - DEC_PREC in
        if DEC_ETOP <? exp_min then Raise DecimalOverflow
        else
          let exp_min := Z.max exp_min DEC_ETINY in
          if e <? exp_min then
            let c' := half_even c (exp_min - e) in
            if c' =? 10 ^ DEC_PREC then
              if DEC_ETOP <? exp_min + 1 then Raise DecimalOverflow else Ok (DFinite s (c' / 10) (exp_min + 1))
            else Ok (DFinite s c' exp_min)
          else Ok d
  end.

(** [d.scaleb(n)], [d * (10 ** n)] and [d.to_integral_value()]. *)
Definition dec_scaleb (n : Z) (d : decimal) : result decimal :=
  match d with DFinite s c e => dec_fix (DFinite s c (e + n)) | DSpecial => Ok DSpecial end.
Definition dec_times_pow10 (n : Z) (d : decimal) : result decimal :=
  match d with DFinite s c e => dec_fix (DFinite s (c * 10 ^ n) e) | DSpecial => Ok DSpecial end.
Definition dec_to_integral (d : decimal) : decimal :=
  match d with
  | DFinite s c e => if 0 <=? e then d else DFinite s (half_even c (- e)) 0
  | DSpecial => DSpecial
  end.

Definition signed (s : bool) (v : Z) : Z := if s then - v else v.

(** [int(d)]: towards zero. *)
Definition dec_int (d : decimal) : Z :=
  match d with
  | DFinite s c e => signed s (if 0 <=? e then c * 10 ^ e else c / 10 ^ (- e))
  | DSpecial => 0
  end.

(** The value as a fraction: numerator and denominator. *)
Definition dec_num (d : decimal) : Z := match d with DFinite s c e => signed s (c * 10 ^ Z.max e 0) | DSpecial => 0 end.
Definition dec_den (d : decimal) : Z := match d with DFinite _ _ e => 10 ^ Z.max (- e) 0 | DSpecial => 1 end.

(** [a == b]. *)
Definition dec_eqb (a b : decimal) : bool := dec_num a * dec_den b =? dec_num b * dec_den a.

Example decimal_examples :
  decimal_of_text " -1_0.250e2 " = Some (DFinite true 10250 (-1)) /\ decimal_of_text ".5" = Some (DFinite false 5 (-1))
  /\ decimal_of_text "1." = Some (DFinite false 1 0) /\ decimal_of_text "." = None /\ decimal_of_text "1e" = None
  /\ decimal_of_text "-Infinity" = Some DSpecial /\ decimal_of_text "sNaN12" = Some DSpecial /\ decimal_of_text "0x1" = None
  /\ dec_fix (DFinite false (10 ^ 30 + 5 * 10 ^ 2) (-30)) = Ok (DFinite false (10 ^ 27) (-27))
  /\ dec_fix (DFinite false 1 1000000) = Raise DecimalOverflow
  /\ dec_fix (DFinite false (10 ^ 29 - 1) 0) = Ok (DFinite false (10 ^ 27) 2).
Proof. vm_compute. split_and!; reflexivity. Qed.

(** ** When nothing is rounded *)

Lemma str_N_length_iff c w : 0 <= c -> (1 <= w)%nat -> c < 10 ^ Z.of_nat w -> Z.of_nat (String.length (str_N c)) <= Z.of_nat w.
Proof. intros H1 H2 H3. pose proof (str_N_length c w (conj H1 H3) H2). lia. Qed.

(** Equal values. *)
Definition dec_same (a b : decimal) : Prop := dec_num a * dec_den b = dec_num b * dec_den a.

Lemma half_even_exact c k : 0 <= k -> half_even (c * 10 ^ k) k = c.
Proof.
  intros Hk. assert (0 < 10 ^ k) by (apply Z.pow_pos_nonneg; lia). unfold half_even.
  rewrite Z.div_mul, Z.mod_mul by lia. rewrite (proj2 (Z.ltb_lt _ _)) by lia. done.
Qed.

Lemma dec_value_lt s : forall acc, 0 <= acc -> all_chars is_ascii_digit s = true ->
  dec_value acc s < (acc + 1) * 10 ^ Z.of_nat (String.length s).
Proof.
  induction s as [|c s IH]; intros acc Ha H; cbn [dec_value String.length]; [cbn; lia|].
  cbn [all_chars] in H. apply andb_true_iff in H as [Hc Hs]. pose proof (digit_val_bound c Hc) as Hd.
  specialize (IH (10 * acc + digit_val c) ltac:(lia) Hs). rewrite Nat2Z.inj_succ, Z.pow_succ_r by lia.
  assert (0 < 10 ^ Z.of_nat (String.length s)) by (apply Z.pow_pos_nonneg; lia). nia.
Qed.

Lemma str_N_upper c : 0 <= c -> c < 10 ^ Z.of_nat (String.length (str_N c)).
Proof.
  intros Hc. pose proof (dec_value_lt (str_N c) 0 ltac:(lia) (str_N_all c)) as H. rewrite dec_value_str_N in H by done. lia.
Qed.

Lemma pow10_pos k : 0 <= k -> 0 < 10 ^ k.
Proof. intros. apply Z.pow_pos_nonneg; lia. Qed.

Lemma dec_num_scale s c e k :
  0 <= k -> dec_same (DFinite s (c * 10 ^ k) e) (DFinite s c (e + k)).
Proof.
  intros Hk. unfold dec_same. cbn [dec_num dec_den].
  assert (10 ^ k * 10 ^ Z.max e 0 * 10 ^ Z.max (- (e + k)) 0 = 10 ^ Z.max (e + k) 0 * 10 ^ Z.max (- e) 0) as E.
  { rewrite <- !Z.pow_add_r by lia. f_equal. lia. }
  revert E. generalize (10 ^ k), (10 ^ Z.max e 0), (10 ^ Z.max (- (e + k)) 0), (10 ^ Z.max (e + k) 0), (10 ^ Z.max (- e) 0).
  intros p q u v w E. assert (c * (p * q * u) = c * (v * w)) by by rewrite E. destruct s; cbn [signed]; lia.
Qed.

(** A number with at most 28 significant digits keeps its value. *)
Lemma dec_fix_exact s c k e :
  0 <= c < 10 ^ DEC_PREC -> 0 <= k -> DEC_ETINY <= e -> e + k <= DEC_ETOP ->
  exists c' e', dec_fix (DFinite s (c * 10 ^ k) e) = Ok (DFinite s c' e') /\ 0 <= c'
    /\ dec_same (DFinite s c' e') (DFinite s (c * 10 ^ k) e).
Proof.
  intros Hc Hk He Het. pose proof (pow10_pos k Hk) as Hp. cbn [dec_fix]. unfold DEC_PREC, DEC_ETINY, DEC_ETOP in *.
  destruct (Z.eqb_spec (c * 10 ^ k) 0) as [E|Hne].
  { eexists _, _. split; [reflexivity|]. split; [lia|]. rewrite E. unfold dec_same. cbn [dec_num dec_den]. destruct s; cbn [signed]; by rewrite ?Z.mul_0_l, ?Z.opp_0, ?Z.mul_0_l. }
  set (C := c * 10 ^ k) in *. set (L := Z.of_nat (String.length (str_N C))).
  assert (L <= 28 + k) as HL.
  { assert (Z.of_nat (Z.to_nat (28 + k)) = 28 + k) as Ew by lia. unfold L. rewrite <- Ew. apply str_N_length_iff; [nia|lia|].
    rewrite Ew, Z.pow_add_r by lia. unfold C. apply Z.mul_lt_mono_pos_r; lia. }
  assert (C < 10 ^ L) as HC by (apply str_N_upper; nia).
  destruct (Z.ltb_spec 999972 (L + e - 28)); [lia|]. set (M := Z.max (L + e - 28) (-1000026)).
  destruct (Z.ltb_spec e M) as [Hlt|Hge].
  2: { exists C, e. split; [done|]. split; [nia|]. done. }
  assert (M - e <= k) as HM by lia. assert (0 <= M - e) as HM0 by lia.
  assert (C = (c * 10 ^ (k - (M - e))) * 10 ^ (M - e)) as EC.
  { unfold C. rewrite <- Z.mul_assoc, <- Z.pow_add_r by lia. do 2 f_equal. lia. }
  rewrite EC, half_even_exact by lia. set (c1 := c * 10 ^ (k - (M - e))) in *.
  assert (0 <= c1) as Hc1 by (unfold c1; pose proof (pow10_pos (k - (M - e))); nia).
  assert (c1 < 10 ^ 28) as Hlt1.
  { assert (c1 * 10 ^ (M - e) < 10 ^ 28 * 10 ^ (M - e)).
    - rewrite <- EC, <- Z.pow_add_r by lia. eapply Z.lt_le_trans; [exact HC|]. apply Z.pow_le_mono_r; lia.
    - pose proof (pow10_pos (M - e) HM0). nia. }
  destruct (Z.eqb_spec c1 (10 ^ 28)); [lia|]. exists c1, M. split; [done|]. split; [done|].
  pose proof (dec_num_scale s c1 e (M - e) HM0) as Hs. replace (e + (M - e)) with M in Hs by lia.
  unfold dec_same in *. lia.
Qed.

(** ** Integers *)

(** The test both adapters make: the value, if it is an integer. *)
Definition dec_exact_int (d : decimal) : option Z :=
  if dec_eqb d (dec_to_integral d) then Some (dec_int (dec_to_integral d)) else None.

Lemma dec_den_pos d : 0 < dec_den d.
Proof. destruct d; cbn; [apply pow10_pos|]; lia. Qed.

Lemma half_even_nonneg c k : 0 <= c -> 0 <= k -> 0 <= half_even c k.
Proof.
  intros Hc Hk. pose proof (pow10_pos k Hk). unfold half_even. assert (0 <= c / 10 ^ k) by (apply Z.div_pos; lia).
  repeat case_match; lia.
Qed.

Lemma dec_int_zero_exp s h : dec_int (DFinite s h 0) = signed s h.
Proof. unfold dec_int. destruct (Z.leb_spec 0 0); [|lia]. f_equal. change (10 ^ 0) with 1. lia. Qed.

Lemma dec_exact_int_spec s c e a :
  0 <= c -> dec_exact_int (DFinite s c e) = Some a <-> dec_num (DFinite s c e) = a * dec_den (DFinite s c e).
Proof.
  intros Hc. unfold dec_exact_int, dec_to_integral. destruct (Z.leb_spec 0 e) as [He|He].
  - unfold dec_eqb. rewrite Z.eqb_refl. cbn [dec_int dec_num dec_den]. rewrite (proj2 (Z.leb_le 0 e) He).
    rewrite (Z.max_l e), (Z.max_r (- e)) by lia. change (10 ^ 0) with 1. rewrite Z.mul_1_r. split; [by intros [= ->]|by intros ->].
  - rewrite dec_int_zero_exp. unfold dec_eqb. cbn [dec_num dec_den]. rewrite (Z.max_r e), (Z.max_l (- e)) by lia.
    rewrite Z.max_id. change (10 ^ Z.max (- 0) 0) with 1. change (10 ^ 0) with 1. rewrite !Z.mul_1_r.
    pose proof (pow10_pos (- e) ltac:(lia)) as Hp. split.
    + intros H. destruct (Z.eqb_spec (signed s c) (signed s (half_even c (- e)) * 10 ^ (- e))) as [E|]; [|discriminate]. injection H as <-. exact E.
    + intros H. assert (exists m, c = m * 10 ^ (- e) /\ a = signed s m) as (m & -> & ->).
      { exists (signed s a). destruct s; cbn [signed] in *; split; lia. }
      rewrite half_even_exact by lia. destruct (Z.eqb_spec (signed s (m * 10 ^ (- e))) (signed s m * 10 ^ (- e))) as [|E]; [done|].
      exfalso. apply E. destruct s; cbn [signed]; lia.
Qed.

Lemma same_int d d' a :
  dec_same d d' -> dec_num d = a * dec_den d <-> dec_num d' = a * dec_den d'.
Proof.
  unfold dec_same. pose proof (dec_den_pos d). pose proof (dec_den_pos d'). split; intros E; nia.
Qed.

(** The value of [c * 10^e] moved by [n] decimal places is the integer [a]. *)
Definition is_scaled_int (negative : bool) (c e n a : Z) : Prop :=
  signed negative c * 10 ^ Z.max (e + n) 0 = a * 10 ^ Z.max (- (e + n)) 0.

Lemma signed_mul s c x : signed s (c * x) = signed s c * x.
Proof. destruct s; cbn [signed]; lia. Qed.

Lemma scaleb_exact s c e n :
  0 <= c < 10 ^ DEC_PREC -> DEC_ETINY <= e + n <= DEC_ETOP ->
  exists d, dec_scaleb n (DFinite s c e) = Ok d /\ forall a, dec_exact_int d = Some a <-> is_scaled_int s c e n a.
Proof.
  intros Hc He. destruct (dec_fix_exact s c 0 (e + n)) as (c' & e' & Hf & Hc' & Hs); [done|lia|lia|lia|].
  change (10 ^ 0) with 1 in *. rewrite Z.mul_1_r in *. exists (DFinite s c' e'). split; [exact Hf|]. intros a.
  rewrite dec_exact_int_spec by done. rewrite (same_int _ _ a Hs). cbn [dec_num dec_den]. unfold is_scaled_int. by rewrite signed_mul.
Qed.

Lemma times_pow10_exact s c e n :
  0 <= c < 10 ^ DEC_PREC -> 0 <= n -> DEC_ETINY <= e -> e + n <= DEC_ETOP ->
  exists d, dec_times_pow10 n (DFinite s c e) = Ok d /\ forall a, dec_exact_int d = Some a <-> is_scaled_int s c e n a.
Proof.
  intros Hc Hn He He'. destruct (dec_fix_exact s c n e) as (c' & e' & Hf & Hc' & Hs); [done..|].
  exists (DFinite s c' e'). split; [exact Hf|]. intros a.
  rewrite dec_exact_int_spec by done. rewrite (same_int _ _ a Hs), (same_int _ _ a (dec_num_scale s c e n Hn)).
  cbn [dec_num dec_den]. unfold is_scaled_int. by rewrite signed_mul.
Qed.

Lemma decimal_of_text_nonneg t s c e : decimal_of_text t = Some (DFinite s c e) -> 0 <= c.
Proof.
  unfold decimal_of_text. set (u := py_lower _). set (body := if starts_with "-" u || starts_with "+" u then tail u else u).
  destruct (is_special body); [discriminate|]. destruct (span_digits body) as [whole rest] eqn:Ew.
  destruct (if starts_with "." rest then span_digits (tail rest) else (EmptyString, rest)) as [fraction rest'] eqn:Ef.
  destruct (is_empty (whole +:+ fraction)); [discriminate|]. destruct (parse_exponent rest') as [x|]; [|discriminate].
  destruct (dec_representable _ _); [|discriminate]. intros [= _ <- _]. apply dec_value_nonneg; [done|]. rewrite all_chars_app.
  assert (forall (t a b : string), span_digits t = (a, b) -> all_chars is_ascii_digit a = true) as Hspan.
  { induction t0 as [|ch t0 IH]; intros a b; cbn; [by intros [= <- _]|]. destruct (is_ascii_digit ch) eqn:Hch; [|by intros [= <- _]].
    destruct (span_digits t0) as [a' b'] eqn:E. intros [= <- _]. cbn. by rewrite Hch, (IH _ _ eq_refl). }
  rewrite (Hspan _ _ _ Ew). destruct (starts_with "." rest); [by rewrite (Hspan _ _ _ Ef)|by injection Ef as <- _].
Qed.
