(* ===== verification/Calendar.v ===== *)
(** * Trading calendars ([workers/ingest/.../calendars])

    Intervals, instants and bucket bounds.  The time-zone database is not part of the repository: it is
    the interface [TzData].  A [datetime] is its wall clock in microseconds since the epoch, and its
    offset from UTC when it is aware. *)

From S2P Require Import Prelude Sort PyStr PyText Dates.
From Stdlib Require Import Ascii.
From Stdlib Require String.

Definition NANOSECONDS_PER_SECOND : Z := 1000000000.
Definition NANOSECONDS_PER_DAY : Z := 86400 * NANOSECONDS_PER_SECOND.
Definition US_PER_SECOND : Z := 1000000.
Definition US_PER_DAY : Z := 86400 * US_PER_SECOND.

Record Interval := mk_interval {
  iv_name : string;
  fixed_ns : option Z;
  calendar_unit : option string;
}.

Definition unit_seconds (unit : string) : option Z :=
  if String.eqb unit "s" then Some 1 else if String.eqb unit "m" then Some 60
  else if String.eqb unit "h" then Some 3600 else None.

Definition parse_interval (value : string) : result Interval :=
  if String.eqb value "1d" then Ok (mk_interval value None (Some "day"))
  else if String.eqb value "1w" then Ok (mk_interval value None (Some "week"))
  else if String.eqb value "1mo" then Ok (mk_interval value None (Some "month"))
  else
    let! _ := raise_if ((py_len value <? 2) || negb (py_isdigit (but_last_chars 1 value))) ValueError in
    let! count := py_int (but_last_chars 1 value) in
    let! _ := raise_if (count <=? 0) ValueError in
    let! multiplier := of_option ValueError (unit_seconds (last_chars 1 value)) in
    Ok (mk_interval value (Some (count * multiplier * NANOSECONDS_PER_SECOND)) None).

(** ** Instants *)

Record datetime := mk_datetime { wall_us : Z; utc_offset_us : option Z }.

Definition wall_date (us : Z) : date := us / US_PER_DAY + UNIX_EPOCH.
Definition midnight (d : date) : Z := (d - UNIX_EPOCH) * US_PER_DAY.

Definition in_range_us (us : Z) : result Z := if in_date_range (wall_date us) then Ok us else Raise OverflowError.

(** [value.astimezone(UTC)], as microseconds of UTC. *)
Definition to_utc (value : datetime) (offset : Z) : result Z := in_range_us (wall_us value - offset).

Definition datetime_to_ns (value : datetime) : result Z :=
  match utc_offset_us value with
  | None => Raise ValueError
  | Some offset =>
      let! delta := to_utc value offset in
      let days := delta / US_PER_DAY in
      let seconds := delta mod US_PER_DAY / US_PER_SECOND in
      let microseconds := delta mod US_PER_SECOND in
      Ok (days * NANOSECONDS_PER_DAY + seconds * NANOSECONDS_PER_SECOND + microseconds * 1000)
  end.

(** [datetime.fromtimestamp(seconds, tz=UTC)]: the C library's limits come before those of [datetime]. *)
Definition from_timestamp (seconds : Z) : result Z :=
  let us := seconds * US_PER_SECOND in
  let year := date_year (wall_date us) in
  if negb (in_i64 seconds) then Raise OverflowError
  else if negb ((- 2 ^ 31 <=? year - 1900) && (year - 1900 <? 2 ^ 31)) then Raise OSError
  else if in_date_range (wall_date us) then Ok us else Raise ValueError.

Definition ns_to_datetime (value : Z) : result datetime :=
  let seconds := value / NANOSECONDS_PER_SECOND in
  let nanoseconds := value mod NANOSECONDS_PER_SECOND in
  let! us := from_timestamp seconds in
  Ok (mk_datetime (us + nanoseconds / 1000) (Some 0)).

(** ** The continuous calendar *)

Definition crypto_bounds (ts_ns : Z) (interval : Interval) : result (Z * Z) :=
  match fixed_ns interval with
  | Some n => let start := ts_ns / n * n in Ok (start, start + n)
  | None =>
      let! current := ns_to_datetime ts_ns in
      let today := wall_date (wall_us current) in
      let! days :=
        match calendar_unit interval with
        | Some "day" => let! next := date_add today 1 in Ok (today, next)
        | Some "week" =>
            let! monday := date_add today (- date_weekday today) in
            let! next := date_add monday 7 in Ok (monday, next)
        | Some "month" =>
            let! first := date_new (date_year today) (date_month today) 1 in
            let! next := if date_month today =? 12 then date_new (date_year today + 1) 1 1
                         else date_new (date_year today) (date_month today + 1) 1 in
            Ok (first, next)
        | _ => Raise ValueError
        end in
      let! start_ns := datetime_to_ns (mk_datetime (midnight (fst days)) (Some 0)) in
      let! end_ns := datetime_to_ns (mk_datetime (midnight (snd days)) (Some 0)) in
      Ok (start_ns, end_ns)
  end.

(** ** Session calendars *)

(** [ZoneInfo]: offsets by wall clock and by instant, in microseconds. *)
Class TzData := {
  zone_exists : string -> bool;
  offset_at_wall : string -> Z -> Z;
  offset_at_utc : string -> Z -> Z;
}.

Record SessionWindow := mk_window { session_date : date; sw_start_ns : Z; sw_end_ns : Z }.
Definition window_contains (w : SessionWindow) (ts_ns : Z) : bool := (sw_start_ns w <=? ts_ns) && (ts_ns <? sw_end_ns w).

(** Times of day are microseconds. *)
Record SessionCalendar := mk_calendar {
  zone_key : string;
  open_time : Z;
  close_time : Z;
  weekdays : list Z;
  holidays : list date;
  cal_halts : list (Z * Z);
}.

Section Sessions.
Context `{Tz : TzData}.
Variable cal : SessionCalendar.

Definition zone : result string := if zone_exists (zone_key cal) then Ok (zone_key cal) else Raise KeyError.

(** [datetime.combine(day, time, zone)]. *)
Definition combine (day : date) (time : Z) : result datetime :=
  let! z := zone in
  let wall := midnight day + time in Ok (mk_datetime wall (Some (offset_at_wall z wall))).

Definition session_for_date (day : date) : result (option SessionWindow) :=
  if negb (existsb (Z.eqb (date_weekday day)) (weekdays cal)) || existsb (Z.eqb day) (holidays cal) then Ok None
  else
    let! close_date := if close_time cal <=? open_time cal then date_add day 1 else Ok day in
    let! start := combine day (open_time cal) in
    let! finish := combine close_date (close_time cal) in
    let! start_ns := datetime_to_ns start in
    let! end_ns := datetime_to_ns finish in
    let! _ := raise_if (end_ns <=? start_ns) ValueError in
    Ok (Some (mk_window day start_ns end_ns)).

Definition local_date (ts_ns : Z) : result date :=
  let! utc := ns_to_datetime ts_ns in
  let! z := zone in
  let! wall := in_range_us (wall_us utc + offset_at_utc z (wall_us utc)) in
  Ok (wall_date wall).

Definition containing (ts_ns : Z) (w : option SessionWindow) : option SessionWindow :=
  match w with Some w => if window_contains w ts_ns then Some w else None | None => None end.

Definition session_for_ns (ts_ns : Z) : result (option SessionWindow) :=
  let! today := local_date ts_ns in
  let! yesterday := date_add today (-1) in
  let! w := session_for_date today in
  match containing ts_ns w with
  | Some w => Ok (Some w)
  | None => let! w' := session_for_date yesterday in Ok (containing ts_ns w')
  end.

Definition is_halted (ts_ns : Z) : bool := existsb (fun h => (fst h <=? ts_ns) && (ts_ns <? snd h)) (cal_halts cal).

(** The days from [cursor] on, [days] of them. *)
Fixpoint period_sessions (days : nat) (cursor : date) : result (list SessionWindow) :=
  match days with
  | O => Ok []
  | S k =>
      let! w := session_for_date cursor in
      let! next := date_add cursor 1 in
      let! rest := period_sessions k next in
      Ok (match w with Some w => w :: rest | None => rest end)
  end.

Definition span_of (sessions : list SessionWindow) : result (Z * Z) :=
  match sessions with
  | [] => Raise ValueError
  | w :: l => Ok (sw_start_ns w, sw_end_ns (List.last l w))
  end.

Definition session_bounds (ts_ns : Z) (interval : Interval) : result (Z * Z) :=
  let! found := session_for_ns ts_ns in
  let! session := of_option ValueError found in
  match fixed_ns interval with
  | Some n =>
      let start := sw_start_ns session + (ts_ns - sw_start_ns session) / n * n in
      Ok (start, Z.min (start + n) (sw_end_ns session))
  | None =>
      let day := session_date session in
      match calendar_unit interval with
      | Some "day" => Ok (sw_start_ns session, sw_end_ns session)
      | Some "week" =>
          let! monday := date_add day (- date_weekday day) in
          let! next := date_add monday 7 in
          let! sessions := period_sessions (Z.to_nat (next - monday)) monday in
          span_of sessions
      | Some "month" =>
          let! first := date_new (date_year day) (date_month day) 1 in
          let! next := if date_month day =? 12 then date_new (date_year day + 1) 1 1
                       else date_new (date_year day) (date_month day + 1) 1 in
          let! sessions := period_sessions (Z.to_nat (next - first)) first in
          span_of sessions
      | _ => Raise ValueError
      end
  end.
End Sessions.

Example calendar_examples :
  parse_interval "15m" = Ok (mk_interval "15m" (Some 900000000000) None) /\ parse_interval "1mo" = Ok (mk_interval "1mo" None (Some "month"))
  /\ parse_interval "0m" = Raise ValueError /\ parse_interval "5x" = Raise ValueError
  /\ crypto_bounds 1709210096000000000 (mk_interval "1mo" None (Some "month")) = Ok (1706745600000000000, 1709251200000000000)
  /\ crypto_bounds 1709210096000000000 (mk_interval "1w" None (Some "week")) = Ok (1708905600000000000, 1709510400000000000)
  /\ crypto_bounds 1709210096000000000 (mk_interval "1h" (Some 3600000000000) None) = Ok (1709208000000000000, 1709211600000000000).
Proof. vm_compute. split_and!; reflexivity. Qed.

(** ** Buckets partition time *)

(** The promise of a calendar to its clients: a timestamp is in its bucket, and every timestamp of a bucket
    has that bucket. *)
Definition lawful (bounds : Z -> result (Z * Z)) : Prop :=
  forall ts s e, bounds ts = Ok (s, e) -> s <= ts < e /\ forall ts', s <= ts' < e -> bounds ts' = Ok (s, e).

Definition day_of_ns (ts : Z) : date := ts / NANOSECONDS_PER_DAY + UNIX_EPOCH.
Definition day_start_ns (d : date) : Z := (d - UNIX_EPOCH) * NANOSECONDS_PER_DAY.

Lemma wall_date_ns ts :
  wall_date (ts / NANOSECONDS_PER_SECOND * US_PER_SECOND + ts mod NANOSECONDS_PER_SECOND / 1000) = day_of_ns ts.
Proof.
  unfold wall_date, day_of_ns, US_PER_DAY, NANOSECONDS_PER_DAY, US_PER_SECOND, NANOSECONDS_PER_SECOND. f_equal.
  assert (ts / 1000000000 * 1000000 + ts mod 1000000000 / 1000 = ts / 1000) as -> by (Z.div_mod_to_equations; lia).
  rewrite Z.div_div by lia. reflexivity.
Qed.

Lemma wall_date_seconds ts : wall_date (ts / NANOSECONDS_PER_SECOND * US_PER_SECOND) = day_of_ns ts.
Proof.
  unfold wall_date, day_of_ns, US_PER_DAY, NANOSECONDS_PER_DAY, US_PER_SECOND, NANOSECONDS_PER_SECOND. f_equal.
  rewrite Z.div_mul_cancel_r by lia. rewrite Z.div_div by lia. reflexivity.
Qed.

(** Only the day's range decides; inside it none of the earlier limits is met. *)
Lemma ns_to_datetime_Ok ts x :
  ns_to_datetime ts = Ok x <->
  in_date_range (day_of_ns ts) = true
  /\ x = mk_datetime (ts / NANOSECONDS_PER_SECOND * US_PER_SECOND + ts mod NANOSECONDS_PER_SECOND / 1000) (Some 0).
Proof.
  unfold ns_to_datetime, from_timestamp. rewrite wall_date_seconds. destruct (in_date_range (day_of_ns ts)) eqn:Hr.
  - pose proof (date_year_range _ Hr) as Hy.
    assert (in_i64 (ts / NANOSECONDS_PER_SECOND) = true) as ->.
    { unfold in_date_range, MIN_DATE, MAX_DATE, day_of_ns, UNIX_EPOCH in Hr. bools.
      unfold in_i64, I64_MIN, I64_MAX. apply andb_true_iff. rewrite !Z.leb_le.
      assert (ts / NANOSECONDS_PER_DAY = ts / NANOSECONDS_PER_SECOND / 86400) as E by (rewrite Z.div_div by done; reflexivity).
      set (q := ts / NANOSECONDS_PER_SECOND) in *. rewrite E in *. clearbody q. Z.div_mod_to_equations. lia. }
    cbn [negb]. rewrite (proj2 (Z.leb_le (- 2 ^ 31) _)), (proj2 (Z.ltb_lt _ (2 ^ 31))) by lia. cbn [andb negb rbind].
    split; [intros [= <-]; done|by intros [_ ->]].
  - split; [|by intros [? _]]. destruct (in_i64 _); cbn [negb]; [|done]. by destruct (_ && _).
Qed.

Lemma datetime_to_ns_midnight d :
  in_date_range d = true -> datetime_to_ns (mk_datetime (midnight d) (Some 0)) = Ok (day_start_ns d).
Proof.
  intros Hd. unfold datetime_to_ns, to_utc, in_range_us. cbn [utc_offset_us wall_us]. rewrite Z.sub_0_r.
  assert (wall_date (midnight d) = d) as E by (unfold wall_date, midnight; rewrite Z.div_mul by done; lia).
  rewrite E, Hd. cbn [rbind]. f_equal. unfold midnight, day_start_ns. rewrite Z.div_mul, Z.mod_mul by done.
  replace ((d - UNIX_EPOCH) * US_PER_DAY) with ((d - UNIX_EPOCH) * 86400 * US_PER_SECOND) by (unfold US_PER_DAY; lia).
  rewrite Z.mod_mul by done. change (0 / US_PER_SECOND) with 0. lia.
Qed.

Lemma day_between ts a b : a <= day_of_ns ts < b <-> day_start_ns a <= ts < day_start_ns b.
Proof.
  unfold day_of_ns, day_start_ns, NANOSECONDS_PER_DAY, NANOSECONDS_PER_SECOND. Z.div_mod_to_equations. lia.
Qed.

(** The first and the past-the-end day of the period that a unit gives a day. *)
Definition period_of (unit : option string) (today : date) : result (date * date) :=
  match unit with
  | Some "day" => let! next := date_add today 1 in Ok (today, next)
  | Some "week" => let! monday := date_add today (- date_weekday today) in let! next := date_add monday 7 in Ok (monday, next)
  | Some "month" =>
      let! first := date_new (date_year today) (date_month today) 1 in
      let! next := if date_month today =? 12 then date_new (date_year today + 1) 1 1
                   else date_new (date_year today) (date_month today + 1) 1 in
      Ok (first, next)
  | _ => Raise ValueError
  end.

Lemma date_new_Ok y m d x :
  date_new y m d = Ok x <-> (1 <= y <= 9999) /\ valid_ymd y m d = true /\ x = ymd2ord y m d.
Proof.
  unfold date_new. destruct (Z.leb_spec 1 y), (Z.leb_spec y 9999), (valid_ymd y m d); cbn [andb]; (split; [intros [= <-]; split_and!; done || lia|]);
    intros (? & ? & ->); (done || lia).
Qed.

Lemma ymd2ord_range y m d : 1 <= y <= 9999 -> valid_ymd y m d = true -> in_date_range (ymd2ord y m d) = true.
Proof.
  intros Hy Hv. apply day_of_year_bounds in Hv. unfold in_date_range, MIN_DATE, MAX_DATE. apply andb_true_iff. rewrite !Z.leb_le.
  pose proof (days_before_year_mono 1 y ltac:(lia)). pose proof (days_before_year_mono (y + 1) 10000 ltac:(lia)).
  change (days_before_year 1) with 0 in *. change (days_before_year 10000) with 3652059 in *. lia.
Qed.

(** The length of the month. *)
Lemma next_month y m :
  1 <= m <= 12 ->
  (if m =? 12 then ymd2ord (y + 1) 1 1 else ymd2ord y (m + 1) 1) = ymd2ord y m 1 + days_in_month (is_leap y) m.
Proof.
  intros Hm. unfold ymd2ord, days_in_month. destruct (Z.eqb_spec m 12) as [->|].
  - rewrite leap_year_days. change (12 + 1) with 13. rewrite year_length.
    change (days_before_month (is_leap (y + 1)) 1) with (0 + (if is_leap (y + 1) && false then 1 else 0)). rewrite andb_false_r. lia.
  - lia.
Qed.

Lemma week_contains today a b :
  period_of (Some "week") today = Ok (a, b) ->
  (a <= today < b /\ in_date_range a = true /\ in_date_range b = true)
  /\ forall d, a <= d < b -> period_of (Some "week") d = Ok (a, b).
Proof.
  intros H. cbn [period_of] in H. apply rbind_Ok in H as (x & Hx & H). apply rbind_Ok in H as (y & Hy & [= -> ->]).
  apply date_add_Ok in Hx as (Hx1 & Hx2 & Hx3), Hy as (_ & Hy2 & Hy3).
  pose proof (Z.mod_pos_bound (today + 6) 7) as Hb. unfold date_weekday in *. split; [split_and!; (done || lia)|].
  intros d Hd. cbn [period_of]. unfold date_weekday.
  assert ((d + 6) mod 7 = d - a) as E.
  { assert ((a + 6) mod 7 = 0) as Ea by (subst a; Z.div_mod_to_equations; lia). Z.div_mod_to_equations. lia. }
  rewrite E, (proj2 (date_add_Ok d (- (d - a)) a)) by (split_and!; [lia|done|lia]). cbn [rbind].
  by rewrite (proj2 (date_add_Ok a 7 b)) by (split_and!; [lia|done|lia]).
Qed.

Lemma month_contains today a b :
  in_date_range today = true -> period_of (Some "month") today = Ok (a, b) ->
  (a <= today < b /\ in_date_range a = true /\ in_date_range b = true)
  /\ forall d, a <= d < b -> period_of (Some "month") d = Ok (a, b).
Proof.
  intros Ht H. destruct (date_parts today) as [Hv Ho]. pose proof (date_year_range _ Ht) as Hy.
  cbn [period_of] in H |- *. set (y := date_year today) in *. set (m := date_month today) in *. set (e := date_day today) in *.
  clearbody y m e. apply rbind_Ok in H as (x & Hx & H). apply rbind_Ok in H as (z & Hz & [= -> ->]).
  pose proof Hv as Hm. unfold valid_ymd in Hm. bools. apply date_new_Ok in Hx as (_ & Hv1 & Hx).
  assert (b = a + days_in_month (is_leap y) m /\ in_date_range b = true) as [Hb Hbr].
  { rewrite Hx, <- next_month by lia. destruct (m =? 12); apply date_new_Ok in Hz as (Hy' & Hv' & ->); (split; [done|]); by apply ymd2ord_range. }
  assert (today = a + e - 1) as Et by (rewrite Hx, <- Ho; unfold ymd2ord; lia).
  split; [split_and!; [lia|lia|rewrite Hx; by apply ymd2ord_range|done]|].
  intros d Hd. assert (valid_ymd y m (d - a + 1) = true) as Hvd.
  { unfold valid_ymd. repeat (apply andb_true_intro; split); apply Z.leb_le; lia. }
  assert (d = ymd2ord y m (d - a + 1)) as Ed by (rewrite Hx; unfold ymd2ord; lia).
  assert (ord2ymd d = (y, m, d - a + 1)) as E by (rewrite Ed at 1; by apply ord2ymd_ymd2ord).
  unfold date_year, date_month. rewrite E. cbn [fst snd].
  rewrite (proj2 (date_new_Ok y m 1 a)) by done. cbn [rbind]. by rewrite Hz.
Qed.

Lemma day_contains today a b :
  period_of (Some "day") today = Ok (a, b) -> in_date_range today = true ->
  (a <= today < b /\ in_date_range a = true /\ in_date_range b = true)
  /\ forall d, a <= d < b -> period_of (Some "day") d = Ok (a, b).
Proof.
  intros H Ht. cbn [period_of] in H. apply rbind_Ok in H as (x & Hx & [= <- <-]). pose proof Hx as Hx'.
  apply date_add_Ok in Hx as (_ & Hr & ->). split; [split_and!; (done || lia)|].
  intros d Hd. assert (d = today) as -> by lia. cbn [period_of]. by rewrite Hx'.
Qed.

Lemma period_contains unit today a b :
  in_date_range today = true -> period_of unit today = Ok (a, b) ->
  (a <= today < b /\ in_date_range a = true /\ in_date_range b = true)
  /\ forall d, a <= d < b -> period_of unit d = Ok (a, b).
Proof.
  intros Ht H. assert (unit = Some "day" \/ unit = Some "week" \/ unit = Some "month") as Hu.
  { unfold period_of in H. repeat (case_match; try discriminate); auto. }
  destruct Hu as [->|[->| ->]]; [by apply day_contains|by apply week_contains|by apply month_contains].
Qed.

Lemma crypto_bounds_period ts interval :
  fixed_ns interval = None ->
  crypto_bounds ts interval =
  let! current := ns_to_datetime ts in
  let! days := period_of (calendar_unit interval) (wall_date (wall_us current)) in
  let! start_ns := datetime_to_ns (mk_datetime (midnight (fst days)) (Some 0)) in
  let! end_ns := datetime_to_ns (mk_datetime (midnight (snd days)) (Some 0)) in
  Ok (start_ns, end_ns).
Proof. unfold crypto_bounds. by intros ->. Qed.

(** The continuous calendar is lawful for every interval that [parse_interval] returns. *)
Lemma crypto_lawful interval :
  (forall n, fixed_ns interval = Some n -> 0 < n) -> lawful (fun ts => crypto_bounds ts interval).
Proof.
  intros Hpos ts s e H. destruct (fixed_ns interval) as [n|] eqn:Hf.
  - specialize (Hpos n eq_refl). unfold crypto_bounds in *. rewrite Hf in *. injection H as <- <-.
    pose proof (Z.div_mod ts n). pose proof (Z.mod_pos_bound ts n). split; [lia|]. intros ts' Hts'.
    assert (ts' / n = ts / n) as -> by (symmetry; apply (Z.div_unique_pos _ _ _ (ts' - n * (ts / n))); lia). done.
  - rewrite crypto_bounds_period in H by done. apply rbind_Ok in H as (x & Hx & H). apply ns_to_datetime_Ok in Hx as [Hr ->].
    cbn [wall_us] in H. rewrite wall_date_ns in H. apply rbind_Ok in H as ([a b] & Hp & H). cbn [fst snd] in H.
    destruct (period_contains _ _ _ _ Hr Hp) as [(Hab & Ha & Hb) Hall].
    rewrite !datetime_to_ns_midnight in H by done. cbn [rbind] in H. injection H as <- <-. split; [by apply day_between|].
    intros ts' Hts'. apply day_between in Hts'. rewrite crypto_bounds_period by done.
    assert (in_date_range (day_of_ns ts') = true) as Hr'.
    { unfold in_date_range in *. bools. apply andb_true_iff. rewrite !Z.leb_le. lia. }
    rewrite (proj2 (ns_to_datetime_Ok ts' _) (conj Hr' eq_refl)). cbn [rbind wall_us]. rewrite wall_date_ns, (Hall _ Hts').
    cbn [rbind fst snd]. by rewrite !datetime_to_ns_midnight.
Qed.

Lemma parse_interval_positive value interval n :
  parse_interval value = Ok interval -> fixed_ns interval = Some n -> 0 < n.
Proof.
  unfold parse_interval. repeat (case_match; [intros [= <-]; done|]).
  intros Hp Hn. repeat step_ok. subst interval. cbn [fixed_ns] in Hn. injection Hn as <-. bools.
  match goal with H : of_option _ (unit_seconds _) = Ok ?m |- _ => assert (0 < m) as Hm by (unfold unit_seconds in H; repeat case_match; cbn in H; congruence || (injection H as <-; lia)) end.
  unfold NANOSECONDS_PER_SECOND. nia.
Qed.

(** ** Session buckets *)

Section SessionLaws.
Context `{Tz : TzData}.
Variable cal : SessionCalendar.

Lemma session_for_ns_contains ts w : session_for_ns cal ts = Ok (Some w) -> sw_start_ns w <= ts < sw_end_ns w.
Proof.
  assert (forall o, containing ts o = Some w -> sw_start_ns w <= ts < sw_end_ns w) as Hc.
  { intros [v|]; cbn; [|done]. destruct (window_contains v ts) eqn:E; [|done]. intros [= <-].
    unfold window_contains in E. bools. lia. }
  unfold session_for_ns. intros (x & _ & H1)%rbind_Ok. apply rbind_Ok in H1 as (y & _ & H1).
  apply rbind_Ok in H1 as (v & _ & H1). destruct (containing ts v) eqn:E; [injection H1 as <-; by eapply Hc|].
  apply rbind_Ok in H1 as (v' & _ & H1). injection H1 as H1. by eapply Hc.
Qed.

(** A fixed bucket of a session lies in the session and holds the timestamp; another timestamp of the same
    session is in the same bucket or in a disjoint one. *)
Lemma session_fixed_buckets ts ts' w interval n s e s' e' :
  fixed_ns interval = Some n -> 0 < n ->
  session_for_ns cal ts = Ok (Some w) -> session_for_ns cal ts' = Ok (Some w) ->
  session_bounds cal ts interval = Ok (s, e) -> session_bounds cal ts' interval = Ok (s', e') ->
  (sw_start_ns w <= s /\ s <= ts < e /\ e <= sw_end_ns w) /\ ((s, e) = (s', e') \/ e <= s' \/ e' <= s).
Proof.
  intros Hf Hn Hw Hw' H1 H2. pose proof (session_for_ns_contains _ _ Hw) as B. pose proof (session_for_ns_contains _ _ Hw') as B'.
  unfold session_bounds in H1, H2. rewrite Hw in H1. rewrite Hw' in H2. cbn [rbind of_option] in H1, H2. rewrite Hf in H1, H2.
  injection H1 as <- <-. injection H2 as <- <-. set (x := ts - sw_start_ns w) in *. set (x' := ts' - sw_start_ns w) in *.
  pose proof (Z.div_mod x n). pose proof (Z.mod_pos_bound x n Hn). pose proof (Z.div_mod x' n). pose proof (Z.mod_pos_bound x' n Hn).
  assert (0 <= x / n) by (apply Z.div_pos; lia). assert (0 <= x' / n) by (apply Z.div_pos; lia).
  split; [nia|]. destruct (Z.lt_trichotomy (x / n) (x' / n)) as [Hl|[->|Hl]]; [right; left; nia|by left|right; right; nia].
Qed.
End SessionLaws.
