(* ===== verification/Aggregate.v ===== *)
(** * Trade-to-bar aggregation ([workers/ingest/.../aggregate])

    [aggregate_trades] builds bars in one pass over ordered trades.  Over every calendar its bars are
    those of a declarative specification, the maximal runs of consecutive trades with the same bounds,
    and it fails at the first trade that is out of order or has no bucket.  Over the continuous calendar
    a run is the set of all trades of its bucket. *)

From S2P Require Import Prelude Sort PyStr Dates Calendar.
From Stdlib Require String.

Record Trade := mk_trade { tr_ts_event_ns : Z; tr_price_atoms : Z; tr_qty_atoms : Z }.
Definition Trade_post_init (t : Trade) : result Trade :=
  let! _ := raise_if (tr_price_atoms t <=? 0) ValueError in
  let! _ := raise_if (tr_qty_atoms t <=? 0) ValueError in Ok t.

Record KnownGap := mk_gap { kg_start_ns : Z; kg_end_ns : Z }.
Definition KnownGap_post_init (g : KnownGap) : result KnownGap :=
  let! _ := raise_if (kg_end_ns g <=? kg_start_ns g) ValueError in Ok g.
Definition gap_overlaps (g : KnownGap) (start_ns end_ns : Z) : bool := (kg_start_ns g <? end_ns) && (start_ns <? kg_end_ns g).

Record Bar := mk_bar {
  br_interval : string;
  br_start_ns : Z;
  br_end_ns : Z;
  br_open_atoms : Z;
  br_high_atoms : Z;
  br_low_atoms : Z;
  br_close_atoms : Z;
  br_base_volume_atoms : Z;
  br_trade_count : Z;
  br_complete : bool;
  br_quality_flags : list string;
}.

Record MutableBar := mk_mutable {
  mb_start_ns : Z;
  mb_end_ns : Z;
  mb_open_atoms : Z;
  mb_high_atoms : Z;
  mb_low_atoms : Z;
  mb_close_atoms : Z;
  mb_base_volume_atoms : Z;
  mb_trade_count : Z;
}.

Definition from_trade (start_ns end_ns : Z) (t : Trade) : MutableBar :=
  mk_mutable start_ns end_ns (tr_price_atoms t) (tr_price_atoms t) (tr_price_atoms t) (tr_price_atoms t) (tr_qty_atoms t) 1.

Definition bar_add (t : Trade) (b : MutableBar) : MutableBar :=
  mk_mutable (mb_start_ns b) (mb_end_ns b) (mb_open_atoms b) (Z.max (mb_high_atoms b) (tr_price_atoms t))
    (Z.min (mb_low_atoms b) (tr_price_atoms t)) (tr_price_atoms t) (mb_base_volume_atoms b + tr_qty_atoms t) (mb_trade_count b + 1).

(** What the aggregation asks of a calendar; only session calendars have halts. *)
Record BucketCalendar := mk_bucket_calendar {
  bucket_bounds : Z -> Interval -> result (Z * Z);
  bc_halts : option (list (Z * Z));
}.
Definition crypto_calendar : BucketCalendar := mk_bucket_calendar crypto_bounds None.
Definition session_calendar `{TzData} (cal : SessionCalendar) : BucketCalendar :=
  mk_bucket_calendar (session_bounds cal) (Some (cal_halts cal)).

Definition halt_overlaps (calendar : BucketCalendar) (start_ns end_ns : Z) : bool :=
  match bc_halts calendar with
  | None => false
  | Some halts => existsb (fun h => (fst h <? end_ns) && (start_ns <? snd h)) halts
  end.

Section Aggregate.
Variable calendar : BucketCalendar.
Variable interval : Interval.

Definition mb_bounds (b : MutableBar) : Z * Z := (mb_start_ns b, mb_end_ns b).

(** The order check and the bucket of one trade. *)
Definition trade_bounds (previous_ts : option Z) (t : Trade) : result (Z * Z) :=
  let! _ := raise_if (match previous_ts with Some p => tr_ts_event_ns t <? p | None => false end) ValueError in
  bucket_bounds calendar (tr_ts_event_ns t) interval.

(** The loop: [mutable] without its last element, which is [current]. *)
Fixpoint collect_bars (previous_ts : option Z) (closed : list MutableBar) (current : option MutableBar) (trades : list Trade)
    : result (list MutableBar) :=
  match trades with
  | [] => Ok (closed ++ option_list current)
  | t :: trades' =>
      let! b := trade_bounds previous_ts t in
      match current with
      | None => collect_bars (Some (tr_ts_event_ns t)) closed (Some (from_trade (fst b) (snd b) t)) trades'
      | Some c =>
          if decide (mb_bounds c = b)
          then collect_bars (Some (tr_ts_event_ns t)) closed (Some (bar_add t c)) trades'
          else collect_bars (Some (tr_ts_event_ns t)) (closed ++ [c]) (Some (from_trade (fst b) (snd b) t)) trades'
      end
  end.

Definition finish_bar (coverage_end_ns : Z) (known_gaps : list KnownGap) (b : MutableBar) : Bar :=
  let flags := (if coverage_end_ns <? mb_end_ns b then ["INCOMPLETE_COVERAGE"] else [])
    ++ (if existsb (fun g => gap_overlaps g (mb_start_ns b) (mb_end_ns b)) known_gaps then ["KNOWN_GAP"] else [])
    ++ (if halt_overlaps calendar (mb_start_ns b) (mb_end_ns b) then ["SESSION_HALT"] else []) in
  mk_bar (iv_name interval) (mb_start_ns b) (mb_end_ns b) (mb_open_atoms b) (mb_high_atoms b) (mb_low_atoms b) (mb_close_atoms b)
    (mb_base_volume_atoms b) (mb_trade_count b) (match flags with [] => true | _ => false end) flags.
End Aggregate.

Definition aggregate_trades (trades : list Trade) (interval_name : string) (calendar : BucketCalendar) (coverage_end_ns : Z)
    (known_gaps : list KnownGap) : result (list Bar) :=
  let! interval := parse_interval interval_name in
  let! mutable := collect_bars calendar interval None [] None trades in
  Ok (map (finish_bar calendar interval coverage_end_ns known_gaps) mutable).

(** ** What the bars are *)

Section Reference.
Variable calendar : BucketCalendar.
Variable interval : Interval.

Definition in_order (t t' : Trade) : Prop := tr_ts_event_ns t <= tr_ts_event_ns t'.
Definition has_bucket (b : Z * Z) (t : Trade) : Prop := bucket_bounds calendar (tr_ts_event_ns t) interval = Ok b.

(** The maximal runs of consecutive trades whose bounds are equal. *)
Record runs (trades : list Trade) (groups : list (Z * Z * list Trade)) : Prop := mk_runs {
  rn_all : concat (map snd groups) = trades;
  rn_bucket : forall b ts, (b, ts) ∈ groups -> ts <> [] /\ Forall (has_bucket b) ts;
  rn_maximal : Sorted (fun g g' => fst g <> fst g') groups;
}.

(** One of the half-open spans is over when the other one begins. *)
Definition apart (a b : Z * Z) : Prop := snd a <= fst b \/ snd b <= fst a.

(** A flag is present exactly when its condition holds. *)
Inductive flagged (P : Prop) (name : string) : list string -> Prop :=
  | flag_set : P -> flagged P name [name]
  | flag_clear : ~ P -> flagged P name [].

Record bar_spec (coverage_end_ns : Z) (known_gaps : list KnownGap) (g : Z * Z * list Trade) (bar : Bar) : Prop := mk_bar_spec {
  bs_interval : br_interval bar = iv_name interval;
  bs_bounds : (br_start_ns bar, br_end_ns bar) = fst g;
  bs_open : exists t l, snd g = t :: l /\ br_open_atoms bar = tr_price_atoms t;
  bs_close : exists l t, snd g = l ++ [t] /\ br_close_atoms bar = tr_price_atoms t;
  bs_high : br_high_atoms bar ∈ map tr_price_atoms (snd g) /\ Forall (fun t => tr_price_atoms t <= br_high_atoms bar) (snd g);
  bs_low : br_low_atoms bar ∈ map tr_price_atoms (snd g) /\ Forall (fun t => br_low_atoms bar <= tr_price_atoms t) (snd g);
  bs_volume : br_base_volume_atoms bar = fold_right Z.add 0 (map tr_qty_atoms (snd g));
  bs_count : br_trade_count bar = Z.of_nat (length (snd g));
  bs_flags : exists coverage gap halt,
    br_quality_flags bar = coverage ++ gap ++ halt
    /\ flagged (~ br_end_ns bar <= coverage_end_ns) "INCOMPLETE_COVERAGE" coverage
    /\ flagged (exists k, k ∈ known_gaps /\ ~ apart (kg_start_ns k, kg_end_ns k) (br_start_ns bar, br_end_ns bar)) "KNOWN_GAP" gap
    /\ flagged (exists halts h, bc_halts calendar = Some halts /\ h ∈ halts /\ ~ apart h (br_start_ns bar, br_end_ns bar)) "SESSION_HALT" halt;
  bs_complete : br_complete bar = true <-> br_quality_flags bar = [];
}.

Definition bars_spec (coverage_end_ns : Z) (known_gaps : list KnownGap) (trades : list Trade) (bars : list Bar) : Prop :=
  Sorted in_order trades /\ exists groups, runs trades groups /\ Forall2 (bar_spec coverage_end_ns known_gaps) groups bars.

(** The first trade that is earlier than the one before it, or that has no bucket. *)
Definition out_of_order (before : list Trade) (t : Trade) : Prop := exists p, last before = Some p /\ ~ in_order p t.
Definition first_failure (trades : list Trade) (e : exn) : Prop :=
  exists before t after, trades = before ++ t :: after
    /\ Sorted in_order before /\ Forall (fun t => exists b, has_bucket b t) before
    /\ (out_of_order before t /\ e = ValueError
        \/ ~ out_of_order before t /\ bucket_bounds calendar (tr_ts_event_ns t) interval = Raise e).

(** ** The loop computes them *)

(** First, highest, lowest and last price, total quantity and count. *)
Definition bar_of (b : Z * Z) (ts : list Trade) : MutableBar :=
  let prices := map tr_price_atoms ts in
  let first := hd 0 prices in
  mk_mutable (fst b) (snd b) first (fold_right Z.max first prices) (fold_right Z.min first prices) (List.last prices 0)
    (fold_right Z.add 0 (map tr_qty_atoms ts)) (Z.of_nat (length ts)).

Lemma bar_of_single b t : bar_of b [t] = from_trade (fst b) (snd b) t.
Proof. unfold bar_of, from_trade. cbn. f_equal; lia. Qed.

Lemma fold_max_snoc l x y : fold_right Z.max x (l ++ [y]) = Z.max (fold_right Z.max x l) y.
Proof. induction l as [|z l IH]; cbn; lia. Qed.
Lemma fold_min_snoc l x y : fold_right Z.min x (l ++ [y]) = Z.min (fold_right Z.min x l) y.
Proof. induction l as [|z l IH]; cbn; lia. Qed.
Lemma fold_add_snoc l y : fold_right Z.add 0 (l ++ [y]) = fold_right Z.add 0 l + y.
Proof. induction l as [|z l IH]; cbn; lia. Qed.

Lemma bar_of_snoc b ts t : ts <> [] -> bar_of b (ts ++ [t]) = bar_add t (bar_of b ts).
Proof.
  intros Hne. unfold bar_of, bar_add. cbn [mb_start_ns mb_end_ns mb_open_atoms mb_high_atoms mb_low_atoms mb_base_volume_atoms mb_trade_count].
  rewrite !map_app. cbn [map]. assert (hd 0 (map tr_price_atoms ts ++ [tr_price_atoms t]) = hd 0 (map tr_price_atoms ts)) as ->.
  { by destruct ts. }
  rewrite fold_max_snoc, fold_min_snoc, fold_add_snoc, last_last, length_app. f_equal. cbn [length]. lia.
Qed.

(** Every trade with its bucket, or the first error. *)
Fixpoint keyed_trades (previous_ts : option Z) (trades : list Trade) : result (list (Z * Z * Trade)) :=
  match trades with
  | [] => Ok []
  | t :: l =>
      let! b := trade_bounds calendar interval previous_ts t in
      let! rest := keyed_trades (Some (tr_ts_event_ns t)) l in Ok ((b, t) :: rest)
  end.

(** The runs of keyed trades, the run [ts] of bounds [b] being open. *)
Fixpoint run_from (b : Z * Z) (ts : list Trade) (keyed : list (Z * Z * Trade)) : list (Z * Z * list Trade) :=
  match keyed with
  | [] => [(b, ts)]
  | (b', t) :: l => if decide (b = b') then run_from b (ts ++ [t]) l else (b, ts) :: run_from b' [t] l
  end.
Definition runs_of (keyed : list (Z * Z * Trade)) : list (Z * Z * list Trade) :=
  match keyed with [] => [] | (b, t) :: l => run_from b [t] l end.
Definition bar_of_run (g : Z * Z * list Trade) : MutableBar := bar_of (fst g) (snd g).

Lemma collect_from trades : forall prev closed b ts, ts <> [] ->
  collect_bars calendar interval prev closed (Some (bar_of b ts)) trades
  = let! keyed := keyed_trades prev trades in Ok (closed ++ map bar_of_run (run_from b ts keyed)).
Proof.
  induction trades as [|t l IH]; intros prev closed b ts Hne; cbn [collect_bars keyed_trades]; [done|].
  destruct (trade_bounds calendar interval prev t) as [b'|e]; [|done]. cbn [rbind].
  assert (mb_bounds (bar_of b ts) = b) as -> by by destruct b. destruct (decide (b = b')) as [->|Hb].
  - rewrite <- bar_of_snoc, IH by (done || by destruct ts). destruct (keyed_trades _ l); [|done]. cbn [rbind run_from].
    by rewrite decide_True.
  - rewrite <- bar_of_single, IH by done. destruct (keyed_trades _ l); [|done]. cbn [rbind run_from].
    rewrite decide_False by done. cbn [map]. by rewrite <- app_assoc.
Qed.

Lemma collect_runs trades :
  collect_bars calendar interval None [] None trades
  = let! keyed := keyed_trades None trades in Ok (map bar_of_run (runs_of keyed)).
Proof.
  destruct trades as [|t l]; [done|]. cbn [collect_bars keyed_trades].
  destruct (trade_bounds calendar interval None t) as [b|e]; [|done]. cbn [rbind].
  rewrite <- bar_of_single, collect_from by done. by destruct (keyed_trades _ l).
Qed.

(** *** Runs are unique *)

Definition ungroup (groups : list (Z * Z * list Trade)) : list (Z * Z * Trade) :=
  concat (map (fun g => map (pair (fst g)) (snd g)) groups).

Lemma run_from_run b l rest : forall ts, run_from b ts (map (pair b) l ++ rest) = run_from b (ts ++ l) rest.
Proof.
  induction l as [|t l IH]; intros ts; cbn [map app run_from]; [by rewrite app_nil_r|].
  rewrite decide_True by done. by rewrite IH, <- app_assoc.
Qed.

Lemma run_from_ungroup groups : forall b ts,
  (forall g, g ∈ groups -> snd g <> []) -> Sorted (fun g g' => fst g <> fst g') ((b, ts) :: groups) ->
  run_from b ts (ungroup groups) = (b, ts) :: groups.
Proof.
  induction groups as [|[b' ts'] gs IH]; intros b ts Hne Hs; [done|].
  apply Sorted_inv in Hs as [Hs Hd%HdRel_inv]. cbn [fst] in Hd. cbn [ungroup map concat fst snd].
  destruct ts' as [|t l]; [by destruct (Hne (b', []) ltac:(by left))|]. cbn [map app run_from].
  rewrite decide_False by done. change (concat _) with (ungroup gs). rewrite run_from_run. cbn [app]. f_equal.
  apply IH; [|done]. intros g Hg. apply Hne. by right.
Qed.

Lemma runs_of_ungroup groups :
  (forall g, g ∈ groups -> snd g <> []) -> Sorted (fun g g' => fst g <> fst g') groups -> runs_of (ungroup groups) = groups.
Proof.
  destruct groups as [|[b [|t l]] gs]; intros Hne Hs; [done|by destruct (Hne (b, []) ltac:(by left))|].
  cbn [ungroup map concat fst snd app runs_of]. change (concat _) with (ungroup gs). rewrite run_from_run.
  apply run_from_ungroup; [|done]. intros g Hg. apply Hne. by right.
Qed.

Lemma run_from_head b keyed : forall ts, exists ts' gs, run_from b ts keyed = (b, ts ++ ts') :: gs.
Proof.
  induction keyed as [|[b' t] l IH]; intros ts; cbn [run_from]; [exists [], []; by rewrite app_nil_r|].
  case_decide as Hb; [|exists [], (run_from b' [t] l); by rewrite app_nil_r].
  destruct (IH (ts ++ [t])) as (ts' & gs & ->). exists (t :: ts'), gs. by rewrite <- app_assoc.
Qed.

Lemma run_from_ok keyed : forall b ts, ts <> [] ->
  ungroup (run_from b ts keyed) = map (pair b) ts ++ keyed
  /\ (forall g, g ∈ run_from b ts keyed -> snd g <> [])
  /\ Sorted (fun g g' => fst g <> fst g') (run_from b ts keyed).
Proof.
  induction keyed as [|[b' t] l IH]; intros b ts Hne; cbn [run_from].
  { unfold ungroup. cbn. split_and!; [by rewrite app_nil_r|by intros g ->%list_elem_of_singleton|repeat constructor]. }
  case_decide as Hb.
  - subst b'. destruct (IH b (ts ++ [t])) as (E & Hg & Hs); [by destruct ts|]. split_and!; [|done|done].
    rewrite E, map_app, <- app_assoc. done.
  - destruct (IH b' [t]) as (E & Hg & Hs); [done|]. split_and!.
    + unfold ungroup in E |- *. cbn [map concat fst snd]. by rewrite E.
    + intros g [->|Hin]%elem_of_cons; [done|by apply Hg].
    + constructor; [done|]. destruct (run_from_head b' l [t]) as (ts' & gs & ->). by constructor.
Qed.

Lemma runs_of_ok keyed :
  ungroup (runs_of keyed) = keyed /\ (forall g, g ∈ runs_of keyed -> snd g <> [])
  /\ Sorted (fun g g' => fst g <> fst g') (runs_of keyed).
Proof.
  destruct keyed as [|[b t] l]; cbn [runs_of]; [|by apply run_from_ok].
  split_and!; [done|by intros g ?%not_elem_of_nil|constructor].
Qed.

Lemma ungroup_trades groups : map snd (ungroup groups) = concat (map snd groups).
Proof.
  unfold ungroup. rewrite concat_map, map_map. f_equal. apply map_ext. intros g. rewrite map_map. cbn. apply map_id.
Qed.

(** *** The order of the trades and their buckets *)

Definition starts_after (prev : option Z) (trades : list Trade) : Prop :=
  match prev, trades with Some p, t :: _ => p <= tr_ts_event_ns t | _, _ => True end.
Definition keyed_ok (p : Z * Z * Trade) : Prop := has_bucket (fst p) (snd p).

Lemma trade_bounds_Ok prev t b :
  trade_bounds calendar interval prev t = Ok b <-> starts_after prev [t] /\ has_bucket b t.
Proof.
  unfold trade_bounds, has_bucket, starts_after. destruct prev as [p|]; cbn [rbind raise_if]; [|naive_solver].
  destruct (Z.ltb_spec (tr_ts_event_ns t) p); cbn [raise_if rbind]; [split; [done|lia]|naive_solver].
Qed.

Lemma keyed_trades_Ok trades : forall prev keyed,
  keyed_trades prev trades = Ok keyed
  <-> map snd keyed = trades /\ Forall keyed_ok keyed /\ starts_after prev trades /\ Sorted in_order trades.
Proof.
  induction trades as [|t l IH]; intros prev keyed; cbn [keyed_trades].
  { split; [intros [= <-]; split_and!; try done; by destruct prev|]. by intros (->%map_eq_nil & _). }
  split.
  - intros (b & [Hs Hb]%trade_bounds_Ok & Hr)%rbind_Ok. apply rbind_Ok in Hr as (rest & (Hm & Hf & Hn & Ho)%IH & [= <-]).
    cbn [map snd]. rewrite Hm. split_and!; [done|by constructor|by destruct prev|]. constructor; [done|].
    destruct l; by constructor.
  - intros (Hm & Hf & Hs & [Ho Hh]%Sorted_inv). destruct keyed as [|[b t'] rest]; [done|]. cbn [map snd] in Hm. injection Hm as -> <-.
    apply Forall_cons in Hf as [Hb Hf]. rewrite (proj2 (trade_bounds_Ok prev t b)) by (split; [by destruct prev|done]). cbn [rbind].
    rewrite (proj2 (IH (Some (tr_ts_event_ns t)) rest)); [done|]. split_and!; [done|done| |done].
    cbn. destruct (map snd rest); [done|]. by apply HdRel_inv in Hh.
Qed.

Definition previous_of (prev : option Z) (before : list Trade) : option Z :=
  match last before with Some p => Some (tr_ts_event_ns p) | None => prev end.

Lemma previous_of_cons prev t before : previous_of prev (t :: before) = previous_of (Some (tr_ts_event_ns t)) before.
Proof. unfold previous_of. destruct before as [|x l]; [done|]. rewrite last_cons_cons. by destruct (last (x :: l)) eqn:E; [|apply last_None in E]. Qed.

Lemma keyed_trades_Raise trades : forall prev e,
  keyed_trades prev trades = Raise e
  <-> exists before t after keyed, trades = before ++ t :: after /\ keyed_trades prev before = Ok keyed
      /\ trade_bounds calendar interval (previous_of prev before) t = Raise e.
Proof.
  induction trades as [|t l IH]; intros prev e; cbn [keyed_trades].
  { split; [done|]. by intros ([] & ? & ? & ? & ? & _). }
  split.
  - destruct (trade_bounds calendar interval prev t) as [b|e'] eqn:Ht; cbn [rbind]; [|intros [= ->]; by exists [], t, l, []].
    destruct (keyed_trades _ l) as [rest|e'] eqn:Hl; [done|]. cbn [rbind]. intros [= ->].
    apply IH in Hl as (before & t' & after & keyed & -> & Hk & Hr). exists (t :: before), t', after, ((b, t) :: keyed).
    split; [done|]. cbn [keyed_trades]. rewrite Ht. cbn [rbind]. rewrite Hk. by rewrite previous_of_cons.
  - intros ([|x before] & t' & after & keyed & [= -> ->] & Hk & Hr); [unfold previous_of in Hr; cbn in Hr; by rewrite Hr|].
    cbn [keyed_trades] in Hk. apply rbind_Ok in Hk as (b & -> & Hk). apply rbind_Ok in Hk as (rest & Hk & _). cbn [rbind].
    rewrite previous_of_cons in Hr. by rewrite (proj2 (IH (Some (tr_ts_event_ns x)) e)) by eauto 10.
Qed.

Lemma keyed_exists trades :
  Sorted in_order trades -> Forall (fun t => exists b, has_bucket b t) trades -> exists keyed, keyed_trades None trades = Ok keyed.
Proof.
  intros Ho Hf. assert (exists keyed, map snd keyed = trades /\ Forall keyed_ok keyed) as (keyed & Hm & Hk).
  { clear Ho. induction Hf as [|t l [b Hb] _ (keyed & <- & Hk)]; [by exists []|]. exists ((b, t) :: keyed). split; [done|by constructor]. }
  exists keyed. by apply keyed_trades_Ok.
Qed.

Lemma trade_bounds_Raise before t e :
  trade_bounds calendar interval (previous_of None before) t = Raise e
  <-> out_of_order before t /\ e = ValueError
      \/ ~ out_of_order before t /\ bucket_bounds calendar (tr_ts_event_ns t) interval = Raise e.
Proof.
  unfold trade_bounds, previous_of, out_of_order, in_order. destruct (last before) as [p|]; cbn [raise_if rbind].
  - destruct (Z.ltb_spec (tr_ts_event_ns t) (tr_ts_event_ns p)); cbn [raise_if rbind]; split.
    + intros [= <-]. left. split; [exists p; split; [done|lia]|done].
    + intros [[_ ->]|[Hn _]]; [done|]. destruct Hn. exists p. split; [done|lia].
    + intros He. right. split; [|done]. intros (p' & [= <-] & Hp). lia.
    + intros [[(p' & [= <-] & Hp) _]|[_ He]]; [lia|done].
  - split; [intros He; right; split; [by intros (p & ? & _)|done]|]. by intros [[(p & ? & _) _]|[_ He]].
Qed.

Lemma keyed_failure trades e : keyed_trades None trades = Raise e <-> first_failure trades e.
Proof.
  rewrite keyed_trades_Raise. split.
  - intros (before & t & after & keyed & -> & (Hm & Hf & _ & Ho)%keyed_trades_Ok & He%trade_bounds_Raise).
    exists before, t, after. split_and!; [done|done| |done]. rewrite <- Hm. apply Forall_map.
    eapply Forall_impl; [exact Hf|]. intros [b t'] Hb. by exists b.
  - intros (before & t & after & -> & Ho & Hf & He). destruct (keyed_exists before Ho Hf) as [keyed Hk].
    exists before, t, after, keyed. by rewrite trade_bounds_Raise.
Qed.

(** *** One bar *)

Lemma fold_max_spec x l : fold_right Z.max x l ∈ x :: l /\ x <= fold_right Z.max x l /\ Forall (fun y => y <= fold_right Z.max x l) l.
Proof.
  induction l as [|y l (Hin & Hx & Hf)]; cbn; [repeat constructor; lia|]. split_and!; [|lia|].
  - destruct (Z.max_spec y (fold_right Z.max x l)) as [[_ ->]|[_ ->]]; [|by right; left].
    apply elem_of_cons in Hin as [->|Hin]; [by left|by right; right].
  - constructor; [lia|]. eapply Forall_impl; [exact Hf|]. cbn. lia.
Qed.
Lemma fold_min_spec x l : fold_right Z.min x l ∈ x :: l /\ fold_right Z.min x l <= x /\ Forall (fun y => fold_right Z.min x l <= y) l.
Proof.
  induction l as [|y l (Hin & Hx & Hf)]; cbn; [repeat constructor; lia|]. split_and!; [|lia|].
  - destruct (Z.min_spec y (fold_right Z.min x l)) as [[_ ->]|[_ ->]]; [by right; left|].
    apply elem_of_cons in Hin as [->|Hin]; [by left|by right; right].
  - constructor; [lia|]. eapply Forall_impl; [exact Hf|]. cbn. lia.
Qed.

Lemma overlap_apart a b c d : (a <? d) && (c <? b) = true <-> ~ apart (a, b) (c, d).
Proof. unfold apart. cbn [fst snd]. rewrite andb_true_iff, !Z.ltb_lt. lia. Qed.

Lemma flagged_if (P : Prop) (c : bool) name : (c = true <-> P) -> flagged P name (if c then [name] else []).
Proof. destruct c; intros HP; constructor; naive_solver. Qed.

Lemma flagged_unique P name l l' : flagged P name l -> flagged P name l' -> l = l'.
Proof. by intros [] []. Qed.

Lemma gap_flag gaps s e :
  existsb (fun g => gap_overlaps g s e) gaps = true <-> exists k, k ∈ gaps /\ ~ apart (kg_start_ns k, kg_end_ns k) (s, e).
Proof. rewrite existsb_exists. by setoid_rewrite <- list_elem_of_In; setoid_rewrite overlap_apart. Qed.

Lemma halt_flag s e :
  halt_overlaps calendar s e = true <-> exists halts h, bc_halts calendar = Some halts /\ h ∈ halts /\ ~ apart h (s, e).
Proof.
  unfold halt_overlaps. destruct (bc_halts calendar) as [halts|]; [|naive_solver]. rewrite existsb_exists.
  split.
  - intros ([a b] & Hin%list_elem_of_In & Hp%overlap_apart). eauto.
  - intros (? & [a b] & [= <-] & Hin%list_elem_of_In & Hp). exists (a, b). by rewrite overlap_apart.
Qed.

Lemma finish_bar_spec cov gaps g : snd g <> [] -> bar_spec cov gaps g (finish_bar calendar interval cov gaps (bar_of_run g)).
Proof.
  destruct g as [[s e] ts]. cbn [snd]. intros Hne. unfold finish_bar, bar_of_run, bar_of.
  assert (exists t l, ts = t :: l) as (t & l & Ets) by (destruct ts; eauto; done).
  assert (hd 0 (map tr_price_atoms ts) ∈ map tr_price_atoms ts) as Hhd by (rewrite Ets; left).
  split; cbn [br_interval br_start_ns br_end_ns br_open_atoms br_high_atoms br_low_atoms br_close_atoms br_base_volume_atoms
    br_trade_count br_complete br_quality_flags mb_start_ns mb_end_ns mb_open_atoms mb_high_atoms mb_low_atoms mb_close_atoms
    mb_base_volume_atoms mb_trade_count fst snd]; [done..| | | | |done|done| |].
  - exists t, l. by rewrite Ets.
  - destruct (exists_last Hne) as (l' & t' & ->). exists l', t'. rewrite map_app. cbn [map]. by rewrite last_last.
  - destruct (fold_max_spec (hd 0 (map tr_price_atoms ts)) (map tr_price_atoms ts)) as (Hin & _ & Hf). rewrite Forall_map in Hf.
    split; [|done]. by apply elem_of_cons in Hin as [->|Hin].
  - destruct (fold_min_spec (hd 0 (map tr_price_atoms ts)) (map tr_price_atoms ts)) as (Hin & _ & Hf). rewrite Forall_map in Hf.
    split; [|done]. by apply elem_of_cons in Hin as [->|Hin].
  - eexists _, _, _. split; [reflexivity|]. split_and!; apply flagged_if; [rewrite Z.ltb_lt; lia|apply gap_flag|apply halt_flag].
  - by destruct (_ ++ _).
Qed.

Lemma extreme_unique (R : Z -> Z -> Prop) l x y :
  (forall a b, R a b -> R b a -> a = b) -> x ∈ map tr_price_atoms l /\ Forall (fun t => R (tr_price_atoms t) x) l ->
  y ∈ map tr_price_atoms l /\ Forall (fun t => R (tr_price_atoms t) y) l -> x = y.
Proof.
  intros Ha [(t & -> & Ht)%elem_of_mapl Hx] [(u & -> & Hu)%elem_of_mapl Hy]. rewrite Forall_forall in Hx, Hy. auto.
Qed.

Lemma bar_spec_unique cov gaps g x y : bar_spec cov gaps g x -> bar_spec cov gaps g y -> x = y.
Proof.
  intros [I1 B1 (t1 & l1 & O1 & P1) (l2 & t2 & C1 & Q1) H1 L1 V1 N1 (a1 & b1 & c1 & F1 & A1 & G1 & S1) K1]
    [I2 B2 (t3 & l3 & O2 & P2) (l4 & t4 & C2 & Q2) H2 L2 V2 N2 (a2 & b2 & c2 & F2 & A2 & G2 & S2) K2].
  assert (br_open_atoms x = br_open_atoms y) as EO by congruence.
  assert (br_close_atoms x = br_close_atoms y) as EC by (rewrite C1 in C2; apply app_inj_tail in C2; intuition congruence).
  assert (br_high_atoms x = br_high_atoms y) as EH by (apply (extreme_unique Z.le (snd g)); [lia|done|done]).
  assert (br_low_atoms x = br_low_atoms y) as EL by (apply (extreme_unique (fun a b => b <= a) (snd g)); [lia|done|done]).
  rewrite <- B1 in B2. injection B2 as EA EB. rewrite EA, EB in *.
  pose proof (flagged_unique _ _ _ _ A1 A2) as ->. pose proof (flagged_unique _ _ _ _ G1 G2) as ->.
  pose proof (flagged_unique _ _ _ _ S1 S2) as ->.
  assert (br_complete x = br_complete y) as EK by (rewrite F1 in K1; rewrite F2 in K2; apply eq_bool_prop_intro; rewrite !Is_true_true; tauto).
  destruct x, y. cbn in *. congruence.
Qed.

(** *** All bars *)

Lemma elem_of_ungroup b t groups : (b, t) ∈ ungroup groups <-> exists ts, (b, ts) ∈ groups /\ t ∈ ts.
Proof.
  unfold ungroup. rewrite list_elem_of_In, in_concat. setoid_rewrite in_map_iff. split.
  - intros (l & ([b' ts] & <- & Hg) & Hl). apply in_map_iff in Hl as (t' & [= -> ->] & Hl).
    exists ts. by rewrite !list_elem_of_In.
  - intros (ts & Hg%list_elem_of_In & Ht%list_elem_of_In). exists (map (pair b) ts). split; [by exists (b, ts)|]. by apply in_map.
Qed.

Lemma runs_of_runs trades keyed : keyed_trades None trades = Ok keyed -> runs trades (runs_of keyed).
Proof.
  intros (Hm & Hf & _ & _)%keyed_trades_Ok. destruct (runs_of_ok keyed) as (Hu & Hne & Hs). split; [|intros b ts Hg; split|done].
  - by rewrite <- ungroup_trades, Hu.
  - by apply (Hne (b, ts)).
  - apply Forall_forall. intros t Ht. rewrite Forall_forall in Hf. apply (Hf (b, t)). rewrite <- Hu. apply elem_of_ungroup. eauto.
Qed.

Lemma runs_keyed trades groups :
  Sorted in_order trades -> runs trades groups -> keyed_trades None trades = Ok (ungroup groups) /\ runs_of (ungroup groups) = groups.
Proof.
  intros Ho [Ha Hb Hm]. split.
  - apply keyed_trades_Ok. split_and!; [by rewrite ungroup_trades| |done|done]. apply Forall_forall.
    intros [b t] (ts & Hg & Ht)%elem_of_ungroup. destruct (Hb _ _ Hg) as [_ Hf]. rewrite Forall_forall in Hf. by apply Hf.
  - apply runs_of_ungroup; [|done]. intros [b ts] Hg. by apply Hb in Hg as [? _].
Qed.

Lemma finished_bars cov gaps groups bars :
  (forall g, g ∈ groups -> snd g <> []) ->
  map (finish_bar calendar interval cov gaps) (map bar_of_run groups) = bars <-> Forall2 (bar_spec cov gaps) groups bars.
Proof.
  intros Hne. split.
  - intros <-. induction groups as [|g gs IH]; constructor.
    + apply finish_bar_spec, Hne. by left.
    + apply IH. intros g' Hg'. apply Hne. by right.
  - intros Hf. induction Hf as [|g bar gs bars Hb _ IH]; [done|]. cbn [map]. f_equal.
    + eapply bar_spec_unique; [|exact Hb]. apply finish_bar_spec, Hne. by left.
    + apply IH. intros g' Hg'. apply Hne. by right.
Qed.

Lemma collect_Ok cov gaps trades bars :
  (let! mutable := collect_bars calendar interval None [] None trades in Ok (map (finish_bar calendar interval cov gaps) mutable)) = Ok bars
  <-> bars_spec cov gaps trades bars.
Proof.
  rewrite collect_runs. split.
  - intros (m & Hm & [= Hbars])%rbind_Ok. apply rbind_Ok in Hm as (keyed & Hk & [= <-]).
    pose proof (runs_of_runs _ _ Hk) as Hr. apply keyed_trades_Ok in Hk as (_ & _ & _ & Ho). split; [done|].
    exists (runs_of keyed). split; [done|]. apply finished_bars; [|done]. intros [b ts] Hg. by apply (rn_bucket _ _ Hr) in Hg as [? _].
  - intros (Ho & groups & Hr & Hf). destruct (runs_keyed _ _ Ho Hr) as [-> E]. cbn [rbind]. rewrite E. f_equal.
    apply finished_bars; [|done]. intros [b ts] Hg. by apply (rn_bucket _ _ Hr) in Hg as [? _].
Qed.

Lemma collect_Raise cov gaps trades e :
  (let! mutable := collect_bars calendar interval None [] None trades in Ok (map (finish_bar calendar interval cov gaps) mutable)) = Raise e
  <-> first_failure trades e.
Proof. rewrite collect_runs, <- keyed_failure. destruct (keyed_trades None trades); cbn [rbind]; split; congruence. Qed.

(** *** Over a calendar that partitions time *)

Definition lawful_calendar : Prop := lawful (fun ts => bucket_bounds calendar ts interval).
Definition inside (b : Z * Z) (t : Trade) : bool := (fst b <=? tr_ts_event_ns t) && (tr_ts_event_ns t <? snd b).
Definition before_run (g g' : Z * Z * list Trade) : Prop := snd (fst g) <= fst (fst g').

Lemma inside_true b t : inside b t = true <-> fst b <= tr_ts_event_ns t < snd b.
Proof. unfold inside. rewrite andb_true_iff, Z.leb_le, Z.ltb_lt. done. Qed.

Lemma has_bucket_inside b t : lawful_calendar -> has_bucket b t -> inside b t = true.
Proof. intros Hlaw Hb. apply inside_true. destruct b. by destruct (Hlaw _ _ _ Hb). Qed.

(** A later trade of another bucket is in a later one. *)
Lemma later_bucket b b' t t' :
  lawful_calendar -> has_bucket b t -> has_bucket b' t' -> in_order t t' -> b <> b' -> snd b <= fst b'.
Proof.
  intros Hlaw Hb Hb' Ho Hne. destruct b as [s e], b' as [s' e']. destruct (Hlaw _ _ _ Hb) as [B Ball], (Hlaw _ _ _ Hb') as [B' Ball'].
  unfold in_order in Ho. cbn [fst snd]. destruct (Z.le_gt_cases e s'); [done|]. exfalso. apply Hne.
  assert (s <= tr_ts_event_ns t' < e \/ e <= tr_ts_event_ns t') as [Hin|Hin] by lia.
  - pose proof (Ball _ Hin) as E. unfold has_bucket in Hb'. congruence.
  - pose proof (Ball (e - 1) ltac:(lia)) as E. pose proof (Ball' (e - 1) ltac:(lia)) as E'. cbn in E, E'. congruence.
Qed.

Lemma runs_tail g gs trades : runs trades (g :: gs) -> runs (concat (map snd gs)) gs.
Proof.
  intros [_ Hb Hm]. split; [done| |by apply Sorted_inv in Hm as [? _]]. intros b ts Hg. apply Hb. by right.
Qed.

Lemma runs_in_time groups : forall trades,
  lawful_calendar -> Sorted in_order trades -> runs trades groups -> StronglySorted before_run groups.
Proof.
  induction groups as [|[b ts] gs IH]; intros trades Hlaw Ho Hr; [constructor|].
  apply Sorted_StronglySorted in Ho; [|unfold in_order; intros x y z; lia]. pose proof (runs_tail _ _ _ Hr) as Hr'.
  destruct Hr as [Ha Hb Hm]. cbn [map concat snd] in Ha. subst trades. apply StronglySorted_app in Ho as (Hx & Ho1 & Ho2).
  pose proof (IH _ Hlaw (StronglySorted_Sorted Ho2) Hr') as HS. constructor; [done|]. destruct gs as [|[b2 ts2] gs]; [constructor|].
  apply Sorted_inv in Hm as [_ Hd%HdRel_inv]. cbn [fst] in Hd.
  destruct (Hb b ts) as [N1 F1]; [by left|]. destruct (Hb b2 ts2) as [N2 F2]; [by right; left|].
  destruct ts as [|t l], ts2 as [|t2 l2]; [done..|]. apply Forall_cons in F1 as [T1 _], F2 as [T2 _].
  assert (snd b <= fst b2) as H12.
  { apply (later_bucket _ _ t t2); [done|done|done| |done]. apply Hx; [by left|]. cbn. by left. }
  constructor; [done|]. apply StronglySorted_inv in HS as [_ HS]. eapply Forall_impl; [exact HS|]. unfold before_run. cbn [fst].
  apply (has_bucket_inside _ _ Hlaw), inside_true in T2. intros g ?. lia.
Qed.

Lemma run_is_bucket trades groups b ts :
  lawful_calendar -> Sorted in_order trades -> runs trades groups -> (b, ts) ∈ groups -> ts = List.filter (inside b) trades.
Proof.
  intros Hlaw Ho Hr Hg. pose proof (runs_in_time _ _ Hlaw Ho Hr) as HS. destruct Hr as [<- Hb Hm].
  apply list_elem_of_split in Hg as (g1 & g2 & ->). apply StronglySorted_app in HS as (H1 & _ & [_ H2]%StronglySorted_inv).
  rewrite map_app, concat_app, List.filter_app. cbn [map concat snd]. rewrite List.filter_app.
  assert (forall g t, g ∈ g1 ++ (b, ts) :: g2 -> t ∈ snd g -> inside (fst g) t = true) as Hin.
  { intros [b' ts'] t Hg Ht. destruct (Hb _ _ Hg) as [_ Hf]. rewrite Forall_forall in Hf. apply has_bucket_inside; [done|]. by apply Hf. }
  assert (forall g t, g ∈ g1 \/ g ∈ g2 -> t ∈ snd g -> inside b t = false) as Hout.
  { intros g t Hg Ht. pose proof (Hin g t ltac:(set_solver) Ht) as Hi. apply inside_true in Hi. apply not_true_is_false. rewrite inside_true.
    rewrite Forall_forall in H2. destruct Hg as [Hg|Hg].
    - specialize (H1 g (b, ts) Hg ltac:(left)). unfold before_run in H1. cbn [fst] in H1. lia.
    - specialize (H2 g Hg). unfold before_run in H2. cbn [fst] in H2. lia. }
  assert (forall gs, (forall g, g ∈ gs -> g ∈ g1 \/ g ∈ g2) -> List.filter (inside b) (concat (map snd gs)) = []) as Hnone.
  { intros gs Hsub. apply filter_none. intros t (l & (g & <- & Hg)%in_map_iff & Ht)%list_elem_of_In%in_concat.
    apply (Hout g t); [by apply Hsub, list_elem_of_In|by apply list_elem_of_In]. }
  rewrite !Hnone by auto. rewrite app_nil_r. symmetry. apply filter_all. intros t Ht. apply (Hin (b, ts)); [set_solver|done].
Qed.

(** One bar per bucket, in time order, and no trade outside the bars. *)
Definition bar_bounds (bar : Bar) : Z * Z := (br_start_ns bar, br_end_ns bar).
Definition one_bar_per_bucket (cov : Z) (gaps : list KnownGap) (trades : list Trade) (bars : list Bar) : Prop :=
  StronglySorted (fun x y => br_end_ns x <= br_start_ns y) bars
  /\ Forall (fun bar => bar_spec cov gaps (bar_bounds bar, List.filter (inside (bar_bounds bar)) trades) bar) bars
  /\ Forall (fun t => Exists (fun bar => inside (bar_bounds bar) t = true) bars) trades.

Lemma lawful_bars cov gaps trades bars :
  lawful_calendar -> bars_spec cov gaps trades bars -> one_bar_per_bucket cov gaps trades bars.
Proof.
  intros Hlaw (Ho & groups & Hr & Hf). pose proof (runs_in_time _ _ Hlaw Ho Hr) as HS. split_and!.
  - clear Hr. induction Hf as [|g bar gs bars Hb Hf IH]; [constructor|]. apply StronglySorted_inv in HS as [HS Hall].
    constructor; [by apply IH|]. apply Forall_forall. intros bar' Hbar'.
    apply list_elem_of_lookup in Hbar' as (i & Hi). destruct (Forall2_lookup_r _ _ _ _ _ Hf Hi) as (g' & Hg' & Hs').
    rewrite Forall_forall in Hall. specialize (Hall g' (list_elem_of_lookup_2 _ _ _ Hg')). unfold before_run in Hall.
    rewrite <- (bs_bounds _ _ _ _ Hb), <- (bs_bounds _ _ _ _ Hs') in Hall. done.
  - apply Forall_forall. intros bar Hbar. apply list_elem_of_lookup in Hbar as (i & Hi).
    destruct (Forall2_lookup_r _ _ _ _ _ Hf Hi) as ([b ts] & Hg & Hs). unfold bar_bounds. rewrite (bs_bounds _ _ _ _ Hs). cbn [fst].
    rewrite <- (run_is_bucket _ _ _ _ Hlaw Ho Hr (list_elem_of_lookup_2 _ _ _ Hg)). done.
  - apply Forall_forall. intros t Ht. rewrite <- (rn_all _ _ Hr) in Ht.
    apply list_elem_of_In, in_concat in Ht as (l & ([b ts] & <- & Hg)%in_map_iff & Ht). apply list_elem_of_In in Hg, Ht. cbn [snd] in Ht.
    destruct (rn_bucket _ _ Hr _ _ Hg) as [_ HF]. rewrite Forall_forall in HF. specialize (HF t Ht).
    apply list_elem_of_lookup in Hg as (i & Hi). destruct (Forall2_lookup_l _ _ _ _ _ Hf Hi) as (bar & Hbar & Hs).
    apply Exists_exists. exists bar. split; [by eapply list_elem_of_lookup_2|]. unfold bar_bounds. rewrite (bs_bounds _ _ _ _ Hs).
    by apply has_bucket_inside.
Qed.
End Reference.

(** C29. The bars are those of a specification, over every calendar.  [aggregate_trades] returns [bars] exactly
    when the trades are in time order, each has a bucket, and [bars] are, one for one and in order, those
    of the maximal runs of consecutive trades with equal bounds: the bounds, the first, highest, lowest
    and last price, the total quantity and the count of the run, [INCOMPLETE_COVERAGE] exactly when the
    bucket ends after the coverage does, [KNOWN_GAP] and [SESSION_HALT] exactly when a gap or a halt of
    the calendar is not apart from the bucket, and complete exactly when there is no flag.  It fails
    exactly with the failure of the first trade that is out of order or has no bucket.  Over the
    continuous calendar there is then one bar per bucket, in time order, made of all the trades of the
    bucket, and every trade is in a bar. *)
Theorem aggregate_reference trades name interval calendar coverage_end_ns gaps :
  parse_interval name = Ok interval ->
  (forall bars, aggregate_trades trades name calendar coverage_end_ns gaps = Ok bars
     <-> bars_spec calendar interval coverage_end_ns gaps trades bars)
  /\ (forall e, aggregate_trades trades name calendar coverage_end_ns gaps = Raise e <-> first_failure calendar interval trades e)
  /\ (forall bars, aggregate_trades trades name crypto_calendar coverage_end_ns gaps = Ok bars ->
        one_bar_per_bucket crypto_calendar interval coverage_end_ns gaps trades bars).
Proof.
  intros Hi. unfold aggregate_trades. rewrite Hi. cbn [rbind]. split_and!.
  - intros bars. apply collect_Ok.
  - intros e. apply collect_Raise.
  - intros bars Hbars%collect_Ok. apply lawful_bars; [|done]. apply (crypto_lawful interval).
    intros n. by apply (parse_interval_positive name).
Qed.

Definition demo_trades : list Trade :=
  [mk_trade 60000000000 100 2; mk_trade 61000000000 105 1; mk_trade 119999999999 99 4; mk_trade 300000000000 101 1].
Definition demo_minute : Interval := mk_interval "1m" (Some 60000000000) None.
Definition demo_bars : list Bar :=
  [mk_bar "1m" 60000000000 120000000000 100 105 99 99 7 3 false ["KNOWN_GAP"];
   mk_bar "1m" 300000000000 360000000000 101 101 101 101 1 1 true []].

(** A gap that ends where the second bucket begins, and coverage that ends where it ends, raise no flag. *)
Lemma aggregate_reference_witness :
  bars_spec crypto_calendar demo_minute 360000000000 [mk_gap 0 70000000000; mk_gap 240000000000 300000000000] demo_trades demo_bars
  /\ one_bar_per_bucket crypto_calendar demo_minute 360000000000 [mk_gap 0 70000000000; mk_gap 240000000000 300000000000] demo_trades demo_bars
  /\ first_failure crypto_calendar demo_minute [mk_trade 60 1 1; mk_trade 59 1 1] ValueError.
Proof.
  split_and!.
  - apply (aggregate_reference demo_trades "1m" demo_minute crypto_calendar); vm_compute; reflexivity.
  - apply (aggregate_reference demo_trades "1m" demo_minute crypto_calendar); vm_compute; reflexivity.
  - apply (aggregate_reference [mk_trade 60 1 1; mk_trade 59 1 1] "1m" demo_minute crypto_calendar 0 []); vm_compute; reflexivity.
Defined.
