(* ===== verification/Csv.v ===== *)
(** * CSV text (what the adapters use of Python's [csv] and of text decoding)

    [csv.reader] in its default dialect is a state machine over the characters of each line, with one
    call at the end of the line; a quoted field may run over several lines.  [csv.DictReader] takes the
    first record as the header. *)

From S2P Require Import Prelude PyStr PyText Bytes.
From Stdlib Require Import Ascii Strings.Byte.
From Stdlib Require String.

(** ** UTF-8 and ASCII *)

(** [bytes.decode("utf-8", errors="strict")]; code points above U+00FF have no text in this model. *)
Fixpoint utf8_decode (bs : bytes) : result string :=
  match bs with
  | [] => Ok EmptyString
  | b :: bs' =>
      let v := Z_of_byte b in
      if v <? 128 then let! s := utf8_decode bs' in Ok (String (ascii_of_N (Z.to_N v)) s)
      else match bs' with
           | c :: bs2 =>
               let w := Z_of_byte c in
               if (194 <=? v) && (v <=? 195) && (128 <=? w) && (w <=? 191)
               then let! s := utf8_decode bs2 in Ok (String (ascii_of_N (Z.to_N ((v - 192) * 64 + (w - 128)))) s)
               else Raise UnicodeDecodeError
           | [] => Raise UnicodeDecodeError
           end
  end.

Fixpoint ascii_decode (bs : bytes) : result string :=
  match bs with
  | [] => Ok EmptyString
  | b :: bs' => if Z_of_byte b <? 128 then let! s := ascii_decode bs' in Ok (String (ascii_of_N (Byte.to_N b)) s) else Raise UnicodeDecodeError
  end.

(** ** Lines *)

(** The lines of [StringIO(text, newline="")], with their terminators. *)
Fixpoint split_lines (s : string) : list string :=
  match s with
  | EmptyString => []
  | String c s' =>
      if code c =? 10 then String c EmptyString :: split_lines s'
      else if code c =? 13 then
        match s' with
        | String d s2 => if code d =? 10 then String c (String d EmptyString) :: split_lines s2
                         else String c EmptyString :: split_lines s'
        | EmptyString => [String c EmptyString]
        end
      else match split_lines s' with
           | l :: ls => String c l :: ls
           | [] => [String c EmptyString]
           end
  end.

(** ** The reader *)

Inductive CsvState :=
| START_RECORD | START_FIELD | IN_FIELD | IN_QUOTED_FIELD | QUOTE_IN_QUOTED_FIELD | EAT_CRNL.

(** The state, the fields of the record, and the characters of the field, both latest first. *)
Record Parser := mk_parser { ps_state : CsvState; ps_fields : list string; ps_field : list ascii }.

Definition FIELD_LIMIT : Z := 131072.

Definition text_of_chars (l : list ascii) : string := String.string_of_list_ascii (rev l).
Definition save_field (next : CsvState) (p : Parser) : Parser := mk_parser next (text_of_chars (ps_field p) :: ps_fields p) [].
Definition add_char (next : CsvState) (c : ascii) (p : Parser) : result Parser :=
  if FIELD_LIMIT <=? Z.of_nat (length (ps_field p)) then Raise CsvError else Ok (mk_parser next (ps_fields p) (c :: ps_field p)).
Definition to_state (next : CsvState) (p : Parser) : Parser := mk_parser next (ps_fields p) (ps_field p).

Definition is_newline (c : ascii) : bool := (code c =? 10) || (code c =? 13).
Definition is_quote (c : ascii) : bool := code c =? 34.
Definition is_comma (c : ascii) : bool := code c =? 44.

(** [parse_process_char] on a character. *)
Definition process_char (c : ascii) (p : Parser) : result Parser :=
  let start_field p :=
    if is_newline c then Ok (save_field EAT_CRNL p)
    else if is_quote c then Ok (to_state IN_QUOTED_FIELD p)
    else if is_comma c then Ok (save_field START_FIELD p)
    else add_char IN_FIELD c p in
  match ps_state p with
  | START_RECORD => if is_newline c then Ok (to_state EAT_CRNL p) else start_field p
  | START_FIELD => start_field p
  | IN_FIELD =>
      if is_newline c then Ok (save_field EAT_CRNL p)
      else if is_comma c then Ok (save_field START_FIELD p)
      else add_char IN_FIELD c p
  | IN_QUOTED_FIELD => if is_quote c then Ok (to_state QUOTE_IN_QUOTED_FIELD p) else add_char IN_QUOTED_FIELD c p
  | QUOTE_IN_QUOTED_FIELD =>
      if is_quote c then add_char IN_QUOTED_FIELD c p
      else if is_comma c then Ok (save_field START_FIELD p)
      else if is_newline c then Ok (save_field EAT_CRNL p)
      else add_char IN_FIELD c p
  | EAT_CRNL => if is_newline c then Ok p else Raise CsvError
  end.

(** [parse_process_char] at the end of a line. *)
Definition process_eol (p : Parser) : Parser :=
  match ps_state p with
  | START_RECORD => p
  | START_FIELD | IN_FIELD | QUOTE_IN_QUOTED_FIELD => save_field START_RECORD p
  | IN_QUOTED_FIELD => p
  | EAT_CRNL => to_state START_RECORD p
  end.

Fixpoint process_line (line : string) (p : Parser) : result Parser :=
  match line with
  | EmptyString => Ok (process_eol p)
  | String c line' => let! p' := process_char c p in process_line line' p'
  end.

Definition new_parser : Parser := mk_parser START_RECORD [] [].

(** The records a reader yields, in order, and the exception that ends them, if any.  A record ends when
    the parser is back at its start. *)
Fixpoint read_records (lines : list string) (p : Parser) : list (list string) * option exn :=
  match lines with
  | [] =>
      match ps_state p with
      | IN_QUOTED_FIELD => ([rev (ps_fields (save_field START_RECORD p))], None)
      | _ => (match ps_field p with [] => [] | _ => [rev (ps_fields (save_field START_RECORD p))] end, None)
      end
  | line :: lines' =>
      match process_line line p with
      | Raise e => ([], Some e)
      | Ok p' =>
          match ps_state p' with
          | START_RECORD => let '(rest, e) := read_records lines' new_parser in (rev (ps_fields p') :: rest, e)
          | _ => read_records lines' p'
          end
      end
  end.

Definition csv_records (text : string) : list (list string) * option exn := read_records (split_lines text) new_parser.

(** [list(csv.reader(...))]. *)
Definition csv_list (text : string) : result (list (list string)) :=
  match csv_records text with (rows, None) => Ok rows | (_, Some e) => Raise e end.

(** ** [csv.DictReader] *)

(** A row: the cells under the header, [None] where the record is short, and the surplus cells. *)
Record DictRow := mk_row { dr_cells : list (string * option string); dr_rest : list string }.

Fixpoint zip_cells (header record : list string) : list (string * option string) :=
  match header, record with
  | [], _ => []
  | h :: header', [] => (h, None) :: zip_cells header' []
  | h :: header', v :: record' => (h, Some v) :: zip_cells header' record'
  end.

Definition dict_row (header record : list string) : DictRow :=
  mk_row (zip_cells header record) (drop (length header) record).

(** A later column of the same name replaces an earlier one. *)
Fixpoint cell (name : string) (cells : list (string * option string)) : option (option string) :=
  match cells with
  | [] => None
  | (h, v) :: l => match cell name l with Some w => Some w | None => if String.eqb name h then Some v else None end
  end.

(** The header and the rows that iteration yields: blank records are skipped, and the header is the first
    record even when it is blank. *)
Definition dict_reader (text : string) : option (list string) * list DictRow * option exn :=
  match csv_records text with
  | ([], e) => (None, [], e)
  | (header :: records, e) =>
      (Some header, map (dict_row header) (List.filter (fun r => match r with [] => false | _ => true end) records), e)
  end.

Example csv_examples :
  let nl := String "010" EmptyString in let cr := String "013" EmptyString in let q := String "034" EmptyString in
  csv_list ("a,b" +:+ nl +:+ "1," +:+ cr +:+ nl +:+ nl +:+ q +:+ "x,y" +:+ q +:+ q +:+ nl +:+ "z" +:+ q +:+ ",w")
  = Ok [["a"; "b"]; ["1"; ""]; []; ["x,y" +:+ q +:+ nl +:+ "z"; "w"]]
  /\ csv_list "" = Ok [] /\ csv_list (q +:+ "open") = Ok [["open"]]
  /\ dict_row ["a"; "b"] ["1"; "2"; "3"] = mk_row [("a", Some "1"); ("b", Some "2")] ["3"]
  /\ cell "b" (dr_cells (dict_row ["a"; "b"] ["1"])) = Some None.
Proof. vm_compute. split_and!; reflexivity. Qed.
