(* ===== verification/Events.v ===== *)
(** * What the adapters share

    [typed_event] is what an adapter promises of its events, field by field; [writable] is what
    [write_canonical] asks: a JSON object with sortable time fields.  Typed events are writable
    ([typed_writable]) and writable events always make a file ([writable_body]).  The last section is
    about plans of one chunk per day. *)

From S2P Require Import Prelude Sort PyStr PyText Bytes PyJson JsonParse Dates IngestModel.
From Stdlib Require String.

Definition writable (v : pyval) : Prop :=
  json_ok v = true /\ exists d k, v = VDict d /\ event_sort_key d = Ok k.

Lemma json_ok_value v : json_ok v = true -> json_value v = true.
Proof.
  induction v as [| | | | |l IH|d IH|] using pyval_ind'; try done.
  - cbn. rewrite !forallb_forall. intros H x Hx. rewrite Forall_forall in IH. apply IH; [by apply list_elem_of_In|by apply H].
  - intros [Hd _]%json_ok_dict. cbn. apply forallb_forall. intros [k x] Hx. apply list_elem_of_In in Hx.
    rewrite Forall_forall in Hd, IH. destruct (Hd _ Hx) as [Hk Hv]. cbn in Hk, Hv. destruct k; [by apply (IH _ Hx)|done].
Qed.

Lemma canonical_bytes_total v : json_ok v = true -> exists b, canonical_bytes v = Ok b.
Proof.
  intros H. unfold canonical_bytes, require_json_value. rewrite (json_ok_value v H). cbn [rbind].
  destruct (dumps_total false v H) as (t & ->). eauto.
Qed.

Lemma rmap_total {A B} (f : A -> result B) l : Forall (fun x => exists y, f x = Ok y) l -> exists ys, rmap f l = Ok ys.
Proof.
  induction 1 as [|x l (y & Hy) _ (ys & IH)]; [by exists []|]. exists (y :: ys). cbn. by rewrite Hy, IH.
Qed.

Lemma writable_body events : Forall writable events -> exists body, canonical_body events = Ok body.
Proof.
  intros H. unfold canonical_body.
  assert (exists ds, rmap normalized_event events = Ok ds
    /\ Forall (fun d => json_ok (VDict d) = true /\ exists k, event_sort_key d = Ok k) ds) as (ds & -> & Hds).
  { induction H as [|v l (Hj & d & k & -> & Hk) _ (ds & IH & Hds)]; [by exists []|]. exists (d :: ds). cbn [rmap].
    unfold normalized_event at 1, require_json_value. rewrite (json_ok_value _ Hj). cbn [rbind]. rewrite IH. cbn [rbind].
    split; [done|]. constructor; eauto. }
  cbn [rbind]. assert (exists ks, rmap keyed_event ds = Ok ks /\ Forall (fun p => json_ok (VDict (snd p)) = true) ks) as (ks & -> & Hks).
  { clear -Hds. induction Hds as [|d l (Hj & k & Hk) _ (ks & IH & Hks)]; [by exists []|]. exists ((k, d) :: ks). cbn [rmap].
    unfold keyed_event at 1. rewrite Hk. cbn [rbind]. rewrite IH. cbn [rbind]. split; [done|]. by constructor. }
  cbn [rbind]. destruct (rmap_total (fun p => canonical_bytes (VDict (snd p))) (py_sorted fst ks)) as (lines & ->); [|eauto].
  rewrite py_sorted_perm. eapply Forall_impl; [exact Hks|]. intros p Hp. by apply canonical_bytes_total.
Qed.

(** ** Time fields *)

Definition int64_text (t : string) : Prop := exists n, py_int t = Ok n /\ 0 <= n.

Lemma str_Z_int n : - 2 ^ 63 <= n < 2 ^ 64 -> exists v, py_int (str_Z n) = Ok v.
Proof. intros H. exists n. by apply py_int_str_Z. Qed.

Lemma digits_int_nonneg t n : all_chars is_ascii_digit t = true -> py_int t = Ok n -> 0 <= n.
Proof.
  intros Hd H. rewrite py_int_digits in H by done. destruct (decide (t = EmptyString)) as [->|Hne]; [done|].
  rewrite int_digits_value in H by auto. destruct (_ <? _); [done|]. injection H as <-. by apply dec_value_nonneg.
Qed.

(** [event_sort_key] on an event that has the three fields. *)
Lemma event_sort_key_fields d ts seq tie a b c :
  dict_get "ts_event_ns" d = Some (VStr ts) ->
  dict_get "source_sequence" d = seq -> (forall v, seq = Some v -> exists s, v = VStr s /\ py_int s = Ok b) -> (seq = None -> b = 0) ->
  dict_get "canonical_tie_breaker" d = Some (VStr tie) ->
  py_int ts = Ok a -> py_int tie = Ok c -> event_sort_key d = Ok (a, b, c).
Proof.
  intros H1 <- Hs Hn H3 Ha Hc. unfold event_sort_key, event_field. rewrite H1, H3. cbn [default id].
  destruct (dict_get "source_sequence" d) as [v|].
  - destruct (Hs v eq_refl) as (s & -> & Hb). cbn [default id rbind]. by rewrite Ha, Hb, Hc.
  - rewrite (Hn eq_refl). cbn [default id rbind]. by rewrite Ha, Hc.
Qed.

(** ** Typed events *)

(** A text that [int] reads as a number below [2^64]. *)
Definition uint_text (s : string) : Prop := exists n, py_int s = Ok n /\ 0 <= n < 2 ^ 64.

(** An event of the dataset, instrument and venue, of one of the [kinds], with a payload that satisfies
    [payload] for its kind. *)
Record typed_event (dataset instrument venue : string) (kinds : list string) (payload : string -> pydict -> Prop) (d : pydict) : Prop := mk_typed {
  te_identity : dict_get "schema_version" d = Some (VStr "1.0.0") /\ dict_get "dataset_id" d = Some (VStr dataset)
    /\ dict_get "instrument_id" d = Some (VStr instrument) /\ dict_get "venue_id" d = Some (VStr venue);
  te_time : exists ts, dict_get "ts_event_ns" d = Some (VStr (str_Z ts)) /\ 0 <= ts <= I64_MAX;
  te_tie : exists s, dict_get "canonical_tie_breaker" d = Some (VStr s) /\ uint_text s;
  te_sequence : forall v, dict_get "source_sequence" d = Some v -> exists s, v = VStr s /\ uint_text s;
  te_source_id : exists s, dict_get "source_event_id" d = Some (VStr s);
  te_payload : exists kind p, dict_get "kind" d = Some (VStr kind) /\ kind ∈ kinds
    /\ dict_get "payload" d = Some (VDict p) /\ payload kind p;
  te_flags : exists flags, dict_get "quality_flags" d = Some (VList (map VStr flags));
  te_json : json_ok (VDict d) = true;
}.

Lemma typed_writable dataset instrument venue kinds payload d :
  typed_event dataset instrument venue kinds payload d -> writable (VDict d).
Proof.
  intros [_ (ts & Hts & Hb) (tie & Htie & c & Hc & _) Hseq _ _ _ Hj]. split; [done|]. unfold I64_MAX in Hb.
  destruct (str_Z_int ts ltac:(lia)) as (a & Ha). destruct (dict_get "source_sequence" d) as [v|] eqn:E.
  - destruct (Hseq v eq_refl) as (s & -> & b & Hb' & _). exists d, (a, b, c). split; [done|].
    apply (event_sort_key_fields d (str_Z ts) (Some (VStr s)) tie); try done. intros ? [= <-]. eauto.
  - exists d, (a, 0, c). split; [done|]. by apply (event_sort_key_fields d (str_Z ts) None tie).
Qed.

(** ** Plans of days *)

Lemma Forall2_map_l {A B} (f : B -> A) ds l : Forall2 (fun d c => f c = d) ds l -> map f l = ds.
Proof. induction 1 as [|d c ds l E _ IH]; [done|]. cbn. by rewrite E, IH. Qed.

(** One result per day, from a first day on. *)
Lemma rmap_days {A} (f : date -> result A) first count l :
  rmap (fun offset => let! day := date_add first offset in f day) (seqZ 0 count) = Ok l ->
  Forall2 (fun day c => in_date_range day = true /\ f day = Ok c) (seqZ first count) l.
Proof.
  intros H%rmap_Ok. rewrite <- (Z.add_0_r first) at 1. rewrite <- (fmap_add_seqZ first 0 count). apply Forall2_fmap_l.
  eapply Forall2_impl; [exact H|]. intros o c Hc. apply rbind_Ok in Hc as (day & Hday & Hc). by apply date_add_Ok in Hday as (_ & Hr & ->).
Qed.

(** The days between those of the ends of a half-open range are the days of its instants. *)
Lemma range_days a b first last :
  0 <= a < b -> date_add UNIX_EPOCH (a / DAY_NS) = Ok first -> date_add UNIX_EPOCH ((b - 1) / DAY_NS) = Ok last ->
  forall d, d ∈ seqZ first (last - first + 1) <-> exists t, a <= t < b /\ day_of t = d.
Proof.
  intros Hab (_ & _ & ->)%date_add_Ok (_ & _ & ->)%date_add_Ok d. rewrite elem_of_seqZ, <- days_of_range by done. lia.
Qed.

Lemma seqZ_sorted m n : StronglySorted Z.lt (seqZ m n).
Proof.
  unfold seqZ. generalize 0%nat. induction (Z.to_nat n) as [|k IH]; intros j; cbn; constructor; [apply IH|].
  apply Forall_forall. intros x Hx. apply list_elem_of_fmap in Hx as (i & -> & Hi). apply elem_of_seq in Hi. lia.
Qed.

(** Keys that end with the day are distinct. *)
Lemma day_keys prefix days chunks :
  Forall2 (fun day c => in_date_range day = true /\ ch_key c = prefix +:+ date_isoformat day) days chunks ->
  NoDup days -> NoDup (map ch_key chunks).
Proof.
  induction 1 as [|day c days chunks [Hr Hk] HF IH]; cbn; [constructor|]. intros [Hd Hn]%NoDup_cons. constructor; [|by apply IH].
  rewrite elem_of_mapl. intros (c' & E & Hc'). apply Hd. apply list_elem_of_lookup in Hc' as (i & Hi).
  destruct (Forall2_lookup_r _ _ _ _ _ HF Hi) as (d' & Hd' & Hr' & Hk'). rewrite Hk, Hk' in E. apply append_inj_l in E.
  rewrite (isoformat_inj _ _ Hr Hr' E). by eapply list_elem_of_lookup_2.
Qed.
