(* ===== verification/Binance.v ===== *)
(** * The Binance public-data adapter ([workers/ingest/.../adapters/binance_public])

    Planning, verified download and normalization of daily archives.  The network is the transport of
    the code ([HttpTransport]); the ZIP container is the interface [ZipReader]. *)

From S2P Require Import Prelude Sort PyStr PyText Bytes PyJson JsonParse Dates Decimal Csv IngestModel Events.
From Stdlib Require Import Ascii.
From Stdlib Require String.

Definition SPOT_MICROSECOND_START : date := 739252.
Definition BASE_URL : string := "https://data.binance.vision".

Example spot_start : date_new 2025 1 1 = Ok SPOT_MICROSECOND_START.
Proof. reflexivity. Qed.

Inductive BinanceProduct := SPOT | USD_M | COIN_M.
Inductive BinanceDataKind := KLINES | TRADES | AGG_TRADES.
#[export] Instance BinanceProduct_eq_dec : EqDecision BinanceProduct.
Proof. solve_decision. Defined.
#[export] Instance BinanceDataKind_eq_dec : EqDecision BinanceDataKind.
Proof. solve_decision. Defined.
Definition product_value (p : BinanceProduct) : string := match p with SPOT => "spot" | USD_M => "um" | COIN_M => "cm" end.
Definition kind_value (k : BinanceDataKind) : string := match k with KLINES => "klines" | TRADES => "trades" | AGG_TRADES => "aggTrades" end.

Record BinancePublicConfig := mk_binance_config {
  bc_product : BinanceProduct;
  bc_data_kind : BinanceDataKind;
  bc_symbol : string;
  bc_instrument_id : string;
  bc_dataset_id : string;
  bc_price_scale : Z;
  bc_qty_scale : Z;
  bc_interval : option string;
  bc_max_archive_bytes : Z;
  bc_max_uncompressed_bytes : Z;
}.

Definition BinancePublicConfig_post_init (c : BinancePublicConfig) : result BinancePublicConfig :=
  let scale_ok s := (0 <=? s) && (s <=? 18) in
  let! _ := raise_if (is_empty (bc_symbol c) || negb (is_upper_text (bc_symbol c))) ValueError in
  let! _ := raise_if (is_empty (bc_instrument_id c) || is_empty (bc_dataset_id c)) ValueError in
  let! _ := raise_if (negb (scale_ok (bc_price_scale c)) || negb (scale_ok (bc_qty_scale c))) ValueError in
  let! _ := raise_if (bool_decide (bc_data_kind c = KLINES) && match bc_interval c with Some i => is_empty i | None => true end) ValueError in
  let! _ := raise_if (negb (bool_decide (bc_data_kind c = KLINES)) && match bc_interval c with Some _ => true | None => false end) ValueError in
  let! _ := raise_if ((bc_max_archive_bytes c <=? 0) || (bc_max_uncompressed_bytes c <=? 0)) ValueError in
  Ok c.

Definition capabilities (c : BinancePublicConfig) : list string :=
  if decide (bc_data_kind c = KLINES) then ["F0"] else ["F0T"].
Definition venue_id (c : BinancePublicConfig) : string :=
  match bc_product c with SPOT => "BINANCE_SPOT" | USD_M => "BINANCE_USDM" | COIN_M => "BINANCE_COINM" end.

(** ** Numbers *)

Definition timestamp_to_ns (raw : string) (product : BinanceProduct) (archive_day : date) : result Z :=
  let! value := py_int raw in
  let multiplier := if bool_decide (product = SPOT) && (SPOT_MICROSECOND_START <=? archive_day) then 1000 else 1000000 in
  let result := value * multiplier in
  let! _ := raise_if (I64_MAX <? result) BinanceSchemaError in Ok result.

Definition canonical_uint (value : string) : result string :=
  let text := py_strip value in
  let! _ := raise_if (is_empty text || negb (py_isascii text) || negb (py_isdigit text)) ValueError in
  let! _ := raise_if ((1 <? py_len text) && starts_with "0" text) ValueError in
  let! v := py_int text in
  let! _ := raise_if (U64_MAX <? v) ValueError in
  Ok text.

Definition decimal_atoms (value : string) (scale : Z) (signed positive : bool) : result Z :=
  match decimal_of_text (py_strip value) with
  | None => Raise ValueError
  | Some DSpecial => Raise ValueError
  | Some d =>
      let! scaled := dec_scaleb scale d in
      let! atoms := of_option ValueError (dec_exact_int scaled) in
      let! _ := raise_if (positive && (atoms <=? 0)) ValueError in
      let! _ := raise_if (negb signed && (atoms <? 0)) ValueError in
      let lower := if signed then I64_MIN else 0 in
      let upper := if signed then I64_MAX else U64_MAX in
      let! _ := raise_if ((atoms <? lower) || (upper <? atoms)) ValueError in
      Ok atoms
  end.

Definition boolean (value : string) : result bool :=
  let normalized := py_lower (py_strip value) in
  if String.eqb normalized "true" then Ok true
  else if String.eqb normalized "false" then Ok false else Raise ValueError.

(** [except (IndexError, ValueError) as error: raise BinanceSchemaError]. *)
Definition malformed_row {A} (r : result A) : result A :=
  catch_res (fun e => match e with IndexError | ValueError => BinanceSchemaError | _ => e end) r.

Definition column (row : list string) (i : nat) : result string := of_option IndexError (nth_error row i).

(** ** The network *)

(** What is outside: responses of at most a given number of bytes. *)
Class UrlOpen (Net : Type) := { url_read : string -> Z -> ST Net bytes }.

(** [UrlLibTransport.get]. *)
Definition transport_get {Net} `{UrlOpen Net} (url : string) (max_bytes : Z) : ST Net bytes :=
  payload <- url_read url (max_bytes + 1) ;;
  lift (raise_if (max_bytes <? Z.of_nat (length payload)) BinanceIntegrityError) ;;;
  sret payload.

Class HttpTransport (Net : Type) := { tp_get : string -> Z -> ST Net bytes }.
#[export] Instance urllib_transport {Net} `{UrlOpen Net} : HttpTransport Net := { tp_get := transport_get }.

(** The adapter's own state is the checksums that it has verified. *)
Record Fetching (Net : Type) := mk_fetching { fs_net : Net; fs_observed : gmap string string }.
Arguments mk_fetching {Net}.
Arguments fs_net {Net}.
Arguments fs_observed {Net}.

Definition on_transport {Net A} (m : ST Net A) : ST (Fetching Net) A := fun s =>
  let '(r, n) := m (fs_net s) in (r, mk_fetching n (fs_observed s)).
Definition observe {Net} (source_ref digest : string) : ST (Fetching Net) unit := fun s =>
  (Ok tt, mk_fetching (fs_net s) (<[source_ref := digest]> (fs_observed s))).

(** The ZIP container. *)
Record ZipInfo := mk_zip_info { zi_filename : string; zi_is_dir : bool; zi_file_size : Z }.
Class ZipReader := {
  zip_infolist : bytes -> result (list ZipInfo);
  zip_read : bytes -> ZipInfo -> Z -> result bytes;
}.

(** ** Sources *)

Section Adapter.
Variable config : BinancePublicConfig.

Definition archive_filename (day : date) : result string :=
  match bc_data_kind config with
  | KLINES =>
      let! interval := of_option AssertionError (bc_interval config) in
      Ok (bc_symbol config +:+ "-" +:+ interval +:+ "-" +:+ date_isoformat day +:+ ".zip")
  | kind => Ok (bc_symbol config +:+ "-" +:+ kind_value kind +:+ "-" +:+ date_isoformat day +:+ ".zip")
  end.

Definition archive_url (day : date) : result string :=
  let product_path := match bc_product config with SPOT => "spot" | p => "futures/" +:+ product_value p end in
  let! filename := archive_filename day in
  let! suffix :=
    match bc_data_kind config with
    | KLINES =>
        let! interval := of_option AssertionError (bc_interval config) in
        Ok ("klines/" +:+ bc_symbol config +:+ "/" +:+ interval +:+ "/" +:+ filename)
    | kind => Ok (kind_value kind +:+ "/" +:+ bc_symbol config +:+ "/" +:+ filename)
    end in
  Ok (BASE_URL +:+ "/data/" +:+ product_path +:+ "/daily/" +:+ suffix).

Definition archive_day (source_ref : string) : result date :=
  let filename := path_name source_ref in
  let! _ := raise_if (negb (py_endswith ".zip" filename)) BinanceRequestError in
  catch_res (fun e => match e with ValueError => BinanceRequestError | _ => e end)
    (date_fromisoformat (last_chars 10 (removesuffix ".zip" filename))).

Definition validate_source_ref (source_ref : string) : result unit :=
  let! _ := raise_if (negb (py_startswith (BASE_URL +:+ "/data/") source_ref) || negb (py_endswith ".zip" source_ref)) BinanceRequestError in
  let! _ := archive_day source_ref in Ok tt.

Definition day_chunk (day : date) : result FetchChunk :=
  let! url := archive_url day in
  Ok (mk_chunk (product_value (bc_product config) +:+ ":" +:+ kind_value (bc_data_kind config) +:+ ":" +:+ date_isoformat day) url None 0).

(** The days of a half-open range of nanoseconds, one chunk each. *)
Definition plan (request : FetchRequest) : result FetchPlan :=
  let! _ := raise_if (negb (String.eqb (fq_provider request) "binance_public")) BinanceRequestError in
  let! _ := raise_if (negb (String.eqb (fq_instrument_id request) (bc_instrument_id config))) BinanceRequestError in
  let! _ := raise_if (negb (String.eqb (fq_dataset request) (kind_value (bc_data_kind config)))) BinanceRequestError in
  let! _ := raise_if ((fq_start_ns request <? 0) || (fq_end_ns request <=? fq_start_ns request)) BinanceRequestError in
  let! first_day := date_add UNIX_EPOCH (fq_start_ns request / DAY_NS) in
  let! last_day := date_add UNIX_EPOCH ((fq_end_ns request - 1) / DAY_NS) in
  let count := last_day - first_day + 1 in
  rmap (fun offset => let! day := date_add first_day offset in day_chunk day) (seqZ 0 count).

(** ** Download *)

Definition parse_checksum (source_ref : string) (document : bytes) : result string :=
  let! text := catch_res (fun e => match e with UnicodeDecodeError => BinanceIntegrityError | _ => e end) (ascii_decode document) in
  match py_split (py_strip text) with
  | [part0; part1] =>
      let digest := py_lower part0 in
      let! _ := raise_if (negb (py_len digest =? 64) || negb (all_chars is_hex_char digest)) BinanceIntegrityError in
      let! _ := raise_if (negb (String.eqb (removeprefix "*" part1) (path_name source_ref))) BinanceIntegrityError in
      Ok digest
  | _ => Raise BinanceIntegrityError
  end.

Definition fetch {Net} `{HttpTransport Net} (known_checksums : gmap string string) (chunk : FetchChunk) : ST (Fetching Net) bytes :=
  let source_ref := ch_source_ref chunk in
  lift (validate_source_ref source_ref) ;;;
  raw <- on_transport (tp_get source_ref (bc_max_archive_bytes config)) ;;
  checksum_document <- on_transport (tp_get (source_ref +:+ ".CHECKSUM") 4096) ;;
  expected <- lift (parse_checksum source_ref checksum_document) ;;
  lift (raise_if (negb (String.eqb (sha256_hex raw) expected)) BinanceIntegrityError) ;;;
  lift (raise_if (match known_checksums !! source_ref with Some previous => negb (String.eqb previous expected) | None => false end)
          ArchiveRevisionDetected) ;;;
  observe source_ref expected ;;;
  sret raw.

Definition observed_checksum {Net} (source_ref : string) (s : Fetching Net) : option string := fs_observed s !! source_ref.

(** ** Normalization *)

Section Normalize.
Context `{ZipReader}.

Definition bad_archive {A} (r : result A) : result A :=
  catch_res (fun e => match e with BadZipFile => BinanceIntegrityError | _ => e end) r.

(** The single member of the archive. *)
Definition archive_payload (source_ref : string) (raw : bytes) : result bytes :=
  bad_archive (
    let! infos := zip_infolist raw in
    match infos with
    | [info] =>
        let expected_csv := removesuffix ".zip" (path_name source_ref) +:+ ".csv" in
        let! _ := raise_if (zi_is_dir info || negb (String.eqb (path_name (zi_filename info)) (zi_filename info))) BinanceIntegrityError in
        let! _ := raise_if (negb (String.eqb (zi_filename info) expected_csv)) BinanceIntegrityError in
        let! _ := raise_if (bc_max_uncompressed_bytes config <? zi_file_size info) BinanceIntegrityError in
        zip_read raw info (bc_max_uncompressed_bytes config + 1)
    | _ => Raise BinanceIntegrityError
    end).

Definition read_archive (source_ref : string) (raw : bytes) : result (list (list string)) :=
  let! payload := archive_payload source_ref raw in
  let! _ := raise_if (bc_max_uncompressed_bytes config <? Z.of_nat (length payload)) BinanceIntegrityError in
  let! text := catch_res (fun e => match e with UnicodeDecodeError => BinanceSchemaError | _ => e end) (utf8_decode payload) in
  csv_list text.

Definition binance_event (ts_event_ns : Z) (tie_breaker : string) (source_sequence : option string) (source_event_id kind : string)
    (payload : list (string * pyval)) : pyval :=
  VDict (obj ([("schema_version", VStr "1.0.0"); ("dataset_id", VStr (bc_dataset_id config));
    ("instrument_id", VStr (bc_instrument_id config)); ("venue_id", VStr (venue_id config));
    ("ts_event_ns", VStr (str_Z ts_event_ns)); ("canonical_tie_breaker", VStr tie_breaker);
    ("source_event_id", VStr source_event_id); ("kind", VStr kind); ("payload", VDict (obj payload)); ("quality_flags", VList [])]
    ++ match source_sequence with Some s => [("source_sequence", VStr s)] | None => [] end)).

Record TradeFields := mk_trade_fields {
  tf_trade_id : string; tf_price_atoms : Z; tf_qty_atoms : Z; tf_timestamp : string; tf_buyer_is_maker : bool;
}.

Definition trade_fields (row : list string) (aggregate : bool) : result TradeFields :=
  malformed_row (
    let! c0 := column row 0 in let! trade_id := canonical_uint c0 in
    let! c1 := column row 1 in let! price_atoms := decimal_atoms c1 (bc_price_scale config) true false in
    let! c2 := column row 2 in let! qty_atoms := decimal_atoms c2 (bc_qty_scale config) false true in
    let! ct := column row (if aggregate then 5 else 4)%nat in let! timestamp := canonical_uint ct in
    let! cm := column row (if aggregate then 6 else 5)%nat in let! buyer_is_maker := boolean cm in
    Ok (mk_trade_fields trade_id price_atoms qty_atoms timestamp buyer_is_maker)).

Definition normalize_trade (row : list string) (day : date) (aggregate : bool) : result pyval :=
  let columns := ((if aggregate then 7 else 6) + (if decide (bc_product config = SPOT) then 1 else 0))%nat in
  let! _ := raise_if (negb (length row =? columns)%nat) BinanceSchemaError in
  let! f := trade_fields row aggregate in
  let! ts_event_ns := timestamp_to_ns (tf_timestamp f) (bc_product config) day in
  Ok (binance_event ts_event_ns (tf_trade_id f) (Some (tf_trade_id f)) (tf_trade_id f) "TRADE"
        [("price_atoms", VStr (str_Z (tf_price_atoms f))); ("qty_atoms", VStr (str_Z (tf_qty_atoms f)));
         ("aggressor_side", VStr (if tf_buyer_is_maker f then "SELL" else "BUY")); ("trade_id", VStr (tf_trade_id f))]).

Record KlineFields := mk_kline_fields {
  kf_open_timestamp : string; kf_open_atoms : Z; kf_high_atoms : Z; kf_low_atoms : Z; kf_close_atoms : Z;
  kf_volume_atoms : Z; kf_trade_count : string;
}.

Definition kline_fields (row : list string) : result KlineFields :=
  let price i := let! c := column row i in decimal_atoms c (bc_price_scale config) true false in
  malformed_row (
    let! c0 := column row 0 in let! open_timestamp := canonical_uint c0 in
    let! open_atoms := price 1%nat in
    let! high_atoms := price 2%nat in
    let! low_atoms := price 3%nat in
    let! close_atoms := price 4%nat in
    let! c5 := column row 5 in let! volume_atoms := decimal_atoms c5 (bc_qty_scale config) false false in
    let! c8 := column row 8 in let! trade_count := canonical_uint c8 in
    Ok (mk_kline_fields open_timestamp open_atoms high_atoms low_atoms close_atoms volume_atoms trade_count)).

Definition normalize_kline (row : list string) (day : date) : result pyval :=
  let! _ := raise_if (negb (length row =? 12)%nat) BinanceSchemaError in
  let! interval := of_option AssertionError (bc_interval config) in
  let! f := kline_fields row in
  let! ts_event_ns := timestamp_to_ns (kf_open_timestamp f) (bc_product config) day in
  Ok (binance_event ts_event_ns "0" None (interval +:+ ":" +:+ kf_open_timestamp f) "BAR"
        [("interval", VStr interval); ("open_atoms", VStr (str_Z (kf_open_atoms f))); ("high_atoms", VStr (str_Z (kf_high_atoms f)));
         ("low_atoms", VStr (str_Z (kf_low_atoms f))); ("close_atoms", VStr (str_Z (kf_close_atoms f)));
         ("base_volume_atoms", VStr (str_Z (kf_volume_atoms f))); ("trade_count", VStr (kf_trade_count f)); ("complete", VBool true)]).

Fixpoint lstrip_dash (s : string) : string :=
  match s with String c s' => if Ascii.eqb c "-" then lstrip_dash s' else s | EmptyString => EmptyString end.

(** A blank row, or a first row that is a header. *)
Definition skip_row (index : nat) (row : list string) : bool :=
  match row with
  | [] => true
  | first :: _ => (index =? 0)%nat && negb (py_isdigit (lstrip_dash (py_strip first)))
  end.

Definition normalize_row (day : date) (row : list string) : result pyval :=
  match bc_data_kind config with
  | KLINES => normalize_kline row day
  | TRADES => normalize_trade row day false
  | AGG_TRADES => normalize_trade row day true
  end.

Definition normalize (chunk : FetchChunk) (raw : bytes) : result (list pyval) :=
  let! day := archive_day (ch_source_ref chunk) in
  let! rows := read_archive (ch_source_ref chunk) raw in
  rmap (fun p => normalize_row day (snd p)) (List.filter (fun p => negb (skip_row (fst p) (snd p))) (imap pair rows)).
End Normalize.
End Adapter.

(** ** Planned sources *)

(** A source that ends with a day's file name is an archive of that day. *)
Lemma archive_day_of day prefix :
  in_date_range day = true -> archive_day (prefix +:+ date_isoformat day +:+ ".zip") = Ok day.
Proof.
  intros H. destruct (iso_text day H) as [Hl Hs]. unfold archive_day.
  destruct (path_name_append prefix (date_isoformat day +:+ ".zip")) as (x & ->).
  { rewrite all_chars_app, Hs. reflexivity. }
  { rewrite append_length, Hl. cbn. lia. }
  rewrite <- append_assoc, endswith_append. cbn [negb raise_if rbind]. rewrite removesuffix_append.
  rewrite <- Hl, last_append. by rewrite fromisoformat_isoformat.
Qed.

Section Plans.
Variable config : BinancePublicConfig.

(** A source ends with the day and the extension, and begins inside the archive. *)
Lemma archive_url_shape day url :
  archive_url config day = Ok url ->
  exists rest, url = (BASE_URL +:+ "/data/") +:+ rest /\ ends (date_isoformat day +:+ ".zip") url.
Proof.
  unfold archive_url, archive_filename. intros H. apply rbind_Ok in H as (filename & Hf & H). apply rbind_Ok in H as (suffix & Hs & H).
  apply Ok_inj in H as <-.
  assert (ends (date_isoformat day +:+ ".zip") filename) as Ha.
  { destruct (bc_data_kind config); [apply rbind_Ok in Hf as (i & _ & Hf)|..]; apply Ok_inj in Hf as <-; auto 20 with ends. }
  assert (ends (date_isoformat day +:+ ".zip") suffix) as Hb.
  { destruct (bc_data_kind config); [apply rbind_Ok in Hs as (i & _ & Hs)|..]; apply Ok_inj in Hs as <-; auto 20 with ends. }
  eexists. split; [rewrite append_assoc; reflexivity|]. repeat apply ends_app. exact Hb.
Qed.

Lemma archive_url_valid day url :
  in_date_range day = true -> archive_url config day = Ok url ->
  validate_source_ref url = Ok tt /\ archive_day url = Ok day.
Proof.
  intros Hd Hu. destruct (archive_url_shape day url Hu) as (rest & E1 & prefix & E2).
  assert (archive_day url = Ok day) as Ha by (rewrite E2; by apply archive_day_of). split; [|exact Ha].
  unfold validate_source_ref. rewrite Ha. rewrite E1 at 1. rewrite startswith_append.
  rewrite E2, <- append_assoc, endswith_append. reflexivity.
Qed.

Definition chunk_day (c : FetchChunk) : date := match archive_day (ch_source_ref c) with Ok d => d | Raise _ => 0 end.

Lemma day_chunk_valid day c :
  in_date_range day = true -> day_chunk config day = Ok c ->
  validate_source_ref (ch_source_ref c) = Ok tt /\ archive_day (ch_source_ref c) = Ok day
  /\ ch_key c = (product_value (bc_product config) +:+ ":" +:+ kind_value (bc_data_kind config) +:+ ":") +:+ date_isoformat day.
Proof.
  intros Hd H. unfold day_chunk in H. apply rbind_Ok in H as (url & Hu & H). apply Ok_inj in H as <-. cbn [ch_source_ref ch_key].
  destruct (archive_url_valid day url Hd Hu) as [H1 H2]. split; [done|]. split; [done|]. by rewrite !append_assoc.
Qed.

(** A plan covers its range exactly.  The planned chunks are one per UTC day that the half-open range
    of nanoseconds meets, in order and without a repeated key; the adapter's own download accepts every
    planned source and reads its day back from it. *)
Theorem binance_plan_covers r chunks :
  plan config r = Ok chunks ->
  NoDup (map ch_key chunks)
  /\ Forall (fun c => validate_source_ref (ch_source_ref c) = Ok tt /\ archive_day (ch_source_ref c) = Ok (chunk_day c)) chunks
  /\ (exists first, map chunk_day chunks = seqZ first (Z.of_nat (length chunks)))
  /\ forall d, d ∈ map chunk_day chunks <-> exists t, fq_start_ns r <= t < fq_end_ns r /\ day_of t = d.
Proof.
  intros H. unfold plan in H. repeat (apply rbind_Ok in H as (? & ?%raise_if_Ok & H)).
  apply rbind_Ok in H as (first & Hf & H). apply rbind_Ok in H as (last & Hl & H). apply rmap_days in H. bools.
  set (days := seqZ first (last - first + 1)) in *.
  assert (map chunk_day chunks = days) as Hdays.
  { apply Forall2_map_l. eapply Forall2_impl; [exact H|]. intros d c [Hr Hc]. unfold chunk_day. by rewrite (proj1 (proj2 (day_chunk_valid _ _ Hr Hc))). }
  split_and!.
  - eapply day_keys; [|by apply (NoDup_seqZ first (last - first + 1))]. eapply Forall2_impl; [exact H|].
    intros d c [Hr Hc]. split; [done|]. by apply (day_chunk_valid _ _ Hr Hc).
  - eapply Forall2_Forall_r; [exact H|]. apply Forall_forall. intros d _ c [Hr Hc]. destruct (day_chunk_valid _ _ Hr Hc) as (V & D & _).
    unfold chunk_day. by rewrite D.
  - exists first. rewrite Hdays. unfold days. f_equal. rewrite <- (Forall2_length _ _ _ H). unfold days. rewrite length_seqZ.
    destruct (Z.le_gt_cases 0 (last - first + 1)); [lia|]. exfalso.
    apply date_add_Ok in Hf as (_ & _ & ->), Hl as (_ & _ & ->).
    pose proof (Z.div_le_mono (fq_start_ns r) (fq_end_ns r - 1) DAY_NS). unfold DAY_NS in *. lia.
  - intros d. rewrite Hdays. by apply range_days.
Qed.
End Plans.

(** ** Normalized events *)

Lemma canonical_uint_Ok value t : canonical_uint value = Ok t -> exists n, py_int t = Ok n /\ 0 <= n <= U64_MAX.
Proof.
  unfold canonical_uint. intros H. apply rbind_Ok in H as (u1 & H1%raise_if_Ok & H). apply rbind_Ok in H as (u2 & _ & H).
  apply rbind_Ok in H as (n & Hn & H). apply rbind_Ok in H as (u3 & H3%raise_if_Ok & H). apply Ok_inj in H as <-. bools.
  exists n. split; [done|]. split; [|done]. apply (digits_int_nonneg (py_strip value)); [|done]. by apply isdigit_ascii.
Qed.

Lemma malformed_row_Ok {A} (r : result A) a : malformed_row r = Ok a <-> r = Ok a.
Proof. apply catch_res_Ok. Qed.

Lemma timestamp_to_ns_bounds raw product day ts n :
  py_int raw = Ok n -> 0 <= n -> timestamp_to_ns raw product day = Ok ts -> 0 <= ts <= I64_MAX.
Proof.
  intros Hn H0. unfold timestamp_to_ns. rewrite Hn. cbn [rbind]. intros (u & H1%raise_if_Ok & H)%rbind_Ok. injection H as <-. bools.
  split; [|done]. destruct (_ && _); lia.
Qed.

(** The range that a field of the given kind accepts. *)
Definition in_atom_range (sg pos : bool) (a : Z) : Prop :=
  (pos = true -> 0 < a) /\ (if sg then I64_MIN <= a <= I64_MAX else 0 <= a <= U64_MAX).

Lemma decimal_atoms_range value scale sg pos a : decimal_atoms value scale sg pos = Ok a -> in_atom_range sg pos a.
Proof.
  unfold decimal_atoms. destruct (decimal_of_text (py_strip value)) as [[|]|]; [|discriminate..].
  intros H. apply rbind_Ok in H as (d & _ & H). apply rbind_Ok in H as (x & _ & H).
  apply rbind_Ok in H as (u1 & H1%raise_if_Ok & H). apply rbind_Ok in H as (u2 & _ & H).
  apply rbind_Ok in H as (u3 & H3%raise_if_Ok & H). apply Ok_inj in H as ->. bools. unfold in_atom_range.
  destruct pos, sg; cbn [andb] in *; bools; (split; [intros; lia || done|lia]).
Qed.

(** The payloads: prices are signed, quantities unsigned 64-bit integers in decimal. *)
Definition atoms_field (p : pydict) (name : string) (sg pos : bool) : Prop :=
  exists a, dict_get name p = Some (VStr (str_Z a)) /\ in_atom_range sg pos a.
Definition trade_payload (p : pydict) : Prop :=
  atoms_field p "price_atoms" true false /\ atoms_field p "qty_atoms" false true
  /\ (exists side, dict_get "aggressor_side" p = Some (VStr side) /\ side ∈ ["BUY"; "SELL"])
  /\ exists id, dict_get "trade_id" p = Some (VStr id) /\ uint_text id.
Definition bar_payload (p : pydict) : Prop :=
  Forall (fun name => atoms_field p name true false) ["open_atoms"; "high_atoms"; "low_atoms"; "close_atoms"]
  /\ atoms_field p "base_volume_atoms" false false
  /\ (exists interval, dict_get "interval" p = Some (VStr interval))
  /\ (exists n, dict_get "trade_count" p = Some (VStr n) /\ uint_text n) /\ dict_get "complete" p = Some (VBool true).
Definition binance_payload (kind : string) (p : pydict) : Prop :=
  kind = "TRADE" /\ trade_payload p \/ kind = "BAR" /\ bar_payload p.

Definition binance_kinds (k : BinanceDataKind) : list string := match k with KLINES => ["BAR"] | _ => ["TRADE"] end.

Section Typed.
Variable config : BinancePublicConfig.

Definition binance_typed_event (v : pyval) : Prop :=
  exists d, v = VDict d /\ typed_event (bc_dataset_id config) (bc_instrument_id config) (venue_id config)
    (binance_kinds (bc_data_kind config)) binance_payload d.

Lemma canonical_uint_text value t : canonical_uint value = Ok t -> uint_text t.
Proof. intros (n & Hn & Hb)%canonical_uint_Ok. exists n. unfold U64_MAX in Hb. split; [done|lia]. Qed.

(** The keys of an event are fixed, so its texts decide nothing. *)
Lemma binance_event_typed ts tie seq source_id kind payload :
  0 <= ts <= I64_MAX -> uint_text tie -> (forall q, seq = Some q -> uint_text q) ->
  json_ok (VDict (obj payload)) = true -> kind ∈ binance_kinds (bc_data_kind config) -> binance_payload kind (obj payload) ->
  binance_typed_event (binance_event config ts tie seq source_id kind payload).
Proof.
  intros Hts Htie Hseq Hp Hkind Hpay. unfold binance_event. eexists. split; [reflexivity|]. split.
  - by destruct seq.
  - exists ts. by destruct seq.
  - exists tie. by destruct seq.
  - destruct seq as [q|]; [|discriminate]. intros v [= <-]. eauto.
  - exists source_id. by destruct seq.
  - exists kind, (obj payload). by destruct seq.
  - exists []. by destruct seq.
  - apply json_ok_dict. destruct seq as [q|]; (split;
      [cbn [app obj map]; repeat (apply Forall_cons; split; [split; [done|]; done || exact Hp|]); apply Forall_nil_2|]).
    + apply (bool_decide_eq_true_1 (NoDup [KStr "schema_version"; KStr "dataset_id"; KStr "instrument_id"; KStr "venue_id"; KStr "ts_event_ns";
        KStr "canonical_tie_breaker"; KStr "source_event_id"; KStr "kind"; KStr "payload"; KStr "quality_flags"; KStr "source_sequence"])). reflexivity.
    + apply (bool_decide_eq_true_1 (NoDup [KStr "schema_version"; KStr "dataset_id"; KStr "instrument_id"; KStr "venue_id"; KStr "ts_event_ns";
        KStr "canonical_tie_breaker"; KStr "source_event_id"; KStr "kind"; KStr "payload"; KStr "quality_flags"])). reflexivity.
Qed.

Lemma trade_fields_Ok row aggregate f :
  trade_fields config row aggregate = Ok f ->
  uint_text (tf_trade_id f) /\ in_atom_range true false (tf_price_atoms f) /\ in_atom_range false true (tf_qty_atoms f)
  /\ exists n, py_int (tf_timestamp f) = Ok n /\ 0 <= n.
Proof.
  unfold trade_fields. intros Hf. apply (proj1 (malformed_row_Ok _ _)) in Hf.
  apply rbind_Ok in Hf as (c0 & _ & Hf). apply rbind_Ok in Hf as (id & Hid & Hf).
  apply rbind_Ok in Hf as (c1 & _ & Hf). apply rbind_Ok in Hf as (price & Hprice%decimal_atoms_range & Hf).
  apply rbind_Ok in Hf as (c2 & _ & Hf). apply rbind_Ok in Hf as (qty & Hqty%decimal_atoms_range & Hf).
  apply rbind_Ok in Hf as (ct & _ & Hf). apply rbind_Ok in Hf as (t & (n & Hn & Hb)%canonical_uint_Ok & Hf).
  apply rbind_Ok in Hf as (cm & _ & Hf). apply rbind_Ok in Hf as (m & _ & Hf). apply Ok_inj in Hf as <-.
  split_and!; [by eapply canonical_uint_text|done|done|]. exists n. split; [done|lia].
Qed.

Lemma normalize_trade_typed row day aggregate v :
  "TRADE" ∈ binance_kinds (bc_data_kind config) -> normalize_trade config row day aggregate = Ok v -> binance_typed_event v.
Proof.
  unfold normalize_trade. intros Hk H. apply rbind_Ok in H as (u & _ & H). apply rbind_Ok in H as (f & Hf & H).
  apply rbind_Ok in H as (ts & Hts & H). apply Ok_inj in H as <-. apply trade_fields_Ok in Hf as (Hid & Hp & Hq & n & Hn & Hn0).
  apply binance_event_typed; [by eapply timestamp_to_ns_bounds; [exact Hn|lia|exact Hts]|done|by intros q [= <-]| |done|].
  - apply json_ok_dict. split; [cbn [obj map]; repeat (apply Forall_cons; split; [done|]); apply Forall_nil_2|].
    apply (bool_decide_eq_true_1 (NoDup [KStr "price_atoms"; KStr "qty_atoms"; KStr "aggressor_side"; KStr "trade_id"])). reflexivity.
  - left. split; [done|]. split_and!; [by exists (tf_price_atoms f)|by exists (tf_qty_atoms f)| |by exists (tf_trade_id f)].
    eexists. split; [reflexivity|]. destruct (tf_buyer_is_maker f); [right; left|left].
Qed.

Lemma kline_fields_Ok row f :
  kline_fields config row = Ok f ->
  Forall (in_atom_range true false) [kf_open_atoms f; kf_high_atoms f; kf_low_atoms f; kf_close_atoms f]
  /\ in_atom_range false false (kf_volume_atoms f) /\ uint_text (kf_trade_count f)
  /\ exists n, py_int (kf_open_timestamp f) = Ok n /\ 0 <= n.
Proof.
  unfold kline_fields. intros Hf. apply (proj1 (malformed_row_Ok _ _)) in Hf.
  apply rbind_Ok in Hf as (c0 & _ & Hf). apply rbind_Ok in Hf as (t & (n & Hn & Hb)%canonical_uint_Ok & Hf).
  do 4 (apply rbind_Ok in Hf as (? & (? & _ & ?%decimal_atoms_range)%rbind_Ok & Hf)).
  apply rbind_Ok in Hf as (c5 & _ & Hf). apply rbind_Ok in Hf as (volume & Hv%decimal_atoms_range & Hf).
  apply rbind_Ok in Hf as (c8 & _ & Hf). apply rbind_Ok in Hf as (tc & Htc%canonical_uint_text & Hf). apply Ok_inj in Hf as <-.
  split_and!; [repeat (apply Forall_cons; split; [assumption|]); apply Forall_nil_2|done|done|]. exists n. split; [done|lia].
Qed.

Lemma normalize_kline_typed row day v :
  "BAR" ∈ binance_kinds (bc_data_kind config) -> normalize_kline config row day = Ok v -> binance_typed_event v.
Proof.
  unfold normalize_kline. intros Hk H. apply rbind_Ok in H as (u & _ & H). apply rbind_Ok in H as (interval & _ & H).
  apply rbind_Ok in H as (f & Hf & H). apply rbind_Ok in H as (ts & Hts & H). apply Ok_inj in H as <-.
  apply kline_fields_Ok in Hf as (Hp & Hv & Htc & n & Hn & Hn0).
  apply binance_event_typed; [by eapply timestamp_to_ns_bounds; [exact Hn|lia|exact Hts]|by exists 0|done| |done|].
  - apply json_ok_dict. split; [cbn [obj map]; repeat (apply Forall_cons; split; [done|]); apply Forall_nil_2|].
    apply (bool_decide_eq_true_1 (NoDup [KStr "interval"; KStr "open_atoms"; KStr "high_atoms"; KStr "low_atoms"; KStr "close_atoms";
      KStr "base_volume_atoms"; KStr "trade_count"; KStr "complete"])). reflexivity.
  - right. split; [done|]. apply Forall_cons in Hp as [H1 Hp]. apply Forall_cons in Hp as [H2 Hp]. apply Forall_cons in Hp as [H3 Hp].
    apply Forall_cons in Hp as [H4 _]. split_and!; [repeat (constructor; [by eexists|]); constructor|by eexists|by eexists|by eexists|done].
Qed.

Lemma binance_batch_typed `{ZipReader} chunk raw events : normalize config chunk raw = Ok events -> Forall binance_typed_event events.
Proof.
  unfold normalize. intros Hn. apply rbind_Ok in Hn as (day & _ & Hn). apply rbind_Ok in Hn as (rows & _ & Hn).
  apply rmap_Ok in Hn. eapply Forall2_Forall_r; [exact Hn|]. apply Forall_forall. intros p _ v Hv. unfold normalize_row in Hv.
  destruct (bc_data_kind config) eqn:Ek.
  - eapply normalize_kline_typed; [rewrite Ek; left|exact Hv].
  - eapply normalize_trade_typed; [rewrite Ek; left|exact Hv].
  - eapply normalize_trade_typed; [rewrite Ek; left|exact Hv].
Qed.
End Typed.

(** ** Verified downloads *)

Lemma parse_checksum_Ok source_ref document digest :
  parse_checksum source_ref document = Ok digest
  <-> is_sha256 digest = true /\ exists text part name,
        ascii_decode document = Ok text /\ py_split (py_strip text) = [part; name] /\ py_lower part = digest
        /\ removeprefix "*" name = path_name source_ref.
Proof.
  unfold parse_checksum, is_sha256. split.
  - intros (text & Ht%catch_res_Ok & H)%rbind_Ok. destruct (py_split (py_strip text)) as [|part [|name [|]]] eqn:E; try done.
    apply rbind_Ok in H as ([] & H1%raise_if_Ok & H). apply rbind_Ok in H as ([] & H2%raise_if_Ok & H). apply Ok_inj in H as <-. bools.
    apply String.eqb_eq in H2. split; [by apply andb_true_iff; rewrite Z.eqb_eq|]. eauto 10.
  - intros (Hd & text & part & name & -> & E & <- & Hn). cbn [catch_res rbind]. rewrite E. cbv zeta.
    apply andb_true_iff in Hd as [-> ->]. cbn [negb orb raise_if rbind]. by rewrite Hn, String.eqb_refl.
Qed.

Section Verified.
Context {Net : Type} `{Tp : HttpTransport Net}.
Variable config : BinancePublicConfig.

(** The network, from state [n], serves the archive [raw] at its address in the archive of the exchange, and
    then, at that address with [.CHECKSUM], a document that publishes the digest of [raw] under the name
    of that file; the digest is the one recorded earlier, if there is one. *)
Record verified_download (known : gmap string string) (source_ref : string) (n : Net) (raw : bytes) (n' : Net) : Prop := mk_verified {
  vd_address : py_startswith (BASE_URL +:+ "/data/") source_ref = true /\ py_endswith ".zip" source_ref = true
    /\ exists day, archive_day source_ref = Ok day;
  vd_served : exists n1 document text part name,
    tp_get source_ref (bc_max_archive_bytes config) n = (Ok raw, n1)
    /\ tp_get (source_ref +:+ ".CHECKSUM") 4096 n1 = (Ok document, n')
    /\ ascii_decode document = Ok text /\ py_split (py_strip text) = [part; name]
    /\ py_lower part = sha256_hex raw /\ removeprefix "*" name = path_name source_ref;
  vd_known : forall previous, known !! source_ref = Some previous -> previous = sha256_hex raw;
}.

Lemma validate_source_ref_Ok source_ref u :
  validate_source_ref source_ref = Ok u
  <-> py_startswith (BASE_URL +:+ "/data/") source_ref = true /\ py_endswith ".zip" source_ref = true
      /\ exists day, archive_day source_ref = Ok day.
Proof.
  unfold validate_source_ref. destruct u. destruct (py_startswith _ _), (py_endswith _ _); cbn [negb orb raise_if rbind];
    (split; [|intros (H1 & H2 & d & Hd)]; try done).
  - intros (d & Hd & _)%rbind_Ok. eauto.
  - by rewrite Hd.
Qed.

Lemma fetch_accepts known chunk s raw n' :
  verified_download known (ch_source_ref chunk) (fs_net s) raw n' ->
  fetch config known chunk s = (Ok raw, mk_fetching n' (<[ch_source_ref chunk := sha256_hex raw]> (fs_observed s))).
Proof.
  intros [Ha (n1 & document & text & part & name & H1 & H2 & H3 & H4 & H5 & H6) Hk].
  unfold fetch, on_transport, observe, lift, sret, sbind. rewrite (proj2 (validate_source_ref_Ok _ tt) Ha), H1. cbn [fs_net fs_observed].
  rewrite H2, (proj2 (parse_checksum_Ok _ _ (sha256_hex raw))) by (split; [apply is_sha256_hex|eauto 10]).
  rewrite String.eqb_refl. cbn [negb raise_if]. destruct (known !! ch_source_ref chunk) as [previous|]; [|done].
  by rewrite (Hk previous eq_refl), String.eqb_refl.
Qed.

Lemma fetch_outcome known chunk s :
  (exists raw n', verified_download known (ch_source_ref chunk) (fs_net s) raw n')
  \/ exists e s', fetch config known chunk s = (Raise e, s') /\ fs_observed s' = fs_observed s.
Proof.
  unfold fetch, on_transport, observe, lift, sret, sbind.
  destruct (validate_source_ref (ch_source_ref chunk)) as [u|e] eqn:Hv; [|right; by eexists _, _].
  apply validate_source_ref_Ok in Hv.
  destruct (tp_get (ch_source_ref chunk) _ (fs_net s)) as [[raw|e] n1] eqn:H1; [|right; by eexists _, _]. cbn [fs_net fs_observed].
  destruct (tp_get (ch_source_ref chunk +:+ ".CHECKSUM") 4096 n1) as [[document|e] n2] eqn:H2; [|right; by eexists _, _].
  destruct (parse_checksum (ch_source_ref chunk) document) as [expected|e] eqn:Hp; [|right; by eexists _, _].
  destruct (String.eqb_spec (sha256_hex raw) expected) as [E|]; [|right; by eexists _, _]. cbn [negb raise_if]. subst expected.
  apply parse_checksum_Ok in Hp as (_ & text & part & name & H3 & H4 & H5 & H6).
  destruct (known !! ch_source_ref chunk) as [previous|] eqn:Hk.
  - destruct (String.eqb_spec previous (sha256_hex raw)) as [E2|]; cbn [negb raise_if]; [|right; by eexists _, _].
    left. exists raw, n2. split; [done|eauto 12|]. intros p Hp. rewrite Hk in Hp. by injection Hp as <-.
  - left. exists raw, n2. split; [done|eauto 12|]. intros p Hp. by rewrite Hk in Hp.
Qed.

(** C30. Nothing unverified is accepted.  A download returns [raw] exactly when the network serves [raw] at the
    planned address of the archive and then, at that address with [.CHECKSUM] and within 4096 bytes, a
    document that publishes the SHA-256 digest of [raw] for that file name, and an earlier recorded digest,
    if there is one, is the same; the adapter then remembers that digest.  Every other download fails and
    leaves the remembered checksums as they were. *)
Theorem binance_fetch_verified known chunk s :
  (forall raw s', fetch config known chunk s = (Ok raw, s')
     <-> verified_download known (ch_source_ref chunk) (fs_net s) raw (fs_net s')
         /\ fs_observed s' = <[ch_source_ref chunk := sha256_hex raw]> (fs_observed s))
  /\ (forall e s', fetch config known chunk s = (Raise e, s') -> fs_observed s' = fs_observed s).
Proof.
  split.
  - intros raw s'. split; [|intros [Hv Ho]; rewrite (fetch_accepts _ _ _ _ _ Hv), <- Ho; by destruct s'].
    intros Hf. destruct (fetch_outcome known chunk s) as [(raw' & n' & Hv)|(e & s1 & He & _)]; [|by rewrite He in Hf].
    rewrite (fetch_accepts _ _ _ _ _ Hv) in Hf. by injection Hf as <- <-.
  - intros e s' Hf. destruct (fetch_outcome known chunk s) as [(raw' & n' & Hv)|(e1 & s1 & He & Ho)].
    + by rewrite (fetch_accepts _ _ _ _ _ Hv) in Hf.
    + rewrite He in Hf. by injection Hf as _ <-.
Qed.
End Verified.

(** ** Numbers at the declared scale *)

(** C31. Decimal texts are scaled exactly.  For a number of at most 28 significant digits the field is
    accepted with atoms [a] exactly when the number times the power of ten of the scale is the integer [a]
    and [a] is in the range of the field: positive where required, and a signed or unsigned 64-bit integer.
    Beyond 28 digits the code rounds first ([decimal_atoms_rounds]). *)
Theorem decimal_atoms_exact value scale (sg pos : bool) s c e a :
  decimal_of_text (py_strip value) = Some (DFinite s c e) -> c < 10 ^ DEC_PREC -> DEC_ETINY <= e + scale <= DEC_ETOP ->
  decimal_atoms value scale sg pos = Ok a <-> is_scaled_int s c e scale a /\ in_atom_range sg pos a.
Proof.
  intros Hd Hc He. pose proof (decimal_of_text_nonneg _ _ _ _ Hd) as H0.
  destruct (scaleb_exact s c e scale (conj H0 Hc) He) as (d & Hs & Ha). unfold decimal_atoms. rewrite Hd, Hs. cbn [rbind].
  rewrite <- Ha. clear Ha. destruct (dec_exact_int d) as [x|]; cbn [of_option rbind]; [|split; [discriminate|by intros [? _]]].
  unfold in_atom_range, I64_MIN, I64_MAX, U64_MAX. split.
  - intros H. apply rbind_Ok in H as (u1 & H1%raise_if_Ok & H). apply rbind_Ok in H as (u2 & H2%raise_if_Ok & H).
    apply rbind_Ok in H as (u3 & H3%raise_if_Ok & H). injection H as <-. bools. split; [done|].
    destruct pos, sg; cbn [andb negb] in *; bools; (split; [intros; lia || done|lia]).
  - intros [[= ->] [Hp Hr]].
    assert (pos && (a <=? 0) = false) as -> by (destruct pos; [apply Z.leb_gt; by apply Hp|done]).
    assert (negb sg && (a <? 0) = false) as -> by (destruct sg; [done|apply Z.ltb_ge; lia]).
    assert ((a <? (if sg then - 2 ^ 63 else 0)) || ((if sg then 2 ^ 63 - 1 else 2 ^ 64 - 1) <? a) = false) as ->.
    { apply orb_false_iff. rewrite !Z.ltb_ge. destruct sg; lia. }
    reflexivity.
Qed.

(** More than 28 digits are rounded before the test: the text below is not an integer at scale 1, as its
    exact value is 1.000000000000000000000000000001, and yet it is accepted. *)
Example decimal_atoms_rounds :
  decimal_of_text "0.1000000000000000000000000000001" = Some (DFinite false (10 ^ 30 + 1) (-31))
  /\ decimal_atoms "0.1000000000000000000000000000001" 1 true false = Ok 1
  /\ ~ is_scaled_int false (10 ^ 30 + 1) (-31) 1 1.
Proof. split; [reflexivity|]. split; [reflexivity|]. vm_compute. discriminate. Qed.

Lemma decimal_atoms_exact_witness :
  decimal_of_text (py_strip " 100.25 ") = Some (DFinite false 10025 (-2)) /\ 10025 < 10 ^ DEC_PREC
  /\ (decimal_atoms " 100.25 " 3 true false = Ok 100250 <-> is_scaled_int false 10025 (-2) 3 100250 /\ in_atom_range true false 100250).
Proof.
  split; [reflexivity|]. split; [reflexivity|].
  apply (decimal_atoms_exact " 100.25 " 3 true false false 10025 (-2) 100250); [reflexivity|reflexivity|].
  unfold DEC_ETINY, DEC_ETOP. lia.
Defined.

(** ** A concrete adapter *)

Definition demo_config : BinancePublicConfig := mk_binance_config SPOT TRADES "BTCUSDT" "BTC-USDT" "demo" 2 3 None 1000 1000.
Definition demo_binance_request : FetchRequest :=
  mk_fetch_request "binance_public" "trades" "BTC-USDT" 1735689599999999999 1735689600000000001 [].
Definition demo_chunks : list FetchChunk := match plan demo_config demo_binance_request with Ok l => l | Raise _ => [] end.

Lemma demo_plan_Ok : plan demo_config demo_binance_request = Ok demo_chunks.
Proof. vm_compute. reflexivity. Qed.

Example demo_sources : map ch_source_ref demo_chunks
  = ["https://data.binance.vision/data/spot/daily/trades/BTCUSDT/BTCUSDT-trades-2024-12-31.zip";
     "https://data.binance.vision/data/spot/daily/trades/BTCUSDT/BTCUSDT-trades-2025-01-01.zip"].
Proof. vm_compute. reflexivity. Qed.

Lemma binance_plan_covers_witness :
  plan demo_config demo_binance_request = Ok demo_chunks /\ NoDup (map ch_key demo_chunks)
  /\ forall d, d ∈ map chunk_day demo_chunks <-> exists t, 1735689599999999999 <= t < 1735689600000000001 /\ day_of t = d.
Proof.
  split; [apply demo_plan_Ok|]. destruct (binance_plan_covers demo_config demo_binance_request demo_chunks demo_plan_Ok) as (H1 & _ & _ & H2).
  split; [exact H1|exact H2].
Defined.

(** A network that serves one archive, and a container that holds its bytes as they are. *)
Definition demo_raw : bytes := utf8 "7,100.25,0.004,0.4,1735689600000001,true,true".
#[export] Instance demo_transport : HttpTransport unit := {|
  tp_get := fun url _ n =>
    (Ok (if py_endswith ".CHECKSUM" url then utf8 (sha256_hex demo_raw +:+ "  BTCUSDT-trades-2025-01-01.zip") else demo_raw), n);
|}.
#[export] Instance demo_zip : ZipReader := {|
  zip_infolist := fun raw => Ok [mk_zip_info "BTCUSDT-trades-2025-01-01.csv" false (Z.of_nat (length raw))];
  zip_read := fun raw _ n => Ok (take (Z.to_nat n) raw);
|}.
Definition demo_chunk : FetchChunk := List.last demo_chunks (mk_chunk "" "" None 0).
Definition demo_fetch : result bytes * Fetching unit := fetch demo_config ∅ demo_chunk (mk_fetching tt ∅).

Example demo_normalized :
  normalize demo_config demo_chunk demo_raw
  = Ok [binance_event demo_config 1735689600000001000 "7" (Some "7") "7" "TRADE"
          [("price_atoms", VStr "10025"); ("qty_atoms", VStr "4"); ("aggressor_side", VStr "SELL"); ("trade_id", VStr "7")]].
Proof. vm_compute. reflexivity. Qed.

Lemma binance_fetch_verified_witness :
  verified_download demo_config ∅ (ch_source_ref demo_chunk) tt demo_raw tt
  /\ fst demo_fetch = Ok demo_raw /\ fs_observed (snd demo_fetch) !! ch_source_ref demo_chunk = Some (sha256_hex demo_raw).
Proof.
  destruct (binance_fetch_verified demo_config ∅ demo_chunk (mk_fetching tt ∅)) as [H1 _].
  destruct (proj1 (H1 demo_raw (snd demo_fetch))) as [Hv _]; [vm_compute; reflexivity|].
  split; [destruct (fs_net (snd demo_fetch)); exact Hv|]. split; vm_compute; reflexivity.
Defined.
