(* ===== verification/TardisModel.v ===== *)
(** * Tardis coverage and entitlements ([workers/ingest/.../adapters/tardis/model.py])

    Which dataset days a symbol has, which of them local policy permits, and the fidelity that an
    interval supports. *)

From S2P Require Import Prelude Sort PyStr PyText PyJson Dates.
From Stdlib Require String.

Inductive TardisDataType :=
| TD_TRADES | TD_QUOTES | TD_BOOK_TICKER | TD_INCREMENTAL_BOOK_L2 | TD_BOOK_SNAPSHOT_25 | TD_BOOK_SNAPSHOT_5
| TD_DERIVATIVE_TICKER | TD_LIQUIDATIONS.
#[export] Instance TardisDataType_eq_dec : EqDecision TardisDataType.
Proof. solve_decision. Defined.

Definition type_value (t : TardisDataType) : string :=
  match t with
  | TD_TRADES => "trades" | TD_QUOTES => "quotes" | TD_BOOK_TICKER => "book_ticker"
  | TD_INCREMENTAL_BOOK_L2 => "incremental_book_L2" | TD_BOOK_SNAPSHOT_25 => "book_snapshot_25"
  | TD_BOOK_SNAPSHOT_5 => "book_snapshot_5" | TD_DERIVATIVE_TICKER => "derivative_ticker" | TD_LIQUIDATIONS => "liquidations"
  end.
Definition all_types : list TardisDataType :=
  [TD_TRADES; TD_QUOTES; TD_BOOK_TICKER; TD_INCREMENTAL_BOOK_L2; TD_BOOK_SNAPSHOT_25; TD_BOOK_SNAPSHOT_5; TD_DERIVATIVE_TICKER; TD_LIQUIDATIONS].

(** [TardisDataType(raw)]. *)
Definition type_of_value (raw : string) : option TardisDataType := List.find (fun t => String.eqb (type_value t) raw) all_types.

(** ** Fields of a response *)

Definition response_mapping (value : pyval) : result pydict :=
  match value with
  | VDict d => if str_keys d then Ok d else Raise TardisRequestError
  | _ => Raise TardisRequestError
  end.
Definition response_sequence (value : pyval) : result (list pyval) :=
  match value with VList l => Ok l | _ => Raise TardisRequestError end.
Definition get_field (name : string) (d : pydict) : pyval := default VNone (dict_get name d).

Definition parse_date (value : pyval) : result date :=
  match value with
  | VStr s => catch_res (fun e => match e with ValueError => TardisRequestError | _ => e end) (date_fromisoformat (take_chars 10 s))
  | _ => Raise TardisRequestError
  end.
Definition date_field (fields : pydict) (name : string) : result date := parse_date (get_field name fields).

(** ** Coverage *)

Record TardisCoverage := mk_coverage {
  tc_exchange : string;
  tc_symbol : string;
  tc_data_types : list TardisDataType;
  tc_available_since : date;
  tc_available_to : date;
  tc_exported_until : option date;
}.

Definition TardisCoverage_post_init (c : TardisCoverage) : result TardisCoverage :=
  let! _ := raise_if (is_empty (tc_exchange c) || is_empty (tc_symbol c)) ValueError in
  let! _ := raise_if (tc_available_to c <? tc_available_since c) ValueError in
  let! _ := raise_if (bool_decide (tc_data_types c = [])) ValueError in
  Ok c.

Definition effective_to (c : TardisCoverage) : date :=
  match tc_exported_until c with Some d => Z.min (tc_available_to c) d | None => tc_available_to c end.

Definition supports (c : TardisCoverage) (t : TardisDataType) (day : date) : bool :=
  if negb (bool_decide (t ∈ tc_data_types c)) then false
  else (tc_available_since c <=? day) && (day <=? effective_to c).

(** The first row with the symbol's id; a row before it that is no object is an error. *)
Fixpoint find_symbol (symbol : string) (rows : list pyval) : result (option pydict) :=
  match rows with
  | [] => Ok None
  | candidate :: rows' =>
      let! row := response_mapping candidate in
      if py_eq (get_field "id" row) (VStr symbol) then Ok (Some row) else find_symbol symbol rows'
  end.

(** Unknown types are skipped. *)
Fixpoint supported_types (raw : list pyval) : result (list TardisDataType) :=
  match raw with
  | [] => Ok []
  | VStr s :: raw' =>
      let! rest := supported_types raw' in
      Ok (match type_of_value s with Some t => t :: rest | None => rest end)
  | _ :: _ => Raise TardisRequestError
  end.

Definition from_exchange_details (document : pydict) (exchange symbol : string) : result TardisCoverage :=
  let! datasets := response_mapping (get_field "datasets" document) in
  let! symbols := response_sequence (get_field "symbols" datasets) in
  let! found := find_symbol symbol symbols in
  let! target := of_option TardisRequestError found in
  let! raw_types := response_sequence (get_field "dataTypes" target) in
  let! supported := supported_types raw_types in
  let! _ := raise_if (bool_decide (supported = [])) TardisRequestError in
  let! available_since := date_field target "availableSince" in
  let! available_to := date_field target "availableTo" in
  let exported := get_field "exportedUntil" datasets in
  let! exported_until :=
    match exported with
    | VNone | VStr EmptyString => Ok None
    | _ => let! d := parse_date exported in Ok (Some d)
    end in
  TardisCoverage_post_init (mk_coverage exchange symbol supported available_since available_to exported_until).

(** ** Entitlements and capabilities *)

Record TardisEntitlement := mk_entitlement {
  te_coverage : TardisCoverage;
  te_allowed_data_types : list TardisDataType;
  te_sample_only : bool;
}.

Definition permits (e : TardisEntitlement) (t : TardisDataType) (day : date) : bool :=
  if negb (bool_decide (t ∈ te_allowed_data_types e)) || negb (supports (te_coverage e) t day) then false
  else negb (te_sample_only e) || (date_day day =? 1).

Record TardisCapabilities := mk_capabilities {
  has_trades : bool;
  has_bbo : bool;
  has_l2_snapshots : bool;
  has_l2_deltas : bool;
  has_funding : bool;
  has_liquidations : bool;
  execution_tier : option string;
}.

Definition date_fromordinal (n : Z) : result date := if in_date_range n then Ok n else Raise ValueError.

(** The loop of [complete] over [days] days from [current]. *)
Fixpoint complete_loop (e : TardisEntitlement) (t : TardisDataType) (days : nat) (current : date) : result bool :=
  match days with
  | O => Ok true
  | S k =>
      if negb (permits e t current) then Ok false
      else let! next := date_fromordinal (current + 1) in complete_loop e t k next
  end.
Definition complete (e : TardisEntitlement) (start_day end_day : date) (t : TardisDataType) : result bool :=
  complete_loop e t (Z.to_nat (end_day - start_day + 1)) start_day.

(** [a or b]. *)
Definition or_else (a b : result bool) : result bool := let! x := a in if x then Ok true else b.

Definition capabilities_for_interval (e : TardisEntitlement) (start_day end_day : date) : result TardisCapabilities :=
  let! _ := raise_if (end_day <? start_day) ValueError in
  let complete := complete e start_day end_day in
  let! trades := complete TD_TRADES in
  let! bbo := or_else (complete TD_QUOTES) (complete TD_BOOK_TICKER) in
  let! incremental_l2 := complete TD_INCREMENTAL_BOOK_L2 in
  let! snapshots := or_else (Ok incremental_l2) (or_else (complete TD_BOOK_SNAPSHOT_25) (complete TD_BOOK_SNAPSHOT_5)) in
  let! funding := complete TD_DERIVATIVE_TICKER in
  let! liquidations := complete TD_LIQUIDATIONS in
  let tier := if incremental_l2 then Some "F2" else if trades && bbo then Some "F1" else if trades then Some "F0T" else None in
  Ok (mk_capabilities trades bbo snapshots incremental_l2 funding liquidations tier).

(** ** A capability is claimed only when every day has the data *)

Definition every_day (e : TardisEntitlement) (start_day end_day : date) (t : TardisDataType) : Prop :=
  forall day, start_day <= day <= end_day -> permits e t day = true.

Lemma complete_loop_spec e t n : forall d b,
  complete_loop e t n d = Ok b -> b = true <-> forall x, d <= x < d + Z.of_nat n -> permits e t x = true.
Proof.
  induction n as [|n IH]; intros d b; cbn [complete_loop].
  { intros [= <-]. split; [intros _ x Hx; lia|done]. }
  destruct (permits e t d) eqn:Hp; cbn [negb].
  - intros (next & Hn & H)%rbind_Ok. unfold date_fromordinal in Hn. destruct (in_date_range (d + 1)); [|discriminate]. injection Hn as <-.
    rewrite (IH _ _ H). split; intros Ha x Hx; [|apply Ha; lia]. destruct (decide (x = d)) as [->|]; [done|]. apply Ha. lia.
  - intros [= <-]. split; [done|]. intros Ha. rewrite (Ha d) in Hp; [done|lia].
Qed.

(** Away from the last representable day the loop always returns. *)
Lemma complete_loop_total e t n : forall d,
  1 <= d -> d + Z.of_nat n <= MAX_DATE -> exists b, complete_loop e t n d = Ok b.
Proof.
  induction n as [|n IH]; intros d H1 H2; cbn [complete_loop]; [eauto|]. destruct (permits e t d); cbn [negb]; [|eauto].
  unfold date_fromordinal. assert (in_date_range (d + 1) = true) as ->.
  { unfold in_date_range, MIN_DATE. apply andb_true_iff. rewrite !Z.leb_le. lia. }
  cbn [rbind]. apply IH; lia.
Qed.

Lemma complete_iff e start_day end_day t b :
  start_day <= end_day -> complete e start_day end_day t = Ok b -> b = true <-> every_day e start_day end_day t.
Proof.
  intros Hd H. rewrite (complete_loop_spec _ _ _ _ _ H). unfold every_day. split; intros Ha x Hx; apply Ha; lia.
Qed.

Lemma complete_total e start_day end_day t :
  1 <= start_day <= end_day -> end_day < MAX_DATE -> exists b, complete e start_day end_day t = Ok b.
Proof. intros H1 H2. apply complete_loop_total; lia. Qed.

Lemma or_else_iff a b x y : a = Ok x -> b = Ok y -> or_else a b = Ok (x || y).
Proof. intros -> ->. by destruct x. Qed.

(** Capabilities are never overstated or understated.  For every interval before the last representable
    day the computation returns; each flag is true exactly when every day of the interval has the data and
    is permitted (for quotes and snapshots, in one of the alternative datasets); and the execution tier is
    the best that the flags support. *)
Theorem capabilities_exact e start_day end_day :
  1 <= start_day <= end_day -> end_day < MAX_DATE ->
  exists c, capabilities_for_interval e start_day end_day = Ok c
    /\ (has_trades c = true <-> every_day e start_day end_day TD_TRADES)
    /\ (has_bbo c = true <-> every_day e start_day end_day TD_QUOTES \/ every_day e start_day end_day TD_BOOK_TICKER)
    /\ (has_l2_deltas c = true <-> every_day e start_day end_day TD_INCREMENTAL_BOOK_L2)
    /\ (has_l2_snapshots c = true <-> every_day e start_day end_day TD_INCREMENTAL_BOOK_L2
          \/ every_day e start_day end_day TD_BOOK_SNAPSHOT_25 \/ every_day e start_day end_day TD_BOOK_SNAPSHOT_5)
    /\ (has_funding c = true <-> every_day e start_day end_day TD_DERIVATIVE_TICKER)
    /\ (has_liquidations c = true <-> every_day e start_day end_day TD_LIQUIDATIONS)
    /\ execution_tier c = (if has_l2_deltas c then Some "F2" else if has_trades c && has_bbo c then Some "F1"
                           else if has_trades c then Some "F0T" else None).
Proof.
  intros H1 H2. assert (forall t, exists b, complete e start_day end_day t = Ok b /\ (b = true <-> every_day e start_day end_day t)) as Hc.
  { intros t. destruct (complete_total e start_day end_day t H1 H2) as (b & Hb). exists b. split; [done|]. apply complete_iff; [lia|done]. }
  destruct (Hc TD_TRADES) as (tr & Etr & Itr). destruct (Hc TD_QUOTES) as (qu & Equ & Iqu). destruct (Hc TD_BOOK_TICKER) as (bt & Ebt & Ibt).
  destruct (Hc TD_INCREMENTAL_BOOK_L2) as (l2 & El2 & Il2). destruct (Hc TD_BOOK_SNAPSHOT_25) as (s25 & Es25 & Is25).
  destruct (Hc TD_BOOK_SNAPSHOT_5) as (s5 & Es5 & Is5). destruct (Hc TD_DERIVATIVE_TICKER) as (fu & Efu & Ifu).
  destruct (Hc TD_LIQUIDATIONS) as (li & Eli & Ili).
  unfold capabilities_for_interval. rewrite (proj2 (Z.ltb_ge end_day start_day)) by lia. cbn [raise_if rbind].
  rewrite Etr, (or_else_iff _ _ _ _ Equ Ebt), El2. cbn [rbind].
  rewrite (or_else_iff _ _ l2 _ eq_refl (or_else_iff _ _ _ _ Es25 Es5)). cbn [rbind]. rewrite Efu, Eli. cbn [rbind].
  eexists. split; [reflexivity|]. cbn [has_trades has_bbo has_l2_snapshots has_l2_deltas has_funding has_liquidations execution_tier].
  rewrite !orb_true_iff, Itr, Iqu, Ibt, Il2, Is25, Is5, Ifu, Ili. by split_and!.
Qed.

(** A sample entitlement: first days of months only. *)
Definition demo_sample : TardisEntitlement :=
  mk_entitlement (mk_coverage "deribit" "BTC-PERPETUAL" [TD_TRADES; TD_QUOTES] 737000 738000 None) [TD_TRADES; TD_QUOTES] true.

Lemma capabilities_exact_witness :
  1 <= 737425 <= 737425 /\ 737425 < MAX_DATE
  /\ exists c, capabilities_for_interval demo_sample 737425 737425 = Ok c /\ execution_tier c = Some "F1".
Proof.
  split; [lia|]. split; [reflexivity|].
  destruct (capabilities_exact demo_sample 737425 737425 ltac:(lia) ltac:(reflexivity)) as (c & H & _). exists c. split; [exact H|].
  vm_compute in H. injection H as <-. reflexivity.
Defined.
