(* ===== verification/Tardis.v ===== *)
(** * The Tardis adapter ([workers/ingest/.../adapters/tardis/adapter.py])

    Planning under an entitlement, authenticated download, and normalization of daily datasets.  The
    network is the transport of the code; gzip decompression is the interface [GzipReader]. *)

From S2P Require Import Prelude Sort PyStr PyText Bytes PyJson JsonParse Dates Decimal Csv IngestModel Events TardisModel.
From Stdlib Require Import Ascii.
From Stdlib Require String.

Definition MICROSECOND_TO_NS : Z := 1000.
Definition DATASET_BASE_URL : string := "https://datasets.tardis.dev/v1".

(** ** The network *)

(** What is outside: a request with its headers, of which at most a given number of bytes are read. *)
Class UrlRequest (Net : Type) := { url_open : string -> list (string * string) -> Z -> ST Net bytes }.

(** [UrlLibTardisTransport.get]. *)
Definition request_headers (bearer_token : option string) : list (string * string) :=
  ("User-Agent", "trading-replay-lab/1")
  :: match bearer_token with Some token => [("Authorization", "Bearer " +:+ token)] | None => [] end.
Definition transport_get {Net} `{UrlRequest Net} (url : string) (max_bytes : Z) (bearer_token : option string) : ST Net bytes :=
  payload <- url_open url (request_headers bearer_token) (max_bytes + 1) ;;
  lift (raise_if (max_bytes <? Z.of_nat (length payload)) TardisIntegrityError) ;;;
  sret payload.

Class TardisTransport (Net : Type) := { td_get : string -> Z -> option string -> ST Net bytes }.
#[export] Instance urllib_tardis_transport {Net} `{UrlRequest Net} : TardisTransport Net := { td_get := transport_get }.

(** ** Configuration *)

Record TardisConfig := mk_tardis_config {
  tg_exchange : string;
  tg_symbol : string;
  tg_data_type : TardisDataType;
  tg_instrument_id : string;
  tg_dataset_id : string;
  tg_price_scale : Z;
  tg_qty_scale : Z;
  tg_rate_scale : Z;
  tg_max_archive_bytes : Z;
  tg_max_uncompressed_bytes : Z;
  tg_max_rows_per_chunk : Z;
  tg_estimated_cost_minor_per_chunk : Z;
}.

Definition TardisConfig_post_init (c : TardisConfig) : result TardisConfig :=
  let scale_ok s := (0 <=? s) && (s <=? 18) in
  let! _ := raise_if (is_empty (tg_exchange c) || is_empty (tg_instrument_id c) || is_empty (tg_dataset_id c)) ValueError in
  let! _ := raise_if (is_empty (tg_symbol c) || negb (is_upper_text (tg_symbol c))) ValueError in
  let! _ := raise_if (negb (scale_ok (tg_price_scale c)) || negb (scale_ok (tg_qty_scale c)) || negb (scale_ok (tg_rate_scale c))) ValueError in
  let! _ := raise_if ((tg_max_archive_bytes c <=? 0) || (tg_max_uncompressed_bytes c <=? 0)) ValueError in
  let! _ := raise_if (tg_max_rows_per_chunk c <=? 0) ValueError in
  let! _ := raise_if (tg_estimated_cost_minor_per_chunk c <? 0) ValueError in
  Ok c.

Definition url_symbol (c : TardisConfig) : string := replace_char ":" "-" (replace_char "/" "-" (tg_symbol c)).
Definition venue_id (c : TardisConfig) : string := "TARDIS:" +:+ py_upper (tg_exchange c).

(** [TardisAdapter.__init__]. *)
Definition TardisAdapter_init (config : TardisConfig) (entitlement : TardisEntitlement) : result unit :=
  let! _ := raise_if (negb (String.eqb (tc_exchange (te_coverage entitlement)) (tg_exchange config))) ValueError in
  raise_if (negb (String.eqb (tc_symbol (te_coverage entitlement)) (tg_symbol config))) ValueError.

(** ** Values *)

Definition canonical_uint (value : string) : result Z :=
  let! _ := raise_if (is_empty value || negb (py_isascii value) || negb (py_isdigit value)
      || (starts_with "0" value && negb (String.eqb value "0"))) TardisSchemaError in
  let! parsed := py_int value in
  let! _ := raise_if (U64_MAX <? parsed) TardisSchemaError in
  Ok parsed.

Definition micros_to_ns (value : Z) : result Z :=
  let result := value * MICROSECOND_TO_NS in
  let! _ := raise_if (I64_MAX <? result) TardisSchemaError in Ok result.

Definition decimal_atoms (value : string) (scale : Z) (positive allow_negative : bool) : result Z :=
  let! _ := raise_if (is_empty value || negb (String.eqb (py_strip value) value) || starts_with "+" value) TardisSchemaError in
  match decimal_of_text value with
  | None => Raise TardisSchemaError
  | Some DSpecial => Raise TardisSchemaError
  | Some d =>
      let! scaled := dec_times_pow10 scale d in
      let! atoms := of_option TardisSchemaError (dec_exact_int scaled) in
      let! _ := raise_if ((atoms <? I64_MIN) || (I64_MAX <? atoms)) TardisSchemaError in
      let! _ := raise_if (positive && (atoms <=? 0)) TardisSchemaError in
      let! _ := raise_if (negb positive && negb allow_negative && (atoms <? 0)) TardisSchemaError in
      Ok atoms
  end.

Definition boolean (value : string) : result bool :=
  if String.eqb value "true" then Ok true else if String.eqb value "false" then Ok false else Raise TardisSchemaError.

Definition side (value : string) (allow_unknown : bool) : result string :=
  let normalized := py_lower value in
  if String.eqb normalized "buy" || String.eqb normalized "bid" then Ok "BUY"
  else if String.eqb normalized "sell" || String.eqb normalized "ask" then Ok "SELL"
  else if allow_unknown && String.eqb normalized "unknown" then Ok "UNKNOWN"
  else Raise TardisSchemaError.

(** ** Rows *)

(** The cells of a row; those without a value are not part of the dictionary of the code. *)
Definition Row := list (string * option string).
Definition row_get (row : Row) (name : string) : result string :=
  match cell name row with Some (Some v) => Ok v | _ => Raise KeyError end.

Class GzipReader := { gzip_read : bytes -> Z -> result bytes }.

Section Adapter.
Variable config : TardisConfig.

(** *** Sources *)

Definition dataset_dir : string := DATASET_BASE_URL +:+ "/" +:+ tg_exchange config +:+ "/" +:+ type_value (tg_data_type config) +:+ "/".

(** [f"{day:%Y/%m/%d}"]; the days of a plan have four-digit years. *)
Definition date_path (day : date) : string := pad 4 (date_year day) +:+ "/" +:+ pad 2 (date_month day) +:+ "/" +:+ pad 2 (date_day day).
Definition dataset_url (day : date) : string := dataset_dir +:+ date_path day +:+ "/" +:+ url_symbol config +:+ ".csv.gz".

Definition validate_source_ref (source_ref : string) : result unit :=
  let! _ := raise_if (negb (py_startswith dataset_dir source_ref)) TardisRequestError in
  let! _ := raise_if (negb (py_endswith ("/" +:+ url_symbol config +:+ ".csv.gz") source_ref)) TardisRequestError in
  raise_if (bool_decide (".." ∈ path_parts (removeprefix (DATASET_BASE_URL +:+ "/") source_ref))) TardisRequestError.

Definition chunk_key (day : date) : string :=
  tg_exchange config +:+ ":" +:+ type_value (tg_data_type config) +:+ ":" +:+ url_symbol config +:+ ":" +:+ date_isoformat day.

Definition plan (entitlement : TardisEntitlement) (request : FetchRequest) : result FetchPlan :=
  let! _ := raise_if (negb (String.eqb (fq_provider request) "tardis")) TardisRequestError in
  let! _ := raise_if (negb (String.eqb (fq_instrument_id request) (tg_instrument_id config))) TardisRequestError in
  let! _ := raise_if (negb (String.eqb (fq_dataset request) (type_value (tg_data_type config)))) TardisRequestError in
  let! _ := raise_if ((fq_start_ns request <? 0) || (fq_end_ns request <=? fq_start_ns request)) TardisRequestError in
  let! first_day := date_add UNIX_EPOCH (fq_start_ns request / DAY_NS) in
  let! last_day := date_add UNIX_EPOCH ((fq_end_ns request - 1) / DAY_NS) in
  let count := last_day - first_day + 1 in
  rmap (fun offset =>
    let! day := date_add first_day offset in
    let! _ := raise_if (negb (permits entitlement (tg_data_type config) day)) TardisRequestError in
    Ok (mk_chunk (chunk_key day) (dataset_url day) None (tg_estimated_cost_minor_per_chunk config))) (seqZ 0 count).

(** The key is asked for at each download and goes to the transport only. *)
Definition fetch {Net} `{TardisTransport Net} (entitlement : TardisEntitlement) (api_key_provider : option (ST Net (option string)))
    (chunk : FetchChunk) : ST Net bytes :=
  lift (validate_source_ref (ch_source_ref chunk)) ;;;
  bearer_value <- match api_key_provider with None => sret None | Some provider => provider end ;;
  lift (raise_if (negb (te_sample_only entitlement) && match bearer_value with Some v => is_empty v | None => true end) TardisRequestError) ;;;
  td_get (ch_source_ref chunk) (tg_max_archive_bytes config) bearer_value.

(** *** Events *)

Definition event_items (timestamp_ns local_ns : Z) (tie_breaker : Z) (kind source_event_id : string)
    (payload : list (string * pyval)) (quality_flags : list string) : list (string * pyval) :=
  [("schema_version", VStr "1.0.0"); ("dataset_id", VStr (tg_dataset_id config)); ("instrument_id", VStr (tg_instrument_id config));
   ("venue_id", VStr (venue_id config)); ("ts_event_ns", VStr (str_Z timestamp_ns)); ("ts_recv_ns", VStr (str_Z local_ns));
   ("canonical_tie_breaker", VStr (str_Z tie_breaker)); ("kind", VStr kind); ("payload", VDict (obj payload));
   ("quality_flags", VList (map VStr quality_flags)); ("source_event_id", VStr source_event_id)].

Definition event (row : Row) (tie_breaker : Z) (kind : string) (payload : list (string * pyval))
    (source_event_id : option string) (quality_flags : list string) : result pyval :=
  let! timestamp := row_get row "timestamp" in
  let! t := canonical_uint timestamp in
  let! timestamp_ns := micros_to_ns t in
  let! local_timestamp := row_get row "local_timestamp" in
  let! l := canonical_uint local_timestamp in
  let! local_ns := micros_to_ns l in
  let generated := type_value (tg_data_type config) +:+ ":" +:+ local_timestamp +:+ ":" +:+ str_Z tie_breaker in
  let id := match source_event_id with Some s => if is_empty s then generated else s | None => generated end in
  Ok (VDict (obj (event_items timestamp_ns local_ns tie_breaker kind id payload quality_flags))).

Definition column_atoms (row : Row) (name : string) (scale : Z) (positive : bool) : result Z :=
  let! v := row_get row name in decimal_atoms v scale positive false.

Definition trade (row : Row) (index : Z) : result pyval :=
  let! raw_side := row_get row "side" in
  let! s := side raw_side true in
  let! trade_id := row_get row "id" in
  let! price := column_atoms row "price" (tg_price_scale config) true in
  let! qty := column_atoms row "amount" (tg_qty_scale config) true in
  let payload := [("price_atoms", VStr (str_Z price)); ("qty_atoms", VStr (str_Z qty)); ("aggressor_side", VStr s)]
    ++ (if is_empty trade_id then [] else [("trade_id", VStr trade_id)]) in
  event row index "TRADE" payload (Some trade_id) [].

(** One side of a quote. *)
Definition bbo_side (row : Row) (price_column amount_column price_key qty_key : string) : result (list (string * pyval)) :=
  let! raw_price := row_get row price_column in
  if is_empty raw_price then
    let! raw_amount := row_get row amount_column in
    let! _ := raise_if (negb (is_empty raw_amount)) TardisSchemaError in
    Ok []
  else
    let! price := decimal_atoms raw_price (tg_price_scale config) true false in
    let! qty := column_atoms row amount_column (tg_qty_scale config) false in
    Ok [(price_key, VStr (str_Z price)); (qty_key, VStr (str_Z qty))].

Definition bbo (row : Row) (index : Z) : result pyval :=
  let! bid := bbo_side row "bid_price" "bid_amount" "bid_price_atoms" "bid_qty_atoms" in
  let! ask := bbo_side row "ask_price" "ask_amount" "ask_price_atoms" "ask_qty_atoms" in
  let! _ := raise_if (match bid ++ ask with [] => true | _ => false end) TardisSchemaError in
  event row index "BBO" (bid ++ ask) None [].

Definition level (price qty : Z) : pyval := VDict (obj [("price_atoms", VStr (str_Z price)); ("qty_atoms", VStr (str_Z qty))]).

(** The levels of the rows of one snapshot: bids and asks. *)
Fixpoint group_levels (rows : list Row) : result (list pyval * list pyval) :=
  match rows with
  | [] => Ok ([], [])
  | row :: rows' =>
      let! amount := column_atoms row "amount" (tg_qty_scale config) false in
      if amount =? 0 then group_levels rows'
      else
        let! price := column_atoms row "price" (tg_price_scale config) true in
        let! raw_side := row_get row "side" in
        let! s := side raw_side false in
        let! rest := group_levels rows' in
        Ok (if String.eqb s "BUY" then (level price amount :: fst rest, snd rest) else (fst rest, level price amount :: snd rest))
  end.

(** [first] is the first row of the group. *)
Definition snapshot_group (first : Row) (rows : list Row) (index : Z) (flags : list string) : result pyval :=
  let! sides := group_levels rows in
  event first index "BOOK_SNAPSHOT_L2" [("bids", VList (fst sides)); ("asks", VList (snd sides)); ("scope", VStr "FULL")] None flags.

Definition book_delta (row : Row) (index : Z) : result pyval :=
  let! amount := column_atoms row "amount" (tg_qty_scale config) false in
  let! raw_side := row_get row "side" in
  let! s := side raw_side false in
  let! price := column_atoms row "price" (tg_price_scale config) true in
  event row index "BOOK_DELTA_L2"
    [("side", VStr s); ("price_atoms", VStr (str_Z price)); ("new_qty_atoms", VStr (str_Z amount));
     ("action", VStr (if amount =? 0 then "DELETE" else "UPSERT"))] None [].

Definition snapshot_depth : Z := if decide (tg_data_type config = TD_BOOK_SNAPSHOT_25) then 25 else 5.

Definition level_column (prefix : string) (i : Z) (name : string) : string := prefix +:+ "[" +:+ str_Z i +:+ "]." +:+ name.

Definition snapshot_level (row : Row) (prefix : string) (i : Z) : result (list pyval) :=
  let! price := row_get row (level_column prefix i "price") in
  let! amount := row_get row (level_column prefix i "amount") in
  if is_empty price && is_empty amount then Ok []
  else
    let! _ := raise_if (is_empty price || is_empty amount) TardisSchemaError in
    let! qty := decimal_atoms amount (tg_qty_scale config) false false in
    if qty =? 0 then Ok []
    else let! atoms := decimal_atoms price (tg_price_scale config) true false in Ok [level atoms qty].

Fixpoint snapshot_levels (row : Row) (indexes : list Z) : result (list pyval * list pyval) :=
  match indexes with
  | [] => Ok ([], [])
  | i :: indexes' =>
      let! bid := snapshot_level row "bids" i in
      let! ask := snapshot_level row "asks" i in
      let! rest := snapshot_levels row indexes' in
      Ok (bid ++ fst rest, ask ++ snd rest)
  end.

Definition snapshot_row (row : Row) (index : Z) : result pyval :=
  let! sides := snapshot_levels row (seqZ 0 snapshot_depth) in
  event row index "BOOK_SNAPSHOT_L2"
    [("bids", VList (fst sides)); ("asks", VList (snd sides)); ("scope", VStr "TOP_N"); ("depth", VInt snapshot_depth)] None [].

Definition derivative_columns : list (string * string * Z * string) :=
  [("funding_rate", "FUNDING_RATE", tg_rate_scale config, "rate"); ("open_interest", "OPEN_INTEREST", tg_qty_scale config, "quantity");
   ("index_price", "INDEX_PRICE", tg_price_scale config, "price"); ("mark_price", "MARK_PRICE", tg_price_scale config, "price")].

Definition derivative_event (row : Row) (tie : Z) (kind : string) (value : Z) (unit : string) : result pyval :=
  event row tie kind [("value_atoms", VStr (str_Z value)); ("unit", VStr unit)] None [].

(** The events of the columns that have a value; the next tie-breaker with them. *)
Fixpoint derivative_values (row : Row) (tie : Z) (columns : list (string * string * Z * string)) : result (list pyval * Z) :=
  match columns with
  | [] => Ok ([], tie)
  | (column, kind, scale, unit) :: columns' =>
      let! value := row_get row column in
      if is_empty value then derivative_values row tie columns'
      else
        let! atoms := decimal_atoms value scale false (String.eqb kind "FUNDING_RATE") in
        let! e := derivative_event row tie kind atoms unit in
        let! rest := derivative_values row (tie + 1) columns' in
        Ok (e :: fst rest, snd rest)
  end.

Definition derivative_row (row : Row) (index : Z) : result (list pyval) :=
  let! values := derivative_values row (index * 8) derivative_columns in
  let! funding_timestamp := row_get row "funding_timestamp" in
  if is_empty funding_timestamp then Ok (fst values)
  else
    let! t := canonical_uint funding_timestamp in
    let! timestamp_ns := micros_to_ns t in
    let! e := derivative_event row (snd values) "FUNDING_PAYMENT_TIME" timestamp_ns "ns" in
    Ok (fst values ++ [e]).

Definition liquidation (row : Row) (index : Z) : result pyval :=
  let! liquidation_id := row_get row "id" in
  let! price := column_atoms row "price" (tg_price_scale config) true in
  let! qty := column_atoms row "amount" (tg_qty_scale config) true in
  let! raw_side := row_get row "side" in
  let! s := side raw_side true in
  let payload := [("price_atoms", VStr (str_Z price)); ("qty_atoms", VStr (str_Z qty)); ("side", VStr s)]
    ++ (if is_empty liquidation_id then [] else [("liquidation_id", VStr liquidation_id)]) in
  event row index "LIQUIDATION_PRINT" payload (Some liquidation_id) [].

(** *** Incremental books *)

Record L2State := mk_l2 {
  l2_ready : bool;
  l2_skipped_before_snapshot : bool;
  l2_saw_incremental : bool;
  l2_events : list pyval;
}.
Definition l2_start : L2State := mk_l2 false false false [].

Definition numbered {A} (start : Z) (l : list A) : list (Z * A) := imap (fun i x => (start + Z.of_nat i, x)) l.

(** The rows that share a local timestamp, [first] the first of them. *)
Definition l2_group (s : L2State) (index : Z) (first : Row) (group : list Row) : result L2State :=
  let! snapshot_flags := rmap (fun row => let! v := row_get row "is_snapshot" in boolean v) group in
  let is_snapshot : bool := List.hd false snapshot_flags in
  let! _ := raise_if (negb (forallb (Bool.eqb is_snapshot) snapshot_flags)) TardisSchemaError in
  if is_snapshot then
    let flags := (if l2_skipped_before_snapshot s then ["PRE_SNAPSHOT_UPDATES_SKIPPED"] else [])
      ++ (if l2_ready s && l2_saw_incremental s then ["RECONNECT_SNAPSHOT"] else []) in
    let! e := snapshot_group first group index flags in
    Ok (mk_l2 true (l2_skipped_before_snapshot s) false (l2_events s ++ [e]))
  else if negb (l2_ready s) then Ok (mk_l2 false true (l2_saw_incremental s) (l2_events s))
  else
    let! deltas := rmap (fun p => book_delta (snd p) (fst p)) (numbered index group) in
    Ok (mk_l2 true (l2_skipped_before_snapshot s) true (l2_events s ++ deltas)).

(** The loop: [group] holds the rows read of the group that starts at [index]. *)
Fixpoint l2_loop (s : L2State) (index : Z) (local_timestamp : string) (first : Row) (group rows : list Row) : result L2State :=
  match rows with
  | [] => l2_group s index first group
  | row :: rows' =>
      let! next := row_get row "local_timestamp" in
      if String.eqb next local_timestamp then l2_loop s index local_timestamp first (group ++ [row]) rows'
      else
        let! s' := l2_group s index first group in
        l2_loop s' (index + Z.of_nat (length group)) next row [row] rows'
  end.

Definition incremental_l2 (rows : list Row) : result (list pyval) :=
  match rows with
  | [] => Ok []
  | row :: rows' =>
      let! local_timestamp := row_get row "local_timestamp" in
      let! s := l2_loop l2_start 0 local_timestamp row [row] rows' in
      Ok (l2_events s)
  end.

(** *** Files *)

Definition base_columns : list string := ["exchange"; "symbol"; "timestamp"; "local_timestamp"].
Definition expected_columns : list string :=
  base_columns ++
  match tg_data_type config with
  | TD_TRADES | TD_LIQUIDATIONS => ["id"; "side"; "price"; "amount"]
  | TD_QUOTES | TD_BOOK_TICKER => ["ask_amount"; "ask_price"; "bid_price"; "bid_amount"]
  | TD_INCREMENTAL_BOOK_L2 => ["is_snapshot"; "side"; "price"; "amount"]
  | TD_BOOK_SNAPSHOT_25 | TD_BOOK_SNAPSHOT_5 =>
      flat_map (fun i => [level_column "asks" i "price"; level_column "asks" i "amount"; level_column "bids" i "price"; level_column "bids" i "amount"])
        (seqZ 0 snapshot_depth)
  | TD_DERIVATIVE_TICKER =>
      ["funding_timestamp"; "funding_rate"; "predicted_funding_rate"; "open_interest"; "last_price"; "index_price"; "mark_price"]
  end.

(** Equal as sets. *)
Definition same_names (a b : list string) : bool :=
  forallb (fun x => existsb (String.eqb x) b) a && forallb (fun x => existsb (String.eqb x) a) b.
Definition validate_header (fieldnames : list string) : result unit :=
  raise_if (negb (same_names fieldnames expected_columns)) TardisSchemaError.

Definition validate_identity (row : Row) : result unit :=
  let! exchange := row_get row "exchange" in
  let! _ := raise_if (negb (String.eqb exchange (tg_exchange config))) TardisSchemaError in
  let! symbol := row_get row "symbol" in
  raise_if (negb (String.eqb symbol (tg_symbol config))) TardisSchemaError.

(** The rows of the file, and the error of the reader after the last of them. *)
Fixpoint accept_rows (index : Z) (rows : list DictRow) (stop : option exn) : result (list Row) :=
  match rows with
  | [] => match stop with None => Ok [] | Some e => Raise e end
  | r :: rows' =>
      let! _ := raise_if (tg_max_rows_per_chunk config <=? index) TardisIntegrityError in
      let! _ := raise_if (match dr_rest r with [] => false | _ => true end) TardisSchemaError in
      let! _ := validate_identity (dr_cells r) in
      let! rest := accept_rows (index + 1) rows' stop in
      Ok (dr_cells r :: rest)
  end.

Definition read_rows (text : string) : result (list Row) :=
  match dict_reader text with
  | (None, _, Some e) => Raise e
  | (None, _, None) => Raise TardisSchemaError
  | (Some fieldnames, rows, stop) =>
      let! _ := validate_header fieldnames in
      accept_rows 0 rows stop
  end.

Definition events_of (rows : list Row) : result (list pyval) :=
  let each (f : Row -> Z -> result pyval) := rmap (fun p => f (snd p) (fst p)) (numbered 0 rows) in
  match tg_data_type config with
  | TD_TRADES => each trade
  | TD_QUOTES | TD_BOOK_TICKER => each bbo
  | TD_INCREMENTAL_BOOK_L2 => incremental_l2 rows
  | TD_BOOK_SNAPSHOT_25 | TD_BOOK_SNAPSHOT_5 => each snapshot_row
  | TD_DERIVATIVE_TICKER => let! blocks := rmap (fun p => derivative_row (snd p) (fst p)) (numbered 0 rows) in Ok (concat blocks)
  | TD_LIQUIDATIONS => each liquidation
  end.

Section Normalize.
Context `{Gz : GzipReader}.

Definition decompress (raw : bytes) : result string :=
  let! payload := catch_res (fun e => match e with OSError | EOFError => TardisIntegrityError | _ => e end)
    (gzip_read raw (tg_max_uncompressed_bytes config + 1)) in
  let! _ := raise_if (tg_max_uncompressed_bytes config <? Z.of_nat (length payload)) TardisIntegrityError in
  catch_res (fun e => match e with UnicodeDecodeError => TardisSchemaError | _ => e end) (utf8_decode payload).

Definition normalize (chunk : FetchChunk) (raw : bytes) : result (list pyval) :=
  let! _ := validate_source_ref (ch_source_ref chunk) in
  let! text := decompress raw in
  let! rows := read_rows text in
  events_of rows.
End Normalize.
End Adapter.

(** ** Events have their place in the file *)

Lemma tardis_uint_Ok value n : canonical_uint value = Ok n -> 0 <= n.
Proof.
  unfold canonical_uint. intros H. apply rbind_Ok in H as (u1 & H1%raise_if_Ok & H). apply rbind_Ok in H as (m & Hm & H).
  apply rbind_Ok in H as (u2 & _ & H). apply Ok_inj in H as <-. bools.
  apply (digits_int_nonneg value); [by apply isdigit_ascii|done].
Qed.

Lemma micros_to_ns_Ok v n : 0 <= v -> micros_to_ns v = Ok n -> 0 <= n <= I64_MAX.
Proof.
  unfold micros_to_ns, MICROSECOND_TO_NS. intros Hv H. apply rbind_Ok in H as (u & H1%raise_if_Ok & H). apply Ok_inj in H as <-. bools. lia.
Qed.

Section Facts.
Variable config : TardisConfig.

(** [v] is an event of the given kind and tie-breaker. *)
Definition is_event (kind : string) (tie : Z) (v : pyval) : Prop :=
  exists timestamp_ns local_ns source_event_id payload flags,
    v = VDict (obj (event_items config timestamp_ns local_ns tie kind source_event_id payload flags))
    /\ 0 <= timestamp_ns <= I64_MAX /\ 0 <= local_ns <= I64_MAX /\ json_ok (VDict (obj payload)) = true.

Lemma event_Ok row tie kind payload sid flags v :
  event config row tie kind payload sid flags = Ok v -> json_ok (VDict (obj payload)) = true -> is_event kind tie v.
Proof.
  unfold event. intros H Hp. apply rbind_Ok in H as (ts & _ & H). apply rbind_Ok in H as (t & Ht & H). apply rbind_Ok in H as (n & Hn & H).
  apply rbind_Ok in H as (lt & _ & H). apply rbind_Ok in H as (l & Hl & H). apply rbind_Ok in H as (m & Hm & H). apply Ok_inj in H as <-.
  apply tardis_uint_Ok in Ht, Hl. eapply micros_to_ns_Ok in Hn, Hm; [|done..]. unfold is_event. eauto 10.
Qed.

(** A payload of texts under distinct names. *)
Lemma payload_ok (payload : list (string * pyval)) :
  Forall (fun p => json_ok (snd p) = true) payload -> NoDup (map fst payload) -> json_ok (VDict (obj payload)) = true.
Proof.
  intros Hf Hn. apply json_ok_dict. unfold obj. split.
  - apply Forall_forall. intros q Hq. apply elem_of_mapl in Hq as ([k v] & -> & Hkv). rewrite Forall_forall in Hf.
    split; [done|]. exact (Hf _ Hkv).
  - clear Hf. induction payload as [|[k v] l IH]; cbn in *; [constructor|]. apply NoDup_cons in Hn as [Hk Hn].
    constructor; [|by apply IH]. intros Hin. apply Hk. apply elem_of_mapl in Hin as (q & E & Hq).
    apply elem_of_mapl in Hq as ([k' v'] & -> & Hq). cbn in E. injection E as ->. apply elem_of_mapl. by exists (k', v').
Qed.

(** Decides that the names of a payload are distinct. *)
Ltac distinct := match goal with |- NoDup ?l => apply (bool_decide_eq_true_1 (NoDup l)); reflexivity end.
Ltac payload := apply payload_ok; [repeat (apply Forall_cons; split; [done|]); apply Forall_nil_2|cbn [map fst app]; distinct].

(** Peels the steps of a computation that returned an event. *)
Ltac peel H :=
  repeat match type of H with
  | rbind _ _ = Ok _ => let x := fresh "x" in let Hx := fresh "Hx" in apply rbind_Ok in H as (x & Hx & H)
  end.

Lemma trade_event row i v : trade config row i = Ok v -> is_event "TRADE" i v.
Proof. unfold trade. intros H. peel H. eapply event_Ok; [exact H|]. destruct (is_empty _); payload. Qed.

Lemma liquidation_event row i v : liquidation config row i = Ok v -> is_event "LIQUIDATION_PRINT" i v.
Proof. unfold liquidation. intros H. peel H. eapply event_Ok; [exact H|]. destruct (is_empty _); payload. Qed.

Lemma bbo_side_Ok row pc ac pk qk items :
  bbo_side config row pc ac pk qk = Ok items ->
  items = [] \/ exists p q, items = [(pk, VStr (str_Z p)); (qk, VStr (str_Z q))].
Proof.
  unfold bbo_side. intros H. apply rbind_Ok in H as (p & _ & H). destruct (is_empty p); peel H; apply Ok_inj in H as <-; eauto.
Qed.

Lemma bbo_event row i v : bbo config row i = Ok v -> is_event "BBO" i v.
Proof.
  unfold bbo. intros H. apply rbind_Ok in H as (bid & Hb & H). apply rbind_Ok in H as (ask & Ha & H). apply rbind_Ok in H as (u & _ & H).
  eapply event_Ok; [exact H|]. apply bbo_side_Ok in Hb as [->|(p & q & ->)], Ha as [->|(p' & q' & ->)]; cbn [app]; payload.
Qed.

Lemma levels_ok (l : list pyval) : (forall x, x ∈ l -> exists p q, x = level p q) -> json_ok (VList l) = true.
Proof.
  intros H. cbn. apply forallb_forall. intros x Hx. apply list_elem_of_In in Hx. destruct (H x Hx) as (p & q & ->). unfold level. payload.
Qed.

Definition are_levels (l : list pyval) : Prop := Forall (fun x => exists p q, x = level p q) l.

Lemma group_levels_ok rows : forall sides, group_levels config rows = Ok sides -> are_levels (fst sides) /\ are_levels (snd sides).
Proof.
  induction rows as [|row rows IH]; intros sides; cbn [group_levels]; [intros [= <-]; by split; constructor|].
  intros H. apply rbind_Ok in H as (a & _ & H). destruct (a =? 0); [by apply IH|].
  apply rbind_Ok in H as (p & _ & H). apply rbind_Ok in H as (r & _ & H). apply rbind_Ok in H as (s & _ & H). apply rbind_Ok in H as (rest & Hr & H).
  apply Ok_inj in H as <-. destruct (IH _ Hr) as [H1 H2].
  destruct (String.eqb s "BUY"); cbn [fst snd]; split; try done; constructor; eauto.
Qed.

Lemma snapshot_level_ok row prefix i l : snapshot_level config row prefix i = Ok l -> are_levels l.
Proof.
  unfold snapshot_level. intros H. apply rbind_Ok in H as (p & _ & H). apply rbind_Ok in H as (a & _ & H).
  destruct (_ && _); [apply Ok_inj in H as <-; constructor|]. apply rbind_Ok in H as (u & _ & H). apply rbind_Ok in H as (q & _ & H).
  destruct (q =? 0); [apply Ok_inj in H as <-; constructor|]. apply rbind_Ok in H as (x & _ & H). apply Ok_inj in H as <-.
  constructor; [eauto|constructor].
Qed.

Lemma snapshot_levels_ok row indexes : forall sides,
  snapshot_levels config row indexes = Ok sides -> are_levels (fst sides) /\ are_levels (snd sides).
Proof.
  induction indexes as [|i indexes IH]; intros sides; cbn [snapshot_levels]; [intros [= <-]; by split; constructor|].
  intros H. apply rbind_Ok in H as (b & Hb & H). apply rbind_Ok in H as (a & Ha & H). apply rbind_Ok in H as (rest & Hr & H).
  apply Ok_inj in H as <-. destruct (IH _ Hr) as [H1 H2]. apply snapshot_level_ok in Hb, Ha. cbn [fst snd]. by split; apply Forall_app.
Qed.

Lemma book_payload_ok sides rest :
  are_levels (fst sides) -> are_levels (snd sides) -> Forall (fun p => json_ok (snd p) = true) rest ->
  NoDup ("bids" :: "asks" :: map fst rest) ->
  json_ok (VDict (obj (("bids", VList (fst sides)) :: ("asks", VList (snd sides)) :: rest))) = true.
Proof.
  intros H1 H2 H3 H4. apply payload_ok; [|exact H4]. unfold are_levels in *. rewrite Forall_forall in H1, H2.
  constructor; [by apply levels_ok|]. constructor; [by apply levels_ok|done].
Qed.

Lemma snapshot_group_event first rows i flags v : snapshot_group config first rows i flags = Ok v -> is_event "BOOK_SNAPSHOT_L2" i v.
Proof.
  unfold snapshot_group. intros H. apply rbind_Ok in H as (sides & Hs & H). eapply event_Ok; [exact H|]. apply group_levels_ok in Hs as [H1 H2].
  apply book_payload_ok; [done|done|repeat (apply Forall_cons; split; [done|]); apply Forall_nil_2|cbn [map fst]; distinct].
Qed.

Lemma snapshot_row_event row i v : snapshot_row config row i = Ok v -> is_event "BOOK_SNAPSHOT_L2" i v.
Proof.
  unfold snapshot_row. intros H. apply rbind_Ok in H as (sides & Hs & H). eapply event_Ok; [exact H|]. apply snapshot_levels_ok in Hs as [H1 H2].
  unfold snapshot_depth. apply book_payload_ok; [done|done|destruct (decide _); repeat (apply Forall_cons; split; [done|]); apply Forall_nil_2|cbn [map fst]; distinct].
Qed.

Lemma book_delta_event row i v : book_delta config row i = Ok v -> is_event "BOOK_DELTA_L2" i v.
Proof. unfold book_delta. intros H. peel H. eapply event_Ok; [exact H|]. payload. Qed.

Lemma derivative_event_Ok row tie kind value unit v : derivative_event config row tie kind value unit = Ok v -> is_event kind tie v.
Proof. unfold derivative_event. intros H. eapply event_Ok; [exact H|]. payload. Qed.

(** ** The order of a batch *)

(** The tie-breakers of the events increase strictly, within [lo, hi). *)
Definition ties_in (lo hi : Z) (events : list pyval) : Prop :=
  exists ties, Forall2 (fun v tie => exists kind, is_event kind tie v) events ties
    /\ StronglySorted Z.lt ties /\ Forall (fun t => lo <= t < hi) ties.

Lemma ties_nil lo hi : ties_in lo hi [].
Proof. exists []. split_and!; constructor. Qed.

Lemma ties_one lo hi kind tie v : is_event kind tie v -> lo <= tie < hi -> ties_in lo hi [v].
Proof. intros Hv Ht. exists [tie]. split_and!; repeat constructor; eauto; lia. Qed.

Lemma ties_app lo mid hi a b : ties_in lo mid a -> ties_in mid hi b -> lo <= mid <= hi -> ties_in lo hi (a ++ b).
Proof.
  intros (ta & Fa & Sa & Ba) (tb & Fb & Sb & Bb) Hm. exists (ta ++ tb). split_and!.
  - by apply Forall2_app.
  - clear Fa Fb. induction Sa as [|x ta Sa IH Hx]; [done|]. apply Forall_cons in Ba as [Hx0 Ba]. constructor; [by apply IH|].
    apply Forall_app. split; [done|]. eapply Forall_impl; [exact Bb|]. cbn. lia.
  - apply Forall_app. split; (eapply Forall_impl; [eassumption|]); cbn; lia.
Qed.

Lemma ties_weaken lo hi lo' hi' l : ties_in lo hi l -> lo' <= lo -> hi <= hi' -> ties_in lo' hi' l.
Proof. intros (t & F & St & B) H1 H2. exists t. split_and!; [done..|]. eapply Forall_impl; [exact B|]. cbn. lia. Qed.

(** Blocks of events, one per row. *)
Lemma numbered_rows_cons {A} start (x : A) l : numbered start (x :: l) = (start, x) :: numbered (start + 1) l.
Proof.
  unfold numbered. cbn [imap]. f_equal; [f_equal; lia|]. apply imap_ext. intros i y _. cbn. f_equal. lia.
Qed.

Lemma ties_blocks {A} (f : Z * A -> result (list pyval)) w rows : forall start blocks,
  0 <= w -> (forall i row l, f (i, row) = Ok l -> ties_in (w * i) (w * (i + 1)) l) ->
  rmap f (numbered start rows) = Ok blocks -> ties_in (w * start) (w * (start + Z.of_nat (length rows))) (concat blocks).
Proof.
  induction rows as [|row rows IH]; intros start blocks Hw Hf; [cbn; intros [= <-]; apply ties_nil|].
  rewrite numbered_rows_cons. cbn [rmap]. intros H. apply rbind_Ok in H as (l & Hl & H). apply rbind_Ok in H as (bs & Hb & H). apply Ok_inj in H as <-.
  cbn [concat length]. eapply ties_app; [by apply (Hf _ _ _ Hl)| |nia].
  eapply ties_weaken; [by eapply (IH _ _ Hw Hf Hb)|nia|nia].
Qed.

Lemma ties_rows {A} (f : A -> Z -> result pyval) kind rows start events :
  (forall row i v, f row i = Ok v -> is_event kind i v) ->
  rmap (fun p => f (snd p) (fst p)) (numbered start rows) = Ok events ->
  ties_in start (start + Z.of_nat (length rows)) events
  /\ Forall (fun v => exists tie, is_event kind tie v) events.
Proof.
  intros Hf H. revert start events H. induction rows as [|row rows IH]; intros start events.
  { cbn. intros [= <-]. split; [apply ties_nil|constructor]. }
  rewrite numbered_rows_cons. cbn [rmap fst snd]. intros H. apply rbind_Ok in H as (v & Hv & H). apply rbind_Ok in H as (vs & Hvs & H). apply Ok_inj in H as <-.
  apply Hf in Hv. destruct (IH _ _ Hvs) as [H1 H2]. cbn [length]. split; [|constructor; eauto].
  apply (ties_app _ (start + 1) _ [v]); [eapply ties_one; [exact Hv|lia]| |lia]. eapply ties_weaken; [exact H1|lia|lia].
Qed.

Lemma derivative_values_ties row columns : forall tie r,
  derivative_values config row tie columns = Ok r ->
  tie <= snd r <= tie + Z.of_nat (length columns) /\ ties_in tie (snd r) (fst r).
Proof.
  induction columns as [|[[[column kind] scale] unit] columns IH]; intros tie r; cbn [derivative_values length].
  { intros [= <-]. cbn [fst snd]. split; [lia|apply ties_nil]. }
  intros H. apply rbind_Ok in H as (value & _ & H). destruct (is_empty value).
  { destruct (IH _ _ H). split; [lia|done]. }
  apply rbind_Ok in H as (atoms & _ & H). apply rbind_Ok in H as (e & He & H). apply rbind_Ok in H as (rest & Hr & H). apply Ok_inj in H as <-.
  apply derivative_event_Ok in He. destruct (IH _ _ Hr) as [Hb Ht]. cbn [fst snd]. split; [lia|].
  apply (ties_app _ (tie + 1) _ [e]); [eapply ties_one; [exact He|lia]|done|lia].
Qed.

Lemma derivative_row_ties i row l : derivative_row config row i = Ok l -> ties_in (8 * i) (8 * (i + 1)) l.
Proof.
  unfold derivative_row. intros H. apply rbind_Ok in H as (values & Hv & H). apply derivative_values_ties in Hv as [Hb Ht]. cbn [length derivative_columns] in Hb.
  apply rbind_Ok in H as (ft & _ & H). destruct (is_empty ft).
  { apply Ok_inj in H as <-. eapply ties_weaken; [exact Ht|lia|lia]. }
  apply rbind_Ok in H as (t & _ & H). apply rbind_Ok in H as (n & _ & H). apply rbind_Ok in H as (e & He & H). apply Ok_inj in H as <-.
  apply derivative_event_Ok in He. eapply ties_app; [eapply ties_weaken; [exact Ht|lia|apply Z.le_refl]|eapply ties_one; [exact He|lia]|lia].
Qed.

(** ** Incremental books *)

Definition l2_kinds (v : pyval) : Prop := exists kind tie, is_event kind tie v /\ (kind = "BOOK_SNAPSHOT_L2" \/ kind = "BOOK_DELTA_L2").
Definition is_snapshot (v : pyval) : Prop := exists tie, is_event "BOOK_SNAPSHOT_L2" tie v.
Definition is_delta (v : pyval) : Prop := exists tie, is_event "BOOK_DELTA_L2" tie v.

(** Every change of a book comes after a whole book. *)
Definition reconstructible (events : list pyval) : Prop :=
  forall pre v post, events = pre ++ v :: post -> is_snapshot v \/ (is_delta v /\ exists s, s ∈ pre /\ is_snapshot s).

Lemma reconstructible_app a b :
  reconstructible a -> Forall (fun v => is_snapshot v \/ (is_delta v /\ exists s, s ∈ a /\ is_snapshot s)) b -> reconstructible (a ++ b).
Proof.
  intros Ha Hb pre v post E. destruct (app_eq_inv _ _ _ _ E) as [(k & -> & E2)|(k & -> & ->)].
  - destruct k as [|x k]; cbn in E2.
    + subst b. apply Forall_cons in Hb as [Hv _]. rewrite app_nil_r in Hv. exact Hv.
    + injection E2 as <- ->. by apply (Ha pre v k).
  - apply Forall_app in Hb as [_ Hb]. apply Forall_cons in Hb as [[Hv|[Hd (s & Hs & Hss)]] _]; [by left|]. right. split; [done|].
    exists s. split; [|done]. apply elem_of_app. by left.
Qed.

(** What holds before the group of row [index]. *)
Record l2_inv (s : L2State) (index : Z) : Prop := {
  li_ties : ties_in 0 index (l2_events s);
  li_reconstructible : reconstructible (l2_events s);
  li_ready : l2_ready s = true -> exists v, v ∈ l2_events s /\ is_snapshot v;
}.

Lemma l2_group_inv s index first group s' :
  0 <= index -> l2_inv s index -> (1 <= length group)%nat -> l2_group config s index first group = Ok s' ->
  l2_inv s' (index + Z.of_nat (length group)).
Proof.
  intros Hi [It Ir Iy] Hg H. unfold l2_group in H. apply rbind_Ok in H as (fl & _ & H). apply rbind_Ok in H as (u & _ & H).
  destruct (List.hd false fl).
  - apply rbind_Ok in H as (e & He & H). apply Ok_inj in H as <-. apply snapshot_group_event in He. cbn [l2_events l2_ready]. constructor; cbn [l2_events l2_ready].
    + eapply ties_app; [exact It|eapply ties_one; [exact He|lia]|lia].
    + apply reconstructible_app; [done|]. constructor; [|constructor]. left. by exists index.
    + intros _. exists e. split; [apply elem_of_app; right; apply list_elem_of_here|by exists index].
  - destruct (l2_ready s) eqn:Hr; cbn [negb] in H.
    + apply rbind_Ok in H as (ds & Hds & H). apply Ok_inj in H as <-. destruct (Iy eq_refl) as (w & Hw & Hws).
      destruct (ties_rows (book_delta config) "BOOK_DELTA_L2" group index ds book_delta_event Hds) as [Ht Hk]. constructor; cbn [l2_events l2_ready].
      * eapply ties_app; [exact It|exact Ht|lia].
      * apply reconstructible_app; [done|]. eapply Forall_impl; [exact Hk|]. intros v Hv. right. split; [exact Hv|eauto].
      * intros _. exists w. split; [apply elem_of_app; by left|done].
    + apply Ok_inj in H as <-. constructor; cbn [l2_events l2_ready]; [eapply ties_weaken; [exact It|lia|lia]|done|done].
Qed.

Lemma l2_loop_inv rows : forall s index ts first group s',
  0 <= index -> l2_inv s index -> (1 <= length group)%nat -> l2_loop config s index ts first group rows = Ok s' ->
  l2_inv s' (index + Z.of_nat (length group + length rows)).
Proof.
  induction rows as [|row rows IH]; intros s index ts first group s' Hi Hs Hg; cbn [l2_loop length].
  { rewrite Nat.add_0_r. by apply l2_group_inv. }
  intros H. apply rbind_Ok in H as (next & _ & H). destruct (String.eqb next ts).
  - apply IH in H; [|done|done|rewrite length_app; cbn; lia]. rewrite length_app in H. cbn [length] in H.
    by replace (length group + S (length rows))%nat with (length group + 1 + length rows)%nat by lia.
  - apply rbind_Ok in H as (s1 & H1 & H). apply l2_group_inv in H1; [|done..]. apply IH in H; [|lia|done|cbn; lia]. cbn [length] in H.
    replace (index + Z.of_nat (length group + S (length rows))) with (index + Z.of_nat (length group) + Z.of_nat (1 + length rows)) by lia. done.
Qed.

Lemma l2_start_inv : l2_inv l2_start 0.
Proof. constructor; [apply ties_nil|by intros [|? ?]|done]. Qed.

Lemma incremental_l2_inv rows events :
  incremental_l2 config rows = Ok events -> ties_in 0 (Z.of_nat (length rows)) events /\ reconstructible events.
Proof.
  unfold incremental_l2. destruct rows as [|row rows]; [intros [= <-]; split; [apply ties_nil|by intros [|? ?]]|].
  intros H. apply rbind_Ok in H as (ts & _ & H). apply rbind_Ok in H as (s & Hs & H). apply Ok_inj in H as <-.
  apply l2_loop_inv in Hs; [|done|apply l2_start_inv|cbn; lia]. destruct Hs as [Ht Hr _]. cbn [length] in Ht. split; [|done].
  cbn [length]. by replace (Z.of_nat (S (length rows))) with (0 + Z.of_nat (1 + length rows)) by lia.
Qed.

Lemma events_of_ties rows events : events_of config rows = Ok events -> ties_in 0 (8 * Z.of_nat (length rows)) events.
Proof.
  unfold events_of. intros H.
  assert (forall f kind, (forall row i v, f row i = Ok v -> is_event kind i v) ->
    rmap (fun p => f (snd p) (fst p)) (numbered 0 rows) = Ok events -> ties_in 0 (8 * Z.of_nat (length rows)) events) as Hrow.
  { intros f kind Hf E. eapply ties_weaken; [by apply (ties_rows f kind rows 0 events Hf E)|lia|lia]. }
  destruct (tg_data_type config).
  - by apply (Hrow _ _ trade_event H).
  - by apply (Hrow _ _ bbo_event H).
  - by apply (Hrow _ _ bbo_event H).
  - eapply ties_weaken; [by apply incremental_l2_inv|lia|lia].
  - by apply (Hrow _ _ snapshot_row_event H).
  - by apply (Hrow _ _ snapshot_row_event H).
  - apply rbind_Ok in H as (blocks & Hb & H). apply Ok_inj in H as <-.
    apply (ties_blocks (fun p => derivative_row config (snd p) (fst p)) 8 rows 0 blocks ltac:(lia)) in Hb; [exact Hb|].
    intros i row l. apply derivative_row_ties.
  - by apply (Hrow _ _ liquidation_event H).
Qed.

(** ** Whole files *)

Lemma accept_rows_length rows stop : forall index accepted,
  accept_rows config index rows stop = Ok accepted -> accepted = [] \/ index + Z.of_nat (length accepted) <= tg_max_rows_per_chunk config.
Proof.
  induction rows as [|r rows IH]; intros index accepted; cbn [accept_rows].
  { destruct stop; [discriminate|]. intros [= <-]. by left. }
  intros H. apply rbind_Ok in H as (u & Hu%raise_if_Ok & H). peel H. apply Ok_inj in H as <-. bools. right. cbn [length].
  match goal with Hr : accept_rows _ _ _ _ = Ok _ |- _ => destruct (IH _ _ Hr) as [->|Hle] end; cbn [length]; lia.
Qed.

Lemma read_rows_length text rows : read_rows config text = Ok rows -> rows = [] \/ Z.of_nat (length rows) <= tg_max_rows_per_chunk config.
Proof.
  unfold read_rows. destruct (dict_reader text) as [[[header|] rs] [e|]]; [..|discriminate|discriminate];
    intros H; apply rbind_Ok in H as (u & _ & H); by apply accept_rows_length in H.
Qed.

Lemma normalize_rows `{Gz : GzipReader} chunk raw events :
  normalize config chunk raw = Ok events ->
  exists rows, events_of config rows = Ok events /\ (rows = [] \/ Z.of_nat (length rows) <= tg_max_rows_per_chunk config).
Proof.
  unfold normalize. intros H. apply rbind_Ok in H as (u & _ & H). apply rbind_Ok in H as (text & _ & H). apply rbind_Ok in H as (rows & Hr & H).
  exists rows. split; [done|]. by apply (read_rows_length text).
Qed.

(** *** The kinds of a data type *)

Definition tardis_kinds (t : TardisDataType) : list string :=
  match t with
  | TD_TRADES => ["TRADE"]
  | TD_QUOTES | TD_BOOK_TICKER => ["BBO"]
  | TD_INCREMENTAL_BOOK_L2 => ["BOOK_SNAPSHOT_L2"; "BOOK_DELTA_L2"]
  | TD_BOOK_SNAPSHOT_25 | TD_BOOK_SNAPSHOT_5 => ["BOOK_SNAPSHOT_L2"]
  | TD_DERIVATIVE_TICKER => ["FUNDING_RATE"; "OPEN_INTEREST"; "INDEX_PRICE"; "MARK_PRICE"; "FUNDING_PAYMENT_TIME"]
  | TD_LIQUIDATIONS => ["LIQUIDATION_PRINT"]
  end.
Definition of_kinds (kinds : list string) (v : pyval) : Prop := exists kind tie, kind ∈ kinds /\ is_event kind tie v.

Lemma derivative_values_kinds row kinds columns : forall tie r,
  Forall (fun c => snd (fst (fst c)) ∈ kinds) columns ->
  derivative_values config row tie columns = Ok r -> Forall (of_kinds kinds) (fst r).
Proof.
  induction columns as [|[[[column kind] scale] unit] columns IH]; intros tie r Hc; cbn [derivative_values]; [by intros [= <-]|].
  apply Forall_cons in Hc as [Hk Hc]. intros H. apply rbind_Ok in H as (value & _ & H). destruct (is_empty value); [by eapply IH|].
  apply rbind_Ok in H as (atoms & _ & H). apply rbind_Ok in H as (e & He & H). apply rbind_Ok in H as (rest & Hr & H). apply Ok_inj in H as <-.
  apply derivative_event_Ok in He. constructor; [by exists kind, tie|by eapply IH].
Qed.

Lemma derivative_row_kinds row i l :
  derivative_row config row i = Ok l -> Forall (of_kinds (tardis_kinds TD_DERIVATIVE_TICKER)) l.
Proof.
  unfold derivative_row. intros H. apply rbind_Ok in H as (values & Hv & H).
  apply (derivative_values_kinds _ (tardis_kinds TD_DERIVATIVE_TICKER)) in Hv; [|repeat (apply Forall_cons; split; [cbn; set_solver|]); apply Forall_nil_2].
  apply rbind_Ok in H as (ft & _ & H). destruct (is_empty ft); [by apply Ok_inj in H as <-|].
  apply rbind_Ok in H as (t & _ & H). apply rbind_Ok in H as (n & _ & H). apply rbind_Ok in H as (e & He & H). apply Ok_inj in H as <-.
  apply derivative_event_Ok in He. apply Forall_app. split; [done|]. constructor; [|constructor].
  exists "FUNDING_PAYMENT_TIME", (snd values). split; [cbn; set_solver|done].
Qed.

Lemma events_of_kinds rows events : events_of config rows = Ok events -> Forall (of_kinds (tardis_kinds (tg_data_type config))) events.
Proof.
  unfold events_of. intros H.
  assert (forall f kind kinds, kind ∈ kinds -> (forall row i v, f row i = Ok v -> is_event kind i v) ->
    rmap (fun p => f (snd p) (fst p)) (numbered 0 rows) = Ok events -> Forall (of_kinds kinds) events) as Hrow.
  { intros f kind kinds Hk Hf E. apply (ties_rows f kind rows 0 events Hf) in E as [_ E]. eapply Forall_impl; [exact E|].
    intros v (tie & Hv). by exists kind, tie. }
  destruct (tg_data_type config); cbn [tardis_kinds].
  - eapply Hrow; [|exact trade_event|exact H]. set_solver.
  - eapply Hrow; [|exact bbo_event|exact H]. set_solver.
  - eapply Hrow; [|exact bbo_event|exact H]. set_solver.
  - apply incremental_l2_inv in H as [_ H]. apply Forall_forall. intros v (pre & post & E)%list_elem_of_split.
    destruct (H pre v post E) as [(tie & Hv)|[(tie & Hv) _]]; [exists "BOOK_SNAPSHOT_L2"|exists "BOOK_DELTA_L2"]; exists tie; (split; [set_solver|done]).
  - eapply Hrow; [|exact snapshot_row_event|exact H]. set_solver.
  - eapply Hrow; [|exact snapshot_row_event|exact H]. set_solver.
  - apply rbind_Ok in H as (blocks & Hb & H). apply Ok_inj in H as <-. apply rmap_Ok in Hb. apply Forall_concat.
    eapply Forall2_Forall_r; [exact Hb|]. apply Forall_forall. intros [i row] _ l. apply derivative_row_kinds.
  - eapply Hrow; [|exact liquidation_event|exact H]. set_solver.
Qed.

(** *** Typed events *)

Definition tardis_typed_event (v : pyval) : Prop :=
  exists d, v = VDict d /\ typed_event (tg_dataset_id config) (tg_instrument_id config) (venue_id config)
    (tardis_kinds (tg_data_type config)) (fun _ _ => True) d.

Lemma is_event_typed kind tie v :
  0 <= tie < 2 ^ 64 -> kind ∈ tardis_kinds (tg_data_type config) -> is_event kind tie v -> tardis_typed_event v.
Proof.
  intros Ht Hk (ts & lt & id & p & fl & -> & Hts & Hlt & Hp). eexists. split; [reflexivity|]. split.
  - done.
  - by exists ts.
  - exists (str_Z tie). split; [done|]. exists tie. split; [apply py_int_str_Z; lia|done].
  - done.
  - by exists id.
  - by exists kind, (obj p).
  - by exists fl.
  - apply payload_ok.
    + unfold event_items. repeat (apply Forall_cons; split; [first [done|exact Hp|idtac]|]); [|apply Forall_nil_2].
      cbn. apply forallb_forall. intros x Hx. apply list_elem_of_In, elem_of_mapl in Hx as (y & -> & _). done.
    + cbn [event_items map fst]. distinct.
Qed.

(** With at most 2^60 rows, as the default ceiling says, tie-breakers stay in 64 bits. *)
Lemma tardis_batch_typed `{Gz : GzipReader} chunk raw events :
  tg_max_rows_per_chunk config <= 2 ^ 60 -> normalize config chunk raw = Ok events -> Forall tardis_typed_event events.
Proof.
  intros Hmax H. apply normalize_rows in H as (rows & H & Hr). pose proof (events_of_kinds _ _ H) as HK.
  apply events_of_ties in H as (ties & HF & _ & HB).
  assert (8 * Z.of_nat (length rows) <= 2 ^ 63) by (destruct Hr as [->|]; cbn [length]; lia).
  assert (Forall (fun v => exists kind tie, 0 <= tie < 2 ^ 64 /\ is_event kind tie v) events) as HT.
  { eapply Forall2_Forall_l; [exact HF|]. eapply Forall_impl; [exact HB|]. intros tie Htie v (kind & Hv). cbn in Htie.
    exists kind, tie. split; [lia|done]. }
  rewrite Forall_forall in HK, HT. apply Forall_forall. intros v Hv. destruct (HT v Hv) as (kind & tie & Htie & He).
  destruct (HK v Hv) as (kind' & tie' & Hk' & He'). enough (kind = kind') as <- by by eapply is_event_typed.
  destruct He as (? & ? & ? & ? & ? & -> & _), He' as (? & ? & ? & ? & ? & E & _). injection E. congruence.
Qed.
End Facts.

(** Whatever the data type, the events of a file keep its order: their tie-breakers increase strictly,
    so that no two events of a file share one, and stay below eight times the number of rows that the
    configuration allows. *)
Theorem tardis_batch_ordered `{Gz : GzipReader} config chunk raw events :
  0 <= tg_max_rows_per_chunk config -> normalize config chunk raw = Ok events ->
  exists ties, Forall2 (fun v tie => exists kind, is_event config kind tie v) events ties
    /\ StronglySorted Z.lt ties /\ Forall (fun tie => 0 <= tie < 8 * tg_max_rows_per_chunk config) ties.
Proof.
  intros H0 H. apply normalize_rows in H as (rows & H & Hr). apply events_of_ties in H as (ties & HF & HS & HB). exists ties. split_and!; [done..|].
  eapply Forall_impl; [exact HB|]. cbn. intros tie Ht. destruct Hr as [->|]; cbn [length] in *; lia.
Qed.

(** C32. A book can always be rebuilt.  In a batch of an incremental book every event is a whole book or a
    change, and every change has a whole book before it: what the file has before its first snapshot is
    left out. *)
Theorem tardis_book_reconstructible `{Gz : GzipReader} config chunk raw events :
  tg_data_type config = TD_INCREMENTAL_BOOK_L2 -> normalize config chunk raw = Ok events ->
  forall pre v post, events = pre ++ v :: post ->
  is_snapshot config v \/ (is_delta config v /\ exists s, s ∈ pre /\ is_snapshot config s).
Proof.
  intros Ht H. apply normalize_rows in H as (rows & H & _). unfold events_of in H. rewrite Ht in H.
  by apply incremental_l2_inv in H as [_ H].
Qed.

(** ** Plans *)

Lemma split_char_sep a s t : split_char a (s +:+ String a t) = split_char a s ++ split_char a t.
Proof.
  induction s as [|c s IH]; cbn; [by rewrite Ascii.eqb_refl|]. destruct (Ascii.eqb c a); [by rewrite IH|].
  rewrite IH. by destruct (split_char_cons a s) as (x & l & ->).
Qed.

Lemma path_parts_sep s t : path_parts (s +:+ "/" +:+ t) = path_parts s ++ path_parts t.
Proof. unfold path_parts. change ("/" +:+ t) with (String "/" t). by rewrite split_char_sep, List.filter_app. Qed.

Definition no_slash (s : string) : bool := all_chars (fun c => negb (Ascii.eqb c "/")) s.

Lemma path_parts_plain s : no_slash s = true -> forall x, x ∈ path_parts s -> x = s.
Proof.
  intros Hs x Hx. unfold path_parts in Hx. apply elem_of_filterb in Hx as [Hx _].
  destruct (split_char_append "/" EmptyString s Hs) as (l & y & E1 & E2). cbn in E1, E2. destruct l as [|? [|? ?]]; [|discriminate..].
  injection E1 as <-. rewrite E2 in Hx. cbn in Hx. by apply list_elem_of_singleton in Hx.
Qed.

Lemma digits_part s x : all_chars is_ascii_digit s = true -> x ∈ path_parts s -> x <> "..".
Proof.
  intros Hs Hx. apply path_parts_plain in Hx as ->; [intros ->; discriminate Hs|].
  unfold no_slash. eapply all_chars_impl; [|exact Hs]. intros c Hc. apply negb_true_iff, Ascii.eqb_neq. intros ->. discriminate Hc.
Qed.

Lemma replace_char_no a b s : Ascii.eqb b a = false -> all_chars (fun c => negb (Ascii.eqb c a)) (replace_char a b s) = true.
Proof.
  intros Hb. unfold replace_char. induction s as [|c s IH]; [done|]. cbn. destruct (Ascii.eqb c a) eqn:E; [by rewrite Hb, IH|by rewrite E, IH].
Qed.

Lemma replace_char_keeps p a b s : p b = true -> all_chars p s = true -> all_chars p (replace_char a b s) = true.
Proof.
  intros Hb. unfold replace_char. induction s as [|c s IH]; [done|]. cbn. intros [Hc Hs]%andb_true_iff. destruct (Ascii.eqb c a); by rewrite ?Hb, ?Hc, IH.
Qed.

Section Plans.
Variable config : TardisConfig.

Lemma file_part x : x ∈ path_parts (url_symbol config +:+ ".csv.gz") -> x <> "..".
Proof.
  intros Hx. apply path_parts_plain in Hx as ->.
  - intros E. apply (f_equal String.length) in E. rewrite append_length in E. cbn in E. lia.
  - unfold no_slash. rewrite all_chars_app, andb_true_iff. split; [|done]. unfold url_symbol.
    apply replace_char_keeps; [done|]. by apply replace_char_no.
Qed.

(** A planned source is one that the download accepts. *)
Lemma dataset_url_valid day :
  in_date_range day = true -> ".." ∉ path_parts (tg_exchange config) -> validate_source_ref config (dataset_url config day) = Ok tt.
Proof.
  intros Hd He. unfold validate_source_ref.
  assert (dataset_url config day = (dataset_dir config +:+ date_path day) +:+ ("/" +:+ url_symbol config +:+ ".csv.gz")) as E2.
  { unfold dataset_url. by rewrite !append_assoc. }
  assert (dataset_url config day = (DATASET_BASE_URL +:+ "/") +:+ (tg_exchange config +:+ "/" +:+ type_value (tg_data_type config) +:+ "/"
    +:+ pad 4 (date_year day) +:+ "/" +:+ pad 2 (date_month day) +:+ "/" +:+ pad 2 (date_day day) +:+ "/" +:+ (url_symbol config +:+ ".csv.gz"))) as E3.
  { unfold dataset_url, dataset_dir, date_path. by rewrite !append_assoc. }
  assert (py_startswith (dataset_dir config) (dataset_url config day) = true) as -> by apply startswith_append.
  assert (py_endswith ("/" +:+ url_symbol config +:+ ".csv.gz") (dataset_url config day) = true) as -> by (rewrite E2; apply endswith_append).
  cbn [negb raise_if rbind].
  rewrite E3, removeprefix_append. apply raise_if_Ok, bool_decide_eq_false. clear E2 E3.
  pose proof (date_year_range day Hd). destruct (date_month_day_range day) as [Hm Hdd].
  rewrite !path_parts_sep, !elem_of_app. intros [Hx|[Hx|[Hx|[Hx|[Hx|Hx]]]]].
  - done.
  - destruct (tg_data_type config); cbv in Hx; apply list_elem_of_singleton in Hx; discriminate Hx.
  - by apply digits_part in Hx; [|apply pad_spec; lia].
  - by apply digits_part in Hx; [|apply pad_spec; lia].
  - by apply digits_part in Hx; [|apply pad_spec; lia].
  - by apply file_part in Hx.
Qed.

(** A plan asks exactly for what is covered and permitted.  The chunks are one per UTC day that the
    half-open range of nanoseconds meets, in order and without a repeated key; local policy and provider
    coverage permit every one of them; and the adapter's own download accepts every planned source
    (unless the exchange's name steps out of its directory). *)
Theorem tardis_plan_covers entitlement r chunks :
  plan config entitlement r = Ok chunks ->
  exists days,
    Forall2 (fun day c => permits entitlement (tg_data_type config) day = true
      /\ c = mk_chunk (chunk_key config day) (dataset_url config day) None (tg_estimated_cost_minor_per_chunk config)
      /\ (".." ∉ path_parts (tg_exchange config) -> validate_source_ref config (ch_source_ref c) = Ok tt)) days chunks
    /\ StronglySorted Z.lt days /\ NoDup (map ch_key chunks)
    /\ forall d, d ∈ days <-> exists t, fq_start_ns r <= t < fq_end_ns r /\ day_of t = d.
Proof.
  intros H. unfold plan in H. do 4 (apply rbind_Ok in H as (? & ?%raise_if_Ok & H)).
  apply rbind_Ok in H as (first & Hf & H). apply rbind_Ok in H as (last & Hl & H). apply rmap_days in H. bools.
  set (days := seqZ first (last - first + 1)) in *.
  assert (Forall2 (fun day c => in_date_range day = true /\ permits entitlement (tg_data_type config) day = true
    /\ c = mk_chunk (chunk_key config day) (dataset_url config day) None (tg_estimated_cost_minor_per_chunk config)) days chunks) as HF.
  { eapply Forall2_impl; [exact H|]. intros d c [Hr Hc]. apply rbind_Ok in Hc as (u & Hp%raise_if_Ok & Hc). apply Ok_inj in Hc as <-. by bools. }
  exists days. split_and!.
  - eapply Forall2_impl; [exact HF|]. intros d c (Hr & Hp & ->). split_and!; [done..|]. by apply dataset_url_valid.
  - unfold days. apply seqZ_sorted.
  - apply (day_keys (tg_exchange config +:+ ":" +:+ type_value (tg_data_type config) +:+ ":" +:+ url_symbol config +:+ ":") days); [|apply NoDup_seqZ].
    eapply Forall2_impl; [exact HF|]. intros d c (Hr & _ & ->). split; [done|]. cbn [ch_key]. unfold chunk_key. by rewrite !append_assoc.
  - intros d. by apply range_days.
Qed.
End Plans.

(** ** Numbers at the declared scale *)

(** The range that a field of the given kind accepts. *)
Definition in_range (positive allow_negative : bool) (a : Z) : Prop :=
  I64_MIN <= a <= I64_MAX /\ (positive = true -> 0 < a) /\ (positive = false -> allow_negative = false -> 0 <= a).

Lemma tardis_atoms_exact value scale (positive allow_negative : bool) s c e a :
  py_strip value = value -> starts_with "+" value = false -> decimal_of_text value = Some (DFinite s c e) ->
  c < 10 ^ DEC_PREC -> 0 <= scale -> DEC_ETINY <= e -> e + scale <= DEC_ETOP ->
  decimal_atoms value scale positive allow_negative = Ok a <-> is_scaled_int s c e scale a /\ in_range positive allow_negative a.
Proof.
  intros Hst Hplus Hd Hc Hsc He1 He2. pose proof (decimal_of_text_nonneg _ _ _ _ Hd) as H0.
  destruct (times_pow10_exact s c e scale (conj H0 Hc) Hsc He1 He2) as (d & Hs & Ha). unfold decimal_atoms.
  assert (is_empty value = false) as -> by (destruct value; [discriminate Hd|done]).
  rewrite Hst, String.eqb_refl, Hplus, Hd. cbn [negb orb raise_if rbind]. rewrite Hs. cbn [rbind].
  rewrite <- Ha. clear Ha. destruct (dec_exact_int d) as [x|]; cbn [of_option rbind]; [|split; [discriminate|by intros [? _]]].
  unfold in_range. split.
  - intros H. apply rbind_Ok in H as (u1 & H1%raise_if_Ok & H). apply rbind_Ok in H as (u2 & H2%raise_if_Ok & H).
    apply rbind_Ok in H as (u3 & H3%raise_if_Ok & H). apply Ok_inj in H as <-. bools. split; [done|].
    destruct positive, allow_negative; cbn [andb negb] in *; bools; split_and!; intros; lia || done.
  - intros [[= ->] (Hr & Hp & Hn)].
    assert ((a <? I64_MIN) || (I64_MAX <? a) = false) as -> by (apply orb_false_iff; rewrite !Z.ltb_ge; lia).
    assert (positive && (a <=? 0) = false) as -> by (destruct positive; [apply Z.leb_gt; by apply Hp|done]).
    assert (negb positive && negb allow_negative && (a <? 0) = false) as ->; [|reflexivity].
    destruct positive, allow_negative; try done. apply Z.ltb_ge. by apply Hn.
Qed.

Example tardis_atoms_rounds :
  decimal_of_text "0.1000000000000000000000000000001" = Some (DFinite false (10 ^ 30 + 1) (-31))
  /\ decimal_atoms "0.1000000000000000000000000000001" 1 true false = Ok 1
  /\ ~ is_scaled_int false (10 ^ 30 + 1) (-31) 1 1.
Proof. split; [reflexivity|]. split; [reflexivity|]. vm_compute. discriminate. Qed.

(** ** A concrete adapter *)

Definition demo_config : TardisConfig :=
  mk_tardis_config "deribit" "BTC-PERPETUAL" TD_INCREMENTAL_BOOK_L2 "BTC-PERP" "demo" 1 0 12 1000 1000 100 0.
Definition demo_entitlement : TardisEntitlement :=
  mk_entitlement (mk_coverage "deribit" "BTC-PERPETUAL" [TD_INCREMENTAL_BOOK_L2] 737000 738000 (Some 737900)) [TD_INCREMENTAL_BOOK_L2] false.
Definition demo_tardis_request : FetchRequest :=
  mk_fetch_request "tardis" "incremental_book_L2" "BTC-PERP" 1577923199999999999 1577923200000000001 [].
Definition demo_chunks : list FetchChunk := match plan demo_config demo_entitlement demo_tardis_request with Ok l => l | Raise _ => [] end.

Lemma tardis_demo_plan_Ok : plan demo_config demo_entitlement demo_tardis_request = Ok demo_chunks.
Proof. vm_compute. reflexivity. Qed.

Example tardis_demo_sources : map ch_source_ref demo_chunks
  = ["https://datasets.tardis.dev/v1/deribit/incremental_book_L2/2020/01/01/BTC-PERPETUAL.csv.gz";
     "https://datasets.tardis.dev/v1/deribit/incremental_book_L2/2020/01/02/BTC-PERPETUAL.csv.gz"].
Proof. vm_compute. reflexivity. Qed.

Lemma tardis_plan_covers_witness :
  plan demo_config demo_entitlement demo_tardis_request = Ok demo_chunks
  /\ exists days : list date, NoDup (map ch_key demo_chunks)
      /\ forall d, d ∈ days <-> exists t, 1577923199999999999 <= t < 1577923200000000001 /\ day_of t = d.
Proof.
  split; [apply tardis_demo_plan_Ok|].
  destruct (tardis_plan_covers demo_config demo_entitlement demo_tardis_request demo_chunks tardis_demo_plan_Ok) as (days & _ & _ & H1 & H2).
  exists days. split; [exact H1|exact H2].
Defined.

(** Bytes that are their own compression, and a file: two changes before the first book, a book of two
    levels, two changes, and a book after a reconnection. *)
#[export] Instance demo_gzip : GzipReader := {| gzip_read := fun raw n => Ok (take (Z.to_nat n) raw) |}.
Definition demo_csv : string :=
  join nl ["exchange,symbol,timestamp,local_timestamp,is_snapshot,side,price,amount";
    "deribit,BTC-PERPETUAL,10,100,false,bid,7000.5,10"; "deribit,BTC-PERPETUAL,11,101,false,ask,7001,5";
    "deribit,BTC-PERPETUAL,12,102,true,bid,7000.5,10"; "deribit,BTC-PERPETUAL,12,102,true,ask,7001,7";
    "deribit,BTC-PERPETUAL,13,103,false,bid,7000,3"; "deribit,BTC-PERPETUAL,13,103,false,ask,7001,0";
    "deribit,BTC-PERPETUAL,14,104,true,bid,6999,1"; ""].
Definition demo_chunk : FetchChunk := List.hd (mk_chunk "" "" None 0) demo_chunks.
Definition demo_events : list pyval := match normalize demo_config demo_chunk (utf8 demo_csv) with Ok l => l | Raise _ => [] end.

Lemma demo_normalize_Ok : normalize demo_config demo_chunk (utf8 demo_csv) = Ok demo_events.
Proof. vm_compute. reflexivity. Qed.

Definition kind_and_tie (v : pyval) : option pyval * option pyval :=
  match v with VDict d => (dict_get "kind" d, dict_get "canonical_tie_breaker" d) | _ => (None, None) end.
Example demo_kinds : map kind_and_tie demo_events
  = [(Some (VStr "BOOK_SNAPSHOT_L2"), Some (VStr "2")); (Some (VStr "BOOK_DELTA_L2"), Some (VStr "4"));
     (Some (VStr "BOOK_DELTA_L2"), Some (VStr "5")); (Some (VStr "BOOK_SNAPSHOT_L2"), Some (VStr "6"))].
Proof. vm_compute. reflexivity. Qed.

Lemma tardis_batch_ordered_witness :
  0 <= 100 /\ normalize demo_config demo_chunk (utf8 demo_csv) = Ok demo_events
  /\ exists ties, StronglySorted Z.lt ties /\ Forall2 (fun v tie => exists kind, is_event demo_config kind tie v) demo_events ties.
Proof.
  split; [lia|]. split; [apply demo_normalize_Ok|].
  destruct (tardis_batch_ordered demo_config demo_chunk (utf8 demo_csv) demo_events ltac:(cbn; lia) demo_normalize_Ok) as (ties & H1 & H2 & _).
  exists ties. split; [exact H2|exact H1].
Defined.

Lemma tardis_book_reconstructible_witness :
  normalize demo_config demo_chunk (utf8 demo_csv) = Ok demo_events
  /\ forall pre v post, demo_events = pre ++ v :: post ->
     is_snapshot demo_config v \/ (is_delta demo_config v /\ exists s, s ∈ pre /\ is_snapshot demo_config s).
Proof.
  split; [apply demo_normalize_Ok|].
  exact (tardis_book_reconstructible demo_config demo_chunk (utf8 demo_csv) demo_events eq_refl demo_normalize_Ok).
Defined.
