(* ===== verification/CanonicalFile.v ===== *)
(** * Importing a user's file ([workers/ingest/.../adapters/canonical_file])

    One declared CSV or Parquet file inside a sandbox directory.  The file system and the Parquet reader
    are interfaces.  A declared default for [payload] is one dictionary that every event refers to and
    that the assignments of later columns change: it is the state of the computation here. *)

From S2P Require Import Prelude Sort PyStr PyText Bytes PyJson JsonParse Csv IngestModel.
From Stdlib Require Import Ascii Strings.Byte.
From Stdlib Require String.

(** ** Declarations *)

Record ImportLimits := mk_limits {
  max_file_bytes : Z;
  max_rows : Z;
  max_columns : Z;
  max_materialized_bytes : Z;
}.
Definition ImportLimits_post_init (l : ImportLimits) : result ImportLimits :=
  let! _ := raise_if (Z.min (Z.min (max_file_bytes l) (max_rows l)) (Z.min (max_columns l) (max_materialized_bytes l)) <=? 0) ValueError in
  Ok l.

Record ColumnMapping := mk_mapping { cm_source : string; cm_target : string }.
Definition ColumnMapping_post_init (m : ColumnMapping) : result ColumnMapping :=
  let! _ := raise_if (is_empty (cm_source m) || is_empty (cm_target m)) ValueError in
  let! _ := raise_if (1 <? count_char "." (cm_target m))%nat ValueError in
  let! _ := raise_if ((0 <? count_char "." (cm_target m))%nat && negb (py_startswith "payload." (cm_target m))) ValueError in
  Ok m.

Inductive ImportFormat := FORMAT_CSV | FORMAT_PARQUET.

Record ImportDeclaration := mk_declaration {
  im_format : ImportFormat;
  im_mappings : list ColumnMapping;
  im_defaults : list (string * pyval);
  im_capabilities : list string;
  im_provenance : string;
  im_redistribution_class : string;
}.
Definition distinct_names (l : list string) : bool := bool_decide (NoDup l).
Definition ImportDeclaration_post_init (d : ImportDeclaration) : result ImportDeclaration :=
  let! _ := raise_if (negb (distinct_names (map cm_source (im_mappings d)))) ValueError in
  let! _ := raise_if (negb (distinct_names (map cm_target (im_mappings d) ++ map fst (im_defaults d)))) ValueError in
  let! _ := raise_if (is_empty (im_provenance d)) ValueError in
  Ok d.

(** ** Values *)

(** A value of a source row; an object that is no JSON value is its text under [str]. *)
Inductive Cell := Value (v : pyval) | Object (text : string).

Definition EXACT_SUFFIXES : list string := ["_atoms"; "_ns"].
Definition EXACT_FIELDS : list string := ["source_sequence"; "canonical_tie_breaker"; "trade_count"].
Definition REQUIRED_TOP_LEVEL : list string :=
  ["schema_version"; "dataset_id"; "instrument_id"; "venue_id"; "ts_event_ns"; "canonical_tie_breaker"; "kind"; "payload"; "quality_flags"].

Definition canonical_integer_text (text : string) : result string :=
  let! _ := raise_if (String.eqb text "-0" || starts_with "+" text || is_empty text) SchemaRejected in
  let digits := if starts_with "-" text then tail text else text in
  let! _ := raise_if (negb (py_isascii digits) || negb (py_isdigit digits)) SchemaRejected in
  let! _ := raise_if ((1 <? py_len digits) && starts_with "0" digits) SchemaRejected in
  Ok text.

(** The texts of [None], of a list and of a dictionary are no integers. *)
Definition canonical_integer (value : Cell) : result string :=
  match value with
  | Value (VBool _) | Value (VFloat _) => Raise SchemaRejected
  | Value (VInt n) => canonical_integer_text (str_Z n)
  | Value (VStr s) => canonical_integer_text s
  | Object text => canonical_integer_text text
  | Value (VNone | VList _ | VDict _ | VOther) => Raise SchemaRejected
  end.

Definition last_field (target : string) : string := List.last (split_char "." target) "".
Definition is_exact (target : string) : bool :=
  let field := last_field target in
  existsb (fun suffix => py_endswith suffix field) EXACT_SUFFIXES || existsb (String.eqb field) EXACT_FIELDS.

Definition normalize_scalar (target : string) (value : Cell) : result pyval :=
  if is_exact target then let! text := canonical_integer value in Ok (VStr text)
  else match value with
       | Value VNone => Ok VNone
       | Value (VBool b) => Ok (VBool b)
       | Value (VInt n) => Ok (VInt n)
       | Value (VStr s) => Ok (VStr s)
       | Value (VFloat _ | VList _ | VDict _ | VOther) | Object _ => Raise SchemaRejected
       end.

(** ** Events under construction *)

(** A field is a value of the event's own, or the dictionary of the declaration. *)
Inductive Slot := Own (v : pyval) | DeclaredPayload.
Abbreviation Draft := (gmap string Slot).

(** The state is the present content of the declared dictionary. *)
Definition assign (event : Draft) (target : string) (value : pyval) : ST pydict Draft :=
  if py_startswith "payload." target then
    let key := KStr (removeprefix "payload." target) in
    match default (Own (VDict [])) (event !! "payload") with
    | Own (VDict d) => sret (<["payload" := Own (VDict (dict_set key value d))]> event)
    | DeclaredPayload => fun shared => (Ok (<["payload" := DeclaredPayload]> event), dict_set key value shared)
    | Own _ => sraise SchemaRejected
    end
  else sret (<[target := Own value]> event).

(** A default is assigned as the object it is. *)
Definition is_payload_default (d : string * pyval) : bool :=
  String.eqb (fst d) "payload" && match snd d with VDict _ => true | _ => false end.
Definition assign_default (event : Draft) (d : string * pyval) : ST pydict Draft :=
  if is_payload_default d then sret (<["payload" := DeclaredPayload]> event) else assign event (fst d) (snd d).

Fixpoint sfold {S A B} (f : B -> A -> ST S B) (acc : B) (l : list A) : ST S B :=
  match l with
  | [] => sret acc
  | x :: l' => acc' <- f acc x ;; sfold f acc' l'
  end.

Definition SourceRow := list (string * Cell).
(** A later column of the same name replaces an earlier one. *)
Fixpoint source_cell (name : string) (row : SourceRow) : option Cell :=
  match row with
  | [] => None
  | (h, v) :: l => match source_cell name l with Some w => Some w | None => if String.eqb name h then Some v else None end
  end.

Definition assign_column (row : SourceRow) (event : Draft) (m : ColumnMapping) : ST pydict Draft :=
  value <- lift (of_option KeyError (source_cell (cm_source m) row)) ;;
  v <- lift (normalize_scalar (cm_target m) value) ;;
  assign event (cm_target m) v.

Definition has_required (event : Draft) : bool := bool_decide (dom event =@{gset string} list_to_set REQUIRED_TOP_LEVEL).

Section Declared.
Variable declaration : ImportDeclaration.

Definition draft_row (row : SourceRow) : ST pydict Draft :=
  event <- sfold assign_default ∅ (im_defaults declaration) ;;
  event <- sfold (assign_column row) event (im_mappings declaration) ;;
  lift (raise_if (negb (has_required event)) SchemaRejected) ;;;
  sret event.

Fixpoint draft_rows (rows : list SourceRow) : ST pydict (list Draft) :=
  match rows with
  | [] => sret []
  | row :: rows' =>
      event <- draft_row row ;;
      events <- draft_rows rows' ;;
      sret (event :: events)
  end.

(** What a reader of the batch finds. *)
Definition slot_value (shared : pydict) (s : Slot) : pyval := match s with Own v => v | DeclaredPayload => VDict shared end.
Definition event_value (shared : pydict) (event : Draft) : pyval :=
  VDict (obj (map (fun p => (fst p, slot_value shared (snd p))) (map_to_list event))).
Definition batch_of (rows : list SourceRow) : ST pydict (list pyval) :=
  drafts <- draft_rows rows ;;
  gets (fun shared => map (event_value shared) drafts).

(** ** Files *)

Class FileSystem (Net : Type) := {
  fs_resolve : string -> ST Net string;                    (* [Path.resolve]: absolute, without links *)
  fs_is_file : string -> ST Net bool;
  fs_size : string -> ST Net Z;
  fs_read : string -> ST Net bytes;
}.

Record ParquetTable := mk_table { pt_nbytes : Z; pt_column_names : list string; pt_rows : list SourceRow }.
Record ParquetFile := mk_parquet {
  pf_num_rows : Z;
  pf_num_columns : Z;
  pf_uncompressed : list (list Z);                         (* per row group, per column *)
  pf_read : result ParquetTable;
}.
Class ParquetReader := { parquet_file : bytes -> result ParquetFile }.

Variable limits : ImportLimits.

Section Adapter.
Context {Net : Type} `{Fs : FileSystem Net}.

(** [candidate.relative_to(root)] returns. *)
Definition is_under (root candidate : string) : bool := bool_decide (path_parts root `prefix_of` path_parts candidate).

Definition resolve_source (root source_path : string) : ST Net string :=
  candidate <- fs_resolve (if starts_with "/" source_path then source_path else root +:+ "/" +:+ source_path) ;;
  lift (raise_if (negb (is_under root candidate)) PathRejected) ;;;
  regular <- fs_is_file candidate ;;
  lift (raise_if (negb regular) PathRejected) ;;;
  sret candidate.

(** [CanonicalFileAdapter.__init__]: the resolved root and source. *)
Definition CanonicalFileAdapter_init (root source_path : string) : ST Net (string * string) :=
  root' <- fs_resolve root ;;
  source <- resolve_source root' source_path ;;
  sret (root', source).

Variable source_path : string.

Definition plan (request : FetchRequest) : ST Net FetchPlan :=
  size <- fs_size source_path ;;
  lift (raise_if (max_file_bytes limits <? size) ResourceLimitExceeded) ;;;
  sret [mk_chunk "canonical-file" source_path (Some size) 0].

Definition ZIP_MAGIC : list bytes := [[x50; x4b; x03; x04]; [x50; x4b; x05; x06]; [x50; x4b; x07; x08]].
Definition has_prefix (p raw : bytes) : bool := bool_decide (p `prefix_of` raw).

Definition fetch (chunk : FetchChunk) : ST Net bytes :=
  path <- fs_resolve (ch_source_ref chunk) ;;
  lift (raise_if (negb (String.eqb path source_path)) PathRejected) ;;;
  raw <- fs_read path ;;
  lift (raise_if (max_file_bytes limits <? Z.of_nat (length raw)) ResourceLimitExceeded) ;;;
  lift (raise_if (existsb (fun magic => has_prefix magic raw) ZIP_MAGIC) ResourceLimitExceeded) ;;;
  sret raw.
End Adapter.

(** ** Rows *)

Definition csv_cells (r : DictRow) : SourceRow :=
  map (fun p => (fst p, Value (match snd p with Some v => VStr v | None => VNone end))) (dr_cells r).

Fixpoint accept_csv (count : Z) (rows : list DictRow) (stop : option exn) : result (list SourceRow) :=
  match rows with
  | [] => match stop with None => Ok [] | Some e => Raise e end
  | r :: rows' =>
      let! _ := raise_if (max_rows limits <=? count) ResourceLimitExceeded in
      let! _ := raise_if (match dr_rest r with [] => false | _ => true end) SchemaRejected in
      let! rest := accept_csv (count + 1) rows' stop in
      Ok (csv_cells r :: rest)
  end.

Definition rows_csv (raw : bytes) : result (list string * list SourceRow) :=
  let! text := catch_res (fun e => match e with UnicodeDecodeError => SchemaRejected | _ => e end) (utf8_decode raw) in
  let! _ := raise_if (max_materialized_bytes limits <? Z.of_nat (length raw)) ResourceLimitExceeded in
  match dict_reader text with
  | (None, _, Some e) => Raise e
  | (None, _, None) => Raise SchemaRejected
  | (Some fieldnames, rows, stop) =>
      let! _ := raise_if (max_columns limits <? Z.of_nat (length fieldnames)) ResourceLimitExceeded in
      let! accepted := accept_csv 0 rows stop in
      Ok (fieldnames, accepted)
  end.

Definition PAR1 : bytes := [x50; x41; x52; x31].
Definition has_suffix (p raw : bytes) : bool := bool_decide (p `suffix_of` raw).
Definition sum_Z (l : list Z) : Z := fold_right Z.add 0 l.

Section Parquet.
Context `{Pq : ParquetReader}.

Definition rows_parquet (raw : bytes) : result (list string * list SourceRow) :=
  let! _ := raise_if (negb (has_prefix PAR1 raw) || negb (has_suffix PAR1 raw)) SchemaRejected in
  let! parquet := parquet_file raw in
  let! _ := raise_if (max_rows limits <? pf_num_rows parquet) ResourceLimitExceeded in
  let! _ := raise_if (max_columns limits <? pf_num_columns parquet) ResourceLimitExceeded in
  let declared_uncompressed := sum_Z (map sum_Z (pf_uncompressed parquet)) in
  let! _ := raise_if (max_materialized_bytes limits <? declared_uncompressed) ResourceLimitExceeded in
  let! table := pf_read parquet in
  let! _ := raise_if (max_materialized_bytes limits <? pt_nbytes table) ResourceLimitExceeded in
  Ok (pt_column_names table, pt_rows table).

Definition same_columns (columns declared : list string) : bool :=
  bool_decide (list_to_set columns =@{gset string} list_to_set declared) && (length columns =? length declared)%nat.

Definition source_rows (raw : bytes) : result (list SourceRow) :=
  let! source := match im_format declaration with FORMAT_CSV => rows_csv raw | FORMAT_PARQUET => rows_parquet raw end in
  let! _ := raise_if (negb (same_columns (fst source) (map cm_source (im_mappings declaration)))) SchemaRejected in
  Ok (snd source).

Definition normalize (chunk : FetchChunk) (raw : bytes) : ST pydict (list pyval) :=
  rows <- lift (source_rows raw) ;;
  batch_of rows.
End Parquet.
End Declared.

(** ** Files stay in the sandbox *)

Section Sandbox.
Context {Net : Type} `{Fs : FileSystem Net}.
Variable limits : ImportLimits.

(** C33. An import reads one file, inside its directory.  The source of an adapter is a regular file whose
    resolved path extends the resolved root; whatever chunk is asked for, a download that returns has
    read exactly that file, within the size limit, and what it read is no archive. *)
Theorem import_sandboxed root src s root' source s1 chunk s2 raw s3 :
  CanonicalFileAdapter_init root src s = (Ok (root', source), s1) ->
  fetch limits source chunk s2 = (Ok raw, s3) ->
  (path_parts root' `prefix_of` path_parts source /\ exists s0, fs_is_file source s0 = (Ok true, s1))
  /\ (exists s0, fs_read source s0 = (Ok raw, s3))
  /\ Z.of_nat (length raw) <= max_file_bytes limits
  /\ forall magic, magic ∈ ZIP_MAGIC -> ~ magic `prefix_of` raw.
Proof.
  unfold CanonicalFileAdapter_init, resolve_source, fetch. intros Hi Hf.
  apply sbind_Ok in Hi as (r & t1 & _ & Hi). apply sbind_Ok in Hi as (c & t2 & Hc & Hi). unfold sret in Hi. injection Hi as -> -> ->.
  apply sbind_Ok in Hc as (c' & t3 & _ & Hc). apply sbind_Ok in Hc as (u & t4 & Hu & Hc). apply lift_Ok in Hu as [Hu%raise_if_Ok ->].
  apply sbind_Ok in Hc as (reg & t5 & Hr & Hc). apply sbind_Ok in Hc as (u2 & t6 & Hu2 & Hc). apply lift_Ok in Hu2 as [Hu2%raise_if_Ok ->].
  unfold sret in Hc. injection Hc as -> ->.
  apply sbind_Ok in Hf as (path & t7 & _ & Hf). apply sbind_Ok in Hf as (u3 & t8 & Hu3 & Hf). apply lift_Ok in Hu3 as [Hu3%raise_if_Ok ->].
  apply sbind_Ok in Hf as (raw' & t9 & Hraw & Hf). apply sbind_Ok in Hf as (u4 & t10 & Hu4 & Hf). apply lift_Ok in Hu4 as [Hu4%raise_if_Ok ->].
  apply sbind_Ok in Hf as (u5 & t11 & Hu5 & Hf). apply lift_Ok in Hu5 as [Hu5%raise_if_Ok ->]. unfold sret in Hf. injection Hf as -> ->.
  unfold is_under in Hu. bools. apply String.eqb_eq in Hu3 as ->. subst reg. split_and!; [done|eauto|eauto|done|].
  intros magic Hm Hp. apply list_elem_of_In in Hm. assert (existsb (fun m => has_prefix m raw) ZIP_MAGIC = true) as E; [|congruence].
  apply existsb_exists. exists magic. split; [done|]. by apply bool_decide_eq_true.
Qed.
End Sandbox.

(** ** Exact integers *)

Lemma no_leading_zero s : (1 <? py_len s) && starts_with "0" s = false -> leading_zero s = false.
Proof.
  unfold leading_zero. destruct (starts_with "0" s) eqn:E0; [|done]. rewrite andb_true_r. intros Hl%Z.ltb_ge. cbn.
  destruct s as [|a [|b l]]; [done| |unfold py_len in Hl; cbn [String.length] in Hl; lia].
  cbn in E0. apply Ascii.eqb_eq in E0. by subst a.
Qed.

Lemma digits_text s :
  negb (py_isascii s) || negb (py_isdigit s) = false -> (1 <? py_len s) && starts_with "0" s = false ->
  all_chars is_ascii_digit s = true /\ 0 <= dec_value 0 s /\ str_N (dec_value 0 s) = s.
Proof.
  intros H Hz. bools. assert (all_chars is_ascii_digit s = true) as Hd by by apply isdigit_ascii.
  split_and!; [done|by apply dec_value_nonneg|]. apply str_N_canonical; [done|by intros ->|by apply no_leading_zero].
Qed.

Lemma str_N_not_empty n : is_empty (str_N n) = false.
Proof. destruct (str_N_nonempty n) as (c & t & E). by rewrite E. Qed.

Lemma str_N_checks n : 0 <= n ->
  negb (py_isascii (str_N n)) || negb (py_isdigit (str_N n)) = false /\ (1 <? py_len (str_N n)) && starts_with "0" (str_N n) = false.
Proof.
  intros Hn. pose proof (str_N_all n) as Hd. split.
  - rewrite (digits_ascii _ Hd). unfold py_isdigit. by rewrite (digits_isdigit _ Hd), str_N_not_empty.
  - pose proof (str_N_no_leading_zero n Hn) as Hz. unfold leading_zero in Hz. destruct (starts_with "0" (str_N n)) eqn:E; [|by rewrite andb_false_r].
    cbn [andb] in Hz. apply negb_false_iff, String.eqb_eq in Hz. by rewrite Hz.
Qed.

(** The texts accepted are those of the integers, and of each integer one. *)
Lemma canonical_integer_text_exact text t :
  canonical_integer_text text = Ok t <-> t = text /\ exists n, text = str_Z n.
Proof.
  unfold canonical_integer_text. split.
  - intros H. apply rbind_Ok in H as (u1 & H1%raise_if_Ok & H). apply rbind_Ok in H as (u2 & H2%raise_if_Ok & H).
    apply rbind_Ok in H as (u3 & H3%raise_if_Ok & H). apply Ok_inj in H as <-. split; [done|].
    destruct (digits_text _ H2 H3) as (Hd & Hn & E). destruct (starts_with "-" text) eqn:Hm.
    + destruct text as [|c text]; [done|]. cbn in Hm. apply Ascii.eqb_eq in Hm. subst c. cbn [tail] in *.
      exists (- dec_value 0 text). unfold str_Z. rewrite (proj2 (Z.ltb_lt _ 0)), Z.opp_involutive, E; [done|].
      destruct (Z.eq_dec (dec_value 0 text) 0) as [E0|]; [|lia]. rewrite E0 in E. vm_compute in E. by subst text.
    + exists (dec_value 0 text). unfold str_Z. by rewrite (proj2 (Z.ltb_ge _ 0)), E by lia.
  - intros (-> & n & ->). unfold str_Z. destruct (Z.ltb_spec n 0) as [Hn|Hn].
    + destruct (str_N_checks (- n)) as [C1 C2]; [lia|].
      assert (String.eqb (String "-" (str_N (- n))) "-0" = false) as ->.
      { apply String.eqb_neq. intros [= E]. apply (f_equal (dec_value 0)) in E. rewrite dec_value_str_N in E by lia. change (dec_value 0 "0") with 0 in E. lia. }
      change (starts_with "+" (String "-" (str_N (- n)))) with false. change (starts_with "-" (String "-" (str_N (- n)))) with true.
      cbn [is_empty orb raise_if rbind tail]. rewrite C1. cbn [raise_if rbind]. by rewrite C2.
    + destruct (str_N_checks n) as [C1 C2]; [lia|].
      assert (forall c, is_ascii_digit c = false -> starts_with c (str_N n) = false) as Hs.
      { intros c Hc. rewrite <- (append_nil_r (str_N n)). apply starts_with_digits; [apply str_N_all| |done].
        intros E. pose proof (str_N_not_empty n) as Hne. by rewrite E in Hne. }
      rewrite !Hs, C1 by done. cbn [orb]. rewrite str_N_not_empty.
      assert (String.eqb (str_N n) "-0" = false) as ->; [|cbn [orb raise_if rbind]; by rewrite C2].
      apply String.eqb_neq. intros E. specialize (Hs "-"%char eq_refl). rewrite E in Hs. discriminate Hs.
Qed.

(** A column under an exact name gives the text of an integer. *)
Lemma normalize_scalar_exact target value v :
  is_exact target = true -> normalize_scalar target value = Ok v ->
  exists n, v = VStr (str_Z n) /\ (value = Value (VInt n) \/ value = Value (VStr (str_Z n)) \/ value = Object (str_Z n)).
Proof.
  unfold normalize_scalar. intros ->. intros H. apply rbind_Ok in H as (t & Ht & H). apply Ok_inj in H as <-.
  destruct value as [[| |z| |s| | |]|text]; try discriminate Ht; cbn [canonical_integer] in Ht; apply canonical_integer_text_exact in Ht as (-> & n & E).
  - exists z. eauto.
  - exists n. rewrite E. eauto.
  - exists n. rewrite E. eauto.
Qed.

(** ** Rows are independent, unless they share the declared payload *)

(** [m] neither reads nor changes the state, and its values satisfy [P]. *)
Definition stateless {A} (P : A -> Prop) (m : ST pydict A) : Prop :=
  forall s, m s = (fst (m []), s) /\ forall a, fst (m []) = Ok a -> P a.

Lemma stateless_ret {A} (P : A -> Prop) a : P a -> stateless P (sret a).
Proof. intros Ha s. split; [done|]. by intros a' [= <-]. Qed.
Lemma stateless_lift {A} (P : A -> Prop) r : (forall a, r = Ok a -> P a) -> stateless P (lift r).
Proof. intros Ha s. split; [done|]. intros a. apply Ha. Qed.
Lemma stateless_raise {A} (P : A -> Prop) e : stateless P (sraise e).
Proof. intros s. by split. Qed.

Lemma stateless_bind {A B} (P : A -> Prop) (Q : B -> Prop) (m : ST pydict A) (k : A -> ST pydict B) :
  stateless P m -> (forall a, P a -> stateless Q (k a)) -> stateless Q (sbind m k).
Proof.
  intros Hm Hk s. destruct (Hm s) as [E HP]. destruct (Hm []) as [E0 _]. unfold sbind. rewrite E, E0.
  destruct (fst (m [])) as [a|e]; [|done]. exact (Hk a (HP a eq_refl) s).
Qed.

(** No field of the event is the declared dictionary. *)
Definition own_fields (event : Draft) : Prop := map_Forall (fun _ sl => sl <> DeclaredPayload) event.

Lemma assign_own event target value : own_fields event -> stateless own_fields (assign event target value).
Proof.
  unfold assign. intros He. destruct (py_startswith _ target); [|apply stateless_ret; by apply map_Forall_insert_2].
  destruct (event !! "payload") as [[v|]|] eqn:E; cbn [default].
  - destruct v; try apply stateless_raise. apply stateless_ret. by apply map_Forall_insert_2.
  - exfalso. by apply (He _ _ E).
  - apply stateless_ret. by apply map_Forall_insert_2.
Qed.

Lemma sfold_own {A} (f : Draft -> A -> ST pydict Draft) l :
  (forall x, x ∈ l -> forall event, own_fields event -> stateless own_fields (f event x)) ->
  forall event, own_fields event -> stateless own_fields (sfold f event l).
Proof.
  induction l as [|x l IH]; intros Hf event He; cbn [sfold]; [by apply stateless_ret|].
  eapply stateless_bind; [by apply Hf; [apply list_elem_of_here|]|]. intros e' He'. apply IH; [|done].
  intros y Hy. apply Hf. by apply list_elem_of_further.
Qed.

Section Independent.
Variable declaration : ImportDeclaration.
Hypothesis Hdefault : existsb is_payload_default (im_defaults declaration) = false.

Lemma draft_row_own row : stateless own_fields (draft_row declaration row).
Proof.
  unfold draft_row. eapply stateless_bind.
  { apply (sfold_own _ _); [|by unfold own_fields]. intros d Hd event He. unfold assign_default.
    assert (is_payload_default d = false) as -> by (by apply not_true_iff_false; intros E; apply not_true_iff_false in Hdefault; apply Hdefault;
      apply existsb_exists; exists d; split; [apply list_elem_of_In|]).
    by apply assign_own. }
  intros e He. eapply stateless_bind.
  { apply (sfold_own _ _); [|exact He]. intros m _ event Hev. unfold assign_column.
    eapply (stateless_bind (fun _ => True)); [by apply stateless_lift|]. intros value _.
    eapply (stateless_bind (fun _ => True)); [by apply stateless_lift|]. intros v _. by apply assign_own. }
  intros e' He'. eapply (stateless_bind (fun _ => True)); [by apply stateless_lift|]. intros _ _. by apply stateless_ret.
Qed.

Lemma event_value_own shared event : own_fields event -> event_value shared event = event_value [] event.
Proof.
  intros He. unfold event_value. do 2 f_equal. apply map_ext_in. intros [k sl] Hin. apply list_elem_of_In, elem_of_map_to_list in Hin. cbn.
  destruct sl; [done|]. exfalso. by apply (He _ _ Hin).
Qed.

(** The event of one row. *)
Definition row_event (row : SourceRow) : result pyval := let! event := fst (draft_row declaration row []) in Ok (event_value [] event).

Lemma draft_rows_own rows s :
  draft_rows declaration rows s = (rmap (fun row => fst (draft_row declaration row [])) rows, s)
  /\ forall l, rmap (fun row => fst (draft_row declaration row [])) rows = Ok l -> Forall own_fields l.
Proof.
  induction rows as [|row rows [IH1 IH2]]; [by split; [|intros l [= <-]; constructor]|]. cbn [draft_rows rmap]. unfold sbind.
  destruct (draft_row_own row s) as [E HP]. rewrite E. destruct (fst (draft_row declaration row [])) as [e|]; [|by split].
  rewrite IH1. cbn [rbind]. destruct (rmap _ rows) as [l|]; [|by split]. cbn [rbind]. split; [done|].
  intros l' [= <-]. constructor; [by apply HP|by apply IH2].
Qed.
End Independent.

Lemma has_required_fields event :
  has_required event = true -> forall k, k ∈ map fst (map_to_list event) <-> k ∈ REQUIRED_TOP_LEVEL.
Proof.
  unfold has_required. intros H%bool_decide_eq_true k.
  assert (k ∈@{gset string} dom event <-> k ∈ REQUIRED_TOP_LEVEL) as <- by (rewrite H; apply elem_of_list_to_set).
  rewrite elem_of_mapl. rewrite (elem_of_dom event k). split.
  - intros ([k' sl] & -> & Hin%elem_of_map_to_list). cbn. by exists sl.
  - intros [sl Hsl]. exists (k, sl). split; [done|]. by apply elem_of_map_to_list.
Qed.

Lemma draft_row_required declaration row s event s' : draft_row declaration row s = (Ok event, s') -> has_required event = true.
Proof.
  unfold draft_row. intros H. apply sbind_Ok in H as (e1 & s1 & _ & H). apply sbind_Ok in H as (e2 & s2 & _ & H).
  apply sbind_Ok in H as (u & s3 & Hu & H). apply lift_Ok in Hu as [Hu%raise_if_Ok ->]. unfold sret in H. injection H as <- <-. by bools.
Qed.

(** Rows are imported independently of each other.  Unless the declaration has a dictionary as its
    default for the payload, a batch is the list of the events of its rows, each a function of its row
    and the declaration alone; the computation leaves the declaration as it was; and every event has
    exactly the nine canonical fields, each once. *)
Theorem import_rows_independent declaration rows s :
  existsb is_payload_default (im_defaults declaration) = false ->
  batch_of declaration rows s = (rmap (row_event declaration) rows, s)
  /\ forall row v, row_event declaration row = Ok v ->
     exists fields, v = VDict (obj fields) /\ NoDup (map fst fields) /\ forall k, k ∈ map fst fields <-> k ∈ REQUIRED_TOP_LEVEL.
Proof.
  intros Hd. split.
  - destruct (draft_rows_own declaration Hd rows s) as [E HP]. unfold batch_of, sbind. rewrite E. clear E. revert HP. unfold row_event.
    induction rows as [|row rows IH]; intros HP; [done|]. cbn [rmap] in *.
    destruct (fst (draft_row declaration row [])) as [e|]; [|done]. cbn [rbind] in *.
    destruct (rmap (fun row => fst (draft_row declaration row [])) rows) as [l|]; cbn [rbind] in *.
    + specialize (HP _ eq_refl). apply Forall_cons in HP as [He Hl]. unfold gets in *.
      assert (forall l', Ok l = Ok l' -> Forall own_fields l') as Hl' by by intros l' [= <-].
      specialize (IH Hl'). injection IH as IH. rewrite <- IH. cbn [rbind map]. do 2 f_equal. by rewrite (event_value_own s e He).
    + assert (forall l', Raise e0 = Ok l' -> Forall own_fields l') as Hl' by done. specialize (IH Hl'). injection IH as IH. by rewrite <- IH.
  - intros row v H. unfold row_event in H. apply rbind_Ok in H as (event & He & H). apply Ok_inj in H as <-. unfold event_value.
    destruct (draft_row declaration row []) as [r s'] eqn:E. cbn in He. subst r. apply draft_row_required in E.
    eexists. split; [reflexivity|]. rewrite map_map. cbn [fst]. split.
    + exact (NoDup_fst_map_to_list event).
    + by apply has_required_fields.
Qed.

(** With such a default every event of a batch shows the same payload, whatever its row says: the columns
    of all rows are assigned to the one declared dictionary. *)

Definition declared (event : Draft) : Prop := event !! "payload" = Some DeclaredPayload.

Lemma assign_declared event target value s e s' :
  declared event -> target <> "payload" -> assign event target value s = (Ok e, s') -> declared e.
Proof.
  unfold declared, assign. intros He Ht. destruct (py_startswith _ target).
  - rewrite He. cbn [default]. intros [<-%Ok_inj _]%pair_equal_spec. apply lookup_insert_eq.
  - intros [<-%Ok_inj _]%pair_equal_spec. by rewrite lookup_insert_ne.
Qed.

Lemma sfold_declared {A} (f : Draft -> A -> ST pydict Draft) l :
  (forall x, x ∈ l -> forall event s e s', declared event -> f event x s = (Ok e, s') -> declared e) ->
  forall event s e s', declared event -> sfold f event l s = (Ok e, s') -> declared e.
Proof.
  induction l as [|x l IH]; intros Hf event s e s' He; cbn [sfold]; [by intros [= <- _]|].
  intros H. apply sbind_Ok in H as (e1 & s1 & H1 & H). eapply (IH (fun y Hy => Hf y (list_elem_of_further _ _ _ Hy))); [|exact H].
  eapply Hf; [apply list_elem_of_here|exact He|exact H1].
Qed.

Section Shared.
Variable declaration : ImportDeclaration.
Hypothesis Hunique : NoDup (map cm_target (im_mappings declaration) ++ map fst (im_defaults declaration)).
Hypothesis Hdefault : existsb is_payload_default (im_defaults declaration) = true.

Lemma defaults_declared l : NoDup (map fst l) -> existsb is_payload_default l = true ->
  forall event s e s', sfold assign_default event l s = (Ok e, s') -> declared e.
Proof.
  induction l as [|d l IH]; [done|]. cbn [map existsb sfold]. intros [Hd Hn]%NoDup_cons Hex event s e s' H.
  apply sbind_Ok in H as (e1 & s1 & H1 & H). destruct (is_payload_default d) eqn:Hp; [|by eapply IH].
  eapply sfold_declared; [|..|exact H].
  - intros x Hx ev t e2 t' Hev Ha. unfold assign_default in Ha. destruct (is_payload_default x); [apply pair_equal_spec in Ha as [<-%Ok_inj _]; apply lookup_insert_eq|].
    eapply assign_declared; [exact Hev| |exact Ha]. intros E. apply Hd. apply elem_of_mapl. exists x. split; [|done].
    unfold is_payload_default in Hp. apply andb_true_iff in Hp as [Hp _]. apply String.eqb_eq in Hp. congruence.
  - unfold assign_default in H1. rewrite Hp in H1. apply pair_equal_spec in H1 as [<-%Ok_inj _]. apply lookup_insert_eq.
Qed.

Lemma draft_row_declared row s e s' : draft_row declaration row s = (Ok e, s') -> declared e.
Proof.
  unfold draft_row. intros H. apply sbind_Ok in H as (e1 & s1 & H1 & H). apply sbind_Ok in H as (e2 & s2 & H2 & H).
  apply sbind_Ok in H as (u & s3 & Hu & H). apply lift_Ok in Hu as [_ ->]. unfold sret in H. injection H as <- <-.
  apply NoDup_app in Hunique as (Ht & Hdisj & Hd). apply defaults_declared in H1; [|done..].
  eapply sfold_declared; [|exact H1|exact H2]. intros m Hm ev t e3 t' Hev Ha. unfold assign_column in Ha.
  apply sbind_Ok in Ha as (v & t1 & _ & Ha). apply sbind_Ok in Ha as (v' & t2 & _ & Ha). eapply assign_declared; [exact Hev| |exact Ha].
  intros E. apply (Hdisj "payload"); [rewrite <- E; by apply elem_of_mapl; exists m|].
  apply existsb_exists in Hdefault as (d & Hin & Hp). apply andb_true_iff in Hp as [Hp _]. apply String.eqb_eq in Hp.
  rewrite <- Hp. apply elem_of_mapl. exists d. split; [done|]. by apply list_elem_of_In.
Qed.

Lemma draft_rows_declared rows : forall s l s', draft_rows declaration rows s = (Ok l, s') -> Forall declared l.
Proof.
  induction rows as [|row rows IH]; intros s l s'; cbn [draft_rows]; [intros [= <- _]; constructor|].
  intros H. apply sbind_Ok in H as (e & s1 & He & H). apply sbind_Ok in H as (l1 & s2 & Hl & H). unfold sret in H. injection H as <- <-.
  constructor; [by eapply draft_row_declared|by eapply IH].
Qed.

Lemma assoc_elem k v l : NoDup (map fst l) -> (k, v) ∈ l -> assoc k l = Some v.
Proof.
  induction l as [|[k' v'] l IH]; cbn; [by intros _ ?%not_elem_of_nil|]. intros [Hk Hn]%NoDup_cons [E|Hin]%elem_of_cons.
  - injection E as <- <-. by rewrite String.eqb_refl.
  - destruct (String.eqb_spec k k') as [->|]; [|by apply IH]. destruct Hk. apply elem_of_mapl. by exists (k', v).
Qed.

Lemma event_value_declared shared event : declared event ->
  exists fields, event_value shared event = VDict fields /\ dict_get "payload" fields = Some (VDict shared).
Proof.
  intros He. eexists. split; [reflexivity|]. rewrite dict_get_obj. apply assoc_elem.
  - rewrite map_map. exact (NoDup_fst_map_to_list event).
  - apply elem_of_mapl. exists ("payload", DeclaredPayload). split; [done|]. by apply elem_of_map_to_list.
Qed.

Theorem declared_payload_shared rows s events s' :
  batch_of declaration rows s = (Ok events, s') ->
  Forall (fun v => exists fields, v = VDict fields /\ dict_get "payload" fields = Some (VDict s')) events.
Proof.
  unfold batch_of. intros H. apply sbind_Ok in H as (drafts & s1 & Hd & H). unfold gets in H. injection H as <- <-.
  apply draft_rows_declared in Hd. induction Hd as [|e l He _ IH]; cbn [map]; constructor; [by apply event_value_declared|done].
Qed.
End Shared.

(** ** Concrete imports *)

Definition demo_mappings : list ColumnMapping := [mk_mapping "ts" "ts_event_ns"; mk_mapping "price" "payload.price_atoms"].
Definition demo_defaults (payload : list (string * pyval)) : list (string * pyval) :=
  [("schema_version", VStr "1.0.0"); ("dataset_id", VStr "user-file"); ("instrument_id", VStr "SYNTH"); ("venue_id", VStr "USER");
   ("canonical_tie_breaker", VStr "0"); ("kind", VStr "TRADE"); ("quality_flags", VList [])] ++ payload.
Definition demo_declaration (payload : list (string * pyval)) : ImportDeclaration :=
  mk_declaration FORMAT_CSV demo_mappings (demo_defaults payload) ["TRADES"] "user-provided" "USER_LICENSED".
Definition demo_limits : ImportLimits := mk_limits 1000 10 10 1000.
#[export] Instance demo_parquet : ParquetReader := {| parquet_file := fun _ => Raise OSError |}.
Definition demo_file : bytes := utf8 (join nl ["ts,price"; "100,7"; "200,9"]).
Definition demo_import (payload : list (string * pyval)) (shared : pydict) : result (list pyval) * pydict :=
  normalize (demo_declaration payload) demo_limits (mk_chunk "canonical-file" "f" None 0) demo_file shared.
Definition payloads (r : result (list pyval)) : list (option pyval) :=
  match r with Ok l => map (fun v => match v with VDict d => dict_get "payload" d | _ => None end) l | Raise _ => [] end.

(** Without a default for the payload each event has its own; with one, both show the last row. *)
Example own_payloads :
  payloads (fst (demo_import [] []))
  = [Some (VDict (obj [("price_atoms", VStr "7")])); Some (VDict (obj [("price_atoms", VStr "9")]))].
Proof. vm_compute. reflexivity. Qed.

Example shared_payloads :
  is_ok (ImportDeclaration_post_init (demo_declaration [("payload", VDict (obj [("venue", VStr "X")]))])) = true
  /\ payloads (fst (demo_import [("payload", VDict (obj [("venue", VStr "X")]))] (obj [("venue", VStr "X")])))
     = [Some (VDict (obj [("venue", VStr "X"); ("price_atoms", VStr "9")])); Some (VDict (obj [("venue", VStr "X"); ("price_atoms", VStr "9")]))].
Proof. split; vm_compute; reflexivity. Qed.

Definition demo_rows : list SourceRow :=
  [[("ts", Value (VStr "100")); ("price", Value (VStr "7"))]; [("ts", Value (VStr "200")); ("price", Value (VStr "9"))]].

Lemma import_rows_independent_witness :
  existsb is_payload_default (im_defaults (demo_declaration [])) = false
  /\ batch_of (demo_declaration []) demo_rows [] = (rmap (row_event (demo_declaration [])) demo_rows, []).
Proof.
  split; [reflexivity|]. destruct (import_rows_independent (demo_declaration []) demo_rows [] eq_refl) as [H _]. exact H.
Defined.

(** A directory with one file. *)
#[export] Instance demo_fs : FileSystem unit := {|
  fs_resolve := fun p s => (Ok p, s);
  fs_is_file := fun p s => (Ok (String.eqb p "/imports/a.csv"), s);
  fs_size := fun _ s => (Ok (Z.of_nat (length demo_file)), s);
  fs_read := fun p s => (if String.eqb p "/imports/a.csv" then Ok demo_file else Raise FileNotFoundError, s);
|}.

Lemma import_sandboxed_witness :
  CanonicalFileAdapter_init "/imports" "a.csv" tt = (Ok ("/imports", "/imports/a.csv"), tt)
  /\ fetch demo_limits "/imports/a.csv" (mk_chunk "canonical-file" "/imports/a.csv" None 0) tt = (Ok demo_file, tt)
  /\ path_parts "/imports" `prefix_of` path_parts "/imports/a.csv" /\ Z.of_nat (length demo_file) <= 1000.
Proof.
  split; [vm_compute; reflexivity|]. split; [vm_compute; reflexivity|].
  destruct (import_sandboxed demo_limits "/imports" "a.csv" tt "/imports" "/imports/a.csv" tt
    (mk_chunk "canonical-file" "/imports/a.csv" None 0) tt demo_file tt) as ([H1 _] & _ & H2 & _);
    [vm_compute; reflexivity|vm_compute; reflexivity|]. split; [exact H1|exact H2].
Defined.
