(* ===== verification/Adapters.v ===== *)
(** * Adapters under the runner

    The two archive adapters as providers of the ingestion runner, and what the runner gains from the
    type of their batches: [TypedProvider] is the interface, [binance_typed] and [tardis_typed]
    discharge it with the typed events of the adapters, [typed_run_writes] is proved against it, and
    [adapter_runs_typed] is what follows for the two adapters. *)

From S2P Require Import Prelude Sort PyStr PyText Bytes PyJson JsonParse Dates Csv IngestModel Events TardisModel.
From S2P Require Binance Tardis.
From Stdlib Require String.

(** The disk of the runner. *)
Class Disk (Net : Type) := { disk_write : ST Net unit }.

#[export] Instance binance_provider {Net} `{Tp : Binance.HttpTransport Net} `{Dk : Disk Net} `{Zr : Binance.ZipReader}
    (config : Binance.BinancePublicConfig) (known : gmap string string) : Provider (Binance.Fetching Net) := {|
  ad_plan := fun r => lift (Binance.plan config r);
  ad_fetch := Binance.fetch config known;
  ad_normalize := Binance.normalize config;
  disk := Binance.on_transport disk_write;
|}.

#[export] Instance tardis_provider {Net} `{Tp : Tardis.TardisTransport Net} `{Dk : Disk Net} `{Gz : Tardis.GzipReader}
    (config : Tardis.TardisConfig) (entitlement : TardisEntitlement) (api_key_provider : option (ST Net (option string))) : Provider Net := {|
  ad_plan := fun r => lift (Tardis.plan config entitlement r);
  ad_fetch := Tardis.fetch config entitlement api_key_provider;
  ad_normalize := Tardis.normalize config;
  disk := disk_write;
|}.

(** Every batch consists of events that satisfy [Q]. *)
Class TypedProvider {Net} (P : Provider Net) (Q : pyval -> Prop) : Prop :=
  typed_batch : forall c raw events, ad_normalize (Provider := P) c raw = Ok events -> Forall Q events.

#[export] Instance binance_typed {Net} `{Tp : Binance.HttpTransport Net} `{Dk : Disk Net} `{Zr : Binance.ZipReader} config known :
  TypedProvider (binance_provider (Net := Net) config known) (Binance.binance_typed_event config).
Proof. intros c raw events H. exact (Binance.binance_batch_typed config c raw events H). Qed.

Lemma tardis_typed {Net} `{Tp : Tardis.TardisTransport Net} `{Dk : Disk Net} `{Gz : Tardis.GzipReader} config entitlement keys :
  Tardis.tg_max_rows_per_chunk config <= 2 ^ 60 ->
  TypedProvider (tardis_provider (Net := Net) config entitlement keys) (Tardis.tardis_typed_event config).
Proof. intros Hm c raw events H. exact (Tardis.tardis_batch_typed config c raw events Hm H). Qed.

(** Whatever holds of the events of every batch holds of the events of the loop. *)
Lemma typed_run_writes {Net} (P : Provider Net) Q `{!TypedProvider P Q} j chunks : forall completed events hashes w events' hashes' w',
  Forall Q events -> run_chunks j chunks completed events hashes w = (Ok (events', hashes'), w') -> Forall Q events'.
Proof.
  induction chunks as [|c chunks IH]; intros completed events hashes w events' hashes' w' He; cbn [run_chunks].
  { unfold sret. by intros [= <- <- _]. }
  intros H. apply sbind_Ok in H as ([[digest raw] m] & w1 & _ & H). apply sbind_Ok in H as (batch & w2 & Hb & H).
  apply lift_Ok in Hb as [Hb ->]. eapply IH; [|exact H]. apply Forall_app. split; [done|]. by apply (typed_batch c raw).
Qed.

Lemma binance_event_writable config v : Binance.binance_typed_event config v -> writable v.
Proof. intros (d & -> & Hd). by eapply typed_writable. Qed.
Lemma tardis_event_writable config v : Tardis.tardis_typed_event config v -> writable v.
Proof. intros (d & -> & Hd). by eapply typed_writable. Qed.

(** C34. The archive adapters produce typed events, so a run never fails on their type.  When the loop over the
    chunks has returned, whether they were downloaded or taken from the cache, every event of the Binance
    adapter, and every event of the Tardis adapter if its configuration allows at most 2^60 rows in a file,
    is a JSON object without floats that names the configured dataset and instrument and the venue, has
    a time in [0, 2^63) and integer texts below 2^64 in its sorting fields, a kind of the configured data
    type, and a payload: for Binance a trade or a bar with every amount in its 64-bit range.  The writer
    then has a canonical file for the events. *)
Theorem adapter_runs_typed :
  (forall Net (Tp : Binance.HttpTransport Net) (Dk : Disk Net) (Zr : Binance.ZipReader) config known j chunks completed w events hashes w',
     run_chunks (H := binance_provider config known) j chunks completed [] [] w = (Ok (events, hashes), w') ->
     Forall (Binance.binance_typed_event config) events /\ exists body, canonical_body events = Ok body)
  /\ (forall Net (Tp : Tardis.TardisTransport Net) (Dk : Disk Net) (Gz : Tardis.GzipReader) config entitlement keys j chunks completed w events hashes w',
     Tardis.tg_max_rows_per_chunk config <= 2 ^ 60 ->
     run_chunks (H := tardis_provider config entitlement keys) j chunks completed [] [] w = (Ok (events, hashes), w') ->
     Forall (Tardis.tardis_typed_event config) events /\ exists body, canonical_body events = Ok body).
Proof.
  split.
  - intros * H. assert (Forall (Binance.binance_typed_event config) events) as HF.
    { exact (typed_run_writes (binance_provider config known) _ j chunks completed [] [] w events hashes w' (Forall_nil_2 _) H). }
    split; [done|]. apply writable_body. eapply Forall_impl; [exact HF|]. apply binance_event_writable.
  - intros * Hm H. pose proof (tardis_typed (Net := Net) config entitlement keys Hm) as HT.
    assert (Forall (Tardis.tardis_typed_event config) events) as HF.
    { exact (typed_run_writes (tardis_provider config entitlement keys) _ j chunks completed [] [] w events hashes w' (Forall_nil_2 _) H). }
    split; [done|]. apply writable_body. eapply Forall_impl; [exact HF|]. apply tardis_event_writable.
Qed.

(** ** A concrete run *)

(** A network without failures that serves one dataset. *)
#[local] Instance demo_tardis_net : Tardis.TardisTransport unit := {| Tardis.td_get := fun _ _ _ n => (Ok (utf8 Tardis.demo_csv), n) |}.
#[local] Instance demo_disk : Disk unit := {| disk_write := sret tt |}.
Definition demo_provider : Provider unit := tardis_provider (Gz := Tardis.demo_gzip) Tardis.demo_config Tardis.demo_entitlement (Some (sret (Some "key"))).

Definition demo_world {Net} (n : Net) : World Net := mk_world (mk_files ∅ ∅ ∅) (mk_budget 10 1000 10 0 0 0) n.
Definition demo_run_chunks : result (list pyval * list (string * string)) * World unit :=
  run_chunks (H := demo_provider) "job" [Tardis.demo_chunk] ∅ [] [] (demo_world tt).

Definition demo_binance : Provider (Binance.Fetching unit) :=
  binance_provider (Tp := Binance.demo_transport) (Zr := Binance.demo_zip) Binance.demo_config ∅.
Definition demo_binance_chunks : result (list pyval * list (string * string)) * World (Binance.Fetching unit) :=
  run_chunks (H := demo_binance) "job" [Binance.demo_chunk] ∅ [] [] (demo_world (Binance.mk_fetching tt ∅)).

Lemma adapter_runs_typed_witness :
  (exists events hashes w, demo_binance_chunks = (Ok (events, hashes), w) /\ length events = 1%nat
     /\ Forall (Binance.binance_typed_event Binance.demo_config) events)
  /\ exists events hashes w, demo_run_chunks = (Ok (events, hashes), w) /\ length events = 4%nat
     /\ Forall (Tardis.tardis_typed_event Tardis.demo_config) events.
Proof.
  destruct adapter_runs_typed as [HB HT]. split.
  - assert (match fst demo_binance_chunks with Ok p => length (fst p) = 1%nat | Raise _ => False end) as Hok by (vm_compute; reflexivity).
    destruct demo_binance_chunks as [[[events hashes]|e] w] eqn:E; cbn [fst] in Hok; [|destruct Hok].
    exists events, hashes, w. split; [reflexivity|]. split; [exact Hok|]. unfold demo_binance_chunks in E.
    exact (proj1 (HB _ _ _ _ _ _ _ _ _ _ _ _ _ E)).
  - assert (match fst demo_run_chunks with Ok p => length (fst p) = 4%nat | Raise _ => False end) as Hok by (vm_compute; reflexivity).
    destruct demo_run_chunks as [[[events hashes]|e] w] eqn:E; cbn [fst] in Hok; [|destruct Hok].
    exists events, hashes, w. split; [reflexivity|]. split; [exact Hok|]. unfold demo_run_chunks in E.
    refine (proj1 (HT _ _ _ _ _ _ _ _ _ _ _ _ _ _ _ E)). vm_compute. discriminate.
Defined.
