(* ===== verification/Access.v ===== *)
(** * Principals and credentials ([apps/api/.../auth], [apps/api/.../secrets])

    Authentication of a principal, the credential vault, the entitlement cache and the redaction of
    headers.  The cipher is the port [AEAD] of [Commitment]; nonces are arguments. *)

From S2P Require Import Prelude Sort PyStr PyText Bytes PyJson Csv Commitment.
From Stdlib Require Import Ascii Strings.Byte.
From Stdlib Require String.

(** ** Authentication ([auth/__init__.py]) *)

Record Principal := mk_principal { pr_principal_id : string; pr_display_name : string; pr_hosted : bool }.
Definition Principal_post_init (p : Principal) : result Principal :=
  let! _ := raise_if (is_empty (pr_principal_id p) || is_empty (pr_display_name p)) ValueError in Ok p.

(** The boundary: headers to a principal. *)
Class Authenticator (A : Type) := { authenticate : A -> gmap string string -> result Principal }.

Record LocalAuthenticator := mk_local { la_principal_id : string; la_display_name : string }.
Definition local_authenticate (a : LocalAuthenticator) (headers : gmap string string) : result Principal :=
  Principal_post_init (mk_principal (la_principal_id a) (la_display_name a) false).

Record TrustedHeaderAuthenticator := mk_trusted { ta_principal_header : string; ta_display_header : string }.
Definition trusted_authenticate (a : TrustedHeaderAuthenticator) (headers : gmap string string) : result Principal :=
  let principal_id := py_strip (default "" (headers !! ta_principal_header a)) in
  let display_name := py_strip (default "" (headers !! ta_display_header a)) in
  let! _ := raise_if (is_empty principal_id || is_empty display_name) AuthenticationError in
  let! _ := raise_if (has_control principal_id) AuthenticationError in
  Principal_post_init (mk_principal principal_id display_name true).

#[export] Instance local_authenticator : Authenticator LocalAuthenticator := {| authenticate := local_authenticate |}.
#[export] Instance trusted_authenticator : Authenticator TrustedHeaderAuthenticator := {| authenticate := trusted_authenticate |}.

(** ** The vault ([secrets/__init__.py]) *)

Abbreviation Identity := (string * string * string)%type.

Record CredentialMetadata := mk_credential { cd_principal_id : string; cd_provider : string; cd_name : string }.
Record EncryptedCredential := mk_encrypted { ec_metadata : CredentialMetadata; ec_nonce : bytes; ec_ciphertext : bytes }.
Abbreviation Vault := (gmap Identity EncryptedCredential).

Definition CredentialVault_init (master_key : bytes) : result Vault :=
  let! _ := raise_if (negb (length master_key =? 32)%nat) ValueError in Ok ∅.

Definition identity (principal_id provider name : string) : result Identity :=
  let id := (py_strip principal_id, py_lower (py_strip provider), py_strip name) in
  let! _ := raise_if (is_empty (fst (fst id)) || is_empty (snd (fst id)) || is_empty (snd id)) ValueError in
  Ok id.

Definition nul : string := String "000" EmptyString.
Definition vault_aad (id : Identity) : bytes := utf8 (fst (fst id) +:+ nul +:+ snd (fst id) +:+ nul +:+ snd id).
Definition metadata_of (id : Identity) : CredentialMetadata := mk_credential (fst (fst id)) (snd (fst id)) (snd id).

Section Vault.
Context `{Ae : AEAD} (master_key : bytes).

Definition vault_put (nonce : bytes) (principal_id provider name secret : string) : ST Vault CredentialMetadata :=
  id <- lift (identity principal_id provider name) ;;
  lift (raise_if (is_empty secret) ValueError) ;;;
  let ciphertext := aead_encrypt master_key nonce (utf8 secret) (vault_aad id) in
  (fun v => (Ok (metadata_of id), <[id := mk_encrypted (metadata_of id) nonce ciphertext]> v)).

(** The value of [get(...).reveal()]. *)
Definition vault_get (principal_id provider name : string) : ST Vault string :=
  id <- lift (identity principal_id provider name) ;;
  record <- (fun v : Vault => (of_option CredentialNotFound (v !! id), v)) ;;
  lift (let! plaintext := aead_decrypt master_key (ec_nonce record) (ec_ciphertext record) (vault_aad id) in utf8_decode plaintext).

Definition vault_delete (principal_id provider name : string) : ST Vault unit :=
  id <- lift (identity principal_id provider name) ;;
  (fun v : Vault => (match v !! id with None => Raise CredentialNotFound | Some _ => Ok tt end, delete id v)).

Definition list_metadata (principal_id : string) (v : Vault) : list CredentialMetadata :=
  py_sorted (fun m => (cd_provider m, cd_name m))
    (map (fun p => ec_metadata (snd p)) (List.filter (fun p => String.eqb (fst (fst (fst p))) principal_id) (map_to_list v))).

(** The calls that change a vault. *)
Inductive VaultCall :=
| Put (nonce : bytes) (principal_id provider name secret : string)
| Delete (principal_id provider name : string).
Definition call_principal (c : VaultCall) : string := match c with Put _ p _ _ _ => p | Delete p _ _ => p end.
Definition vault_call (c : VaultCall) (v : Vault) : Vault :=
  match c with
  | Put nonce p pr n secret => snd (vault_put nonce p pr n secret v)
  | Delete p pr n => snd (vault_delete p pr n v)
  end.
Definition vault_run (calls : list VaultCall) (v : Vault) : Vault := fold_left (fun v c => vault_call c v) calls v.
End Vault.

(** *** Entitlements *)

Record Entitlement := mk_entitlement { en_principal_id : string; en_provider : string; en_feed : string; en_capabilities : list string }.
Abbreviation EntitlementCache := (gmap Identity Entitlement).
Definition cache_put (e : Entitlement) (c : EntitlementCache) : EntitlementCache :=
  <[(en_principal_id e, py_lower (en_provider e), en_feed e) := e]> c.
Definition cache_get (principal_id provider feed : string) (c : EntitlementCache) : option Entitlement :=
  c !! (principal_id, py_lower provider, feed).
Definition clear_principal (principal_id : string) (c : EntitlementCache) : EntitlementCache :=
  filter (fun p => fst (fst (fst p)) <> principal_id) c.

(** *** Headers *)

Definition SENSITIVE_HEADERS : list string :=
  ["authorization"; "cookie"; "proxy-authorization"; "set-cookie"; "x-api-key"; "x-auth-token"].
Definition is_sensitive (key : string) : bool := existsb (String.eqb (py_lower key)) SENSITIVE_HEADERS.
Definition redact_headers (headers : list (string * string)) : list (string * string) :=
  map (fun p => (fst p, if is_sensitive (fst p) then "<redacted>" else snd p)) headers.

(** ** Text survives its encoding *)

Lemma utf8_decode_char c rest : utf8_decode (utf8_char c ++ rest) = let! t := utf8_decode rest in Ok (String c t).
Proof. destruct c as [[] [] [] [] [] [] [] []]; reflexivity. Qed.

Lemma utf8_decode_utf8 s : utf8_decode (utf8 s) = Ok s.
Proof. induction s as [|c s IH]; [done|]. cbn [utf8]. by rewrite utf8_decode_char, IH. Qed.

(** ** Principals *)

(** An authenticated principal has both names, and a hosted one an identifier without control characters. *)
Lemma trusted_sound a headers p :
  trusted_authenticate a headers = Ok p ->
  pr_principal_id p <> EmptyString /\ pr_display_name p <> EmptyString /\ has_control (pr_principal_id p) = false /\ pr_hosted p = true
  /\ exists raw, headers !! ta_principal_header a = Some raw /\ pr_principal_id p = py_strip raw.
Proof.
  unfold trusted_authenticate. intros H. apply rbind_Ok in H as (u1 & H1%raise_if_Ok & H). apply rbind_Ok in H as (u2 & H2%raise_if_Ok & H).
  apply rbind_Ok in H as (u3 & _ & H). apply Ok_inj in H as <-. bools. cbn [pr_principal_id pr_display_name pr_hosted]. split_and!; [| |done|done|].
  - intros E. by rewrite E in *.
  - intros E. by rewrite E in *.
  - destruct (headers !! ta_principal_header a) as [raw|]; [by exists raw|done].
Qed.

(** ** The vault as a map of secrets *)

Abbreviation Secrets := (gmap Identity string).

(** What a call does to the map: rejected calls do nothing. *)
Definition secrets_call (m : Secrets) (c : VaultCall) : Secrets :=
  match c with
  | Put _ p pr n secret => match identity p pr n with Ok id => if is_empty secret then m else <[id := secret]> m | Raise _ => m end
  | Delete p pr n => match identity p pr n with Ok id => delete id m | Raise _ => m end
  end.
Definition secrets_of (calls : list VaultCall) : Secrets := fold_left secrets_call calls ∅.
Definition secrets_get (p pr n : string) (m : Secrets) : result string :=
  let! id := identity p pr n in of_option CredentialNotFound (m !! id).

Lemma identity_principal p pr n id : identity p pr n = Ok id -> fst (fst id) = py_strip p.
Proof. unfold identity. intros H. apply rbind_Ok in H as (u & _ & H). apply Ok_inj in H as <-. done. Qed.

Section VaultFacts.
Context `{Ae : AEAD} `{!AEADLaws} (master_key : bytes).

(** A record holds the encryption of the secret under its own identity. *)
Definition holds (id : Identity) (secret : string) (r : EncryptedCredential) : Prop :=
  ec_metadata r = metadata_of id /\ ec_ciphertext r = aead_encrypt master_key (ec_nonce r) (utf8 secret) (vault_aad id).
Definition represents (m : Secrets) (v : Vault) : Prop := map_relation (fun id s r => holds id s r) (fun _ _ => False) (fun _ _ => False) m v.

Lemma represents_call m v c : represents m v -> represents (secrets_call m c) (vault_call master_key c v).
Proof.
  intros Hr. destruct c as [nonce p pr n secret|p pr n]; cbn [secrets_call vault_call].
  - unfold vault_put, sbind, lift. destruct (identity p pr n) as [id|e]; [|exact Hr]. destruct (is_empty secret); cbn [raise_if snd]; [exact Hr|].
    intros id'. destruct (decide (id' = id)) as [->|Hne]; [rewrite !lookup_insert_eq; by split|rewrite !lookup_insert_ne by done; apply Hr].
  - unfold vault_delete, sbind, lift. destruct (identity p pr n) as [id|e]; [|exact Hr]. cbn [snd].
    intros id'. destruct (decide (id' = id)) as [->|Hne]; [by rewrite !lookup_delete_eq|rewrite !lookup_delete_ne by done; apply Hr].
Qed.

Lemma represents_run calls : forall m v, represents m v -> represents (fold_left secrets_call calls m) (vault_run master_key calls v).
Proof.
  induction calls as [|c calls IH]; intros m v Hr; [exact Hr|]. cbn [fold_left]. unfold vault_run in *. cbn [fold_left]. apply IH. by apply represents_call.
Qed.

Lemma represents_get m v p pr n : represents m v -> vault_get master_key p pr n v = (secrets_get p pr n m, v).
Proof.
  intros Hr. unfold vault_get, secrets_get, sbind, lift. destruct (identity p pr n) as [id|e]; [|done]. cbn [rbind]. specialize (Hr id).
  destruct (m !! id) as [s|], (v !! id) as [r|]; cbn in Hr |- *; try done. destruct Hr as [_ ->]. by rewrite aead_roundtrip; cbn [rbind]; rewrite utf8_decode_utf8.
Qed.

(** The calls of a principal. *)
Definition own_call (p : string) (c : VaultCall) : bool := String.eqb (py_strip (call_principal c)) (py_strip p).

Lemma secrets_own p calls : forall m m',
  (forall id, fst (fst id) = py_strip p -> m !! id = m' !! id) ->
  forall id, fst (fst id) = py_strip p -> fold_left secrets_call calls m !! id = fold_left secrets_call (List.filter (own_call p) calls) m' !! id.
Proof.
  induction calls as [|c calls IH]; intros m m' Hm; [exact Hm|]. cbn [fold_left List.filter].
  destruct (own_call p c) eqn:Hc; cbn [fold_left]; apply IH; intros id Hid.
  - destruct c as [nonce q pr n secret|q pr n]; cbn [secrets_call]; destruct (identity q pr n) as [id'|] eqn:Ei; try by apply Hm.
    + destruct (is_empty secret); [by apply Hm|]. destruct (decide (id = id')) as [->|Hne]; [by rewrite !lookup_insert_eq|].
      rewrite !lookup_insert_ne by done. by apply Hm.
    + destruct (decide (id = id')) as [->|Hne]; [by rewrite !lookup_delete_eq|]. rewrite !lookup_delete_ne by done. by apply Hm.
  - rewrite <- Hm by done. unfold own_call in Hc. apply String.eqb_neq in Hc.
    destruct c as [nonce q pr n secret|q pr n]; cbn [secrets_call call_principal] in *; destruct (identity q pr n) as [id'|] eqn:Ei; try done;
      apply identity_principal in Ei.
    + destruct (is_empty secret); [done|]. apply lookup_insert_ne. congruence.
    + apply lookup_delete_ne. congruence.
Qed.

(** C35. Credentials are kept, and kept apart.  After any calls of any principals, reading a credential gives
    exactly what a plain map gives that only the calls of the same principal have built: the latest secret
    stored under the same (normalized) identity and not deleted since, or [CredentialNotFound]; reading
    changes nothing. *)
Theorem vault_tenant_scoped calls p pr n :
  let v := vault_run master_key calls ∅ in
  vault_get master_key p pr n v = (secrets_get p pr n (secrets_of (List.filter (own_call p) calls)), v).
Proof.
  intros v. assert (represents (secrets_of calls) v) as Hr by (apply represents_run; intros id; by rewrite !lookup_empty).
  rewrite (represents_get _ _ p pr n Hr). f_equal. unfold secrets_get. destruct (identity p pr n) as [id|] eqn:Ei; [|done]. cbn [rbind]. f_equal.
  apply secrets_own; [done|]. by apply (identity_principal p pr n).
Qed.

(** The listing of a principal shows the identities it has stored, and no other's. *)
Lemma list_metadata_own calls p m :
  m ∈ list_metadata p (vault_run master_key calls ∅) <->
  exists id, fst (fst id) = p /\ m = metadata_of id /\ is_Some (secrets_of calls !! id).
Proof.
  assert (represents (secrets_of calls) (vault_run master_key calls ∅)) as Hr by (apply represents_run; intros id; by rewrite !lookup_empty).
  unfold list_metadata. rewrite py_sorted_perm, elem_of_mapl. split.
  - intros ([id r] & -> & Hin). apply elem_of_filterb in Hin as [Hin Hp]. apply elem_of_map_to_list in Hin. apply String.eqb_eq in Hp.
    specialize (Hr id). rewrite Hin in Hr. destruct (secrets_of calls !! id) as [s|] eqn:Es; [|done]. cbn in Hr. destruct Hr as [Em _]. exists id. split_and!; [exact Hp|exact Em|by exists s].
  - intros (id & Hp & -> & s & Hs). specialize (Hr id). rewrite Hs in Hr. destruct (vault_run master_key calls ∅ !! id) as [r|] eqn:Er; [|done].
    cbn in Hr. destruct Hr as [Em _]. exists (id, r). split; [done|]. apply elem_of_filterb. split; [by apply elem_of_map_to_list|]. by apply String.eqb_eq.
Qed.
End VaultFacts.

(** ** Entitlements and headers *)

(** Clearing a principal forgets that principal's entitlements only. *)
Lemma clear_principal_spec p q provider feed c :
  cache_get q provider feed (clear_principal p c) = if decide (q = p) then None else cache_get q provider feed c.
Proof.
  unfold cache_get, clear_principal. destruct (decide (q = p)) as [->|Hne].
  - apply map_lookup_filter_None. right. intros x _ Hx. by apply Hx.
  - destruct (c !! (q, py_lower provider, feed)) as [x|] eqn:E; [apply map_lookup_filter_Some; by split|apply map_lookup_filter_None; by left].
Qed.

(** What a log shows of a sensitive header does not depend on its value. *)
Lemma redact_headers_hides headers headers' :
  Forall2 (fun a b => fst a = fst b /\ (is_sensitive (fst a) = false -> snd a = snd b)) headers headers' ->
  redact_headers headers = redact_headers headers'.
Proof.
  unfold redact_headers. induction 1 as [|[k v] [k' v'] l l' [E H] _ IH]; [done|]. cbn [map fst snd] in *. subst k'. rewrite IH.
  destruct (is_sensitive k); [done|]. by rewrite H.
Qed.

(** ** A concrete vault *)

Module Demo.
Import Commitment.Demo.
Definition calls : list VaultCall :=
  [Put (be_bytes 12 1) " alice " "Tardis" "key" "s3cret"; Put (be_bytes 12 2) "bob" "tardis" "key" "other"; Delete "bob" "TARDIS" "key"].

Lemma vault_tenant_scoped_witness :
  vault_get key "alice" "tardis" "key" (vault_run key calls ∅) = (Ok "s3cret", vault_run key calls ∅)
  /\ fst (vault_get key "bob" "tardis" "key" (vault_run key calls ∅)) = Raise CredentialNotFound.
Proof.
  split.
  - etransitivity; [exact (vault_tenant_scoped key calls "alice" "tardis" "key")|]. reflexivity.
  - exact (f_equal fst (vault_tenant_scoped key calls "bob" "tardis" "key")).
Defined.
End Demo.
