(* ===== verification/Contracts.v ===== *)
(** * Wire contracts ([packages/contracts/scripts])

    The dependency-free validator of canonical documents ([contract_runtime.py]) and the checks of the
    schema files ([check_compat.py]), on JSON values.  Paths and messages of errors are dropped. *)

From S2P Require Import Prelude Sort PyStr PyText PyJson JsonParse.
From Stdlib Require Import Ascii.
From Stdlib Require String.

(** ** Scalars *)

Definition JS_SAFE_MAX : Z := 2 ^ 53 - 1.
Definition WIRE_SIGNED_SUFFIXES : list string := ["_atoms"; "_minor"; "_ppb"; "_ns"].
Definition WIRE_UNSIGNED_NAMES : list string :=
  ["arrival_seq"; "event_seq"; "source_sequence"; "canonical_tie_breaker"; "submitted_at_event_seq"; "expected_session_version";
   "generation"; "trade_count"; "duplicates_removed"; "timestamp_resolution_ns"].
Definition CANONICAL_COMMAND_TYPES : list string := ["SUBMIT_ORDER"; "CANCEL_ORDER"; "REPLACE_ORDER"; "SET_LEVERAGE"].
Definition ORDER_TYPES : list string := ["MARKET"; "LIMIT"; "STOP_MARKET"; "STOP_LIMIT"].
Definition TIME_IN_FORCE : list string := ["GTC"; "IOC"; "FOK"].
Definition PRICE_REFERENCES : list string := ["BID"; "ASK"; "MIDPOINT"].

Definition contract_if (b : bool) : result unit := raise_if b ContractError.

Definition wire_int (value : pyval) (is_signed : bool) : result Z :=
  match value with
  | VStr s =>
      let! _ := contract_if (is_empty s || starts_with "+" s || negb (String.eqb (py_strip s) s)) in
      let! _ := contract_if (String.eqb s "-0" || leading_zero s || py_startswith "-0" s) in
      let! parsed := catch_res (fun e => match e with ValueError => ContractError | _ => e end) (py_int s) in
      let low := if is_signed then I64_MIN else 0 in
      let high := if is_signed then I64_MAX else U64_MAX in
      let! _ := contract_if (negb ((low <=? parsed) && (parsed <=? high))) in
      Ok parsed
  | _ => Raise ContractError
  end.

Definition nonempty_text (value : pyval) : result string :=
  match value with VStr s => let! _ := contract_if (is_empty s) in Ok s | _ => Raise ContractError end.

Definition boolean (value : pyval) : result bool :=
  match value with VBool b => Ok b | _ => Raise ContractError end.

Definition positive_wire (value : pyval) (is_signed : bool) : result Z :=
  let! parsed := wire_int value is_signed in
  let! _ := contract_if (parsed <=? 0) in
  Ok parsed.

(** [value in names] for a set of texts: a list or a dictionary cannot be hashed. *)
Definition in_names (value : pyval) (names : list string) : result bool :=
  match value with
  | VStr s => Ok (existsb (String.eqb s) names)
  | VList _ | VDict _ => Raise TypeError
  | _ => Ok false
  end.
Definition require_name (value : pyval) (names : list string) : result unit :=
  let! ok := in_names value names in contract_if (negb ok).

(** [bool(value)]. *)
Definition truthy (value : pyval) : bool :=
  match value with
  | VNone => false
  | VBool b => b
  | VInt n => negb (n =? 0)
  | VFloat r => negb (String.eqb r "0.0" || String.eqb r "-0.0")
  | VStr s => negb (is_empty s)
  | VList l => match l with [] => false | _ => true end
  | VDict d => match d with [] => false | _ => true end
  | VOther => true
  end.

(** ** Fields *)

Definition has (name : string) (d : pydict) : bool := match dict_get name d with Some _ => true | None => false end.
Definition get (name : string) (d : pydict) : result pyval := of_option KeyError (dict_get name d).
Definition has_all (names : list string) (d : pydict) : bool := forallb (fun name => has name d) names.
Definition has_any (names : list string) (d : pydict) : bool := existsb (fun name => has name d) names.
Definition is_text (value : pyval) (s : string) : bool := py_eq value (VStr s).

Definition allowed_key (allowed : list string) (k : pykey) : bool :=
  match k with KStr s => existsb (String.eqb s) allowed | KOther _ => false end.
Definition exact_keys (d : pydict) (required allowed : list string) : result unit :=
  let! _ := contract_if (negb (has_all required d)) in
  contract_if (negb (forallb (fun p => allowed_key allowed (fst p)) d)).

(** Present fields are checked one after another. *)
Fixpoint each_present (names : list string) (check : pyval -> result unit) (d : pydict) : result unit :=
  match names with
  | [] => Ok tt
  | name :: names' =>
      let! _ := match dict_get name d with Some v => check v | None => Ok tt end in
      each_present names' check d
  end.
Definition check_positive (is_signed : bool) (v : pyval) : result unit := let! _ := positive_wire v is_signed in Ok tt.
Definition check_boolean (v : pyval) : result unit := let! _ := boolean v in Ok tt.
Definition PRICE_FIELDS : list string := ["limit_price_atoms"; "stop_price_atoms"].

(** ** Commands *)

Definition LEGACY_REQUIRED : list string :=
  ["command_id"; "session_id"; "instrument_id"; "side"; "quantity_atoms"; "order_type"; "time_in_force"; "reduce_only"; "post_only";
   "marketable_only"; "submitted_at_event_seq"; "client_idempotency_key"].

Definition validate_legacy_order (d : pydict) : result unit :=
  let! _ := contract_if (negb (has_all LEGACY_REQUIRED d)) in
  let! post_only := get "post_only" d in
  let! marketable_only := get "marketable_only" d in
  let! _ := contract_if (truthy post_only && truthy marketable_only) in
  let! order_type := get "order_type" d in
  let limit := has "limit_price_atoms" d in
  let stop := has "stop_price_atoms" d in
  let! _ := contract_if (is_text order_type "MARKET" && (truthy post_only || limit || stop)) in
  let! _ := contract_if (is_text order_type "LIMIT" && (negb limit || stop)) in
  let! _ := contract_if (is_text order_type "STOP_MARKET" && (negb stop || limit || truthy post_only)) in
  contract_if (is_text order_type "STOP_LIMIT" && negb (stop && limit)).

Definition SUBMIT_REQUIRED : list string :=
  ["command_type"; "instrument_id"; "side"; "quantity_atoms"; "order_type"; "time_in_force"; "reduce_only"; "post_only"; "marketable_only"].
Definition SUBMIT_OPTIONAL : list string := ["limit_price_atoms"; "stop_price_atoms"; "price_reference"; "quote_event_id"].

(** Which optional fields go with an order type. *)
Definition submit_shape (order_type : pyval) (post_only : bool) (d : pydict) : bool :=
  let limit := has "limit_price_atoms" d in
  let stop := has "stop_price_atoms" d in
  if is_text order_type "MARKET" then negb (post_only || has_any SUBMIT_OPTIONAL d)
  else if is_text order_type "LIMIT" then limit && negb stop
  else if is_text order_type "STOP_MARKET" then
    stop && negb limit && negb (has "price_reference" d) && negb (has "quote_event_id" d) && negb post_only
  else stop && limit.

Definition submit_reference (d : pydict) : result unit :=
  let has_reference := has "price_reference" d in
  let has_quote := has "quote_event_id" d in
  let! _ :=
    match dict_get "price_reference" d with
    | Some reference =>
        let! _ := require_name reference PRICE_REFERENCES in
        contract_if (negb has_quote || negb (has "limit_price_atoms" d))
    | None => Ok tt
    end in
  match dict_get "quote_event_id" d with
  | Some quote => let! _ := nonempty_text quote in contract_if (negb has_reference)
  | None => Ok tt
  end.

Definition validate_submit (d : pydict) : result unit :=
  let! _ := exact_keys d SUBMIT_REQUIRED (SUBMIT_REQUIRED ++ SUBMIT_OPTIONAL) in
  let! instrument := get "instrument_id" d in let! _ := nonempty_text instrument in
  let! side := get "side" d in let! _ := require_name side ["BUY"; "SELL"] in
  let! quantity := get "quantity_atoms" d in let! _ := positive_wire quantity false in
  let! order_type := get "order_type" d in let! _ := require_name order_type ORDER_TYPES in
  let! tif := get "time_in_force" d in let! _ := require_name tif TIME_IN_FORCE in
  let! raw_post_only := get "post_only" d in let! post_only := boolean raw_post_only in
  let! raw_marketable := get "marketable_only" d in let! marketable_only := boolean raw_marketable in
  let! raw_reduce := get "reduce_only" d in let! _ := boolean raw_reduce in
  let! _ := contract_if (post_only && marketable_only) in
  let! _ := each_present PRICE_FIELDS (check_positive true) d in
  let! _ := contract_if (negb (submit_shape order_type post_only d)) in
  submit_reference d.

Definition validate_cancel (d : pydict) : result unit :=
  let required := ["command_type"; "order_id"] in
  let! _ := exact_keys d required required in
  let! order_id := get "order_id" d in
  let! _ := nonempty_text order_id in Ok tt.

Definition MUTATIONS : list string :=
  ["quantity_atoms"; "limit_price_atoms"; "stop_price_atoms"; "time_in_force"; "reduce_only"; "post_only"; "marketable_only"].
Definition is_true (o : option pyval) : bool := match o with Some (VBool b) => b | _ => false end.

Definition validate_replace (d : pydict) : result unit :=
  let required := ["command_type"; "order_id"] in
  let! _ := exact_keys d required (required ++ MUTATIONS) in
  let! order_id := get "order_id" d in
  let! _ := nonempty_text order_id in
  let! _ := contract_if (negb (has_any MUTATIONS d)) in
  let! _ := each_present ["quantity_atoms"] (check_positive false) d in
  let! _ := each_present PRICE_FIELDS (check_positive true) d in
  let! _ := each_present ["time_in_force"] (fun v => require_name v TIME_IN_FORCE) d in
  let! _ := each_present ["reduce_only"; "post_only"; "marketable_only"] check_boolean d in
  contract_if (is_true (dict_get "post_only" d) && is_true (dict_get "marketable_only" d)).

Definition validate_set_leverage (d : pydict) : result unit :=
  let required := ["command_type"; "leverage"] in
  let! _ := exact_keys d required required in
  let! leverage := get "leverage" d in
  match leverage with
  | VInt n => contract_if (negb ((1 <=? n) && (n <=? 50)))
  | _ => Raise ContractError
  end.

Definition command_type_of (d : pydict) : pyval := default VNone (dict_get "command_type" d).

Definition validate_canonical_command (value : pyval) : result unit :=
  match value with
  | VDict d =>
      let t := command_type_of d in
      if is_text t "SUBMIT_ORDER" then validate_submit d
      else if is_text t "CANCEL_ORDER" then validate_cancel d
      else if is_text t "REPLACE_ORDER" then validate_replace d
      else if is_text t "SET_LEVERAGE" then validate_set_leverage d
      else Raise ContractError
  | _ => Raise ContractError
  end.

(** ** Documents *)

(** Whether a name says that its field is a 64-bit integer, and whether that integer is signed. *)
Definition wire_sign (key : string) : option bool :=
  if existsb (String.eqb key) WIRE_UNSIGNED_NAMES then Some false
  else if existsb (fun suffix => py_endswith suffix key) WIRE_SIGNED_SUFFIXES
  then Some (negb (py_startswith "qty_" key) && negb (py_endswith "volume_atoms" key))
  else None.
Definition check_wire (k : pykey) (item : pyval) : result unit :=
  match k with
  | KStr key => match wire_sign key with Some is_signed => let! _ := wire_int item is_signed in Ok tt | None => Ok tt end
  | KOther _ => Raise AttributeError
  end.

Definition check_version (d : pydict) : result unit :=
  contract_if (match dict_get "schema_version" d with Some v => negb (is_text v "1.0.0") | None => false end).

Definition check_command (d : pydict) : result unit :=
  let t := command_type_of d in
  if is_text t "ORDER" then validate_legacy_order d
  else
    let! known := in_names t CANONICAL_COMMAND_TYPES in
    if known then validate_canonical_command (VDict d) else Ok tt.

Definition ENVELOPE_FIELDS : list string :=
  ["schema_version"; "command_id"; "idempotency_key"; "session_id"; "principal_id"; "accepted_at_ns"; "logical_ts_ns"; "arrival_seq";
   "expected_session_version"; "payload"; "payload_hash"].
Definition check_envelope (d : pydict) : result unit :=
  if has_all ENVELOPE_FIELDS d then let! payload := get "payload" d in validate_canonical_command payload else Ok tt.

Fixpoint validate_document (value : pyval) : result unit :=
  match value with
  | VFloat _ => Raise ContractError
  | VInt n => contract_if (JS_SAFE_MAX <? Z.abs n)
  | VList l =>
      (fix go (l : list pyval) : result unit :=
         match l with [] => Ok tt | x :: l' => let! _ := validate_document x in go l' end) l
  | VDict d =>
      let! _ := check_version d in
      let! _ :=
        (fix go (d : list (pykey * pyval)) : result unit :=
           match d with
           | [] => Ok tt
           | (k, x) :: d' => let! _ := check_wire k x in let! _ := validate_document x in go d'
           end) d in
      let! _ := check_command d in
      check_envelope d
  | VNone | VBool _ | VStr _ | VOther => Ok tt
  end.

Definition canonical_json (value : pyval) : result string :=
  let! _ := validate_document value in json_dumps false value.
Definition load_and_validate (text : string) : result pyval :=
  let! value := json_loads text in
  let! _ := validate_document value in Ok value.

(** ** Schema files ([check_compat.py]) *)

(** [walk]: no floating-point literal and no floating-point type. *)
Fixpoint walk (value : pyval) : result unit :=
  match value with
  | VFloat _ => Raise RuntimeError
  | VList l => (fix go (l : list pyval) : result unit := match l with [] => Ok tt | x :: l' => let! _ := walk x in go l' end) l
  | VDict d =>
      let! _ := raise_if (match dict_get "type" d with Some t => is_text t "number" | None => false end) RuntimeError in
      (fix go (d : list (pykey * pyval)) : result unit :=
         match d with [] => Ok tt | (_, x) :: d' => let! _ := walk x in go d' end) d
  | _ => Ok tt
  end.

Fixpoint lstrip_char (a : ascii) (s : string) : string :=
  match s with String c s' => if Ascii.eqb c a then lstrip_char a s' else s | EmptyString => EmptyString end.

(** [s.replace("~d", r)] for a character [d]. *)
Fixpoint replace_tilde (d r : ascii) (s : string) : string :=
  match s with
  | String c (String c' s' as t) =>
      if Ascii.eqb c "~" && Ascii.eqb c' d then String r (replace_tilde d r s') else String c (replace_tilde d r t)
  | _ => s
  end.
Definition pointer_part (raw : string) : string := replace_tilde "0" "~" (replace_tilde "1" "/" raw).

Fixpoint follow (node : pyval) (parts : list string) : result unit :=
  match parts with
  | [] => Ok tt
  | raw :: parts' =>
      match node with
      | VDict d => match dict_get (pointer_part raw) d with Some v => follow v parts' | None => Raise RuntimeError end
      | _ => Raise RuntimeError
      end
  end.
Definition resolve_pointer (document : pyval) (fragment : string) : result unit :=
  if is_empty fragment then Ok tt
  else
    let! _ := raise_if (negb (starts_with "/" fragment)) RuntimeError in
    follow document (split_char "/" (lstrip_char "/" fragment)).

(** [ref.partition("#")]. *)
Fixpoint partition_hash (s : string) : string * string :=
  match s with
  | String c s' => if Ascii.eqb c "#" then (EmptyString, s') else let '(a, b) := partition_hash s' in (String c a, b)
  | EmptyString => (EmptyString, EmptyString)
  end.

Definition check_ref (document : pyval) (documents : gmap string pyval) (ref : string) : result unit :=
  let '(target_name, fragment) := partition_hash ref in
  let target := if is_empty target_name then document else default VNone (documents !! target_name) in
  match target with
  | VNone => Raise RuntimeError
  | _ => resolve_pointer target fragment
  end.

Fixpoint visit (document : pyval) (documents : gmap string pyval) (value : pyval) : result unit :=
  match value with
  | VList l => (fix go (l : list pyval) : result unit := match l with [] => Ok tt | x :: l' => let! _ := visit document documents x in go l' end) l
  | VDict d =>
      let! _ := match dict_get "$ref" d with Some (VStr ref) => check_ref document documents ref | _ => Ok tt end in
      (fix go (d : list (pykey * pyval)) : result unit :=
         match d with [] => Ok tt | (_, x) :: d' => let! _ := visit document documents x in go d' end) d
  | _ => Ok tt
  end.
Definition check_refs (document : pyval) (documents : gmap string pyval) : result unit := visit document documents document.

(** The entries of [check_python_model_surface], as the keys of the namespace of the generated models. *)
Definition MODEL_SURFACE : list string :=
  ["InstrumentDefinition"; "OrderCommand"; "SubmitOrderCommand"; "SetLeverageCommand"; "CancelOrderCommand"; "ReplaceOrderCommand";
   "CommandPayload"; "CommandEnvelope"; "MarketEvent"; "Gap"; "DataCapabilities"; "DatasetManifest"; "DomainEvent"; "SessionVisibility";
   "StateHash"; "ResultMetrics"; "ResultBundle"].
Definition check_python_model_surface (namespace : list string) : result unit :=
  raise_if (negb (forallb (fun name => existsb (String.eqb name) namespace) MODEL_SURFACE)) RuntimeError.

(** [value[name]] and [value.get(name)] for a value that may be no dictionary. *)
Definition subscript (value : pyval) (name : string) : result pyval :=
  match value with VDict d => get name d | _ => Raise TypeError end.
Definition attribute_get (value : pyval) (name : string) : result pyval :=
  match value with VDict d => Ok (default VNone (dict_get name d)) | _ => Raise AttributeError end.

Fixpoint check_common (common : pyval) (names : list string) : result unit :=
  match names with
  | [] => Ok tt
  | name :: names' =>
      let! definition := subscript common name in
      let! t := attribute_get definition "type" in
      let! _ := raise_if (negb (is_text t "string")) RuntimeError in
      check_common common names'
  end.

Fixpoint check_each {A} (check : A -> result unit) (l : list A) : result unit :=
  match l with [] => Ok tt | x :: l' => let! _ := check x in check_each check l' end.

(** An invalid fixture must raise a contract error. *)
Definition must_fail (text : string) : result unit :=
  match load_and_validate text with
  | Ok _ => Raise RuntimeError
  | Raise ContractError => Ok tt
  | Raise e => Raise e
  end.

(** [main] up to the child processes: the schema files by name, and the texts of the fixtures. *)
Definition check_schemas (schemas : list (string * string)) (valid invalid : list string) (namespace : list string) : result unit :=
  let! parsed := rmap (fun p => let! v := json_loads (snd p) in Ok (fst p, v)) schemas in
  let documents : gmap string pyval := list_to_map parsed in
  let! _ := check_each (fun p => let! _ := walk (snd p) in check_refs (snd p) documents) parsed in
  let! file := of_option KeyError (documents !! "common.schema.json") in
  let! common := subscript file "$defs" in
  let! _ := check_common common ["WireInt64"; "WireUInt64"; "PositiveWireUInt64"] in
  let! version := subscript common "SchemaVersion" in
  let! const := attribute_get version "const" in
  let! _ := raise_if (negb (is_text const "1.0.0")) RuntimeError in
  let! _ := check_each (fun text => let! _ := load_and_validate text in Ok tt) valid in
  let! _ := check_each must_fail invalid in
  check_python_model_surface namespace.

(** ** Integers of the generated models ([generated/python/models.py]) *)

Definition parse_int64 (value : string) : result Z :=
  let! parsed := py_int value in
  let! _ := raise_if ((parsed <? - 2 ^ 63) || (2 ^ 63 - 1 <? parsed)) ValueError in
  Ok parsed.
Definition parse_uint64 (value : string) : result Z :=
  let! parsed := py_int value in
  let! _ := raise_if ((parsed <? 0) || (2 ^ 64 - 1 <? parsed)) ValueError in
  Ok parsed.
Definition to_wire_integer (value : Z) : string := str_Z value.

(** ** Integers of commands *)

Lemma wire_int_nonneg n (is_signed : bool) :
  0 <= n < 2 ^ 64 ->
  wire_int (VStr (str_Z n)) is_signed = if n <=? (if is_signed then I64_MAX else U64_MAX) then Ok n else Raise ContractError.
Proof.
  intros Hn. unfold wire_int.
  assert (str_Z n = str_N n) as Es by (unfold str_Z; by rewrite (proj2 (Z.ltb_ge n 0)) by lia).
  pose proof (str_N_all n) as Hd. destruct (str_N_nonempty n) as (c & t & Ec).
  assert (is_ascii_digit c = true) as Hc by (rewrite Ec in Hd; by apply andb_true_iff in Hd as [? _]).
  assert (forall a, is_ascii_digit a = false -> starts_with a (str_N n) = false) as Hs.
  { intros a Ha. rewrite <- (append_nil_r (str_N n)). apply starts_with_digits; [done|by rewrite Ec|done]. }
  rewrite Es. assert (is_empty (str_N n) = false) as -> by by rewrite Ec.
  rewrite Hs by done. rewrite (py_strip_id (str_N n)), String.eqb_refl by by apply digits_no_space. cbn [orb negb contract_if raise_if rbind].
  assert (String.eqb (str_N n) "-0" = false) as ->.
  { apply String.eqb_neq. intros E. specialize (Hs "-"%char eq_refl). rewrite E in Hs. discriminate Hs. }
  rewrite str_N_no_leading_zero by lia.
  assert (py_startswith "-0" (str_N n) = false) as ->.
  { rewrite Ec. unfold py_startswith. cbn [String.prefix]. destruct (ascii_dec "-"%char c) as [<-|]; [discriminate Hc|done]. }
  cbn [orb contract_if raise_if rbind]. rewrite <- Es, py_int_str_Z by lia. cbn [catch_res rbind]. unfold contract_if, I64_MIN, I64_MAX, U64_MAX.
  destruct is_signed; [rewrite (proj2 (Z.leb_le (- 2 ^ 63) n)) by lia|rewrite (proj2 (Z.leb_le 0 n)) by lia]; cbn [andb];
    match goal with |- context [n <=? ?h] => destruct (n <=? h) end; done.
Qed.

Lemma positive_wire_ok n (is_signed : bool) :
  0 < n -> n <= (if is_signed then I64_MAX else U64_MAX) -> positive_wire (VStr (str_Z n)) is_signed = Ok n.
Proof.
  intros H0 H1. assert (n < 2 ^ 64) by (unfold I64_MAX, U64_MAX in *; destruct is_signed; lia).
  unfold positive_wire. rewrite wire_int_nonneg, (proj2 (Z.leb_le _ _) H1) by lia. cbn [rbind]. by rewrite (proj2 (Z.leb_gt n 0)).
Qed.

Lemma nonempty_text_ok s : s <> EmptyString -> nonempty_text (VStr s) = Ok s.
Proof. by destruct s. Qed.

Lemma require_name_ok s names : s ∈ names -> require_name (VStr s) names = Ok tt.
Proof.
  intros H. unfold require_name, in_names. cbn [rbind].
  assert (existsb (String.eqb s) names = true) as ->; [|done]. apply existsb_exists. exists s.
  split; [by apply list_elem_of_In|by apply String.eqb_refl].
Qed.

(** The code takes an underscore between digits for canonical. *)
Example wire_int_underscore : wire_int (VStr "1_0") true = Ok 10.
Proof. reflexivity. Qed.
