(* ===== verification/ContractWire.v ===== *)
(** * Canonical documents of the wire contract

    Validation does not depend on the order of keys, so that the canonical text of a valid document
    is read back and validated; the integers of a valid document are those that the generated models read. *)

From S2P Require Import Prelude Sort PyStr PyText PyJson JsonParse Contracts.
From Stdlib Require Import Ascii.
From Stdlib Require String.

(** ** Validation of lists and dictionaries *)

Definition item_valid (p : pykey * pyval) : Prop := check_wire (fst p) (snd p) = Ok tt /\ validate_document (snd p) = Ok tt.

Lemma bind_unit_Ok {A} (r : result unit) (k : result A) x : (let! _ := r in k) = Ok x <-> r = Ok tt /\ k = Ok x.
Proof. destruct r as [[]|e]; cbn; [tauto|]. split; [discriminate|]. by intros []. Qed.

Lemma bind_unit_Ok_r {A} (r : result A) : (let! _ := r in Ok tt) = Ok tt -> exists x, r = Ok x.
Proof. destruct r; [eauto|discriminate]. Qed.

Lemma rbind_ext {A B} (r : result A) (k k' : A -> result B) : (forall x, k x = k' x) -> rbind r k = rbind r k'.
Proof. intros H. by destruct r; cbn. Qed.

Lemma validate_list_Ok l : validate_document (VList l) = Ok tt <-> Forall (fun x => validate_document x = Ok tt) l.
Proof.
  cbn [validate_document]. induction l as [|x l IH]; [by split|]. rewrite bind_unit_Ok, IH, Forall_cons. done.
Qed.

Lemma validate_dict_Ok d :
  validate_document (VDict d) = Ok tt <->
  check_version d = Ok tt /\ Forall item_valid d /\ check_command d = Ok tt /\ check_envelope d = Ok tt.
Proof.
  cbn [validate_document]. rewrite !bind_unit_Ok. do 2 f_equiv.
  induction d as [|[k x] d IH]; [by split|]. rewrite !bind_unit_Ok, IH, Forall_cons. unfold item_valid. cbn. tauto.
Qed.

(** ** The checks of a canonical value *)

Section Canon.
Context (d d' : pydict).
Hypothesis Hget : forall k, dict_get k d' = canon <$> dict_get k d.
Hypothesis Hkeys : map fst d' ≡ₚ map fst d.

Lemma wire_int_canon v (is_signed : bool) : wire_int (canon v) is_signed = wire_int v is_signed.
Proof. by destruct v. Qed.
Lemma positive_wire_canon v (is_signed : bool) : positive_wire (canon v) is_signed = positive_wire v is_signed.
Proof. by destruct v. Qed.
Lemma nonempty_text_canon v : nonempty_text (canon v) = nonempty_text v.
Proof. by destruct v. Qed.
Lemma boolean_canon v : boolean (canon v) = boolean v.
Proof. by destruct v. Qed.
Lemma in_names_canon v names : in_names (canon v) names = in_names v names.
Proof. by destruct v. Qed.
Lemma require_name_canon v names : require_name (canon v) names = require_name v names.
Proof. by destruct v. Qed.
Lemma check_positive_canon (is_signed : bool) v : check_positive is_signed (canon v) = check_positive is_signed v.
Proof. by destruct v. Qed.
Lemma check_boolean_canon v : check_boolean (canon v) = check_boolean v.
Proof. by destruct v. Qed.
Lemma is_text_canon v s : is_text (canon v) s = is_text v s.
Proof. by destruct v. Qed.
Lemma check_wire_canon k v : check_wire k (canon v) = check_wire k v.
Proof. destruct k; [|done]. cbn. destruct (wire_sign _); [by rewrite wire_int_canon|done]. Qed.
Lemma truthy_canon v : truthy (canon v) = truthy v.
Proof.
  destruct v as [| | | | |l|e|]; try done; [by destruct l|]. rewrite canon_dict. cbn.
  destruct e as [|p e]; [done|]. pose proof (length_py_sorted item_name (map canon_item (p :: e))) as Hl.
  by destruct (py_sorted _ _).
Qed.

Lemma has_canon name : has name d' = has name d.
Proof. unfold has. rewrite Hget. by destruct (dict_get name d). Qed.
Lemma has_all_canon names : has_all names d' = has_all names d.
Proof. unfold has_all. induction names as [|n names IH]; [done|]. cbn. by rewrite has_canon, IH. Qed.
Lemma has_any_canon names : has_any names d' = has_any names d.
Proof. unfold has_any. induction names as [|n names IH]; [done|]. cbn. by rewrite has_canon, IH. Qed.
Lemma get_canon name {A} (k k' : pyval -> result A) :
  (forall v, k (canon v) = k' v) -> rbind (get name d') k = rbind (get name d) k'.
Proof. intros H. unfold get. rewrite Hget. by destruct (dict_get name d); cbn. Qed.

Lemma forallb_keys (f : pykey -> bool) : forallb (fun p => f (fst p)) d' = forallb (fun p => f (fst p)) d.
Proof.
  assert (forall e : pydict, forallb (fun p => f (fst p)) e = forallb f (map fst e)) as He.
  { induction e as [|p e IH]; [done|]. cbn. by rewrite IH. }
  rewrite !He. apply eq_bool_prop_intro. rewrite !Is_true_true, !forallb_forall. setoid_rewrite <- list_elem_of_In.
  by setoid_rewrite Hkeys.
Qed.
Lemma exact_keys_canon required allowed : exact_keys d' required allowed = exact_keys d required allowed.
Proof. unfold exact_keys. by rewrite has_all_canon, forallb_keys. Qed.

Lemma each_present_canon names (check : pyval -> result unit) :
  (forall v, check (canon v) = check v) -> each_present names check d' = each_present names check d.
Proof.
  intros H. induction names as [|n names IH]; [done|]. cbn. rewrite Hget, IH. destruct (dict_get n d) as [v|]; cbn; [by rewrite H|done].
Qed.
Lemma command_type_canon : command_type_of d' = canon (command_type_of d).
Proof. unfold command_type_of. rewrite Hget. by destruct (dict_get _ d). Qed.

Ltac canon_step :=
  first
    [ apply get_canon; intros ?
    | rewrite !boolean_canon | rewrite !nonempty_text_canon | rewrite !positive_wire_canon | rewrite !require_name_canon
    | rewrite !is_text_canon | rewrite !truthy_canon | rewrite !has_canon | rewrite exact_keys_canon | rewrite !has_all_canon
    | rewrite !has_any_canon
    | apply rbind_ext; intros ? ].
Ltac canon_check := repeat canon_step; try reflexivity.

Lemma validate_legacy_canon : validate_legacy_order d' = validate_legacy_order d.
Proof. unfold validate_legacy_order. canon_check. Qed.
Lemma submit_shape_canon t (p : bool) : submit_shape (canon t) p d' = submit_shape t p d.
Proof. unfold submit_shape. canon_check. Qed.
Lemma submit_reference_canon : submit_reference d' = submit_reference d.
Proof.
  unfold submit_reference. rewrite !has_canon, !Hget.
  destruct (dict_get "price_reference" d), (dict_get "quote_event_id" d); cbn [fmap option_fmap option_map]; canon_check.
Qed.
Lemma validate_submit_canon : validate_submit d' = validate_submit d.
Proof.
  unfold validate_submit. canon_check.
  rewrite submit_shape_canon, each_present_canon by apply check_positive_canon.
  canon_check. apply submit_reference_canon.
Qed.
Lemma validate_cancel_canon : validate_cancel d' = validate_cancel d.
Proof. unfold validate_cancel. canon_check. Qed.
Lemma is_true_canon name : is_true (dict_get name d') = is_true (dict_get name d).
Proof. rewrite Hget. by destruct (dict_get name d) as [[]|]. Qed.
Lemma validate_replace_canon : validate_replace d' = validate_replace d.
Proof.
  unfold validate_replace. rewrite !is_true_canon, !has_any_canon.
  rewrite !each_present_canon by (apply check_positive_canon || apply check_boolean_canon || by intros; apply require_name_canon).
  canon_check.
Qed.
Lemma validate_leverage_canon : validate_set_leverage d' = validate_set_leverage d.
Proof. unfold validate_set_leverage. canon_check. by destruct v. Qed.
Lemma validate_command_canon : validate_canonical_command (VDict d') = validate_canonical_command (VDict d).
Proof.
  unfold validate_canonical_command. rewrite !command_type_canon, !is_text_canon.
  by rewrite validate_submit_canon, validate_cancel_canon, validate_replace_canon, validate_leverage_canon.
Qed.
Lemma check_version_canon : check_version d' = check_version d.
Proof. unfold check_version. rewrite Hget. destruct (dict_get _ d); cbn; by rewrite ?is_text_canon. Qed.
Lemma check_command_canon : check_command d' = check_command d.
Proof.
  unfold check_command. rewrite command_type_canon, is_text_canon, in_names_canon, validate_legacy_canon, validate_command_canon. done.
Qed.
End Canon.

(** ** Canonical order *)

Lemma dict_get_key_elem k d v : NoDup (map fst d) -> dict_get_key k d = Some v <-> (k, v) ∈ d.
Proof.
  induction d as [|[k1 v1] d IH]; cbn; [by rewrite elem_of_nil|]. rewrite NoDup_cons, elem_of_cons. intros [Hk Hn].
  unfold key_eqb. case_bool_decide as E; [subst k1|].
  - split; [intros [= ->]; by left|]. intros [[= ->]|Hin]; [done|]. destruct Hk. apply elem_of_mapl. by exists (k, v).
  - rewrite IH by done. split; [by right|]. intros [[= <- <-]|Hin]; done.
Qed.
Lemma dict_get_key_perm k d e : NoDup (map fst d) -> d ≡ₚ e -> dict_get_key k d = dict_get_key k e.
Proof.
  intros Hd Hp. assert (NoDup (map fst e)) as He by by rewrite <- Hp. apply option_eq. intros v.
  by rewrite !dict_get_key_elem, Hp.
Qed.
Lemma dict_get_canon_item k d : dict_get_key k (map canon_item d) = canon <$> dict_get_key k d.
Proof. induction d as [|[k1 v1] d IH]; [done|]. cbn. by destruct (key_eqb k k1). Qed.

Lemma keys_canon_item d : map fst (map canon_item d) = map fst d.
Proof. by rewrite map_map. Qed.

Lemma sorted_get d : NoDup (map fst d) ->
  (forall k, dict_get k (py_sorted item_name (map canon_item d)) = canon <$> dict_get k d) /\
  map fst (py_sorted item_name (map canon_item d)) ≡ₚ map fst d.
Proof.
  intros Hn. split.
  - intros k. unfold dict_get. rewrite <- dict_get_canon_item. symmetry. apply dict_get_key_perm; [by rewrite keys_canon_item|].
    by rewrite py_sorted_perm.
  - rewrite py_sorted_perm. by rewrite keys_canon_item.
Qed.

(** What Python's dictionaries and [json.loads] give: keys are distinct, and there is no foreign object. *)
Fixpoint data_value (v : pyval) : bool :=
  match v with
  | VOther => false
  | VList l => forallb data_value l
  | VDict d => forallb (fun p => data_value (snd p)) d && bool_decide (NoDup (map fst d))
  | _ => true
  end.

Lemma data_dict d : data_value (VDict d) = true <-> Forall (fun p => data_value (snd p) = true) d /\ NoDup (map fst d).
Proof. cbn. rewrite andb_true_iff, bool_decide_eq_true, forallb_forall, Forall_forall. by setoid_rewrite <- list_elem_of_In. Qed.
Lemma data_list l : data_value (VList l) = true <-> Forall (fun v => data_value v = true) l.
Proof. cbn. rewrite forallb_forall, Forall_forall. by setoid_rewrite <- list_elem_of_In. Qed.
Lemma data_get name d v : data_value (VDict d) = true -> dict_get name d = Some v -> data_value v = true.
Proof.
  rewrite data_dict, Forall_forall. intros [Hd Hn] Hv. apply dict_get_key_elem in Hv; [|done]. exact (Hd _ Hv).
Qed.

Lemma payload_canon v : data_value v = true -> validate_canonical_command (canon v) = validate_canonical_command v.
Proof.
  destruct v as [| | | | | |d|]; try done. intros [_ Hn]%data_dict. rewrite canon_dict.
  destruct (sorted_get d Hn) as [Hg Hk]. by apply validate_command_canon.
Qed.

(** A valid document is one of the values that JSON text can express without loss. *)
Lemma valid_json_ok v : data_value v = true -> validate_document v = Ok tt -> json_ok v = true.
Proof.
  induction v as [| |z| | |l IH|d IH|] using pyval_ind'; try done.
  - intros _. cbn. unfold contract_if, raise_if, JS_SAFE_MAX. intros H. destruct (_ <? Z.abs z) eqn:E; [discriminate|]. lia.
  - rewrite data_list, validate_list_Ok. intros Hd Hv. cbn. apply forallb_forall. intros x Hx%list_elem_of_In.
    rewrite Forall_forall in *. by apply IH; [|apply Hd|apply Hv].
  - rewrite data_dict, validate_dict_Ok, json_ok_dict. intros [Hd Hn] (_ & Hv & _). split; [|done].
    rewrite Forall_forall in *. intros [k x] Hx. destruct (Hv _ Hx) as [Hw Hv']. cbn in *. split; [by destruct k|].
    by apply (IH _ Hx); [apply (Hd _ Hx)|].
Qed.

Lemma canon_valid v : data_value v = true -> validate_document v = Ok tt -> validate_document (canon v) = Ok tt.
Proof.
  induction v as [| | | | |l IH|d IH|] using pyval_ind'; try done.
  - rewrite data_list, validate_list_Ok. intros Hd Hv. change (canon (VList l)) with (VList (map canon l)).
    rewrite validate_list_Ok, Forall_map. rewrite Forall_forall in *. intros x Hx. by apply IH; [|apply Hd|apply Hv].
  - intros Hd0. pose proof Hd0 as [Hd Hn]%data_dict. rewrite canon_dict, !validate_dict_Ok. intros (H1 & Hv & H2 & H3).
    destruct (sorted_get d Hn) as [Hg Hk].
    rewrite (check_version_canon d _ Hg), (check_command_canon d _ Hg Hk). split_and!; try done.
    + rewrite py_sorted_perm, Forall_map. rewrite Forall_forall in *. intros [k x] Hx. destruct (Hv _ Hx) as [Hw Hv']. cbn in *.
      split; cbn; [by rewrite check_wire_canon|]. by apply (IH _ Hx); [apply (Hd _ Hx)|].
    + unfold check_envelope in *. rewrite (has_all_canon d _ Hg). destruct (has_all ENVELOPE_FIELDS d); [|done].
      unfold get in *. rewrite Hg. destruct (dict_get "payload" d) as [v|] eqn:Ev; [|done]. cbn in *.
      rewrite payload_canon; [done|]. by apply (data_get "payload" d).
Qed.

(** C37. A valid document has a canonical text, whatever the order of its keys; reading that text
    validates and gives the document with its keys in order, and the text of what was read is the same text. *)
Theorem canonical_json_roundtrip v :
  data_value v = true -> validate_document v = Ok tt ->
  exists t, canonical_json v = Ok t /\ load_and_validate t = Ok (canon v) /\ canonical_json (canon v) = Ok t.
Proof.
  intros Hd Hv. pose proof (valid_json_ok v Hd Hv) as Hj. pose proof (canon_valid v Hd Hv) as Hc.
  destruct (dumps_total false v Hj) as (t & Ht). exists t. unfold canonical_json, load_and_validate. rewrite Hv, Hc. cbn [rbind].
  rewrite dumps_canon by done. split_and!; try done. rewrite (loads_dumps false v t Hj Ht). cbn [rbind]. by rewrite Hc.
Qed.

(** ** Integers of a valid document *)

(** Somewhere in the value a dictionary has this field. *)
Inductive member (k : pykey) (x : pyval) : pyval -> Prop :=
| member_here d : (k, x) ∈ d -> member k x (VDict d)
| member_list l v : v ∈ l -> member k x v -> member k x (VList l)
| member_dict d p : p ∈ d -> member k x (snd p) -> member k x (VDict d).

Lemma valid_member k x v : member k x v -> validate_document v = Ok tt -> item_valid (k, x).
Proof.
  induction 1 as [d Hd|l v Hv _ IH|d p Hp _ IH].
  - rewrite validate_dict_Ok, Forall_forall. intros (_ & Hv & _). by apply Hv.
  - rewrite validate_list_Ok, Forall_forall. intros Hl. by apply IH, Hl.
  - rewrite validate_dict_Ok, Forall_forall. intros (_ & Hv & _). apply IH. by apply Hv.
Qed.

Lemma wire_int_parses v (is_signed : bool) n :
  wire_int v is_signed = Ok n ->
  exists s, v = VStr s /\ (if is_signed then parse_int64 else parse_uint64) s = Ok n /\
    (if is_signed then - 2 ^ 63 <= n < 2 ^ 63 else 0 <= n < 2 ^ 64).
Proof.
  destruct v as [| | | |s| | |]; try discriminate. intros H. unfold wire_int in H. apply rbind_Ok in H as (u1 & _ & H).
  apply rbind_Ok in H as (u2 & _ & H). apply rbind_Ok in H as (z & Hz%catch_res_Ok & H). apply rbind_Ok in H as (u3 & Hr%raise_if_Ok & H).
  apply Ok_inj in H as <-. apply negb_false_iff, andb_true_iff in Hr as [Hl Hh]. unfold I64_MIN, I64_MAX, U64_MAX in *. exists s. split; [done|].
  unfold parse_int64, parse_uint64. destruct is_signed; rewrite Hz; cbn [rbind].
  - assert ((z <? - 2 ^ 63) || (2 ^ 63 - 1 <? z) = false) as -> by lia. cbn. split; [done|lia].
  - assert ((z <? 0) || (2 ^ 64 - 1 <? z) = false) as -> by lia. cbn. split; [done|lia].
Qed.

(** In a valid document every field that is named as an integer, at any depth, is a text that the parser
    of the generated models reads, within the signed or unsigned 64-bit range that the name says, and no
    field holds a float or an integer outside those that JavaScript represents. *)
Theorem validated_integers_parse v k x :
  validate_document v = Ok tt -> member (KStr k) x v ->
  (forall is_signed, wire_sign k = Some is_signed ->
     exists s n, x = VStr s /\ (if is_signed then parse_int64 else parse_uint64) s = Ok n /\
       (if is_signed then - 2 ^ 63 <= n < 2 ^ 63 else 0 <= n < 2 ^ 64)) /\
  (forall r, x <> VFloat r) /\ (forall n, x = VInt n -> Z.abs n < 2 ^ 53).
Proof.
  intros Hv Hm. destruct (valid_member _ _ _ Hm Hv) as [Hw Hx]. cbn [fst snd] in Hw, Hx. split_and!.
  - intros is_signed Hs. cbn in Hw. rewrite Hs in Hw. apply bind_unit_Ok_r in Hw as (n & Hn).
    apply wire_int_parses in Hn as (s & H). eauto.
  - intros r ->. discriminate Hx.
  - intros n ->. cbn in Hx. apply raise_if_Ok in Hx. unfold JS_SAFE_MAX in Hx. lia.
Qed.

(** ** A concrete document *)

Definition demo_cancel : pyval := VDict (obj [("order_id", VStr "o1"); ("command_type", VStr "CANCEL_ORDER")]).
Definition demo_envelope : pyval := VDict (obj
  [("schema_version", VStr "1.0.0"); ("command_id", VStr "c1"); ("idempotency_key", VStr "k1"); ("session_id", VStr "s1");
   ("principal_id", VStr "p1"); ("accepted_at_ns", VStr "-5"); ("logical_ts_ns", VStr "0"); ("arrival_seq", VStr "18446744073709551615");
   ("expected_session_version", VStr "3"); ("payload", demo_cancel); ("payload_hash", VStr "h")]).

Lemma canonical_json_roundtrip_witness :
  canon demo_envelope <> demo_envelope /\
  exists t, canonical_json demo_envelope = Ok t /\ load_and_validate t = Ok (canon demo_envelope) /\
    canonical_json (canon demo_envelope) = Ok t.
Proof.
  split; [intros E; vm_compute in E; discriminate E|].
  apply (canonical_json_roundtrip demo_envelope); vm_compute; reflexivity.
Defined.

Lemma validated_integers_parse_witness :
  (forall is_signed, wire_sign "arrival_seq" = Some is_signed ->
     exists s n, VStr "18446744073709551615" = VStr s /\ (if is_signed then parse_int64 else parse_uint64) s = Ok n /\
       (if is_signed then - 2 ^ 63 <= n < 2 ^ 63 else 0 <= n < 2 ^ 64)) /\
  (forall r, VStr "18446744073709551615" <> VFloat r) /\
  (forall n, VStr "18446744073709551615" = VInt n -> Z.abs n < 2 ^ 53).
Proof.
  apply (validated_integers_parse demo_envelope "arrival_seq" (VStr "18446744073709551615")).
  - vm_compute. reflexivity.
  - apply member_here, (list_elem_of_lookup_2 _ 7%nat). reflexivity.
Defined.
