(* ===== verification/ContractCommands.v ===== *)
(** * Commands of the API against the wire contract

    The payloads that the command service prepares, read by the validator of canonical documents. *)

From S2P Require Import Prelude Sort PyStr PyText PyJson Commands.
From S2P Require Contracts.
From Stdlib Require String.

(** ** The shape of a prepared order *)

Definition base_fields (instrument side : string) (quantity : Z) (order_type tif : string) (reduce_only post_only marketable_only : bool)
    : list (string * pyval) :=
  [("command_type", VStr "SUBMIT_ORDER"); ("instrument_id", VStr instrument); ("side", VStr side); ("quantity_atoms", VStr (str_Z quantity));
   ("order_type", VStr order_type); ("time_in_force", VStr tif); ("reduce_only", VBool reduce_only); ("post_only", VBool post_only);
   ("marketable_only", VBool marketable_only)].

Definition price_ok (p : Z) : Prop := 0 < p < 2 ^ 63.

(** The limit price, alone or with the reference it was resolved from. *)
Inductive limit_fields (order_type : string) : list (string * pyval) -> Prop :=
| no_limit : limit_bearing order_type = false -> limit_fields order_type []
| plain_limit p : limit_bearing order_type = true -> price_ok p -> limit_fields order_type [("limit_price_atoms", VStr (str_Z p))]
| reference_limit p name event : limit_bearing order_type = true -> price_ok p -> name ∈ Contracts.PRICE_REFERENCES -> event <> EmptyString ->
    limit_fields order_type [("limit_price_atoms", VStr (str_Z p)); ("price_reference", VStr name); ("quote_event_id", VStr event)].
Inductive stop_fields (order_type : string) : list (string * pyval) -> Prop :=
| no_stop : stop_bearing order_type = false -> stop_fields order_type []
| plain_stop p : stop_bearing order_type = true -> price_ok p -> stop_fields order_type [("stop_price_atoms", VStr (str_Z p))].

Lemma dict_update_fresh items : forall d,
  NoDup (map fst items) -> (forall k, k ∈ map fst items -> KStr k ∉ map fst d) -> dict_update d items = d ++ obj items.
Proof.
  unfold dict_update. induction items as [|[k v] items IH]; intros d Hn Hd; [by rewrite app_nil_r|]. cbn [fold_left obj map].
  cbn in Hn. apply NoDup_cons in Hn as [Hk Hn]. rewrite JsonParse.dict_set_new by (apply Hd; apply list_elem_of_here).
  rewrite IH; [by rewrite <- app_assoc|done|]. intros k' Hk'. rewrite map_app, not_elem_of_app. split.
  - apply Hd. by apply list_elem_of_further.
  - cbn. rewrite list_elem_of_singleton. intros [= ->]. done.
Qed.

Lemma resolve_limit_fields instrument side quantity order_type tif r p m quote request d :
  quote_ok quote -> order_type ∈ Contracts.ORDER_TYPES ->
  resolve_limit (obj (base_fields instrument side quantity order_type tif r p m)) quote side order_type request = Ok d ->
  exists limit, d = obj (base_fields instrument side quantity order_type tif r p m ++ limit) /\ limit_fields order_type limit.
Proof.
  intros Hq Ht H. unfold resolve_limit in H. set (base := base_fields _ _ _ _ _ _ _ _) in *.
  assert (forall items, (forall k, k ∈ map fst items -> k ∈ ["limit_price_atoms"; "price_reference"; "quote_event_id"]) -> NoDup (map fst items) ->
    dict_update (obj base) items = obj (base ++ items)) as Hup.
  { intros items Hi Hn. rewrite dict_update_fresh; [by unfold obj; rewrite map_app|done|]. intros k Hk. apply Hi in Hk.
    rewrite !elem_of_cons, elem_of_nil in Hk. unfold base, base_fields. cbn [obj map fst]. rewrite !not_elem_of_cons.
    destruct Hk as [->|[->|[->|[]]]]; split_and!; try discriminate; apply not_elem_of_nil. }
  destruct (field request "price_reference") as [reference|].
  - destruct (is_present _); [discriminate H|]. destruct (limit_bearing order_type) eqn:Hl; [|discriminate H]. cbn [negb] in H.
    apply rbind_Ok in H as ([[price event] name] & Hr & H). apply Ok_inj in H as <-. unfold resolve_reference in Hr.
    destruct reference as [| | | |s| | |]; try discriminate Hr. apply rbind_Ok in Hr as (ref & _ & Hr). destruct quote as [q|]; [|discriminate Hr].
    injection Hr as <- <- <-. specialize (Hq q eq_refl). pose proof (reference_price_bounds q side ref Hq). pose proof (quote_bounds q Hq).
    eexists. split.
    + apply Hup; [intros k Hk; exact Hk|]. apply (bool_decide_eq_true_1 (NoDup ["limit_price_atoms"; "price_reference"; "quote_event_id"])). reflexivity.
    + apply reference_limit; [done|unfold price_ok; lia|destruct ref; cbn; set_solver|].
      unfold VisibleQuote_post_init in Hq. apply rbind_Ok in Hq as (u & Hu%raise_if_Ok & _). intros E. by rewrite E in Hu.
  - destruct (limit_bearing order_type) eqn:Hl.
    + apply rbind_Ok in H as (t & Ht' & H). apply Ok_inj in H as <-. apply i64_price_Ok in Ht' as (n & -> & Hn). eexists. split.
      * apply Hup; [intros k Hk; cbn in Hk; set_solver|]. apply NoDup_singleton.
      * by apply plain_limit.
    + destruct (is_present _); [discriminate H|]. apply Ok_inj in H as <-. exists []. split; [by rewrite app_nil_r|]. by apply no_limit.
Qed.

Lemma resolve_stop_fields base order_type request d :
  "stop_price_atoms" ∉ map fst base -> resolve_stop (obj base) order_type request = Ok d ->
  exists stop, d = obj (base ++ stop) /\ stop_fields order_type stop.
Proof.
  intros Hb H. unfold resolve_stop in H. destruct (stop_bearing order_type) eqn:Hs.
  - apply rbind_Ok in H as (t & Ht & H). apply Ok_inj in H as <-. apply i64_price_Ok in Ht as (n & -> & Hn). eexists. split.
    + rewrite dict_update_fresh; [by unfold obj; rewrite map_app|apply NoDup_singleton|]. intros k Hk.
      cbn in Hk. apply list_elem_of_singleton in Hk as ->. intros Hin. apply Hb. unfold obj in Hin. rewrite map_map in Hin. cbn in Hin.
      apply list_elem_of_fmap in Hin as ([k v] & [= E] & Hin). cbn in E. subst k. apply list_elem_of_fmap. by exists ("stop_price_atoms", v).
    + by apply plain_stop.
  - destruct (is_present _); [discriminate H|]. apply Ok_inj in H as <-. exists []. split; [by rewrite app_nil_r|]. by apply no_stop.
Qed.

Lemma require_string_Ok request name s : require_string request name = Ok s -> s <> EmptyString.
Proof.
  unfold require_string. destruct (dict_get name request) as [[| | | |t| | |]|]; try discriminate. intros H.
  apply rbind_Ok in H as (u & Hu%raise_if_Ok & H). apply rbind_Ok in H as (u' & _ & H). apply Ok_inj in H as <-. intros ->. discriminate Hu.
Qed.

(** Every order that the service prepares has this shape. *)
Lemma prepare_order_shape quote request pc :
  quote_ok quote -> prepare_order quote request = Ok pc ->
  exists instrument side q order_type tif r p m limit stop,
    instrument <> EmptyString /\ side ∈ ["BUY"; "SELL"] /\ 0 < q < 2 ^ 64 /\ order_type ∈ Contracts.ORDER_TYPES /\
    tif ∈ Contracts.TIME_IN_FORCE /\ (p && negb (limit_bearing order_type)) = false /\
    limit_fields order_type limit /\ stop_fields order_type stop /\
    pc_payload pc = obj (base_fields instrument side q order_type tif r p m ++ limit ++ stop).
Proof.
  intros Hq H. unfold prepare_order in H.
  apply rbind_Ok in H as (u & _ & H). apply rbind_Ok in H as (instrument & Hi%require_string_Ok & H).
  apply rbind_Ok in H as (side & Hs%enum_string_Ok & H). apply rbind_Ok in H as (quantity & Hn & H).
  apply rbind_Ok in H as (order_type & Ht%enum_string_Ok & H). apply rbind_Ok in H as (tif & Hf%enum_string_Ok & H).
  apply rbind_Ok in H as (r & _ & H). apply rbind_Ok in H as (p & _ & H). apply rbind_Ok in H as (m & _ & H).
  apply rbind_Ok in H as (u' & Hp%raise_if_Ok & H). apply rbind_Ok in H as (d & Hd & H). apply rbind_Ok in H as (h & _ & H).
  apply Ok_inj in H as <-. apply u64_quantity_Ok in Hn as (q & -> & Hn).
  unfold resolve_prices in Hd. apply rbind_Ok in Hd as (d1 & Hl & Hd).
  apply (resolve_limit_fields instrument side q order_type tif r p m) in Hl as (limit & -> & Hl); [|done|done].
  apply resolve_stop_fields in Hd as (stop & -> & Hst).
  - exists instrument, side, q, order_type, tif, r, p, m, limit, stop. rewrite <- app_assoc. done.
  - rewrite map_app, not_elem_of_app. split.
    + apply (bool_decide_eq_true_1 (_ ∉ ["command_type"; "instrument_id"; "side"; "quantity_atoms"; "order_type"; "time_in_force";
        "reduce_only"; "post_only"; "marketable_only"])). reflexivity.
    + destruct Hl; cbn; set_solver.
Qed.

(** ** The validator on such a shape *)

Lemma price_wire p (is_signed : bool) : price_ok p -> Contracts.wire_int (VStr (str_Z p)) is_signed = Ok p.
Proof.
  intros Hp. unfold price_ok in Hp. rewrite Contracts.wire_int_nonneg by lia. unfold I64_MAX, U64_MAX.
  destruct is_signed; by rewrite (proj2 (Z.leb_le _ _)) by lia.
Qed.
Lemma price_positive p : price_ok p -> Contracts.positive_wire (VStr (str_Z p)) true = Ok p.
Proof. intros Hp. unfold price_ok in Hp. apply Contracts.positive_wire_ok; unfold I64_MAX; lia. Qed.

Ltac wire_step :=
  first
    [ rewrite price_wire by done
    | rewrite price_positive by done
    | rewrite Contracts.nonempty_text_ok by done
    | rewrite Contracts.require_name_ok by (done || by repeat constructor) ].
Ltac wire_eval :=
  cbv -[Contracts.wire_int Contracts.positive_wire Contracts.nonempty_text Contracts.require_name str_Z I64_MAX Z.leb
        Contracts.PRICE_REFERENCES Contracts.ORDER_TYPES Contracts.TIME_IN_FORCE].

Lemma shape_valid instrument side q order_type tif r p m limit stop :
  instrument <> EmptyString -> side ∈ ["BUY"; "SELL"] -> 0 < q < 2 ^ 64 -> order_type ∈ Contracts.ORDER_TYPES ->
  tif ∈ Contracts.TIME_IN_FORCE -> (p && negb (limit_bearing order_type)) = false ->
  limit_fields order_type limit -> stop_fields order_type stop ->
  Contracts.validate_document (VDict (obj (base_fields instrument side q order_type tif r p m ++ limit ++ stop))) =
    if (q <=? I64_MAX) && negb (p && m) then Ok tt else Raise ContractError.
Proof.
  intros Hi Hs Hq Ht Hf Hp Hl Hst.
  pose proof (Contracts.wire_int_nonneg q true ltac:(lia)) as Hw. cbv iota in Hw.
  assert (Contracts.positive_wire (VStr (str_Z q)) false = Ok q) as Hw' by (apply Contracts.positive_wire_ok; unfold U64_MAX; lia).
  unfold Contracts.ORDER_TYPES in Ht. rewrite !elem_of_cons in Ht.
  destruct Ht as [->|[->|[->|[->|Ht]]]]; [| | | |by apply elem_of_nil in Ht]; cbn in Hp;
    destruct Hl as [Hl|x Hl Hx|x name event Hl Hx Hname Hev]; try discriminate Hl;
    destruct Hst as [Hst|y Hst Hy]; try discriminate Hst; clear Hl Hst;
    destruct p; try discriminate Hp; destruct m; wire_eval; rewrite Hw; destruct (q <=? I64_MAX); try reflexivity;
    repeat (wire_step; wire_eval); try reflexivity; rewrite Hw'; wire_eval; repeat (wire_step; wire_eval); reflexivity.
Qed.

(** C36. The payload of every prepared order passes the validator of canonical documents exactly when
    its quantity fits a signed 64-bit integer and it is not both post-only and marketable-only; the
    validator rejects every other prepared order with a contract error. *)
Theorem prepared_order_valid quote request pc :
  quote_ok quote -> prepare_order quote request = Ok pc ->
  exists q p m,
    0 < q < 2 ^ 64 /\ dict_get "quantity_atoms" (pc_payload pc) = Some (VStr (str_Z q)) /\
    dict_get "post_only" (pc_payload pc) = Some (VBool p) /\ dict_get "marketable_only" (pc_payload pc) = Some (VBool m) /\
    Contracts.validate_document (VDict (pc_payload pc)) =
      if (q <=? I64_MAX) && negb (p && m) then Ok tt else Raise ContractError.
Proof.
  intros Hq H. apply prepare_order_shape in H as (instrument & side & q & order_type & tif & r & p & m & limit & stop & H); [|done].
  destruct H as (? & ? & Hn & ? & ? & ? & ? & ? & ->). exists q, p, m. split_and!; try done; try apply Hn. by apply shape_valid.
Qed.

Lemma prepared_order_valid_witness :
  Contracts.validate_document (VDict (pc_payload (demo_prepared demo_quote))) = Ok tt /\
  exists q p m,
    0 < q < 2 ^ 64 /\ dict_get "quantity_atoms" (pc_payload (demo_prepared demo_quote)) = Some (VStr (str_Z q)) /\
    dict_get "post_only" (pc_payload (demo_prepared demo_quote)) = Some (VBool p) /\
    dict_get "marketable_only" (pc_payload (demo_prepared demo_quote)) = Some (VBool m) /\
    Contracts.validate_document (VDict (pc_payload (demo_prepared demo_quote))) =
      if (q <=? I64_MAX) && negb (p && m) then Ok tt else Raise ContractError.
Proof.
  split; [vm_compute; reflexivity|].
  apply (prepared_order_valid (Some demo_quote) demo_order (demo_prepared demo_quote)).
  - exact demo_quote_ok.
  - vm_compute. reflexivity.
Defined.

(** An order that the service prepares and the contract forbids. *)
Definition both_flags : pydict := obj
  [("instrument_id", VStr "SYNTH"); ("side", VStr "BUY"); ("quantity_atoms", VStr "5"); ("order_type", VStr "LIMIT");
   ("time_in_force", VStr "GTC"); ("limit_price_atoms", VStr "99"); ("post_only", VBool true); ("marketable_only", VBool true)].
Lemma both_flags_forbidden :
  match prepare_order None both_flags with
  | Ok pc => Contracts.validate_document (VDict (pc_payload pc)) = Raise ContractError
  | Raise _ => False
  end.
Proof. vm_compute. reflexivity. Qed.
