(* ===== verification/Routes.v ===== *)
(** * HTTP routes ([commands/router.py], [market/router.py], [results/router.py] of [apps/api/...])

    Every handler of the three routers: it authenticates the request, reads its parameters, calls the
    service and turns its errors into responses.  The framework gives a handler its path, headers, query
    and body already parsed; the text of an error message is dropped from its response. *)

From S2P Require Import Prelude Sort PyStr PyText Bytes PyJson Catalog Db SessionModel Session Access.
From S2P Require Commands MarketModel Market ResultModel Results.
From Stdlib Require Import Ascii.
From Stdlib Require String.

(** ** Errors *)

Definition command_code (c : CommandErrorCode) : string :=
  match c with
  | C_INVALID_COMMAND => "INVALID_COMMAND" | C_SESSION_NOT_FOUND => "SESSION_NOT_FOUND"
  | C_PRINCIPAL_MISMATCH => "PRINCIPAL_MISMATCH" | C_SESSION_NOT_RUNNING => "SESSION_NOT_RUNNING"
  | C_VERSION_CONFLICT => "VERSION_CONFLICT" | C_IDEMPOTENCY_CONFLICT => "IDEMPOTENCY_CONFLICT"
  | C_COMMAND_NOT_FOUND => "COMMAND_NOT_FOUND" | C_QUOTE_UNAVAILABLE => "QUOTE_UNAVAILABLE"
  | C_DATABASE_CONFLICT => "DATABASE_CONFLICT"
  end.
Definition market_code (c : MarketErrorCode) : string :=
  match c with
  | M_SESSION_UNAVAILABLE => "SESSION_UNAVAILABLE" | M_SESSION_NOT_COMMITTED => "SESSION_NOT_COMMITTED"
  | M_INVALID_QUERY => "INVALID_QUERY" | M_UNSUPPORTED_INTERVAL => "UNSUPPORTED_INTERVAL" | M_SOURCE_ORDER => "SOURCE_ORDER"
  end.
Definition result_code (c : ResultErrorCode) : string :=
  match c with
  | RS_SESSION_UNAVAILABLE => "SESSION_UNAVAILABLE" | RS_SESSION_NOT_COMPLETED => "SESSION_NOT_COMPLETED"
  | RS_INVALID_EVIDENCE => "INVALID_EVIDENCE" | RS_PERSISTED_CONFLICT => "PERSISTED_CONFLICT"
  | RS_RESULT_CONFLICT => "RESULT_CONFLICT" | RS_RESULT_NOT_FOUND => "RESULT_NOT_FOUND"
  | RS_DATABASE_CONFLICT => "DATABASE_CONFLICT"
  end.

Definition unauthenticated (e : exn) : exn :=
  match e with AuthenticationError => HTTPException 401 "authentication required" | e => e end.
Definition command_http_error (e : exn) : exn :=
  match e with CommandServiceError c => HTTPException (Commands.http_status c) (command_code c) | e => e end.
Definition market_http_error (e : exn) : exn :=
  match e with MarketServiceError c => HTTPException (MarketModel.market_status c) (market_code c) | e => e end.
Definition result_http_error (e : exn) : exn :=
  match e with ResultServiceError c => HTTPException (Results.http_status c) (result_code c) | e => e end.

(** ** Parameters *)

Definition expected_version (raw : string) : result Z := catch_res command_http_error (Commands.header_version raw).

Definition query_error : exn := HTTPException 422 (market_code M_INVALID_QUERY).
Definition query_nonnegative (raw : string) : result Z :=
  let! parsed := MarketModel.nonnegative_decimal raw in of_option query_error parsed.
Definition query_positive (raw : string) : result Z :=
  let! parsed := MarketModel.positive_decimal raw in of_option query_error parsed.
Definition query_optional (raw : option string) : result (option Z) :=
  match raw with None => Ok None | Some raw => let! n := query_nonnegative raw in Ok (Some n) end.

(** ** Downloads *)

Definition token_char (c : ascii) : ascii :=
  if isalnum_char c || Ascii.eqb c "-" || Ascii.eqb c "_" then c else "_"%char.
Definition filename_token (session_id : string) : string :=
  let token := take_chars 80 (map_chars token_char session_id) in
  if is_empty token then "session" else token.

Record Download := mk_download { dl_content : string; dl_media_type : string; dl_headers : list (string * string) }.

Definition json_download (value : pydict) (content_hash filename : string) (attachment : bool) : result Download :=
  let disposition := if attachment then "attachment" else "inline" in
  let! content := ResultModel.result_canonical_json (VDict value) in
  Ok (mk_download content "application/json"
        [("Cache-Control", "private, immutable, max-age=31536000");
         ("Content-Disposition", disposition +:+ "; filename=" +:+ String dq (filename +:+ String dq EmptyString));
         ("X-Content-SHA256", content_hash); ("X-Content-Type-Options", "nosniff")]).

(** ** Handlers *)

(** The database and the page cache of the market service. *)
Record World := mk_world { w_db : Db; w_cache : MarketModel.Cache }.
Definition on_db {A} (m : ST Db A) : ST World A := fun w => let '(r, db) := m (w_db w) in (r, mk_world db (w_cache w)).
Definition on_cache {A} (m : Db -> ST MarketModel.Cache A) : ST World A :=
  fun w => let '(r, cache) := m (w_db w) (w_cache w) in (r, mk_world (w_db w) cache).

Section Routes.
Context {Auth : Type} `{Authenticator Auth} (authenticator : Auth) `{MarketModel.MarketDataSource}.
(** The quote resolver of the command service. *)
Context (quotes : Db -> string -> string -> option Commands.VisibleQuote).
Context (headers : gmap string string).

Definition authenticate_request : result string :=
  let! principal := catch_res unauthenticated (authenticate authenticator headers) in
  Ok (pr_principal_id principal).

Definition invoke_command (m : ST Db Commands.AcceptedCommand) : ST World pydict :=
  command <- reraise command_http_error (on_db m) ;;
  sret (Commands.response command).

Definition submit_order (now_ns : Z) (session_id idempotency_key version : string) (body : pydict) : ST World pydict :=
  principal_id <- lift authenticate_request ;;
  expected <- lift (expected_version version) ;;
  invoke_command (fun db => Commands.submit_order (quotes db session_id principal_id) now_ns session_id principal_id idempotency_key expected body db).

Definition cancel_order (now_ns : Z) (session_id order_id idempotency_key version : string) (body : pydict) : ST World pydict :=
  principal_id <- lift authenticate_request ;;
  expected <- lift (expected_version version) ;;
  invoke_command (Commands.cancel_order now_ns session_id principal_id idempotency_key expected order_id body).

Definition replace_order (now_ns : Z) (session_id order_id idempotency_key version : string) (body : pydict) : ST World pydict :=
  principal_id <- lift authenticate_request ;;
  expected <- lift (expected_version version) ;;
  invoke_command (Commands.replace_order now_ns session_id principal_id idempotency_key expected order_id body).

Definition set_leverage (now_ns : Z) (session_id idempotency_key version : string) (body : pydict) : ST World pydict :=
  principal_id <- lift authenticate_request ;;
  expected <- lift (expected_version version) ;;
  invoke_command (Commands.set_leverage now_ns session_id principal_id idempotency_key expected body).

Definition get_command (session_id command_id : string) : ST World pydict :=
  principal_id <- lift authenticate_request ;;
  invoke_command (Commands.get_command session_id principal_id command_id).

Definition invoke_market (m : Db -> ST MarketModel.Cache MarketModel.MarketPage) : ST World pydict :=
  page <- reraise market_http_error (on_cache m) ;;
  sret (MarketModel.page_payload page).

Definition trades (session_id start_offset_ns : string) (after_sequence : option string) (limit : Z) : ST World pydict :=
  principal_id <- lift authenticate_request ;;
  start <- lift (query_nonnegative start_offset_ns) ;;
  after <- lift (query_optional after_sequence) ;;
  invoke_market (fun db => MarketModel.trades db session_id principal_id start after limit).
Definition bbo (session_id start_offset_ns : string) (after_sequence : option string) (limit : Z) : ST World pydict :=
  principal_id <- lift authenticate_request ;;
  start <- lift (query_nonnegative start_offset_ns) ;;
  after <- lift (query_optional after_sequence) ;;
  invoke_market (fun db => MarketModel.bbo db session_id principal_id start after limit).
Definition depth (session_id start_offset_ns : string) (after_sequence : option string) (limit : Z) : ST World pydict :=
  principal_id <- lift authenticate_request ;;
  start <- lift (query_nonnegative start_offset_ns) ;;
  after <- lift (query_optional after_sequence) ;;
  invoke_market (fun db => MarketModel.depth db session_id principal_id start after limit).
Definition candles (session_id interval_ns start_offset_ns : string) (limit : Z) : ST World pydict :=
  principal_id <- lift authenticate_request ;;
  interval <- lift (query_positive interval_ns) ;;
  start <- lift (query_nonnegative start_offset_ns) ;;
  invoke_market (fun db => MarketModel.candles db session_id principal_id interval start limit).

Definition invoke_result (session_id principal_id : string) : ST World Results.FrozenResult :=
  reraise result_http_error (on_db (Results.get_result session_id principal_id)).

Definition result_bundle (session_id : string) : ST World Download :=
  principal_id <- lift authenticate_request ;;
  r <- invoke_result session_id principal_id ;;
  lift (json_download (Results.fr_bundle r) (Results.fr_bundle_hash r) (filename_token session_id +:+ "-result.json") false).
Definition verifier_proof (session_id : string) : ST World Download :=
  principal_id <- lift authenticate_request ;;
  r <- invoke_result session_id principal_id ;;
  lift (json_download (Results.fr_proof r) (Results.fr_proof_hash r) (filename_token session_id +:+ "-proof.json") true).
Definition export_package (session_id : string) : ST World Download :=
  principal_id <- lift authenticate_request ;;
  r <- invoke_result session_id principal_id ;;
  lift (json_download (Results.fr_export r) (Results.fr_export_hash r) (filename_token session_id +:+ "-export.json") true).

(** The routers as one: a parsed request to its handler. *)
Inductive Request :=
| PostOrder (now_ns : Z) (session_id key version : string) (body : pydict)
| PostCancel (now_ns : Z) (session_id order_id key version : string) (body : pydict)
| PostReplace (now_ns : Z) (session_id order_id key version : string) (body : pydict)
| PostLeverage (now_ns : Z) (session_id key version : string) (body : pydict)
| GetCommand (session_id command_id : string)
| GetTrades (session_id start : string) (after : option string) (limit : Z)
| GetBbo (session_id start : string) (after : option string) (limit : Z)
| GetDepth (session_id start : string) (after : option string) (limit : Z)
| GetCandles (session_id interval start : string) (limit : Z)
| GetResult (session_id : string)
| GetProof (session_id : string)
| GetExport (session_id : string).

Inductive Response := Json (body : pydict) | File (download : Download).
Definition json (m : ST World pydict) : ST World Response := d <- m ;; sret (Json d).
Definition file (m : ST World Download) : ST World Response := d <- m ;; sret (File d).

Definition handle (request : Request) : ST World Response :=
  match request with
  | PostOrder now sid key version body => json (submit_order now sid key version body)
  | PostCancel now sid order key version body => json (cancel_order now sid order key version body)
  | PostReplace now sid order key version body => json (replace_order now sid order key version body)
  | PostLeverage now sid key version body => json (set_leverage now sid key version body)
  | GetCommand sid command_id => json (get_command sid command_id)
  | GetTrades sid start after limit => json (trades sid start after limit)
  | GetBbo sid start after limit => json (bbo sid start after limit)
  | GetDepth sid start after limit => json (depth sid start after limit)
  | GetCandles sid interval start limit => json (candles sid interval start limit)
  | GetResult sid => file (result_bundle sid)
  | GetProof sid => file (verifier_proof sid)
  | GetExport sid => file (export_package sid)
  end.
Definition request_session (request : Request) : string :=
  match request with
  | PostOrder _ sid _ _ _ | PostCancel _ sid _ _ _ _ | PostReplace _ sid _ _ _ _ | PostLeverage _ sid _ _ _
  | GetCommand sid _ | GetTrades sid _ _ _ | GetBbo sid _ _ _ | GetDepth sid _ _ _ | GetCandles sid _ _ _
  | GetResult sid | GetProof sid | GetExport sid => sid
  end.
End Routes.

(** ** What a route may touch *)

(** A write of commands for one session. *)
Definition db_scoped (sid : string) (db db' : Db) : Prop :=
  exists cs ss, db' = set_commands (commands db ++ cs) (set_sessions ss db) /\ Forall (fun r => c_session_id r = sid) cs /\
    (forall sid', sid' <> sid -> ss !! sid' = sessions db !! sid') /\
    (forall row, sessions db !! sid = Some row -> exists row', ss !! sid = Some row' /\ s_principal_id row' = s_principal_id row).

Lemma db_scoped_refl sid db : db_scoped sid db db.
Proof. exists [], (sessions db). split_and!; eauto. rewrite app_nil_r. by destruct db. Qed.

(** Principal and session of a cached page. *)
Definition cache_owner (k : MarketModel.CacheKey) : string * string :=
  let '(principal, session, _, _, _, _, _, _, _) := k in (principal, session).
Record world_scoped (p sid : string) (w w' : World) : Prop := mk_world_scoped {
  ws_db : db_scoped sid (w_db w) (w_db w');
  ws_cache : forall k, cache_owner k <> (p, sid) -> w_cache w' !! k = w_cache w !! k;
}.

Definition db_guarded {A} (p sid : string) (m : ST Db A) : Prop :=
  forall db r db', m db = (r, db') ->
    match r with Ok _ => Results.owns sid p db /\ db_scoped sid db db' | Raise _ => db' = db end.
Definition guarded {A} (p sid : string) (m : ST World A) : Prop :=
  forall w r w', m w = (r, w') ->
    match r with Ok _ => Results.owns sid p (w_db w) /\ world_scoped p sid w w' | Raise _ => w' = w end.

Lemma db_guarded_lift {A B} p sid (x : result A) (k : A -> ST Db B) :
  (forall a, x = Ok a -> db_guarded p sid (k a)) -> db_guarded p sid (a <- lift x ;; k a).
Proof.
  intros Hk db r db'. unfold sbind, lift. destruct x as [a|e]; [by apply Hk|]. by intros [= <- <-].
Qed.
Lemma guarded_lift {A B} p sid (x : result A) (k : A -> ST World B) :
  (forall a, x = Ok a -> guarded p sid (k a)) -> guarded p sid (a <- lift x ;; k a).
Proof.
  intros Hk w r w'. unfold sbind, lift. destruct x as [a|e]; [by apply Hk|]. by intros [= <- <-].
Qed.
Lemma guarded_reraise {A} p sid h (m : ST World A) : guarded p sid m -> guarded p sid (reraise h m).
Proof.
  intros Hm w r w'. unfold reraise. destruct (m w) as [[a|e] w1] eqn:E; intros [= <- <-]; exact (Hm _ _ _ E).
Qed.
Lemma guarded_map {A B} p sid (m : ST World A) (f : A -> B) : guarded p sid m -> guarded p sid (a <- m ;; sret (f a)).
Proof.
  intros Hm w r w'. unfold sbind, sret. destruct (m w) as [[a|e] w1] eqn:E; intros [= <- <-]; exact (Hm _ _ _ E).
Qed.
Lemma guarded_db {A} p sid (m : ST Db A) : db_guarded p sid m -> guarded p sid (on_db m).
Proof.
  intros Hm w r w'. unfold on_db. destruct (m (w_db w)) as [x db] eqn:E. intros [= <- <-]. specialize (Hm _ _ _ E).
  destruct x; [|subst; by destruct w]. destruct Hm. split; [done|]. by split.
Qed.

(** ** Commands *)

Lemma accept_guarded p sid key expected now pc : db_guarded p sid (Commands.accept sid p key expected now pc).
Proof.
  intros db r db' H. destruct r as [c|e]; [|by apply Commands.accept_Raise in H]. split.
  - unfold Commands.accept in H. do 5 (apply sbind_Ok in H as (? & ? & Hl & H); apply lift_Ok in Hl as [_ ->]).
    apply reraise_inv, transaction_inv in H. apply sbind_Ok in H as (row & ? & Hs & _).
    apply Commands.command_session_Ok in Hs as (-> & Hs & Hp). by exists row.
  - apply Commands.accept_Ok in H as [[-> _]|(row & cid & Hs & _ & _ & _ & _ & _ & _ & _ & _ & ->)]; [apply db_scoped_refl|].
    eexists [_], _. split_and!; [reflexivity|by constructor|intros sid' Hne; by apply lookup_insert_ne|].
    intros row' Hs'. rewrite Hs in Hs'. injection Hs' as <-. rewrite lookup_insert_eq. by eexists.
Qed.

Lemma accept_payload_guarded p sid key expected now payload : db_guarded p sid (Commands.accept_payload sid p key expected now payload).
Proof. apply db_guarded_lift. intros h _. apply accept_guarded. Qed.

Lemma submit_guarded quote p sid now key expected body : db_guarded p sid (Commands.submit_order quote now sid p key expected body).
Proof. apply db_guarded_lift. intros pc _. apply accept_guarded. Qed.
Lemma cancel_guarded p sid now key expected order body : db_guarded p sid (Commands.cancel_order now sid p key expected order body).
Proof. do 2 (apply db_guarded_lift; intros ? _). apply accept_payload_guarded. Qed.
Lemma replace_guarded p sid now key expected order body : db_guarded p sid (Commands.replace_order now sid p key expected order body).
Proof. do 4 (apply db_guarded_lift; intros ? _). apply accept_payload_guarded. Qed.
Lemma leverage_guarded p sid now key expected body : db_guarded p sid (Commands.set_leverage now sid p key expected body).
Proof. do 2 (apply db_guarded_lift; intros ? _). apply accept_payload_guarded. Qed.

Lemma get_command_guarded p sid cid : db_guarded p sid (Commands.get_command sid p cid).
Proof.
  do 3 (apply db_guarded_lift; intros ? _). intros db r db'. unfold sbind at 1.
  destruct (Commands.command_session sid p db) as [[row|e] db1] eqn:E.
  - apply Commands.command_session_Ok in E as (-> & Hs & Hp). unfold sbind, sraise, lift.
    destruct (one_or_none _) as [[c|]|]; [destruct (Commands.materialize_command c false)| |]; intros [= <- <-]; try done.
    split; [by exists row|apply db_scoped_refl].
  - intros [= <- <-]. unfold Commands.command_session in E. by injection E.
Qed.

(** ** Market pages *)

Section MarketRoutes.
Context `{MarketModel.MarketDataSource}.

Lemma run_read_guarded ch p sid off after limit : guarded p sid (on_cache (fun db => Market.run_read ch db sid p off after limit)).
Proof.
  intros w r w'. unfold on_cache. rewrite Market.run_read_eq.
  destruct (Market.read_key ch (w_db w) sid p off after limit) as [[c k]|e] eqn:Ek; [|intros [= <- <-]; by destruct w].
  apply Market.read_key_Ok in Ek as [Hc Hk]. apply Market.context_Ok in Hc as (rec & s & Hs & Hp & Hid & _ & _ & _ & ->).
  assert (Results.owns sid p (w_db w)) as Ho.
  { apply state_inv in Hs as (row & Hrow & Hm). exists row. split; [done|]. unfold materialize_from_row in Hm. repeat step_ok. by subst. }
  assert (cache_owner k = (p, sid)) as Hko.
  { unfold MarketModel.cache_key in Hk. apply rbind_Ok in Hk as (u & _ & Hk). apply Ok_inj in Hk as <-. cbn. by rewrite Hid. }
  destruct (w_cache w !! k) as [page|].
  { intros [= <- <-]. split; [done|]. split; [apply db_scoped_refl|done]. }
  destruct (Market.fresh_page _ _ _ _) as [page|e]; intros [= <- <-]; [|by destruct w].
  split; [done|]. split; [apply db_scoped_refl|]. intros k' Hk'. cbn. apply lookup_insert_ne. congruence.
Qed.
End MarketRoutes.

(** ** Results *)

Lemma get_result_guarded p sid : db_guarded p sid (Results.get_result sid p).
Proof.
  intros db r db'. unfold Results.get_result, sbind at 1. destruct (Results.require_principal sid p db) as [[u|e] db1] eqn:E.
  - apply Results.require_owner_Ok in E as [-> Ho]. unfold sbind, gets, sraise, lift.
    destruct (result_bundles db !! sid) as [row|]; [destruct (Results.materialize_result sid row false)|]; intros [= <- <-]; try done.
    split; [done|apply db_scoped_refl].
  - intros [= <- <-]. unfold Results.require_principal in E. by injection E.
Qed.

Lemma get_result_same sid p db r db' : Results.get_result sid p db = (r, db') -> db' = db.
Proof.
  unfold Results.get_result, Results.require_principal, sbind, gets, sraise, lift. destruct (sessions db !! sid) as [row|]; [|by intros [= _ <-]].
  destruct (raise_if _ _); [|by intros [= _ <-]]. destruct (result_bundles db !! sid); by intros [= _ <-].
Qed.

Lemma materialize_result_hashes sid row b f :
  Results.materialize_result sid row b = Ok f ->
  ResultModel.canonical_hash (VDict (Results.fr_bundle f)) = Ok (Results.fr_bundle_hash f) /\
  ResultModel.canonical_hash (VDict (Results.fr_proof f)) = Ok (Results.fr_proof_hash f) /\
  ResultModel.canonical_hash (VDict (Results.fr_export f)) = Ok (Results.fr_export_hash f).
Proof.
  unfold Results.materialize_result. intros H. repeat step_ok. subst f. cbn. bools.
  repeat match goal with E : String.eqb _ _ = true |- _ => apply String.eqb_eq in E; subst end. by split_and!.
Qed.

(** *** Names of files *)

(** A character that can stand in a quoted file name: no control character, no quote and no backslash. *)
Definition name_char (c : ascii) : bool := negb (code c <? 32) && negb (code c =? 34) && negb (code c =? 92) && negb (code c =? 127).

Lemma token_char_name c : name_char (token_char c) = true.
Proof. destruct c as [[] [] [] [] [] [] [] []]; vm_compute; reflexivity. Qed.

Lemma map_chars_all (p : ascii -> bool) f s : (forall c, p (f c) = true) -> all_chars p (map_chars f s) = true.
Proof. intros Hf. induction s as [|c s IH]; [done|]. cbn. by rewrite Hf, IH. Qed.
Lemma take_chars_all (p : ascii -> bool) n : forall s, all_chars p s = true -> all_chars p (take_chars n s) = true.
Proof.
  induction n as [|n IH]; intros [|c s] Hs; try done. cbn in *. apply andb_true_iff in Hs as [Hc Hs]. rewrite Hc. by apply IH.
Qed.
Lemma take_chars_length n : forall s, (String.length (take_chars n s) <= n)%nat.
Proof. induction n as [|n IH]; intros [|c s]; cbn; [lia..|]. specialize (IH s). lia. Qed.

Lemma filename_token_safe sid :
  all_chars name_char (filename_token sid) = true /\ (0 < String.length (filename_token sid) <= 80)%nat.
Proof.
  unfold filename_token. destruct (is_empty _) eqn:E; [split; [reflexivity|vm_compute; lia]|].
  split; [apply take_chars_all, map_chars_all, token_char_name|].
  pose proof (take_chars_length 80 (map_chars token_char sid)) as Hl. revert E Hl. generalize (take_chars 80 (map_chars token_char sid)).
  intros [|c t] E Hl; [done|]. cbn in *. lia.
Qed.

Lemma json_download_headers value hash filename (attachment : bool) d :
  json_download value hash filename attachment = Ok d -> ResultModel.canonical_hash (VDict value) = Ok hash ->
  ResultModel.result_canonical_json (VDict value) = Ok (dl_content d) /\
  ("X-Content-SHA256", sha256_hex (utf8 (dl_content d))) ∈ dl_headers d /\
  ("Content-Disposition", (if attachment then "attachment" else "inline") +:+ "; filename=" +:+ String dq (filename +:+ String dq EmptyString)) ∈ dl_headers d.
Proof.
  unfold json_download, ResultModel.canonical_hash. intros H Hh. apply rbind_Ok in H as (t & Ht & H). apply Ok_inj in H as <-.
  rewrite Ht in Hh. cbn [rbind] in Hh. apply Ok_inj in Hh as <-. cbn [dl_content dl_headers]. split; [done|].
  split; [by apply (list_elem_of_lookup_2 _ 2%nat)|by apply (list_elem_of_lookup_2 _ 1%nat)].
Qed.

(** ** Every route *)

Section Routed.
Context {Auth : Type} `{Authenticator Auth} (authenticator : Auth) `{MarketModel.MarketDataSource}.
Context (quotes : Db -> string -> string -> option Commands.VisibleQuote) (headers : gmap string string).

Definition routed {A} (sid : string) (m : ST World A) : Prop :=
  forall w r w', m w = (r, w') ->
    match r with
    | Ok _ => exists principal, authenticate authenticator headers = Ok principal /\
        Results.owns sid (pr_principal_id principal) (w_db w) /\ world_scoped (pr_principal_id principal) sid w w'
    | Raise _ => w' = w
    end /\
    (authenticate authenticator headers = Raise AuthenticationError -> r = Raise (HTTPException 401 "authentication required")).

Lemma routed_auth {A} sid (k : string -> ST World A) :
  (forall p, guarded p sid (k p)) -> routed sid (p <- lift (authenticate_request authenticator headers) ;; k p).
Proof.
  intros Hk w r w'. unfold authenticate_request, sbind, lift. destruct (authenticate authenticator headers) as [pr|e]; cbn.
  - intros E. split; [|done]. pose proof (Hk _ _ _ _ E) as Hr. destruct r; [by exists pr|done].
  - intros [= <- <-]. split; [done|]. by intros [= ->].
Qed.
Lemma routed_map {A B} sid (m : ST World A) (f : A -> B) : routed sid m -> routed sid (a <- m ;; sret (f a)).
Proof.
  intros Hm w r w'. unfold sbind, sret. destruct (m w) as [[a|e] w1] eqn:E; intros [= <- <-]; destruct (Hm _ _ _ E) as [H1 H2]; split; try exact H1;
    intros H3; specialize (H2 H3); congruence.
Qed.

Lemma invoke_command_guarded p sid m : db_guarded p sid m -> guarded p sid (invoke_command m).
Proof. intros Hm. by apply guarded_map, guarded_reraise, guarded_db. Qed.
Lemma invoke_market_guarded ch p sid off after limit :
  guarded p sid (invoke_market (fun db => Market.run_read ch db sid p off after limit)).
Proof. apply guarded_map, guarded_reraise, run_read_guarded. Qed.
Lemma invoke_result_guarded p sid {A} (f : Results.FrozenResult -> result A) :
  guarded p sid (r <- invoke_result sid p ;; lift (f r)).
Proof.
  intros w r w'. unfold sbind, lift. pose proof (guarded_reraise p sid result_http_error _ (guarded_db p sid _ (get_result_guarded p sid)) w) as Hg.
  unfold invoke_result. destruct (reraise _ _ w) as [[x|e] w1] eqn:E; [|intros [= <- <-]; exact (Hg _ _ eq_refl)].
  destruct (Hg _ _ eq_refl) as [Ho Hs]. destruct (f x); intros [= <- <-]; [done|].
  apply reraise_inv in E. unfold on_db in E. destruct (Results.get_result sid p (w_db w)) as [y db] eqn:Eg. injection E as -> <-.
  apply get_result_same in Eg as ->. by destruct w.
Qed.

(** The value, suffix and disposition of a download route. *)
Definition download_of (request : Request) : option (result_row -> pyval) * string * bool :=
  match request with
  | GetResult _ => (Some rb_bundle, "-result.json", false)
  | GetProof _ => (Some rb_proof, "-proof.json", true)
  | GetExport _ => (Some rb_export, "-export.json", true)
  | _ => (None, "", false)
  end.

Lemma invoke_result_Ok sid p w f w' :
  invoke_result sid p w = (Ok f, w') ->
  w' = w /\ exists row, result_bundles (w_db w) !! sid = Some row /\ Results.materialize_result sid row false = Ok f.
Proof.
  intros Hi. apply reraise_inv in Hi. unfold on_db in Hi. destruct (Results.get_result sid p (w_db w)) as [y db] eqn:E.
  injection Hi as -> <-. pose proof (get_result_same _ _ _ _ _ E) as ->. split; [by destruct w|].
  unfold Results.get_result in E. apply sbind_Ok in E as (u & db1 & Hr & E). apply Results.require_owner_Ok in Hr as [-> _].
  apply sbind_Ok in E as (o & db2 & Ho & E). apply gets_Ok in Ho as [-> ->]. destruct (result_bundles (w_db w) !! sid) as [row|]; [|done].
  apply lift_Ok in E as [E _]. by exists row.
Qed.

Lemma materialize_result_values sid row b f :
  Results.materialize_result sid row b = Ok f ->
  rb_bundle row = VDict (Results.fr_bundle f) /\ rb_proof row = VDict (Results.fr_proof f) /\ rb_export row = VDict (Results.fr_export f).
Proof.
  unfold Results.materialize_result. intros Hm. repeat step_ok. subst f. cbn.
  repeat match goal with E : ResultModel.mapping _ = Ok _ |- _ => apply Results.mapping_Ok in E as [-> _] end. done.
Qed.

(** *** What an answer shows *)

(** The fields of a row of the command table. *)
Definition shows_command (row : command_row) (replayed : bool) (body : pydict) : Prop :=
  exists payload, c_payload row = VDict payload /\ body = obj [
    ("command_id", VStr (c_command_id row)); ("session_id", VStr (c_session_id row));
    ("idempotency_key", VStr (c_idempotency_key row)); ("payload_hash", VStr (c_payload_hash row));
    ("expected_session_version", VStr (str_Z (c_expected_session_version row)));
    ("resulting_session_version", VStr (str_Z (c_expected_session_version row + 1)));
    ("accepted_at_ns", VStr (str_Z (c_accepted_at_ns row))); ("payload", VDict payload); ("replayed", VBool replayed)].

(** The command for which a request asks. *)
Definition fixed_payload (payload : pydict) (pc : Commands.PreparedCommand) : Prop :=
  Commands.pc_payload pc = payload /\ Commands.canonical_payload_hash payload = Ok (Commands.pc_payload_hash pc).
Definition asked (p : string) (request : Request) (db : Db) (pc : Commands.PreparedCommand) : Prop :=
  match request with
  | PostOrder _ sid _ _ body => Commands.prepare_order (quotes db sid p) body = Ok pc
  | PostCancel _ _ order _ _ _ =>
      fixed_payload (obj [("command_type", VStr (Commands.command_type_value Commands.CANCEL_ORDER)); ("order_id", VStr order)]) pc
  | PostReplace _ _ order _ _ body => exists payload,
      Commands.copy_order_mutations (obj [("command_type", VStr (Commands.command_type_value Commands.REPLACE_ORDER)); ("order_id", VStr order)]) body = Ok payload
      /\ fixed_payload payload pc
  | PostLeverage _ _ _ _ body => exists n, dict_get "leverage" body = Some (VInt n) /\ 1 <= n <= 50
      /\ fixed_payload (obj [("command_type", VStr (Commands.command_type_value Commands.SET_LEVERAGE)); ("leverage", VInt n)]) pc
  | _ => False
  end.

(** The answer to a command: the row of this session and key for that payload, which was there before, and then
    nothing changes, or is appended with the stated version. *)
Definition shows_accepted (p : string) (request : Request) (sid key version : string) (w : World) (body : pydict) (w' : World) : Prop :=
  exists pc expected row replayed,
    asked p request (w_db w) pc /\ Commands.header_version version = Ok expected
    /\ c_session_id row = sid /\ c_idempotency_key row = key /\ c_payload_hash row = Commands.pc_payload_hash pc
    /\ shows_command row replayed body
    /\ (replayed = true /\ row ∈ commands (w_db w) /\ w' = w
        \/ replayed = false /\ commands (w_db w') = commands (w_db w) ++ [row]
           /\ c_expected_session_version row = expected /\ c_payload row = VDict (Commands.pc_payload pc)).

(** A page of the principal's session: cached for them, or computed from the source for the context of the
    session; always what the source gives when the cache is one that reads built ([Market.cache_ok]). *)
Definition shows_page (p sid : string) (ch : Market.channel) (start : string) (after : result (option Z)) (limit : Z) (w : World) (body : pydict) : Prop :=
  exists off aft c k page,
    query_nonnegative start = Ok off /\ after = Ok aft
    /\ MarketModel.context (w_db w) sid p off = Ok c /\ cache_owner k = (p, sid)
    /\ body = MarketModel.page_payload page
    /\ (w_cache w !! k = Some page \/ Market.fresh_page ch c aft limit = Ok page)
    /\ (Market.cache_ok (w_db w) (w_cache w) -> Market.fresh_page ch c aft limit = Ok page).

Definition answer (p : string) (request : Request) (w : World) (response : Response) (w' : World) : Prop :=
  match request, response with
  | PostOrder _ sid key version _, Json body | PostCancel _ sid _ key version _, Json body
  | PostReplace _ sid _ key version _, Json body | PostLeverage _ sid key version _, Json body =>
      shows_accepted p request sid key version w body w'
  | GetCommand sid cid, Json body => exists row,
      row ∈ commands (w_db w) /\ c_session_id row = sid /\ c_command_id row = cid /\ shows_command row false body
  | GetTrades sid start after limit, Json body => shows_page p sid Market.CTrades start (query_optional after) limit w body
  | GetBbo sid start after limit, Json body => shows_page p sid Market.CBbo start (query_optional after) limit w body
  | GetDepth sid start after limit, Json body => shows_page p sid Market.CDepth start (query_optional after) limit w body
  | GetCandles sid interval start limit, Json body => exists i,
      query_positive interval = Ok i /\ shows_page p sid (Market.CCandles i) start (Ok None) limit w body
  | GetResult sid, File d | GetProof sid, File d | GetExport sid, File d => exists row value read,
      result_bundles (w_db w) !! sid = Some row /\ fst (fst (download_of request)) = Some read
      /\ read row = VDict value /\ ResultModel.result_canonical_json (VDict value) = Ok (dl_content d)
  | _, _ => False
  end.

Lemma materialize_shows row replayed c :
  Commands.materialize_command row replayed = Ok c -> shows_command row replayed (Commands.response c).
Proof.
  unfold Commands.materialize_command, Commands.command_mapping. destruct (c_payload row) as [| | | | | |d|] eqn:Ep; try discriminate.
  destruct (str_keys d); [|discriminate]. intros [= <-]. exists d. split; [exact Ep|reflexivity].
Qed.

Lemma accept_shows sid p key expected now pc db c db' :
  Commands.accept sid p key expected now pc db = (Ok c, db') ->
  exists row replayed, c_session_id row = sid /\ c_idempotency_key row = key /\ c_payload_hash row = Commands.pc_payload_hash pc
    /\ shows_command row replayed (Commands.response c)
    /\ (replayed = true /\ row ∈ commands db /\ db' = db
        \/ replayed = false /\ commands db' = commands db ++ [row]
           /\ c_expected_session_version row = expected /\ c_payload row = VDict (Commands.pc_payload pc)).
Proof.
  intros [(-> & row & _ & Hof & Hh & Hm)|(row & cid & _ & _ & _ & _ & _ & _ & _ & _ & -> & ->)]%Commands.accept_Ok.
  - assert (row ∈ commands_of sid key db) as Hin by (rewrite Hof; left).
    apply elem_of_filterb in Hin as [Hin [Hs Hk]%andb_true_iff]. apply String.eqb_eq in Hs, Hk.
    exists row, true. split_and!; [done..|by apply materialize_shows|by left].
  - eexists (mk_command_row _ _ _ _ _ _ _), false. split_and!; [reflexivity..| |right; by split_and!].
    eexists. split; reflexivity.
Qed.

Lemma invoke_command_Ok m w body w' :
  invoke_command m w = (Ok body, w') -> exists c db', m (w_db w) = (Ok c, db') /\ body = Commands.response c /\ w' = mk_world db' (w_cache w).
Proof.
  intros (c & w1 & Hr & [= <- <-])%sbind_Ok. apply reraise_inv in Hr. unfold on_db in Hr.
  destruct (m (w_db w)) as [x db] eqn:E. injection Hr as -> <-. eauto.
Qed.

Lemma accepted_answer p request sid key raw expected now pc w body w' :
  Commands.header_version raw = Ok expected -> asked p request (w_db w) pc ->
  invoke_command (Commands.accept sid p key expected now pc) w = (Ok body, w') ->
  shows_accepted p request sid key raw w body w'.
Proof.
  intros He Ha (c & db' & (row & replayed & H1 & H2 & H3 & H4 & H5)%accept_shows & -> & ->)%invoke_command_Ok.
  exists pc, expected, row, replayed. split_and!; [done..|]. destruct H5 as [(-> & Hin & ->)|H5]; [left|by right].
  split_and!; [done|done|by destruct w].
Qed.

Lemma expected_version_Ok raw n : expected_version raw = Ok n <-> Commands.header_version raw = Ok n.
Proof. apply catch_res_Ok. Qed.

(** The command services, one lift at a time. *)
Lemma invoke_lift {A} (x : result A) k w body w' :
  invoke_command (a <- lift x ;; k a) w = (Ok body, w') -> exists a, x = Ok a /\ invoke_command (k a) w = (Ok body, w').
Proof.
  intros (c & db' & (a & db1 & [Ha ->]%lift_Ok & Hk)%sbind_Ok & -> & ->)%invoke_command_Ok. exists a. split; [done|].
  unfold invoke_command, reraise, on_db, sbind. by rewrite Hk.
Qed.

Lemma accept_payload_answer p request sid key raw expected now payload w body w' :
  Commands.header_version raw = Ok expected -> (forall pc, fixed_payload payload pc -> asked p request (w_db w) pc) ->
  invoke_command (Commands.accept_payload sid p key expected now payload) w = (Ok body, w') ->
  shows_accepted p request sid key raw w body w'.
Proof.
  intros He Ha (h & Hh & Hi)%invoke_lift. apply (accepted_answer _ _ _ _ _ expected now (Commands.mk_prepared payload h)); [done| |exact Hi].
  by apply Ha.
Qed.

Lemma get_command_answer sid p cid w body w' :
  invoke_command (Commands.get_command sid p cid) w = (Ok body, w') ->
  exists row, row ∈ commands (w_db w) /\ c_session_id row = sid /\ c_command_id row = cid /\ shows_command row false body.
Proof.
  intros Hi. unfold Commands.get_command in Hi. do 3 (apply invoke_lift in Hi as (? & _ & Hi)).
  apply invoke_command_Ok in Hi as (c & db' & Hc & -> & _). apply sbind_Ok in Hc as (srow & db1 & Hs & Hc).
  apply Commands.command_session_Ok in Hs as (-> & _ & _). apply sbind_Ok in Hc as (o & db2 & Ho & Hc). injection Ho as Ho <-.
  unfold one_or_none in Ho. destruct (command_by_id sid cid (w_db w)) as [|row [|]] eqn:E; [|injection Ho as <-|discriminate].
  { injection Ho as <-. discriminate Hc. }
  apply lift_Ok in Hc as [Hm _]. assert (row ∈ command_by_id sid cid (w_db w)) as Hin by (rewrite E; left).
  apply elem_of_filterb in Hin as [Hin [Hs Hk]%andb_true_iff]. apply String.eqb_eq in Hs, Hk.
  exists row. split_and!; [done..|by apply materialize_shows].
Qed.

Lemma market_answer p sid ch start after off aft limit w body w' :
  query_nonnegative start = Ok off -> after = Ok aft ->
  invoke_market (fun db => Market.run_read ch db sid p off aft limit) w = (Ok body, w') ->
  shows_page p sid ch start after limit w body.
Proof.
  intros Hoff Haft (page & w1 & Hr & [= <- <-])%sbind_Ok. apply reraise_inv in Hr. unfold on_cache in Hr.
  rewrite Market.run_read_eq in Hr. destruct (Market.read_key ch (w_db w) sid p off aft limit) as [[c k]|e] eqn:Ek; [|discriminate].
  pose proof (Market.read_key_Ok _ _ _ _ _ _ _ _ _ Ek) as [Hc Hk].
  assert (cache_owner k = (p, sid)) as Hko.
  { pose proof (Market.context_Ok _ _ _ _ _ Hc) as (rec & s & _ & _ & Hid & _ & _ & _ & ->).
    unfold MarketModel.cache_key in Hk. apply rbind_Ok in Hk as (u & _ & Hk). apply Ok_inj in Hk as <-. cbn. by rewrite Hid. }
  exists off, aft, c, k, page. split_and!; try done.
  - destruct (w_cache w !! k); [injection Hr as -> _; by left|]. destruct (Market.fresh_page _ _ _ _); [|discriminate]. injection Hr as -> _. by right.
  - intros Hok. destruct (w_cache w !! k) as [page'|] eqn:Eh; [injection Hr as -> _; by eapply Market.cache_hit|].
    destruct (Market.fresh_page _ _ _ _); [|discriminate]. by injection Hr as -> _.
Qed.

Lemma download_answer p sid (f : Results.FrozenResult -> result Download) (field : Results.FrozenResult -> pydict) (read : result_row -> pyval) w d w' :
  (forall row fr, Results.materialize_result sid row false = Ok fr -> read row = VDict (field fr)) ->
  (forall fr, f fr = Ok d -> ResultModel.result_canonical_json (VDict (field fr)) = Ok (dl_content d)) ->
  (r <- invoke_result sid p ;; lift (f r)) w = (Ok d, w') ->
  exists row value read', result_bundles (w_db w) !! sid = Some row /\ Some read = Some read'
    /\ read' row = VDict value /\ ResultModel.result_canonical_json (VDict value) = Ok (dl_content d).
Proof.
  intros Hread Hf (fr & w1 & (-> & row & Hrow & Hm)%invoke_result_Ok & [Hd _]%lift_Ok)%sbind_Ok.
  exists row, (field fr), read. split_and!; eauto.
Qed.

Lemma json_download_content value hash filename attachment d :
  json_download value hash filename attachment = Ok d -> ResultModel.result_canonical_json (VDict value) = Ok (dl_content d).
Proof. unfold json_download. intros (t & Ht & Hd)%rbind_Ok. by apply Ok_inj in Hd as <-. Qed.

Ltac peel_lift H Hl := apply sbind_Ok in H as (? & ? & Hl & H); apply lift_Ok in Hl as [Hl ->].

Lemma handle_answer request w response w' :
  handle authenticator quotes headers request w = (Ok response, w') ->
  exists p, authenticate_request authenticator headers = Ok p /\ answer p request w response w'.
Proof.
  intros Hh. destruct request; cbn [handle] in Hh; unfold json, file in Hh; apply sbind_Ok in Hh as (x & w1 & Hh & [= <- ->]);
    apply sbind_Ok in Hh as (p & w2 & Hp & Hh); apply lift_Ok in Hp as [Hp ->]; exists p; (split; [exact Hp|]); cbn [answer].
  - peel_lift Hh Hl. apply expected_version_Ok in Hl.
    change (invoke_command (Commands.submit_order (quotes (w_db w) session_id p) now_ns session_id p key x0 body) w = (Ok x, w')) in Hh.
    apply invoke_lift in Hh as (pc & Hpc & Hh). eapply accepted_answer; [exact Hl|exact Hpc|exact Hh].
  - peel_lift Hh Hl. apply expected_version_Ok in Hl. unfold Commands.cancel_order in Hh. do 2 (apply invoke_lift in Hh as (? & _ & Hh)).
    eapply accept_payload_answer; [exact Hl| |exact Hh]. done.
  - peel_lift Hh Hl. apply expected_version_Ok in Hl. unfold Commands.replace_order in Hh. do 3 (apply invoke_lift in Hh as (? & _ & Hh)).
    apply invoke_lift in Hh as (payload & Hpay & Hh). eapply accept_payload_answer; [exact Hl| |exact Hh]. intros pc Hpc. by exists payload.
  - peel_lift Hh Hl. apply expected_version_Ok in Hl. unfold Commands.set_leverage in Hh. apply invoke_lift in Hh as (? & _ & Hh).
    apply invoke_lift in Hh as (n & Hn & Hh). eapply accept_payload_answer; [exact Hl| |exact Hh]. intros pc Hpc. exists n.
    destruct (dict_get "leverage" body) as [[| |z| | | | |]|]; try discriminate. destruct ((1 <=? z) && (z <=? 50)) eqn:Ez; [|discriminate].
    injection Hn as ->. bools. split_and!; [done|lia|lia|done].
  - by eapply get_command_answer.
  - peel_lift Hh Hi. peel_lift Hh Hl. eapply market_answer; [eassumption..|exact Hh].
  - peel_lift Hh Hi. peel_lift Hh Hl. eapply market_answer; [eassumption..|exact Hh].
  - peel_lift Hh Hi. peel_lift Hh Hl. eapply market_answer; [eassumption..|exact Hh].
  - peel_lift Hh Hi. peel_lift Hh Hl. exists x0. split; [exact Hi|].
    eapply (market_answer _ _ (Market.CCandles _)); [eassumption|reflexivity|exact Hh].
  - eapply download_answer; [|intros fr; apply json_download_content|exact Hh]. intros row fr Hm. by destruct (materialize_result_values _ _ _ _ Hm) as (? & ? & ?).
  - eapply download_answer; [|intros fr; apply json_download_content|exact Hh]. intros row fr Hm. by destruct (materialize_result_values _ _ _ _ Hm) as (? & ? & ?).
  - eapply download_answer; [|intros fr; apply json_download_content|exact Hh]. intros row fr Hm. by destruct (materialize_result_values _ _ _ _ Hm) as (? & ? & ?).
Qed.

Lemma handle_routed request : routed (request_session request) (handle authenticator quotes headers request).
Proof.
  destruct request; apply routed_map, routed_auth; intros p; try apply invoke_result_guarded;
    repeat (apply guarded_lift; intros ? _); try apply invoke_command_guarded.
  - intros db r0 db0. apply submit_guarded.
  - apply cancel_guarded.
  - apply replace_guarded.
  - apply leverage_guarded.
  - apply get_command_guarded.
  - apply (invoke_market_guarded Market.CTrades).
  - apply (invoke_market_guarded Market.CBbo).
  - apply (invoke_market_guarded Market.CDepth).
  - apply (invoke_market_guarded (Market.CCandles _) _ _ _ None).
Qed.

(** C39. Whatever the authenticator, the headers and the request: a route answers only to the owner of the
    session, and its answer is about that session.  A command route shows the row of the command table of
    that session and key for the payload that was asked, found there or appended with the stated version;
    a lookup shows the row of that session with that identifier; a market route shows a page for the
    context of that session, cached for its owner or computed from the source; a download is the stored
    value of that session.  A route writes nothing but commands and the row of that session, and caches
    only pages of that principal and session; a route that fails leaves database and cache untouched; and
    a request that the authenticator refuses gets status 401. *)
Theorem routes_owner_only request w r w' :
  handle authenticator quotes headers request w = (r, w') ->
  match r with
  | Ok response => exists principal, authenticate authenticator headers = Ok principal /\
      Results.owns (request_session request) (pr_principal_id principal) (w_db w) /\
      world_scoped (pr_principal_id principal) (request_session request) w w' /\
      answer (pr_principal_id principal) request w response w'
  | Raise _ => w' = w
  end /\
  (authenticate authenticator headers = Raise AuthenticationError -> r = Raise (HTTPException 401 "authentication required")).
Proof.
  intros Hh. destruct (handle_routed request w r w' Hh) as [Hr H401]. split; [|exact H401]. destruct r as [response|e]; [|exact Hr].
  destruct Hr as (pr & Hpr & Ho & Hs). exists pr. split_and!; [done..|].
  destruct (handle_answer _ _ _ _ Hh) as (p & Hp & Ha). unfold authenticate_request in Hp. rewrite Hpr in Hp. by injection Hp as <-.
Qed.

(** C40. What a download route serves is the canonical text of the stored value of that session, its header
    [X-Content-SHA256] is the SHA-256 of exactly those bytes, and its file name is a non-empty
    token of at most 80 characters with no control character, quote or backslash, whatever the session's name. *)
Theorem download_verifiable request w d w' :
  handle authenticator quotes headers request w = (Ok (File d), w') ->
  exists row value read suffix attachment token,
    w' = w /\ result_bundles (w_db w) !! request_session request = Some row /\
    download_of request = (Some read, suffix, attachment) /\ read row = VDict value /\
    ResultModel.result_canonical_json (VDict value) = Ok (dl_content d) /\
    ("X-Content-SHA256", sha256_hex (utf8 (dl_content d))) ∈ dl_headers d /\
    ("Content-Disposition", (if attachment then "attachment" else "inline") +:+ "; filename=" +:+ String dq ((token +:+ suffix) +:+ String dq EmptyString))
      ∈ dl_headers d /\
    all_chars name_char token = true /\ (0 < String.length token <= 80)%nat.
Proof.
  intros Hh. destruct request as [| | | | | | | | |sid|sid|sid]; cbn [handle] in Hh; unfold json, file in Hh;
    apply sbind_Ok in Hh as (x & w1 & Hh & Hx); (discriminate Hx || injection Hx as <- <-).
  all: apply sbind_Ok in Hh as (p & w2 & Hp & Hh); apply lift_Ok in Hp as [_ ->]; apply sbind_Ok in Hh as (f & w2 & Hf & Hh);
    apply invoke_result_Ok in Hf as (-> & row & Hrow & Hm); apply lift_Ok in Hh as [Hh ->];
    destruct (materialize_result_hashes _ _ _ _ Hm) as (H1 & H2 & H3); destruct (materialize_result_values _ _ _ _ Hm) as (V1 & V2 & V3);
    destruct (json_download_headers _ _ _ _ _ Hh ltac:(eassumption)) as (Hc & Hs & Hd); destruct (filename_token_safe sid) as [Ht Hl];
    eexists row, _, _, _, _, (filename_token sid); split; [done|]; split; [done|]; split; [reflexivity|]; split; [eassumption|];
    split; [exact Hc|]; split; [exact Hs|]; split; [exact Hd|]; split; [exact Ht|exact Hl].
Qed.
End Routed.

(** ** Concrete requests *)

Module Demo.
Definition alice : LocalAuthenticator := mk_local "alice" "Alice".
Definition quotes : Db -> string -> string -> option Commands.VisibleQuote := fun _ _ _ => Some Commands.demo_quote.
Definition serve (request : Request) (w : World) : result Response * World :=
  handle (H0 := Market.Demo.source) alice quotes ∅ request w.

Definition json_of (r : result Response) : pydict := match r with Ok (Json d) => d | _ => [] end.
Definition no_download : Download := mk_download "" "" [].
Definition file_of (r : result Response) : Download := match r with Ok (File d) => d | _ => no_download end.
Definition is_json (r : result Response) : bool := match r with Ok (Json _) => true | _ => false end.
Definition is_file (r : result Response) : bool := match r with Ok (File _) => true | _ => false end.
Lemma json_result (x : result Response * World) : is_json (fst x) = true -> x = (Ok (Json (json_of (fst x))), snd x).
Proof. by destruct x as [[[d|d]|e] w]. Qed.
Lemma file_result (x : result Response * World) : is_file (fst x) = true -> x = (Ok (File (file_of (fst x))), snd x).
Proof. by destruct x as [[[d|d]|e] w]. Qed.

Definition row : session_row := mk_session_row "alice" (status_value RUNNING) 2 None None 0.
Definition one_session : Db := set_sessions (<["s1" := row]> (sessions empty_db)) empty_db.
Definition running : World := mk_world one_session ∅.
Definition order : Request := PostOrder 50 "s1" "key-1" "2" Commands.demo_order.
Definition ordered : World := snd (serve order running).
Definition order_body : pydict := json_of (fst (serve order running)).
Lemma order_served : serve order running = (Ok (Json order_body), ordered).
Proof. apply json_result. vm_compute. reflexivity. Qed.

Definition stored : pydict := obj [("result_hash", VStr "h")].
Definition stored_hash : string := match ResultModel.canonical_hash (VDict stored) with Ok h => h | Raise _ => "" end.
Definition stored_row : result_row := mk_result_row "h" stored_hash stored_hash stored_hash 7 (VDict stored) (VDict stored) (VDict stored).
Definition finished : World := mk_world (set_result_bundles (<["s1" := stored_row]> (result_bundles one_session)) one_session) ∅.
Definition bundle : Download := file_of (fst (serve (GetResult "s1") finished)).
Lemma bundle_served : serve (GetResult "s1") finished = (Ok (File bundle), snd (serve (GetResult "s1") finished)).
Proof. apply file_result. vm_compute. reflexivity. Qed.
End Demo.

Lemma routes_owner_only_witness :
  exists principal, authenticate Demo.alice ∅ = Ok principal /\
    Results.owns "s1" (pr_principal_id principal) (w_db Demo.running) /\
    world_scoped (pr_principal_id principal) "s1" Demo.running Demo.ordered /\
    answer (H0 := Market.Demo.source) Demo.quotes (pr_principal_id principal) Demo.order Demo.running (Json Demo.order_body) Demo.ordered.
Proof. exact (proj1 (routes_owner_only (H0 := Market.Demo.source) Demo.alice Demo.quotes ∅ Demo.order _ _ _ Demo.order_served)). Defined.

Lemma download_verifiable_witness :
  exists row, result_bundles (w_db Demo.finished) !! "s1" = Some row /\
    ("X-Content-SHA256", sha256_hex (utf8 (dl_content Demo.bundle))) ∈ dl_headers Demo.bundle.
Proof.
  destruct (download_verifiable (H0 := Market.Demo.source) Demo.alice Demo.quotes ∅ (GetResult "s1") _ _ _ Demo.bundle_served)
    as (row & value & rd & suffix & attachment & token & _ & Hr & _ & _ & _ & Hs & _).
  exists row. split; [exact Hr|exact Hs].
Defined.
