(* ===== verification/ContractGen.v ===== *)
(** * Generated contract files ([packages/contracts/scripts/generate.py])

    The generator as a function of the repository's files: the index of the schemas, the identity files
    and the copies of the templates, written or compared with what is there. *)

From S2P Require Import Prelude Sort PyStr PyText Bytes PyJson JsonParse.
From S2P Require Contracts.
From Stdlib Require Import Ascii.
From Stdlib Require String.

(** ** SHA-1 *)

Module Sha1.
Definition rotl (n x : Z) : Z := Sha256.mask (Z.lor (Z.shiftl x n) (Z.shiftr x (32 - n))).
Definition parity (x y z : Z) : Z := Z.lxor (Z.lxor x y) z.

Record state := St { ha : Z; hb : Z; hc : Z; hd : Z; he : Z }.
Definition init : state := St 1732584193 4023233417 2562383102 271733878 3285377520.

(** The function and constant of round [t]. *)
Definition mix (t : nat) (x y z : Z) : Z :=
  if (t <? 20)%nat then Sha256.ch x y z + 1518500249
  else if (t <? 40)%nat then parity x y z + 1859775393
  else if (t <? 60)%nat then Sha256.maj x y z + 2400959708
  else parity x y z + 3395469782.
Definition round (s : state) (tw : nat * Z) : state :=
  St (Sha256.mask (rotl 5 (ha s) + mix (fst tw) (hb s) (hc s) (hd s) + he s + snd tw)) (ha s) (rotl 30 (hb s)) (hc s) (hd s).

(** The message schedule, newest word first. *)
Fixpoint expand (n : nat) (ws : list Z) : list Z :=
  match n with
  | O => ws
  | S k => expand k (rotl 1 (Z.lxor (Z.lxor (nth 2 ws 0) (nth 7 ws 0)) (Z.lxor (nth 13 ws 0) (nth 15 ws 0))) :: ws)
  end.
Definition add_state (s t : state) : state :=
  St (Sha256.mask (ha s + ha t)) (Sha256.mask (hb s + hb t)) (Sha256.mask (hc s + hc t)) (Sha256.mask (hd s + hd t))
     (Sha256.mask (he s + he t)).
Definition block (s : state) (bs : bytes) : state :=
  let ws := rev (expand 64 (rev (Sha256.words 16 bs))) in
  add_state s (fold_left round (combine (seq 0 80) ws) s).
Fixpoint blocks (n : nat) (s : state) (bs : bytes) : state :=
  match n with O => s | S k => blocks k (block s (take 64 bs)) (drop 64 bs) end.
Definition output (s : state) : bytes :=
  be_bytes 4 (ha s) ++ be_bytes 4 (hb s) ++ be_bytes 4 (hc s) ++ be_bytes 4 (hd s) ++ be_bytes 4 (he s).
Definition digest (m : bytes) : bytes :=
  let p := Sha256.pad m in output (blocks (Nat.div (length p) 64) init p).
End Sha1.

(** [hashlib.sha1(m).hexdigest()]. *)
Definition sha1_hex (m : bytes) : string := hex (Sha1.digest m).

Definition git_blob_sha1 (data : bytes) : string :=
  let header := "blob " +:+ str_Z (Z.of_nat (length data)) +:+ String "000" EmptyString in
  sha1_hex (utf8 header ++ data).

Definition nl : string := String "010" EmptyString.

Example git_blob_hello : git_blob_sha1 (utf8 ("hello" +:+ nl)) = "ce013625030ba8dba906f756967f9e9ca394464a".
Proof. vm_compute. reflexivity. Qed.

(** ** Rendering *)

(** [json.dumps(value)] with the default separators and order. *)
Fixpoint json_text (v : pyval) : result string :=
  match v with
  | VNone => Ok "null"
  | VBool b => Ok (if b then "true" else "false")
  | VInt z => Ok (str_Z z)
  | VFloat r => Ok r
  | VStr s => Ok (quote true s)
  | VList l =>
      let! ts := (fix go (l : list pyval) : result (list string) :=
                    match l with
                    | [] => Ok []
                    | x :: l' => let! t := json_text x in let! ts := go l' in Ok (t :: ts)
                    end) l in
      Ok (String "[" (join ", " ts +:+ "]"))
  | VDict d =>
      let! ts := (fix go (d : pydict) : result (list string) :=
                    match d with
                    | [] => Ok []
                    | (k, x) :: d' =>
                        let! t := json_text x in let! ts := go d' in Ok ((quote true (key_name k) +:+ ": " +:+ t) :: ts)
                    end) d in
      Ok (String "{" (join ", " ts +:+ "}"))
  | VOther => Raise TypeError
  end.

Definition strings_text (values : list string) : string := String "[" (join ", " (map (quote true) values) +:+ "]").

Record IndexRow := mk_index_row {
  ir_defs : list string;
  ir_file : string;
  ir_git_blob_sha1 : string;
  ir_id : pyval;
  ir_title : pyval;
}.

Definition quoted (s : string) : string := String dq (s +:+ String dq EmptyString).

(** The lines of all values but the last end with a comma. *)
Fixpoint def_lines (values : list string) : list string :=
  match values with
  | [] => []
  | value :: values' =>
      ("        " +:+ quote true value +:+ match values' with [] => "" | _ => "," end) :: def_lines values'
  end.
Definition render_defs (values : list string) : list string :=
  let compact := strings_text values in
  let prefix := "      " +:+ quoted "defs" +:+ ": " in
  if py_len prefix + py_len compact + 1 <=? 100 then [prefix +:+ compact +:+ ","]
  else ["      " +:+ quoted "defs" +:+ ": ["] ++ def_lines values ++ ["      ],"].

Definition render_row (row : IndexRow) (last : bool) : result (list string) :=
  let! id := json_text (ir_id row) in
  let! title := json_text (ir_title row) in
  Ok (["    {"] ++ render_defs (ir_defs row) ++
      ["      " +:+ quoted "file" +:+ ": " +:+ quote true (ir_file row) +:+ ",";
       "      " +:+ quoted "git_blob_sha1" +:+ ": " +:+ quote true (ir_git_blob_sha1 row) +:+ ",";
       "      " +:+ quoted "id" +:+ ": " +:+ id +:+ ",";
       "      " +:+ quoted "title" +:+ ": " +:+ title;
       "    }" +:+ (if last then "" else ",")]).
Fixpoint render_rows (rows : list IndexRow) : result (list string) :=
  match rows with
  | [] => Ok []
  | row :: rows' =>
      let! lines := render_row row match rows' with [] => true | _ => false end in
      let! rest := render_rows rows' in Ok (lines ++ rest)
  end.
Definition render_index (schema_version : string) (rows : list IndexRow) : result string :=
  let! lines := render_rows rows in
  Ok (join nl (["{"; "  " +:+ quoted "schema_version" +:+ ": " +:+ quote true schema_version +:+ ","; "  " +:+ quoted "schemas" +:+ ": ["]
               ++ lines ++ ["  ]"; "}"]) +:+ nl).

(** ** The repository *)

(** Files by their path below the root. *)
Abbreviation Files := (gmap string string).

Definition SCHEMA_DIR : string := "schemas/v1/".
Definition GENERATED_DIR : string := "packages/contracts/generated/".
Definition TEMPLATE_DIR : string := "packages/contracts/templates/".
Definition OUTPUT : string := GENERATED_DIR +:+ "schema-index.json".

Definition has_slash (s : string) : bool := any_char (Ascii.eqb "/") s.

(** [SCHEMA_DIR.glob("*.schema.json")]. *)
Definition is_schema (p : string * string) : Prop :=
  (py_startswith SCHEMA_DIR (fst p) && negb (has_slash (removeprefix SCHEMA_DIR (fst p))) && py_endswith ".schema.json" (fst p)) = true.
#[export] Instance is_schema_dec p : Decision (is_schema p) := decide (_ = true).
Definition schema_files (files : Files) : list (string * string) :=
  map (fun p => (removeprefix SCHEMA_DIR (fst p), snd p)) (py_sorted fst (map_to_list (filter is_schema files))).

(** Paths compare by their parts. *)
#[export] Instance parts_cmp : Cmp (list string) :=
  fix go l m :=
    match l, m with
    | [], [] => Eq
    | [], _ :: _ => Lt
    | _ :: _, [] => Gt
    | x :: l', y :: m' => match cmp x y with Eq => go l' m' | c => c end
    end.
Definition is_template (p : string * string) : Prop := py_startswith TEMPLATE_DIR (fst p) = true.
#[export] Instance is_template_dec p : Decision (is_template p) := decide (_ = true).
Definition template_files (files : Files) : list (string * string) :=
  map (fun p => (removeprefix TEMPLATE_DIR (fst p), snd p))
    (py_sorted (fun p => split_char "/" (fst p)) (map_to_list (filter is_template files))).

Definition read_text (files : Files) (path : string) : option string := universal <$> files !! path.

Definition def_names (doc : pydict) : result (list string) :=
  match dict_get "$defs" doc with
  | None => Ok []
  | Some (VDict defs) =>
      let! names := rmap (fun p => match fst p with KStr s => Ok s | KOther _ => Raise TypeError end) defs in
      Ok (py_sorted id names)
  | Some _ => Raise AttributeError
  end.
Definition index_row (file : string * string) : result IndexRow :=
  let! doc := json_loads (snd file) in
  match doc with
  | VDict d =>
      let! defs := def_names d in
      Ok (mk_index_row defs (fst file) (git_blob_sha1 (utf8 (snd file)))
            (default VNone (dict_get "$id" d)) (default VNone (dict_get "title" d)))
  | _ => Raise AttributeError
  end.
Definition build_index (files : Files) : result (list IndexRow) := rmap index_row (schema_files files).

Definition META_OUTPUTS (digest : string) : list (string * string) :=
  [(GENERATED_DIR +:+ "typescript/schema-meta.ts",
    "// @generated by scripts/generate.py; do not edit." +:+ nl +:+
    "export const SCHEMA_VERSION = " +:+ quoted "1.0.0" +:+ " as const;" +:+ nl +:+
    "export const SCHEMA_INDEX_SHA256 =" +:+ nl +:+ "  " +:+ quoted digest +:+ " as const;" +:+ nl);
   (GENERATED_DIR +:+ "python/schema_meta.py",
    quoted (quoted (quoted "Generated schema identity. Do not edit.")) +:+ nl +:+ nl +:+
    "SCHEMA_VERSION = " +:+ quoted "1.0.0" +:+ nl +:+ "SCHEMA_INDEX_SHA256 = " +:+ quoted digest +:+ nl);
   (GENERATED_DIR +:+ "rust/src/schema_meta.rs",
    "//! Generated schema identity. Do not edit." +:+ nl +:+ nl +:+
    "pub const SCHEMA_VERSION: &str = " +:+ quoted "1.0.0" +:+ ";" +:+ nl +:+
    "pub const SCHEMA_INDEX_SHA256: &str = " +:+ quoted digest +:+ ";" +:+ nl)].

(** [outputs[path] = text]. *)
Fixpoint set_output (path text : string) (outputs : list (string * string)) : list (string * string) :=
  match outputs with
  | [] => [(path, text)]
  | (p, t) :: rest => if String.eqb p path then (p, text) :: rest else (p, t) :: set_output path text rest
  end.
Definition set_outputs (items outputs : list (string * string)) : list (string * string) :=
  fold_left (fun acc p => set_output (fst p) (snd p) acc) items outputs.

Definition expected_outputs (files : Files) : result (list (string * string)) :=
  let! rows := build_index files in
  let! index_text := render_index "1.0.0" rows in
  let digest := sha256_hex (utf8 index_text) in
  Ok (set_outputs (map (fun p => (GENERATED_DIR +:+ fst p, universal (snd p))) (template_files files))
       (set_outputs (META_OUTPUTS digest) [(OUTPUT, index_text)])).

Definition drift (outputs : list (string * string)) (files : Files) : list string :=
  map fst (List.filter (fun p => negb (bool_decide (read_text files (fst p) = Some (snd p)))) outputs).
Definition write_outputs (outputs : list (string * string)) (files : Files) : Files :=
  fold_left (fun acc p => <[fst p := snd p]> acc) outputs files.

(** The exit status, with [--check] or without. *)
Definition main (check : bool) : ST Files Z :=
  files <- gets id ;;
  outputs <- lift (expected_outputs files) ;;
  if check then sret (match drift outputs files with [] => 0 | _ => 1 end)
  else fun files => (Ok 0, write_outputs outputs files).

(** ** Generated texts have no carriage return *)

Definition no_cr (s : string) : bool := all_chars (fun c => negb (Ascii.eqb c "013")) s.

Lemma no_cr_app s t : no_cr (s +:+ t) = no_cr s && no_cr t.
Proof. apply all_chars_app. Qed.
Lemma no_cr_weaken (p : ascii -> bool) s : p "013"%char = false -> all_chars p s = true -> no_cr s = true.
Proof.
  intros Hp. apply all_chars_impl. intros c Hc. destruct (Ascii.eqb_spec c "013") as [->|]; [|done]. congruence.
Qed.

Lemma universal_id s : no_cr s = true -> universal s = s.
Proof.
  induction s as [|c s IH]; [done|]. cbn. intros [Hc Hs]%andb_true_iff. apply negb_true_iff in Hc. rewrite Hc. by rewrite IH.
Qed.
Lemma universal_no_cr_length n : forall s, (String.length s <= n)%nat -> no_cr (universal s) = true.
Proof.
  induction n as [|n IH]; intros [|c s] Hn; try done; cbn in Hn; [lia|]. cbn [universal].
  destruct (Ascii.eqb c "013") eqn:Ec.
  - destruct s as [|d s]; [done|]. cbn in Hn. destruct (Ascii.eqb d "010"); [exact (IH s ltac:(lia))|exact (IH (String d s) ltac:(cbn; lia))].
  - unfold no_cr. cbn [all_chars]. rewrite Ec. apply (IH s). lia.
Qed.
Lemma universal_no_cr s : no_cr (universal s) = true.
Proof. by apply (universal_no_cr_length (String.length s)). Qed.

Lemma escape_no_cr s : no_cr (escape true s) = true.
Proof.
  induction s as [|c s IH]; [done|]. cbn [escape]. rewrite no_cr_app, IH, andb_true_r.
  destruct c as [[] [] [] [] [] [] [] []]; vm_compute; reflexivity.
Qed.
Lemma quote_no_cr s : no_cr (quote true s) = true.
Proof. unfold quote. cbn. rewrite no_cr_app, escape_no_cr. done. Qed.
Lemma quoted_no_cr s : no_cr s = true -> no_cr (quoted s) = true.
Proof. intros Hs. unfold quoted. cbn. rewrite no_cr_app, Hs. done. Qed.
Lemma str_Z_no_cr n : no_cr (str_Z n) = true.
Proof.
  unfold str_Z. destruct (n <? 0); cbn; apply (no_cr_weaken is_ascii_digit); try done; apply str_N_all.
Qed.
Lemma hex_no_cr bs : no_cr (hex bs) = true.
Proof. apply (no_cr_weaken is_hex_char); [done|apply hex_is_hex]. Qed.
Lemma join_no_cr sep l : no_cr sep = true -> Forall (fun s => no_cr s = true) l -> no_cr (join sep l) = true.
Proof.
  intros Hs Hl. induction Hl as [|x l Hx Hl IH]; [done|]. cbn [join]. destruct l as [|y l]; [done|]. by rewrite !no_cr_app, Hx, Hs, IH.
Qed.
Lemma Forall_map_all {A B} (P : B -> Prop) (f : A -> B) l : (forall x, P (f x)) -> Forall P (map f l).
Proof. intros Hf. induction l; cbn; by constructor. Qed.

(** What the compatibility check accepts has a text without carriage returns. *)
Lemma walk_list l : Contracts.walk (VList l) = Ok tt -> Forall (fun v => Contracts.walk v = Ok tt) l.
Proof.
  cbn [Contracts.walk]. induction l as [|v l IH]; [constructor|]. intros H. apply rbind_Ok in H as ([] & Hv & H). constructor; [done|by apply IH].
Qed.
Lemma walk_dict d : Contracts.walk (VDict d) = Ok tt -> Forall (fun p => Contracts.walk (snd p) = Ok tt) d.
Proof.
  cbn [Contracts.walk]. intros H. apply rbind_Ok in H as (u & _ & H). induction d as [|[k v] d IH]; [constructor|].
  apply rbind_Ok in H as ([] & Hv & H). constructor; [done|by apply IH].
Qed.
Lemma walk_get d name v : Contracts.walk (VDict d) = Ok tt -> dict_get name d = Some v -> Contracts.walk v = Ok tt.
Proof.
  intros Hw%walk_dict. unfold dict_get. induction Hw as [|[k x] d Hx Hd IH]; [done|]. cbn. destruct (key_eqb _ k); [by intros [= <-]|done].
Qed.

Lemma json_text_no_cr v t : Contracts.walk v = Ok tt -> json_text v = Ok t -> no_cr t = true.
Proof.
  revert t. induction v as [|b|z|r|s|l IH|d IH|] using pyval_ind'; intros t Hw Ht; try discriminate; cbn [json_text] in Ht.
  - by injection Ht as <-.
  - injection Ht as <-. by destruct b.
  - injection Ht as <-. apply str_Z_no_cr.
  - injection Ht as <-. apply quote_no_cr.
  - apply walk_list in Hw. apply rbind_Ok in Ht as (ts & Ht & Hj). injection Hj as <-. cbn. rewrite no_cr_app, andb_true_r.
    apply join_no_cr; [done|]. revert ts Ht. induction l as [|v l IHl]; intros ts Ht; [injection Ht as <-; constructor|].
    apply Forall_cons in IH as [IHv IH], Hw as [Hv Hw]. apply rbind_Ok in Ht as (t & Ht & Hts). apply rbind_Ok in Hts as (ts' & Hts & E).
    injection E as <-. constructor; [by apply IHv|by apply IHl].
  - apply walk_dict in Hw. apply rbind_Ok in Ht as (ts & Ht & Hj). injection Hj as <-. cbn. rewrite no_cr_app, andb_true_r.
    apply join_no_cr; [done|]. revert ts Ht. induction d as [|[k v] d IHd]; intros ts Ht; [injection Ht as <-; constructor|].
    apply Forall_cons in IH as [IHv IH], Hw as [Hv Hw]. apply rbind_Ok in Ht as (t & Ht & Hts). apply rbind_Ok in Hts as (ts' & Hts & E).
    apply Ok_inj in E as <-. constructor; [|by apply IHd]. rewrite !no_cr_app, quote_no_cr. by apply IHv.
Qed.

Lemma def_lines_no_cr values : Forall (fun s => no_cr s = true) (def_lines values).
Proof.
  induction values as [|v values IH]; cbn [def_lines]; constructor; [|done]. rewrite !no_cr_app, quote_no_cr. by destruct values.
Qed.
Lemma render_defs_no_cr values : Forall (fun s => no_cr s = true) (render_defs values).
Proof.
  unfold render_defs. destruct (_ <=? 100).
  - constructor; [|constructor]. rewrite !no_cr_app, !quoted_no_cr by done. unfold strings_text. cbn.
    rewrite no_cr_app, join_no_cr; [done|done|]. apply Forall_map_all, quote_no_cr.
  - cbn [app]. constructor; [by rewrite !no_cr_app, quoted_no_cr|]. apply Forall_app. split; [apply def_lines_no_cr|by repeat constructor].
Qed.

Definition row_plain (row : IndexRow) : Prop := Contracts.walk (ir_id row) = Ok tt /\ Contracts.walk (ir_title row) = Ok tt.

Lemma render_row_no_cr row last lines :
  row_plain row -> render_row row last = Ok lines -> Forall (fun s => no_cr s = true) lines.
Proof.
  intros [Hi Ht] H. unfold render_row in H. apply rbind_Ok in H as (id & Hid & H). apply rbind_Ok in H as (title & Htitle & H).
  apply Ok_inj in H as <-. apply json_text_no_cr in Hid, Htitle; [|done..]. rewrite !Forall_app. split; [by repeat constructor|].
  split; [apply render_defs_no_cr|]. repeat apply Forall_cons_2; [..|constructor];
    rewrite !no_cr_app, ?quoted_no_cr, ?quote_no_cr, ?Hid, ?Htitle by done; try done. by destruct last.
Qed.
Lemma render_index_no_cr version rows t : Forall row_plain rows -> render_index version rows = Ok t -> no_cr t = true.
Proof.
  intros Hr H. unfold render_index in H. apply rbind_Ok in H as (lines & Hl & H). apply Ok_inj in H as <-.
  rewrite no_cr_app. apply andb_true_iff. split; [|done]. apply join_no_cr; [done|]. rewrite !Forall_app. split_and!.
  - repeat apply Forall_cons_2; [..|constructor]; rewrite ?no_cr_app, ?quoted_no_cr, ?quote_no_cr by done; done.
  - revert lines Hl. induction Hr as [|row rows Hrow Hr IH]; intros lines Hl; [injection Hl as <-; constructor|]. cbn [render_rows] in Hl.
    apply rbind_Ok in Hl as (l1 & H1 & Hl). apply rbind_Ok in Hl as (l2 & H2 & Hl). apply Ok_inj in Hl as <-. apply Forall_app.
    split; [by apply render_row_no_cr in H1|by apply IH].
  - by repeat constructor.
Qed.

(** ** Outputs *)

(** The schema files pass the walk of the compatibility check. *)
Definition schemas_accepted (files : Files) : Prop :=
  Forall (fun f => forall v, json_loads (snd f) = Ok v -> Contracts.walk v = Ok tt) (schema_files files).

Lemma walk_default d name : Contracts.walk (VDict d) = Ok tt -> Contracts.walk (default VNone (dict_get name d)) = Ok tt.
Proof. intros Hw. destruct (dict_get name d) as [v|] eqn:E; [by apply (walk_get d name)|done]. Qed.

Lemma build_index_plain files rows : schemas_accepted files -> build_index files = Ok rows -> Forall row_plain rows.
Proof.
  unfold schemas_accepted, build_index. intros Ha H%rmap_Ok. induction H as [|f row l rows Hf _ IH]; [constructor|].
  apply Forall_cons in Ha as [Hw Ha]. constructor; [|by apply IH]. unfold index_row in Hf. apply rbind_Ok in Hf as (doc & Hd & Hf).
  specialize (Hw doc Hd). destruct doc as [| | | | | |d|]; try discriminate Hf. apply rbind_Ok in Hf as (defs & _ & Hf). apply Ok_inj in Hf as <-.
  split; by apply walk_default.
Qed.

(** Every output is a generated file, once, with a text that reading does not change. *)
Definition output_ok (p : string * string) : Prop := py_startswith GENERATED_DIR (fst p) = true /\ no_cr (snd p) = true.
Definition outputs_ok (outputs : list (string * string)) : Prop := Forall output_ok outputs /\ NoDup (map fst outputs).

Lemma set_output_keys path text outputs k : k ∈ map fst (set_output path text outputs) <-> k = path \/ k ∈ map fst outputs.
Proof.
  induction outputs as [|[p t] outputs IH]; cbn; [rewrite list_elem_of_singleton, elem_of_nil; tauto|].
  destruct (String.eqb_spec p path) as [->|Hne]; cbn; rewrite !elem_of_cons; [tauto|]. rewrite IH. tauto.
Qed.
Lemma set_output_ok path text outputs : output_ok (path, text) -> outputs_ok outputs -> outputs_ok (set_output path text outputs).
Proof.
  intros Hp [Ho Hn]. induction outputs as [|[p t] outputs IH]; cbn.
  - split; [by apply Forall_singleton|apply NoDup_singleton].
  - apply Forall_cons in Ho as [Hpt Ho]. cbn in Hn. apply NoDup_cons in Hn as [Hk Hn]. destruct (String.eqb_spec p path) as [->|Hne].
    + split; [by constructor|]. by apply NoDup_cons.
    + destruct (IH Ho Hn) as [IHo IHn]. split; [by constructor|]. cbn. apply NoDup_cons. split; [|done].
      rewrite set_output_keys. intros [->|Hin]; [by destruct Hne|done].
Qed.
Lemma set_outputs_ok items : forall outputs, Forall output_ok items -> outputs_ok outputs -> outputs_ok (set_outputs items outputs).
Proof.
  unfold set_outputs. induction items as [|[p t] items IH]; intros outputs Hi Ho; [done|]. apply Forall_cons in Hi as [Hp Hi].
  cbn. apply IH; [done|]. by apply set_output_ok.
Qed.

Lemma expected_outputs_ok files outputs : schemas_accepted files -> expected_outputs files = Ok outputs -> outputs_ok outputs.
Proof.
  intros Ha H. unfold expected_outputs in H. apply rbind_Ok in H as (rows & Hr & H). apply rbind_Ok in H as (t & Ht & H). apply Ok_inj in H as <-.
  apply build_index_plain in Hr; [|done]. apply render_index_no_cr in Ht; [|done]. apply set_outputs_ok; [|apply set_outputs_ok].
  - apply Forall_map_all. intros p. split; [apply startswith_append|apply universal_no_cr].
  - repeat apply Forall_cons_2; [..|constructor]; (split; [reflexivity|]); cbn [snd];
      rewrite !no_cr_app, ?(quoted_no_cr (sha256_hex _)) by apply hex_no_cr; reflexivity.
  - split; [by apply Forall_singleton|apply NoDup_singleton].
Qed.

(** ** Writing *)

Lemma generated_not_source path : py_startswith GENERATED_DIR path = true ->
  py_startswith SCHEMA_DIR path = false /\ py_startswith TEMPLATE_DIR path = false.
Proof.
  intros H. apply startswith_inv in H as (rest & ->). done.
Qed.

Lemma write_sources outputs : forall files,
  Forall output_ok outputs ->
  schema_files (write_outputs outputs files) = schema_files files /\ template_files (write_outputs outputs files) = template_files files.
Proof.
  unfold write_outputs. induction outputs as [|[p t] outputs IH]; intros files Ho; [done|]. apply Forall_cons in Ho as [[Hp _] Ho]. cbn in *.
  destruct (generated_not_source p Hp) as [Hs Ht]. destruct (IH (<[p:=t]> files) Ho) as [-> ->]. unfold schema_files, template_files.
  rewrite !map_filter_insert_not; [done|..]; intros y Hy; unfold is_template, is_schema in Hy; cbn [fst] in Hy; rewrite ?Hs, ?Ht in Hy; discriminate Hy.
Qed.

Lemma write_lookup_other outputs path : forall files,
  path ∉ map fst outputs -> write_outputs outputs files !! path = files !! path.
Proof.
  unfold write_outputs. induction outputs as [|[p t] outputs IH]; intros files Hn; [done|]. cbn in *. rewrite not_elem_of_cons in Hn.
  destruct Hn as [Hne Hn]. rewrite IH by done. by rewrite lookup_insert_ne.
Qed.
Lemma write_lookup outputs p t : forall files,
  NoDup (map fst outputs) -> (p, t) ∈ outputs -> write_outputs outputs files !! p = Some t.
Proof.
  induction outputs as [|[q u] outputs IH]; intros files Hn Hin; [by apply elem_of_nil in Hin|]. cbn in Hn. apply NoDup_cons in Hn as [Hq Hn].
  change (write_outputs ((q, u) :: outputs) files) with (write_outputs outputs (<[q:=u]> files)).
  apply elem_of_cons in Hin as [[= -> ->]|Hin]; [|by apply IH]. rewrite write_lookup_other by done. apply lookup_insert_eq.
Qed.

Lemma expected_sources files files' :
  schema_files files' = schema_files files -> template_files files' = template_files files -> expected_outputs files' = expected_outputs files.
Proof. intros Hs Ht. unfold expected_outputs, build_index. by rewrite Hs, Ht. Qed.

Lemma no_drift outputs files : drift outputs files = [] <-> Forall (fun p => read_text files (fst p) = Some (snd p)) outputs.
Proof.
  unfold drift. induction outputs as [|[p t] outputs IH]; [done|]. rewrite Forall_cons, <- IH. cbn.
  case_bool_decide as E; cbn; [tauto|]. split; [done|]. by intros [? _].
Qed.

Lemma write_no_drift outputs files :
  NoDup (map fst outputs) -> (forall p, p ∈ outputs -> no_cr (snd p) = true) -> drift outputs (write_outputs outputs files) = [].
Proof.
  intros Hn Ho. apply no_drift, Forall_forall. intros [p t] Hin. cbn. unfold read_text. rewrite (write_lookup outputs p t) by done.
  cbn. f_equal. exact (universal_id t (Ho _ Hin)).
Qed.
Lemma write_idemp outputs files :
  NoDup (map fst outputs) -> write_outputs outputs (write_outputs outputs files) = write_outputs outputs files.
Proof.
  intros Hn. apply map_eq. intros path. destruct (decide (path ∈ map fst outputs)) as [((q & t) & -> & Hin)%elem_of_mapl|Hni].
  - by rewrite !(write_lookup outputs q t).
  - by rewrite !write_lookup_other.
Qed.

Lemma main_run check files outputs :
  expected_outputs files = Ok outputs ->
  main check files = if check then (Ok (match drift outputs files with [] => 0 | _ => 1 end), files) else (Ok 0, write_outputs outputs files).
Proof. intros He. unfold main, sbind, gets, lift, id. rewrite He. by destruct check. Qed.

(** C38. When the schemas pass the compatibility walk, a successful generation changes only generated files; a check
    or a generation after it succeeds and changes nothing; and a check of any tree with the same schemas and templates
    succeeds exactly when every generated file reads as the generator wrote it. *)
Theorem generation_reproducible files files' :
  schemas_accepted files -> main false files = (Ok 0, files') ->
  (forall path, py_startswith GENERATED_DIR path = false -> files' !! path = files !! path) /\
  main true files' = (Ok 0, files') /\ main false files' = (Ok 0, files') /\
  exists outputs, expected_outputs files = Ok outputs /\ (forall path text, (path, text) ∈ outputs -> files' !! path = Some text) /\
    (forall tree, schema_files tree = schema_files files -> template_files tree = template_files files ->
       (main true tree = (Ok 0, tree) <-> forall path text, (path, text) ∈ outputs -> read_text tree path = Some text)).
Proof.
  intros Ha H. assert (exists outputs, expected_outputs files = Ok outputs) as [outputs He].
  { unfold main, sbind, gets, lift, id in H. destruct (expected_outputs files); [by eexists|discriminate H]. }
  rewrite (main_run _ _ _ He) in H. injection H as <-. destruct (expected_outputs_ok _ _ Ha He) as [Ho Hn].
  destruct (write_sources outputs files Ho) as [Hs Ht].
  assert (expected_outputs (write_outputs outputs files) = Ok outputs) as He' by by rewrite (expected_sources _ _ Hs Ht).
  assert (drift outputs (write_outputs outputs files) = []) as Hd.
  { apply write_no_drift; [done|]. rewrite Forall_forall in Ho. intros p Hp. apply (Ho _ Hp). }
  split_and!.
  - intros path Hp. apply write_lookup_other. intros ((q & t) & -> & Hin)%elem_of_mapl. rewrite Forall_forall in Ho.
    destruct (Ho _ Hin) as [Hq _]. cbn in *. congruence.
  - by rewrite (main_run _ _ _ He'), Hd.
  - rewrite (main_run _ _ _ He'). f_equal. by apply write_idemp.
  - exists outputs. split; [done|]. split; [intros path text Hin; by apply write_lookup|]. intros tree Hs' Ht'.
    rewrite (main_run true tree outputs) by by rewrite (expected_sources _ _ Hs' Ht').
    transitivity (drift outputs tree = []); [destruct (drift outputs tree); [done|by split]|]. rewrite no_drift, Forall_forall. split.
    + intros Hf path text Hin. exact (Hf _ Hin).
    + intros Hf [path text] Hin. exact (Hf _ _ Hin).
Qed.

(** ** A concrete tree *)

Module Demo.
Definition schema : pyval := VDict (obj
  [("$id", VStr "https://example/a"); ("title", VStr "A"); ("$defs", VDict (obj [("Zeta", VDict []); ("Alpha", VDict [])]))]).
Definition schema_text : string := match json_text schema with Ok t => t +:+ nl | Raise _ => "" end.
Definition files : Files := list_to_map
  [("schemas/v1/a.schema.json", schema_text); ("schemas/v1/notes.txt", "x"); ("README.md", "r");
   (TEMPLATE_DIR +:+ "python/models.py", "a" +:+ String "013" (nl +:+ "b")); (GENERATED_DIR +:+ "python/models.py", "old")].
Definition written : Files := snd (main false files).

Lemma main_written : main false files = (Ok 0, written).
Proof.
  unfold written. assert (fst (main false files) = Ok 0) as <- by reflexivity. apply surjective_pairing.
Qed.

Lemma schemas : schemas_accepted files.
Proof.
  unfold schemas_accepted. assert (schema_files files = [("a.schema.json", schema_text)]) as -> by (vm_compute; reflexivity).
  apply Forall_singleton. intros v Hv. cbn [snd] in Hv.
  assert (json_loads schema_text = Ok schema) as E by (vm_compute; reflexivity). rewrite E in Hv. apply Ok_inj in Hv as <-. reflexivity.
Qed.

(** The index is JSON, with the names in order and the identity of the schema's bytes. *)
Example index_reads :
  match render_index "1.0.0" [mk_index_row ["Alpha"; "Zeta"] "a.schema.json" "00ff" (VStr "id") VNone] with
  | Ok t => json_loads t
  | Raise e => Raise e
  end = Ok (VDict (obj [("schema_version", VStr "1.0.0");
    ("schemas", VList [VDict (obj [("defs", VList [VStr "Alpha"; VStr "Zeta"]); ("file", VStr "a.schema.json");
      ("git_blob_sha1", VStr "00ff"); ("id", VStr "id"); ("title", VNone)])])])).
Proof. vm_compute. reflexivity. Qed.
End Demo.

Lemma generation_reproducible_witness :
  Demo.written !! "README.md" = Some "r" /\ main true Demo.written = (Ok 0, Demo.written).
Proof.
  destruct (generation_reproducible Demo.files Demo.written Demo.schemas Demo.main_written) as (H1 & H2 & _).
  split; [rewrite (H1 "README.md" eq_refl); reflexivity|exact H2].
Defined.
