(* ===== verification/Fixtures.v ===== *)
(** * Synthetic fixtures ([tools/fixture-generator/generate.py])

    The generator of the micro fixtures: its events, their canonical lines, the manifest, and the files
    it writes or compares. *)

From S2P Require Import Prelude Sort PyStr PyText Bytes PyJson JsonParse ContractGen.
From S2P Require Contracts Quality.
From Stdlib Require Import Ascii.
From Stdlib Require String.

Definition OUT : string := "fixtures/micro/".
Definition BASE_NS : Z := 1700000000000000000.

(** ** Events *)

Definition text_items (items : list (string * string)) : list (string * pyval) := map (fun p => (fst p, VStr (snd p))) items.
Definition event (dataset kind : string) (ts_event_ns tie : Z) (payload : list (string * pyval)) (source_sequence : option Z)
    (source_event_id : option string) (quality_flags : list string) : pydict :=
  let value := obj
    [("schema_version", VStr "1.0.0"); ("dataset_id", VStr dataset); ("instrument_id", VStr "SYNTH-BTC-USD"); ("venue_id", VStr "TRL-SYNTH");
     ("ts_event_ns", VStr (str_Z ts_event_ns)); ("canonical_tie_breaker", VStr (str_Z tie)); ("kind", VStr kind);
     ("payload", VDict (obj payload)); ("quality_flags", VList (map VStr quality_flags))] in
  let value := match source_sequence with Some n => dict_set (KStr "source_sequence") (VStr (str_Z n)) value | None => value end in
  match source_event_id with Some s => dict_set (KStr "source_event_id") (VStr s) value | None => value end.

Definition bar (opening high low close volume count : string) : list (string * pyval) :=
  text_items [("interval", "1m"); ("open_atoms", opening); ("high_atoms", high); ("low_atoms", low); ("close_atoms", close);
              ("base_volume_atoms", volume); ("trade_count", count)] ++ [("complete", VBool true)].
Definition quote_of (bid bid_qty ask ask_qty : string) : list (string * pyval) :=
  text_items [("bid_price_atoms", bid); ("bid_qty_atoms", bid_qty); ("ask_price_atoms", ask); ("ask_qty_atoms", ask_qty)].
Definition trade (price qty side id : string) : list (string * pyval) :=
  text_items [("price_atoms", price); ("qty_atoms", qty); ("aggressor_side", side); ("trade_id", id)].
Definition level (p : string * string) : pyval := VDict (obj (text_items [("price_atoms", fst p); ("qty_atoms", snd p)])).
Definition book (bids asks : list (string * string)) (depth : Z) : list (string * pyval) :=
  [("bids", VList (map level bids)); ("asks", VList (map level asks)); ("scope", VStr "TOP_N"); ("depth", VInt depth)].
Definition change (side price qty action : string) : list (string * pyval) :=
  text_items [("side", side); ("price_atoms", price); ("new_qty_atoms", qty); ("action", action)].

Definition f0 : list pydict :=
  [event "fixture-f0" "BAR" BASE_NS 0 (bar "10000" "10300" "9700" "10100" "500" "5") None (Some "f0-bar-0") [];
   event "fixture-f0" "BAR" (BASE_NS + 60000000000) 0 (bar "10100" "10500" "9900" "10400" "700" "7") None (Some "f0-bar-1") [];
   event "fixture-f0" "BAR" (BASE_NS + 120000000000) 0 (bar "10400" "10800" "9200" "9500" "900" "9") None (Some "f0-bar-ambiguous")
     ["INTRABAR_AMBIGUOUS"]].
Definition f1 : list pydict :=
  [event "fixture-f1" "BBO" BASE_NS 0 (quote_of "9990" "20" "10010" "15") (Some 100) (Some "f1-bbo-100") [];
   event "fixture-f1" "TRADE" BASE_NS 1 (trade "10010" "4" "BUY" "t-101") (Some 101) (Some "f1-trade-101") [];
   event "fixture-f1" "BBO" (BASE_NS + 1000000) 0 (quote_of "10000" "10" "10020" "9") (Some 102) (Some "f1-bbo-102") [];
   event "fixture-f1" "TRADE" (BASE_NS + 2000000) 0 (trade "10000" "6" "SELL" "t-104") (Some 104) (Some "f1-trade-gap") ["SEQUENCE_GAP"]].
Definition f2 : list pydict :=
  [event "fixture-f2" "BOOK_SNAPSHOT_L2" BASE_NS 0 (book [("9990", "12"); ("9980", "20")] [("10010", "8"); ("10020", "14")] 2)
     (Some 200) (Some "f2-snap-200") [];
   event "fixture-f2" "BOOK_DELTA_L2" (BASE_NS + 1000000) 0 (change "SELL" "10010" "3" "UPSERT") (Some 201) (Some "f2-delta-201") [];
   event "fixture-f2" "BOOK_DELTA_L2" (BASE_NS + 1000000) 1 (change "BUY" "9990" "7" "UPSERT") (Some 202) (Some "f2-delta-202") [];
   event "fixture-f2" "BOOK_DELTA_L2" (BASE_NS + 2000000) 0 (change "SELL" "10010" "0" "DELETE") (Some 204) (Some "f2-gap-204") ["SEQUENCE_GAP"];
   event "fixture-f2" "BOOK_SNAPSHOT_L2" (BASE_NS + 3000000) 0 (book [("9980", "18")] [("10020", "10")] 1) (Some 205) (Some "f2-resync-205") []].
Definition edge : list pydict :=
  [event "fixture-edge" "FUNDING_RATE" (BASE_NS + 3600000000000) 0 (text_items [("value_atoms", "25000"); ("unit", "rate_ppb")])
     None (Some "funding-1") [];
   event "fixture-edge" "CORPORATE_ACTION" (BASE_NS + 7200000000000) 0
     (text_items [("action", "SPLIT"); ("numerator", "2"); ("denominator", "1"); ("effective_ns", str_Z (BASE_NS + 7200000000000))])
     None (Some "split-1") []].

Definition fixtures : list (string * list pydict) := [("f0.jsonl", f0); ("f1.jsonl", f1); ("f2.jsonl", f2); ("edge-events.jsonl", edge)].

(** ** Files *)

Definition canonical_jsonl (rows : list pydict) : result string :=
  let! lines := rmap (fun row => let! t := json_dumps true (VDict row) in Ok (t +:+ nl)) rows in
  Ok (String.concat "" lines).

Definition indented (level : nat) : string := nl +:+ String.concat "" (repeat "  " level).
(** [json.dumps(value, sort_keys=True, indent=2)]. *)
Fixpoint json_indent (level : nat) (v : pyval) : result string :=
  match v with
  | VList [] => Ok "[]"
  | VDict [] => Ok "{}"
  | VList l =>
      let! ts := (fix go (l : list pyval) : result (list string) :=
                    match l with
                    | [] => Ok []
                    | x :: l' => let! t := json_indent (S level) x in let! ts := go l' in Ok (t :: ts)
                    end) l in
      Ok ("[" +:+ indented (S level) +:+ join ("," +:+ indented (S level)) ts +:+ indented level +:+ "]")
  | VDict d =>
      let! ts := (fix go (d : pydict) : result (list (pykey * string)) :=
                    match d with
                    | [] => Ok []
                    | (k, x) :: d' => let! t := json_indent (S level) x in let! ts := go d' in Ok ((k, t) :: ts)
                    end) d in
      let! items := sort_items ts in
      Ok ("{" +:+ indented (S level) +:+ join ("," +:+ indented (S level)) (map (fun '(k, t) => quote true k +:+ ": " +:+ t) items)
          +:+ indented level +:+ "}")
  | _ => json_dumps true v
  end.

Definition manifest_file (p : string * string) : pyval :=
  VDict (obj [("path", VStr (fst p)); ("sha256", VStr (sha256_hex (utf8 (snd p)))); ("rows", VInt (Z.of_nat (count_char "010"%char (snd p))))]).
Definition manifest (contents : list (string * string)) : pyval := VDict (obj
  [("fixture_version", VStr "1"); ("license", VStr "CC0-1.0");
   ("provenance", VStr "Generated deterministically by tools/fixture-generator/generate.py; no market data source was used.");
   ("instrument", VDict (obj [("instrument_id", VStr "SYNTH-BTC-USD"); ("venue_id", VStr "TRL-SYNTH"); ("price_scale", VInt 2); ("qty_scale", VInt 0);
                              ("tick_size_atoms", VStr "10"); ("qty_increment_atoms", VStr "1")]));
   ("files", VList (map manifest_file (py_sorted fst contents)));
   ("coverage", VList (map VStr ["timestamp_ties"; "sequence_gap"; "partial_depth"; "funding"; "corporate_action"; "ambiguous_bar"]))]).

Definition expected_outputs : result (list (string * string)) :=
  let! contents := rmap (fun p => let! t := canonical_jsonl (snd p) in Ok (fst p, t)) fixtures in
  let! text := json_indent 0 (manifest contents) in
  Ok (map (fun p => (OUT +:+ fst p, snd p)) contents ++ [(OUT +:+ "manifest.json", text +:+ nl)]).

(** [data[file][index][name]] and membership of a flag or a kind. *)
Definition row_field (rows : list pydict) (index : nat) (name : string) : option pyval :=
  match rows !! index with Some row => dict_get name row | None => None end.
Definition same_field (a b : option pyval) : bool := match a, b with Some x, Some y => py_eq x y | _, _ => false end.
Definition has_flag (flag : string) (row : pydict) : bool :=
  match dict_get "quality_flags" row with Some (VList l) => existsb (fun v => py_eq v (VStr flag)) l | _ => false end.
Definition of_kind (kind : string) (row : pydict) : bool := match dict_get "kind" row with Some v => py_eq v (VStr kind) | None => false end.
Definition validate_semantics : bool :=
  same_field (row_field f1 0 "ts_event_ns") (row_field f1 1 "ts_event_ns")
  && same_field (row_field f1 0 "canonical_tie_breaker") (Some (VStr "0")) && same_field (row_field f1 1 "canonical_tie_breaker") (Some (VStr "1"))
  && existsb (has_flag "SEQUENCE_GAP") f1 && existsb (has_flag "SEQUENCE_GAP") f2 && existsb (of_kind "FUNDING_RATE") edge
  && existsb (of_kind "CORPORATE_ACTION") edge && existsb (has_flag "INTRABAR_AMBIGUOUS") f0.

(** The exit status, with [--check] or without. *)
Definition main (check : bool) : ST Files Z :=
  lift (raise_if (negb validate_semantics) AssertionError) ;;;
  outputs <- lift expected_outputs ;;
  files <- gets id ;;
  if check then sret (match drift outputs files with [] => 0 | _ => 1 end)
  else fun files => (Ok 0, write_outputs outputs files).

Definition outputs : list (string * string) := match expected_outputs with Ok l => l | Raise _ => [] end.
Definition digests : list (string * string) := map (fun p => (removeprefix OUT (fst p), sha256_hex (utf8 (snd p)))) outputs.

(** ** The repository's fixtures *)

Lemma expected_eq : expected_outputs = Ok outputs.
Proof.
  unfold outputs. assert (is_ok expected_outputs = true) as H by (vm_compute; reflexivity). by destruct expected_outputs.
Qed.
Lemma outputs_plain : forallb (fun p => no_cr (snd p) && py_startswith OUT (fst p)) outputs && bool_decide (NoDup (map fst outputs)) = true.
Proof. vm_compute. reflexivity. Qed.

(** The generated texts are those of the checked-in files [fixtures/micro/]. *)
Lemma fixtures_byte_identical : digests =
  [("f0.jsonl", "7e5c49eb2245a98fca12661f2e41734b0d3e62452fcddcb2003734522e15409e");
   ("f1.jsonl", "83e862a7957b84285d6bee325ea5b2ffb27cdaa8853e57612e58cc731e28fde6");
   ("f2.jsonl", "b6d321e6b4456ce14cff338985496da8af71cd6cc5e2a5819b0a54cd75fa3140");
   ("edge-events.jsonl", "2290e240c53b77fea65abf1b5437b01f49584af8d3a03761ebc276076eca8a83");
   ("manifest.json", "4fdb85ce34cef4d64de2705aa9a66320e9655dde5594174fdb47fd49d0a87ef3")].
Proof. vm_compute. reflexivity. Qed.

Lemma fixtures_run check files :
  main check files = if check then (Ok (match drift outputs files with [] => 0 | _ => 1 end), files) else (Ok 0, write_outputs outputs files).
Proof.
  unfold main, sbind, lift, gets, id. assert (validate_semantics = true) as -> by (vm_compute; reflexivity). rewrite expected_eq. by destruct check.
Qed.

(** Every fixture row passes the wire contract; the quality scan finds the gaps that the fixtures announce, and no other fault; and
    a generation writes only the fixtures, after which check and generation succeed and change nothing. *)
Theorem fixtures_sound files :
  Forall (fun p => Forall (fun row => Contracts.validate_document (VDict row) = Ok tt) (snd p)) fixtures /\
  map (fun p => Quality.report_codes (Quality.validate_events (Quality.mk_policy 10 1 3600000000000 1000000000) (snd p))) fixtures =
    [Ok ("VALID", []); Ok ("DEGRADED", ["SOURCE_SEQUENCE_GAP"]); Ok ("QUARANTINED", ["BOOK_SEQUENCE_GAP"]); Ok ("VALID", [])] /\
  exists files', main false files = (Ok 0, files') /\ main true files' = (Ok 0, files') /\ main false files' = (Ok 0, files') /\
    (forall path, py_startswith OUT path = false -> files' !! path = files !! path).
Proof.
  split; [repeat constructor|]. split; [vm_compute; reflexivity|]. exists (write_outputs outputs files). rewrite !fixtures_run. split; [done|].
  pose proof outputs_plain as H. apply andb_true_iff in H as [Ho Hn%bool_decide_eq_true]. rewrite forallb_forall in Ho. split_and!.
  - rewrite write_no_drift; [done|done|]. intros p Hin. by apply list_elem_of_In, Ho, andb_true_iff in Hin as [Hc _].
  - f_equal. by apply write_idemp.
  - intros path Hp. apply write_lookup_other. intros ((q & t) & -> & Hin)%elem_of_mapl.
    apply list_elem_of_In, Ho, andb_true_iff in Hin as [_ Hq]. cbn in *. congruence.
Qed.
